(* ===== verification/_CoqProject ===== *)
-Q . S2P
Prelude.v
PyTime.v
Errors.v
Canonical.v
Sha256.v
Action.v
Session.v
Delegation.v
Token.v
Concrete.v
Containment.v
Behavior.v
Enforcement.v
Validator.v
PyJson.v
Brokers.v
FileStore.v
PyBase64.v
Identity.v
PyIso.v
Request.v
Replay.v
Approval.v
Policy.v
ControlPlane.v
PlaneHistory.v
PlaneProps.v
PlaneThreads.v
AuditLog.v
Lineage.v
PyFloat.v
QueryGov.v
CAC.v
CACBroker.v
CACService.v
Threshold.v
Planes.v
Conformance.v
Onboarding.v
Config.v
Adapters.v
Proxies.v
StrictJson.v
JsonRoundTrip.v
HttpApi.v
Judge.v
Ezkl.v
ZkAuthz.v
Signer.v
EzklBuild.v
FloatOrder.v
JudgeData.v
ThresholdProc.v
Gateway.v
EndToEnd.v
