(* ===== verification/Prelude.v ===== *)
(** * CV-ZTTE: a verification of the control plane of a zero-trust agent runtime

    CV-ZTTE mediates what AI agents do.  An agent signs a request for an action; the
    control plane verifies the request, its freshness and its session, looks up how far
    the subject is contained, asks the policy engine, parks risky actions for human
    approval, and otherwise mints a Decision Token bound to the hash of the canonical
    action.  Enforcement points observe the action that is really about to happen,
    recompute its hash, present the token to a validator, and execute only on an exact
    ALLOW.  Around this core stand delegation, behavior tracking and containment, an
    audit log, and confidential computation on encrypted data with its own permissions,
    query governance, release gate and lineage.

    ** The files and the code they model (paths under src/)

    Foundations.  [Prelude] (results, exceptions, stateful computations, histories,
    shared lemmas), [PyTime] and [PyIso] (datetimes as microseconds, their text and its
    reader), [PyJson] (json.dumps), [PyBase64], [PyFloat] (binary64 arithmetic and
    round), [Sha256] and [Concrete] (the concrete functions the witnesses run on).

    Core.  [Errors]: cvztte/errors.py.  [Canonical]: cvztte/canonical (domains,
    canonical JSON, commitments, keyed MACs).  [Action]: cvztte/action/model.py and the
    binding of cvztte/context.  [Session], [Delegation]: the packages of these names.
    [Token]: cvztte/decision/model.py, mac.py, authority.py, replay.py.  [Validator]:
    cvztte/decision/validator.py.  [Enforcement]: enforcement/common.py.  [Brokers]: the
    file, secret, MCP and message brokers of enforcement/.  [FileStore]: the file broker
    over a POSIX file system with symbolic links, whose calls may be refused and whose
    transfers may be short.  [Containment], [Behavior]: the packages of these names.
    [Identity]: cvztte/identity/registry.py with the data of provider.py.  [Request]:
    cvztte/request.  [Replay]: cvztte/control_plane/replay.py
    and cvztte/replay with its Lua script.  [Approval]: cvztte/control_plane/approval.py.
    [Policy]: policy/rego/cvztte/authz.rego and cvztte/policy.  [Signer]:
    cvztte/identity/openssl_signer.py over the openssl command line, and the disabled
    fallback of provider.py.

    Composition.  [ControlPlane]: cvztte/control_plane/plane.py, every handler, as a call
    that overlaps with no other.  [PlaneHistory] and [PlaneProps]: all sequences of such
    calls, and what holds of them.  [PlaneThreads]: evaluate, evaluate_execute, approve and
    the transitions of the containment engine one shared access at a time, in every
    interleaving; a call alone is the handler of [ControlPlane].  [Planes]:
    cvztte/control_plane/planes.py, the agent and the admin facade.
    [HttpApi]: cvztte/control_plane/http_api.py, requests routed to the facades.
    [Gateway]: apps/gateway/server.py, the process around them.  [EndToEnd]: one run from
    the signing of a request to its effect.

    Records and confidential computation.  [AuditLog]: cvztte/audit.  [Lineage]:
    cvztte/lineage.  [QueryGov]: cvztte/confidential_query.  [CAC]: permissions, guard,
    context, program, envelope of cvztte/cac and threshold/release.py.  [CACBroker]:
    cvztte/cac/broker.py.  [CACService]: cvztte/control_plane/cac_service.py.
    [Threshold]: cvztte/cac/threshold, the ceremony and the coordinator.  [ThresholdProc]:
    the authorities as processes (service.py, SubprocessParticipant of authority.py) and
    services/decrypt-coordinator/main.py.

    Around the core.  [Conformance]: cvztte/onboarding/conformance.py and profile.py.
    [Onboarding]: mode.py, shadow.py and service.py of cvztte/onboarding.  [Config]:
    cvztte/config.  [Adapters]: cvztte/adapters and cvztte/context.  [Proxies]: the egress
    proxy, the process broker and the output proxy of enforcement/.  [StrictJson]:
    cvztte/canonical/strict_json.py over a model of the JSON scanner of the standard
    library, and [JsonRoundTrip] its inverse.

    Judgements and proofs.  [Judge]: cvztte/judge, the features, the pinned model and the
    verdict.  [JudgeData]: synthetic.py, its labelling rule and data, and the export of
    train.py, on the rounding lemmas of [FloatOrder].  [Ezkl]: cvztte/ezkl, proofs of the
    judge's computation.  [EzklBuild]: the one-time ceremony of prover.py and build.py.
    [ZkAuthz]: cvztte/zkauthz, the client of the zero-knowledge authorization service.

    ** How code becomes definitions

    A method is a function of the object's state, [M S A = S → result * S]: the state
    survives an exception, as it does in Python.  Objects that hold other objects embed
    their state and reach it by [czoom]; where two objects share one (the epoch source
    of the containment engine and the validator) the model has one copy, and
    [shared_epochs] hands it over.  A handler is one function of the state: what it
    computes when no other call runs.  The locks of the code cover single tables, not whole
    handlers, so calls that overlap are another model: [PlaneThreads] interleaves the calls
    of the control plane and shows the race between an evaluation in flight and a
    quarantine, [Config] the admission of jobs, and [QueryGov.interleaved_releases] the
    releases.  Dicts whose order can be observed are
    association lists ([odict]), the others [gmap]; strings are their UTF-8 bytes;
    integers are unbounded, as in Python.  Draws from uuid and secrets are arguments, and
    so is the clock.  Messages and details of errors are kept only as text.

    Code outside the repository is an interface (a [Class]) whose laws are named
    hypotheses: rfc8785 ([rfc8785_faithful]), the ML-DSA provider ([provider_correct]),
    datetime.fromisoformat ([inverts_isoformat]), pydantic's model_dump, the OPA process,
    the operating-system kernel, the native FHE executable, the openssl executable
    ([openssl_contained], [openssl_scheme]), the ezkl package and the zk-authz service,
    the ONNX runtime, float.__repr__.  SHA-256 is arbitrary in the theorems, which
    therefore end in "or SHA-256 collides" ([sha_collision], an explicit pair of messages);
    in the witnesses it is the real function, or a checksum of four bytes where many
    commitments are computed.

    ** What the theorems show

    - Mediation: nothing executes and no token authorizes except for the exact action,
      binding, audience, time and epochs it was minted for ([Enforcement.mediation_complete],
      [Validator.authorize_iff], [Validator.token_for_a_is_not_for_b]), at most [max_uses]
      times over any history ([Validator.executions_within_max_uses]).
    - The plane: the outcomes of an evaluation ([PlaneProps.evaluate_outcomes]), approval
      of high risk, single evaluation of a request, an
      abstract machine of decisions it refines ([PlaneProps.plane_refines_lifecycle]),
      and that an honest action is executed, once ([EndToEnd.honest_action_executed]).
    - Quarantine, in every interleaving of the calls: the gate refuses the subject, and no
      token works but of a call that was in flight while the kill switch ran
      ([PlaneThreads.quarantine_cuts_off]); that such a token does work is
      [PlaneThreads.in_flight_token_survives].
    - Authority: delegation never widens and revocation sticks ([Delegation]), policy
      stays within the delegation ([Policy.allowed_within_delegation]), killed agents stay
      killed ([Identity.agent_kill_is_final]), only administrators administer ([Planes]).
    - Containment: the ratchet, the trail of transitions, capabilities that only shrink.
    - Records: the audit chain and its checkpoints ([AuditLog]), a well-typed provenance
      graph whose trace terminates and is exact ([Lineage]).
    - Confidential computation: inputs are authentic ([CACBroker]), plaintext passes the
      gates ([CACService]), decryption is N-of-N ([Threshold]), over processes as in one
      process, and the coordinator service prints only what the gate released
      ([ThresholdProc]); releases stay governed ([QueryGov]).
    - Brokers: workspace confinement, secrets in results, message delegation, at most one
      allowlisted process ([Proxies]); the file broker is a store of the files under its
      root, up to the ValueError of a path with a NUL character
      ([FileStore.file_broker_is_store]).
    - Onboarding: the conformance report says what the harness saw ([Conformance]), an agent
      is activated only behind it ([Onboarding]).
    - Adapters: a framework event can only propose ([Adapters.proposals_inert]).
    - Back-pressure: the admitted jobs are bounded in every interleaving ([Config]).
    - Parsing: what the strict parser accepts and exactly why it refuses
      ([StrictJson.strict_loads_exact]), and that it reads back what json.dumps writes
      ([JsonRoundTrip.strict_loads_json_dumps]).
    - The HTTP layer: any sequence of requests leaves the planes in the state of a history
      of facade calls under the administrator's own header ([HttpApi.http_refines_planes]);
      a gateway that has just started issues nothing ([Gateway.gateway_fails_closed]).
    - Keys on disk: the keystore stays private and what is signed verifies ([Signer]).
    - The judge: bounded features, SAFE only behind the margin ([Judge]); proofs bound to
      features, and the part of the binding the verifier does not check ([Ezkl]); artifacts
      pinned by the manifest of their ceremony ([EzklBuild]); labels that follow from the
      features ([JudgeData]); authorization only on the word of the service under the pinned key ([ZkAuthz]).

    ** Bounds

    The parent walk of delegations recurses on the number of registered delegations, and
    [Delegation] proves it total.  [Lineage.trace] takes the recursion limit as an
    argument and six frames are proved enough.  The calendar of [PyIso] is checked over
    one 400-year era, after which it repeats.  The Rego rules and all other recursion are
    structural.  The JSON scanner has fuel for twice the text, which
    [StrictJson.scan_enough_fuel] proves enough, and the interpreter's recursion limit as an
    argument.  A path is resolved through forty symbolic links at most, as in the kernel
    ([FileStore.MAXSYMLINKS]).  [Sha256] and [PyFloat] use the widths of the algorithms they model.

    ** Not modelled

    The demos under apps/ (agent-demo, egress-proxy, output-proxy, protected-tool) call the
    modelled components on fixed inputs and print what they return.  Of the gateway, the
    judge's training and the ezkl build, sockets and printed lines are left out; train_model
    of cvztte/judge/train.py is a loop of torch over tensors.  Process exit codes are
    modelled where another process reads them ([ThresholdProc]).  The C++ and Go services
    are not Python, and the judge's network, the ezkl package and the prover behind zk-authz
    are third-party computation. *)

From stdpp Require Export base list option gmap strings relations.
From Stdlib Require Export ZArith Lia.

#[export] Set Default Goal Selector "!".

(** * Results and stateful computations

    A Python call either returns a value or raises; a method of an object also
    leaves the object in some state, whichever of the two happened.  [result]
    is the first half, [comp] (state passing that keeps the state on an
    exception, as Python does) is the second. *)

Inductive result (E A : Type) : Type :=
| Ok (a : A)
| Err (e : E).
Arguments Ok {E A} a.
Arguments Err {E A} e.

Definition rbind {E A B} (m : result E A) (k : A → result E B) : result E B :=
  match m with Ok a => k a | Err e => Err e end.

Definition is_ok {E A} (m : result E A) : bool :=
  match m with Ok _ => true | Err _ => false end.

Definition comp (E S A : Type) : Type := S → result E A * S.

Definition cret {E S A} (a : A) : comp E S A := λ s, (Ok a, s).
Definition cthrow {E S A} (e : E) : comp E S A := λ s, (Err e, s).
Definition cbind {E S A B} (m : comp E S A) (k : A → comp E S B) : comp E S B :=
  λ s, match m s with
       | (Ok a, s') => k a s'
       | (Err e, s') => (Err e, s')
       end.
Definition cget {E S} : comp E S S := λ s, (Ok s, s).
Definition cput {E S} (s : S) : comp E S unit := λ _, (Ok tt, s).
Definition cmodify {E S} (f : S → S) : comp E S unit := λ s, (Ok tt, f s).
Definition clift {E S A} (m : result E A) : comp E S A := λ s, (m, s).

(** [try: m except e: h e] *)
Definition ccatch {E S A} (m : comp E S A) (h : E → comp E S A) : comp E S A :=
  λ s, match m s with
       | (Ok a, s') => (Ok a, s')
       | (Err e, s') => h e s'
       end.

(** Run a computation of a component that sits inside a larger state. *)
Definition czoom {E S T A} (get : S → T) (put : T → S → S) (m : comp E T A)
  : comp E S A :=
  λ s, let '(r, t) := m (get s) in (r, put t s).

Declare Scope py_scope.
Delimit Scope py_scope with py.
Notation "'let?' x ':=' m 'in' k" := (rbind m (λ x, k))
  (at level 10, x pattern, m at level 100, k at level 200,
   format "'[v' 'let?'  x  ':='  m  'in' '/' k ']'") : py_scope.
Notation "'let!' x ':=' m 'in' k" := (cbind m (λ x, k))
  (at level 10, x pattern, m at level 100, k at level 200,
   format "'[v' 'let!'  x  ':='  m  'in' '/' k ']'") : py_scope.
Open Scope py_scope.

Lemma rbind_ok {E A B} (m : result E A) (k : A → result E B) b :
  rbind m k = Ok b ↔ ∃ a, m = Ok a ∧ k a = Ok b.
Proof. destruct m; simpl; naive_solver. Qed.

Lemma cbind_ok {E S A B} (m : comp E S A) (k : A → comp E S B) s b s' :
  cbind m k s = (Ok b, s') ↔ ∃ a s1, m s = (Ok a, s1) ∧ k a s1 = (Ok b, s').
Proof. unfold cbind. destruct (m s) as [[a|e] s1]; naive_solver. Qed.

Lemma cbind_err {E S A B} (m : comp E S A) (k : A → comp E S B) s e s' :
  cbind m k s = (Err e, s') ↔
  m s = (Err e, s') ∨ ∃ a s1, m s = (Ok a, s1) ∧ k a s1 = (Err e, s').
Proof. unfold cbind. destruct (m s) as [[a|e'] s1]; naive_solver. Qed.

Lemma czoom_inv {E S T A} (get : S → T) put (m : comp E T A) s r s' :
  czoom get put m s = (r, s') ↔ ∃ t, m (get s) = (r, t) ∧ s' = put t s.
Proof. unfold czoom. destruct (m (get s)); naive_solver. Qed.

(** A relation between the state before and after that every computation of a
    pipeline respects is respected by the pipeline. *)
Definition respects {E S A} (R : S → S → Prop) (m : comp E S A) : Prop :=
  ∀ s, R s (m s).2.

Section respects.
Context {E S : Type} (R : S → S → Prop) `{!PreOrder R}.
Lemma respects_ret {A} (a : A) : respects R (cret (E := E) a).
Proof. intros s. simpl. reflexivity. Qed.
Lemma respects_throw {A} (e : E) : respects R (cthrow (A := A) e).
Proof. intros s. simpl. reflexivity. Qed.
Lemma respects_lift {A} (m : result E A) : respects R (clift m).
Proof. intros s. simpl. reflexivity. Qed.
Lemma respects_get : respects R (cget (E := E)).
Proof. intros s. simpl. reflexivity. Qed.
Lemma respects_bind {A B} (m : comp E S A) (k : A → comp E S B) :
  respects R m → (∀ a, respects R (k a)) → respects R (cbind m k).
Proof.
  intros Hm Hk s. unfold cbind. specialize (Hm s).
  destruct (m s) as [[a|e] s1]; simpl in *; [|done].
  etrans; [exact Hm|apply Hk].
Qed.
End respects.

Create HintDb respects.
#[export] Hint Resolve respects_ret respects_throw respects_lift respects_get
  respects_bind : respects.

(** * Insertion-ordered dictionaries

    A Python [dict] iterates in insertion order; assigning to an existing key
    keeps its position.  [odict] is used where the order of [.values()] or
    [.items()] is observable, stdpp's [gmap] where it is not. *)

Notation odict K V := (list (K * V)).

Section odict.
Context {K V : Type} `{EqDecision K}.
Implicit Types d : odict K V.

Fixpoint dget (k : K) d : option V :=
  match d with
  | [] => None
  | (k', v) :: d' => if decide (k' = k) then Some v else dget k d'
  end.

Fixpoint dset (k : K) (v : V) d : odict K V :=
  match d with
  | [] => [(k, v)]
  | (k', v') :: d' =>
      if decide (k' = k) then (k', v) :: d' else (k', v') :: dset k v d'
  end.

(** Mutating every object that is a value of the dictionary. *)
Definition dmap (f : V → V) d : odict K V := prod_map id f <$> d.

Lemma dget_dset_eq k v d : dget k (dset k v d) = Some v.
Proof. induction d as [|[k' v'] d IH]; simpl; repeat case_decide; simpl;
  repeat case_decide; naive_solver. Qed.

Lemma dget_dset_ne k k' v d : k ≠ k' → dget k' (dset k v d) = dget k' d.
Proof. intros. induction d as [|[k0 v0] d IH]; simpl; repeat case_decide; simpl;
  repeat case_decide; naive_solver. Qed.

Lemma dget_dset k k' v d :
  dget k' (dset k v d) = if decide (k = k') then Some v else dget k' d.
Proof.
  case_decide; subst; [apply dget_dset_eq|by apply dget_dset_ne].
Qed.

Lemma dget_elem k v d : dget k d = Some v → (k, v) ∈ d.
Proof.
  induction d as [|[k' v'] d IH]; simpl; [done|]. case_decide; intros;
    simplify_eq; set_solver.
Qed.

Lemma dget_key k v d : dget k d = Some v → k ∈ d.*1.
Proof. intros ?%dget_elem. apply list_elem_of_fmap. by exists (k, v). Qed.

Lemma dget_None k d : dget k d = None ↔ k ∉ d.*1.
Proof.
  induction d as [|[k' v'] d IH]; simpl; [set_solver|].
  case_decide; set_solver.
Qed.

Lemma elem_dget k v d : NoDup d.*1 → (k, v) ∈ d → dget k d = Some v.
Proof.
  induction d as [|[k' v'] d IH]; csimpl; [set_solver|].
  intros [Hk' Hnd]%NoDup_cons Hin. case_decide as Hd.
  - subst. apply elem_of_cons in Hin as [?|Hin]; [congruence|].
    exfalso. apply Hk'. apply list_elem_of_fmap. by exists (k, v).
  - apply IH; [done|]. set_solver.
Qed.

Lemma dset_keys k v d :
  (dset k v d).*1 = if decide (k ∈ d.*1) then d.*1 else d.*1 ++ [k].
Proof.
  induction d as [|[k' v'] d IH]; csimpl; [done|].
  destruct (decide (k' = k)) as [->|Hne]; csimpl.
  - rewrite decide_True by set_solver. done.
  - rewrite IH. repeat case_decide; set_solver.
Qed.

Lemma dset_NoDup k v d : NoDup d.*1 → NoDup (dset k v d).*1.
Proof.
  intros. rewrite dset_keys. case_decide; [done|].
  apply NoDup_app. split_and!; [done| |apply NoDup_singleton].
  set_solver.
Qed.

Lemma dget_dmap f k d : dget k (dmap f d) = f <$> dget k d.
Proof.
  unfold dmap. induction d as [|[k' v'] d IH]; csimpl; [done|].
  by case_decide.
Qed.

Lemma dmap_keys f d : (dmap f d).*1 = d.*1.
Proof. unfold dmap. rewrite <-list_fmap_compose. by apply list_fmap_ext. Qed.
End odict.

(** * Sequences of operations *)

Section runs.
Context {S O : Type} (step : S → O → S).

Definition run (s : S) (ops : list O) : S := foldl step s ops.

Lemma run_invariant (I : S → Prop) ops s :
  (∀ s o, I s → I (step s o)) → I s → I (run s ops).
Proof. intros Hstep. revert s. induction ops; simpl; eauto. Qed.

(** A run whose operations satisfy a side condition in the state they meet
    (fresh identifiers, for instance). *)
Fixpoint guarded (ok : S → O → Prop) (s : S) (ops : list O) : Prop :=
  match ops with
  | [] => True
  | o :: ops => ok s o ∧ guarded ok (step s o) ops
  end.

Lemma guarded_app ok s ops1 ops2 :
  guarded ok s (ops1 ++ ops2) ↔ guarded ok s ops1 ∧ guarded ok (run s ops1) ops2.
Proof. revert s. induction ops1 as [|o ops IH]; intros s; simpl; [tauto|]. rewrite IH. tauto. Qed.

Lemma run_invariant_guarded (ok : S → O → Prop) (I : S → Prop) ops s :
  (∀ s o, ok s o → I s → I (step s o)) → guarded ok s ops → I s → I (run s ops).
Proof.
  intros Hstep. revert s. induction ops as [|o ops IH]; simpl; [done|].
  intros s [Ho Hops] Hs. apply IH; eauto.
Qed.

Lemma run_relation (R : S → S → Prop) `{!PreOrder R} ops s :
  (∀ s o, R s (step s o)) → R s (run s ops).
Proof.
  intros Hstep. revert s. induction ops as [|o ops IH]; intros s; simpl.
  - reflexivity.
  - etrans; [apply Hstep|apply IH].
Qed.

Lemma run_app s ops1 ops2 : run s (ops1 ++ ops2) = run (run s ops1) ops2.
Proof. apply foldl_app. Qed.
End runs.

(** * Strings *)

(** [s.split(sep)] for a separator of one character. *)
Fixpoint py_split (sep : Ascii.ascii) (s : string) : list string :=
  match s with
  | EmptyString => [""]
  | String c s =>
      if decide (c = sep) then "" :: py_split sep s
      else match py_split sep s with
           | x :: xs => String c x :: xs
           | [] => [String c ""]
           end
  end.

(** [s.startswith(p)], [p in s], [s.endswith(p)] *)
Definition str_startswith (s p : string) : bool := String.prefix p s.

Fixpoint str_in (p s : string) : bool :=
  String.prefix p s ||
  match s with EmptyString => false | String _ s' => str_in p s' end.

Definition str_rev (s : string) : string :=
  String.string_of_list_ascii (rev (String.list_ascii_of_string s)).

Definition str_endswith (s p : string) : bool :=
  str_startswith (str_rev s) (str_rev p).

Lemma prefix_spec p s : String.prefix p s = true ↔ ∃ r, s = p +:+ r.
Proof.
  revert s. induction p as [|c p IH]; intros [|c' s]; simpl.
  - split; [by exists ""|done].
  - split; [by exists (String c' s)|done].
  - split; [done|by intros [? ?]].
  - destruct (Ascii.ascii_dec c c') as [->|Hne].
    + rewrite IH. split; intros [r Hr]; exists r; [by subst|].
      simpl in Hr. by injection Hr.
    + split; [done|]. intros [r Hr].
      injection Hr as Hc _. congruence.
Qed.

Lemma str_in_unfold p s :
  str_in p s = String.prefix p s ||
    match s with EmptyString => false | String _ s' => str_in p s' end.
Proof. by destruct s. Qed.

Lemma str_in_spec p s : str_in p s = true ↔ ∃ l r, s = l +:+ p +:+ r.
Proof.
  split.
  - induction s as [|c s IH]; rewrite str_in_unfold, orb_true_iff, prefix_spec.
    + intros [[r Hr]|?]; [|done]. by exists "", r.
    + intros [[r Hr]|Hin]; [by exists "", r|].
      destruct (IH Hin) as (l & r & ->). by exists (String c l), r.
  - intros (l & r & ->). induction l as [|c l IH]; rewrite str_in_unfold.
    + apply orb_true_iff. left. rewrite prefix_spec. by exists r.
    + simpl. rewrite IH. apply orb_true_r.
Qed.

(** [s.replace(old, new)] for a non-empty [old]: non-overlapping occurrences from
    the left; [skip] characters of the current occurrence are still to be passed. *)
Fixpoint replace_from (old new : string) (skip : nat) (s : string) : string :=
  match s with
  | EmptyString => EmptyString
  | String c s' =>
      match skip with
      | S k => replace_from old new k s'
      | 0 => if String.prefix old s
             then new +:+ replace_from old new (String.length old - 1) s'
             else String c (replace_from old new 0 s')
      end
  end.

Definition str_replace (old new s : string) : string := replace_from old new 0 s.

Fixpoint lacks (c : Ascii.ascii) (s : string) : bool :=
  match s with
  | EmptyString => true
  | String c' s' => negb (bool_decide (c' = c)) && lacks c s'
  end.

Lemma str_app_assoc (a b c : string) : (a +:+ b) +:+ c = a +:+ (b +:+ c).
Proof.
  induction a as [|x a IH]; [done|].
  change (String x ((a +:+ b) +:+ c) = String x (a +:+ (b +:+ c))). by rewrite IH.
Qed.

Lemma lacks_app c s1 s2 : lacks c (s1 +:+ s2) = lacks c s1 && lacks c s2.
Proof. induction s1 as [|c' s1 IH]; [done|]. simpl. by rewrite IH, andb_assoc. Qed.

Lemma str_replace_skip c old new s1 s2 :
  lacks c s1 = true →
  str_replace (String c old) new (s1 +:+ s2) = s1 +:+ str_replace (String c old) new s2.
Proof.
  unfold str_replace. induction s1 as [|c' s1 IH]; [done|].
  intros [Hc Hs]%andb_prop. apply negb_true_iff, bool_decide_eq_false in Hc.
  change (String c' s1 +:+ s2) with (String c' (s1 +:+ s2)). simpl.
  destruct (Ascii.ascii_dec c c') as [->|]; [done|]. by rewrite IH.
Qed.

(** [len(s)]: code points of the UTF-8 text, that is, bytes that do not continue one. *)
Fixpoint py_len (s : string) : nat :=
  match s with
  | EmptyString => 0
  | String c s' =>
      let n := Ascii.nat_of_ascii c in
      (if decide (128 ≤ n ∧ n < 192) then 0 else 1) + py_len s'
  end.

(** [sorted] on strings, in code point order. *)
Fixpoint insert_sorted (s : string) (l : list string) : list string :=
  match l with
  | [] => [s]
  | s' :: l' => if String.leb s s' then s :: l else s' :: insert_sorted s l'
  end.

Definition sorted_strings (l : list string) : list string := foldr insert_sorted [] l.

Lemma insert_sorted_perm s l : insert_sorted s l ≡ₚ s :: l.
Proof.
  induction l as [|s' l IH]; simpl; [done|]. case_match; [done|].
  rewrite IH. apply Permutation_swap.
Qed.

Lemma sorted_strings_perm l : sorted_strings l ≡ₚ l.
Proof.
  induction l as [|s l IH]; simpl; [done|]. by rewrite insert_sorted_perm, IH.
Qed.

(** Truth value of an optional string: [None] and the empty string are false. *)
Definition truthy_opt (o : option string) : bool :=
  match o with Some s => negb (bool_decide (s = "")) | None => false end.
