(* ===== verification/PyTime.v ===== *)
(** Instants and their text: [datetime] values are microseconds since the epoch
    in UTC, rendered by [datetime.isoformat].  The proleptic Gregorian calendar
    is computed with the era/day-of-era decomposition. *)

From S2P Require Export Prelude.

(** [now or _utcnow()] *)
Definition or_now (now : option Z) (clock : Z) : Z := default clock now.

(** [timedelta(seconds=n)] *)
Definition seconds (n : Z) : Z := n * 1000000.

(** Decimal digits of [n], at least [w] of them. *)
Definition digit (n : Z) : Ascii.ascii := Ascii.ascii_of_N (48 + Z.to_N (n mod 10)).

Fixpoint padded (w : nat) (n : Z) (acc : string) : string :=
  match w with
  | 0 => acc
  | S w => padded w (n / 10) (String (digit n) acc)
  end.

Definition pad (w : nat) (n : Z) : string := padded w n "".

(** [(year, month, day)] of a day number counted from 1970-01-01. *)
Definition civil_of_days (days : Z) : Z * Z * Z :=
  (let z := days + 719468 in
  let era := z / 146097 in
  let doe := z mod 146097 in
  let yoe := (doe - doe / 1460 + doe / 36524 - doe / 146096) / 365 in
  let doy := doe - (365 * yoe + yoe / 4 - yoe / 100) in
  let mp := (5 * doy + 2) / 153 in
  let d := doy - (153 * mp + 2) / 5 + 1 in
  let m := if (mp <? 10)%Z then mp + 3 else mp - 9 in
  (yoe + era * 400 + (if (m <=? 2)%Z then 1 else 0), m, d))%Z.

Definition date_text (t : Z) : string :=
  let '(y, m, d) := civil_of_days (t / 86400000000) in
  pad 4 y +:+ "-" +:+ pad 2 m +:+ "-" +:+ pad 2 d.

Definition time_text (t : Z) : string :=
  let s := ((t / 1000000) mod 86400)%Z in
  pad 2 (s / 3600) +:+ ":" +:+ pad 2 (s / 60 mod 60) +:+ ":" +:+ pad 2 (s mod 60).

(** [dt.isoformat()] of an aware UTC datetime. *)
Definition isoformat (t : Z) : string :=
  let us := (t mod 1000000)%Z in
  date_text t +:+ "T" +:+ time_text t +:+
  (if decide (us = 0)%Z then "" else "." +:+ pad 6 us) +:+ "+00:00".

(** [dt.isoformat(timespec="milliseconds").replace("+00:00", "Z")] *)
Definition iso_ms (t : Z) : string :=
  date_text t +:+ "T" +:+ time_text t +:+ "." +:+ pad 3 (t mod 1000000 / 1000) +:+ "Z".

Example isoformat_epoch : isoformat 0 = "1970-01-01T00:00:00+00:00".
Proof. vm_compute. reflexivity. Qed.
Example isoformat_leap : isoformat 1709208000123456 = "2024-02-29T12:00:00.123456+00:00".
Proof. vm_compute. reflexivity. Qed.
Example iso_ms_example : iso_ms 1709208000123456 = "2024-02-29T12:00:00.123Z".
Proof. vm_compute. reflexivity. Qed.

(** * What the text looks like *)

(** [datetime.min] and [datetime.max] bound every instant. *)
Definition datetime_ok (t : Z) : bool :=
  bool_decide (-62135596800000000 ≤ t ≤ 253402300799999999)%Z.

(** The text before the offset. *)
Definition local_text (t : Z) : string :=
  date_text t +:+ "T" +:+ time_text t +:+
  (if decide (t mod 1000000 = 0)%Z then "" else "." +:+ pad 6 (t mod 1000000)).

Lemma isoformat_local t : isoformat t = local_text t +:+ "+00:00".
Proof.
  unfold isoformat, local_text. by rewrite !str_app_assoc.
Qed.

Lemma digit_nat n : 48 ≤ Ascii.nat_of_ascii (digit n) ≤ 57.
Proof.
  pose proof (Z.mod_pos_bound n 10 ltac:(lia)).
  unfold digit, Ascii.nat_of_ascii. rewrite Ascii.N_ascii_embedding; lia.
Qed.

Definition is_digit (c : Ascii.ascii) : bool :=
  bool_decide (48 ≤ Ascii.nat_of_ascii c ≤ 57).

Lemma lacks_padded c w n acc :
  is_digit c = false → lacks c (padded w n acc) = lacks c acc.
Proof.
  intros Hc. revert n acc. induction w as [|w IH]; intros n acc; [done|].
  simpl. rewrite IH. simpl. rewrite bool_decide_false; [done|].
  intros Hd. apply bool_decide_eq_false in Hc. apply Hc. rewrite <-Hd. apply digit_nat.
Qed.

Lemma lacks_local c t :
  is_digit c = false → lacks c "-T:." = true → lacks c (local_text t) = true.
Proof.
  intros Hc Hl. change "-T:." with ("-" +:+ "T" +:+ ":" +:+ ".") in Hl.
  rewrite !lacks_app in Hl.
  repeat match goal with H : _ && _ = true |- _ => apply andb_prop in H as [? H] end.
  unfold local_text, date_text, time_text.
  destruct (civil_of_days _) as [[y m] d].
  rewrite !lacks_app. unfold pad. rewrite !lacks_padded by done.
  repeat match goal with H : lacks c _ = true |- _ => rewrite H end.
  case_decide; [done|].
  rewrite lacks_app, lacks_padded by done.
  by repeat match goal with H : lacks c _ = true |- _ => rewrite H end.
Qed.
