(* ===== verification/Errors.v ===== *)
(** The error taxonomy ([cvztte/errors.py]) and the exceptions every other file
    raises: a [CVZTTEError] with a stable code, or some other Python exception. *)

From S2P Require Export PyTime.

(** [errors.ErrorCode] *)
Inductive ErrorCode : Set :=
| SCHEMA_INVALID
| DUPLICATE_JSON_KEY
| PAYLOAD_TOO_LARGE
| ACTION_HASH_MISMATCH
| AGENT_UNKNOWN
| AGENT_DISABLED
| KEY_UNKNOWN
| KEY_REVOKED
| MLDSA_INVALID
| CRYPTO_PROVIDER_UNAVAILABLE
| REQUEST_EXPIRED
| NONCE_REPLAY
| SEQUENCE_INVALID
| SESSION_UNKNOWN
| SESSION_EXPIRED
| DELEGATION_INVALID
| POLICY_HASH_MISMATCH
| OPA_DENY
| OPA_UNAVAILABLE
| GNARK_CREDENTIAL_INVALID
| GNARK_PROOF_INVALID
| GNARK_PUBLIC_INPUT_MISMATCH
| GNARK_ARTIFACT_UNAPPROVED
| BEHAVIOR_RISK_HIGH
| BEHAVIOR_STATE_CONFLICT
| JUDGE_UNSAFE
| JUDGE_REVIEW
| JUDGE_FAILED
| EZKL_PROOF_INVALID
| EZKL_PUBLIC_INPUT_MISMATCH
| EZKL_ARTIFACT_UNAPPROVED
| EZKL_QUANTIZATION_GUARD
| EZKL_TIMEOUT
| APPROVAL_REQUIRED
| APPROVAL_EXPIRED
| FINAL_ACTION_BINDING_FAILED
| DECISION_TOKEN_INVALID
| DECISION_TOKEN_EXPIRED
| DECISION_TOKEN_REPLAY
| DECISION_TOKEN_EPOCH_STALE
| DECISION_TOKEN_AUDIENCE_MISMATCH
| AUDIT_CHAIN_BROKEN
| TOOL_BYPASS_DENIED
| NETWORK_BYPASS_DENIED
| EXECUTION_FAILED
| SECURITY_DEPENDENCY_UNAVAILABLE
| ENFORCEMENT_DENIED
| FILE_PATH_ESCAPE
| FILE_ACCESS_DENIED
| EGRESS_DENIED
| PROCESS_COMMAND_DENIED
| SECRET_DISCLOSURE_FORBIDDEN
| SECRET_UNKNOWN
| OUTPUT_DENIED
| MESSAGE_DENIED
| MCP_BYPASS_DENIED
| CONTAINMENT_SUSPICIOUS
| CONTAINMENT_RESTRICTED
| CONTAINMENT_QUARANTINED
| CONTAINMENT_TERMINATED
| CAPABILITY_DECAY_DENY
| CAPABILITY_EPOCH_MISMATCH
| RECOVERY_APPROVAL_REQUIRED
| CONFORMANCE_FAILED
| ACTIVATION_BLOCKED
| MODE_CHANGE_FORBIDDEN
| FHE_CONTEXT_UNKNOWN
| FHE_CONTEXT_UNAPPROVED
| FHE_CONTEXT_MISMATCH
| FHE_KEY_EPOCH_MISMATCH
| FHE_CIPHERTEXT_INVALID
| FHE_CIPHERTEXT_TOO_LARGE
| FHE_PROGRAM_UNKNOWN
| FHE_PROGRAM_DENIED
| FHE_COMPUTE_DENIED
| FHE_COMPUTE_FAILED
| FHE_COMPUTE_TIMEOUT
| FHE_DECRYPT_DENIED
| FHE_THRESHOLD_INSUFFICIENT
| FHE_PARTIAL_DECRYPT_INVALID
| FHE_RESULT_RELEASE_DENIED
| FHE_PRIVACY_BUDGET_EXCEEDED
| FHE_QUERY_PATTERN_RISK.

Definition all_codes : list ErrorCode :=
  [ SCHEMA_INVALID; DUPLICATE_JSON_KEY; PAYLOAD_TOO_LARGE
  ; ACTION_HASH_MISMATCH; AGENT_UNKNOWN; AGENT_DISABLED
  ; KEY_UNKNOWN; KEY_REVOKED; MLDSA_INVALID
  ; CRYPTO_PROVIDER_UNAVAILABLE; REQUEST_EXPIRED; NONCE_REPLAY
  ; SEQUENCE_INVALID; SESSION_UNKNOWN; SESSION_EXPIRED
  ; DELEGATION_INVALID; POLICY_HASH_MISMATCH; OPA_DENY
  ; OPA_UNAVAILABLE; GNARK_CREDENTIAL_INVALID; GNARK_PROOF_INVALID
  ; GNARK_PUBLIC_INPUT_MISMATCH; GNARK_ARTIFACT_UNAPPROVED; BEHAVIOR_RISK_HIGH
  ; BEHAVIOR_STATE_CONFLICT; JUDGE_UNSAFE; JUDGE_REVIEW
  ; JUDGE_FAILED; EZKL_PROOF_INVALID; EZKL_PUBLIC_INPUT_MISMATCH
  ; EZKL_ARTIFACT_UNAPPROVED; EZKL_QUANTIZATION_GUARD; EZKL_TIMEOUT
  ; APPROVAL_REQUIRED; APPROVAL_EXPIRED; FINAL_ACTION_BINDING_FAILED
  ; DECISION_TOKEN_INVALID; DECISION_TOKEN_EXPIRED; DECISION_TOKEN_REPLAY
  ; DECISION_TOKEN_EPOCH_STALE; DECISION_TOKEN_AUDIENCE_MISMATCH; AUDIT_CHAIN_BROKEN
  ; TOOL_BYPASS_DENIED; NETWORK_BYPASS_DENIED; EXECUTION_FAILED
  ; SECURITY_DEPENDENCY_UNAVAILABLE; ENFORCEMENT_DENIED; FILE_PATH_ESCAPE
  ; FILE_ACCESS_DENIED; EGRESS_DENIED; PROCESS_COMMAND_DENIED
  ; SECRET_DISCLOSURE_FORBIDDEN; SECRET_UNKNOWN; OUTPUT_DENIED
  ; MESSAGE_DENIED; MCP_BYPASS_DENIED; CONTAINMENT_SUSPICIOUS
  ; CONTAINMENT_RESTRICTED; CONTAINMENT_QUARANTINED; CONTAINMENT_TERMINATED
  ; CAPABILITY_DECAY_DENY; CAPABILITY_EPOCH_MISMATCH; RECOVERY_APPROVAL_REQUIRED
  ; CONFORMANCE_FAILED; ACTIVATION_BLOCKED; MODE_CHANGE_FORBIDDEN
  ; FHE_CONTEXT_UNKNOWN; FHE_CONTEXT_UNAPPROVED; FHE_CONTEXT_MISMATCH
  ; FHE_KEY_EPOCH_MISMATCH; FHE_CIPHERTEXT_INVALID; FHE_CIPHERTEXT_TOO_LARGE
  ; FHE_PROGRAM_UNKNOWN; FHE_PROGRAM_DENIED; FHE_COMPUTE_DENIED
  ; FHE_COMPUTE_FAILED; FHE_COMPUTE_TIMEOUT; FHE_DECRYPT_DENIED
  ; FHE_THRESHOLD_INSUFFICIENT; FHE_PARTIAL_DECRYPT_INVALID; FHE_RESULT_RELEASE_DENIED
  ; FHE_PRIVACY_BUDGET_EXCEEDED; FHE_QUERY_PATTERN_RISK ].

(** [code.value] *)
Definition code_value (c : ErrorCode) : string :=
  match c with
  | SCHEMA_INVALID => "SCHEMA_INVALID"
  | DUPLICATE_JSON_KEY => "DUPLICATE_JSON_KEY"
  | PAYLOAD_TOO_LARGE => "PAYLOAD_TOO_LARGE"
  | ACTION_HASH_MISMATCH => "ACTION_HASH_MISMATCH"
  | AGENT_UNKNOWN => "AGENT_UNKNOWN"
  | AGENT_DISABLED => "AGENT_DISABLED"
  | KEY_UNKNOWN => "KEY_UNKNOWN"
  | KEY_REVOKED => "KEY_REVOKED"
  | MLDSA_INVALID => "MLDSA_INVALID"
  | CRYPTO_PROVIDER_UNAVAILABLE => "CRYPTO_PROVIDER_UNAVAILABLE"
  | REQUEST_EXPIRED => "REQUEST_EXPIRED"
  | NONCE_REPLAY => "NONCE_REPLAY"
  | SEQUENCE_INVALID => "SEQUENCE_INVALID"
  | SESSION_UNKNOWN => "SESSION_UNKNOWN"
  | SESSION_EXPIRED => "SESSION_EXPIRED"
  | DELEGATION_INVALID => "DELEGATION_INVALID"
  | POLICY_HASH_MISMATCH => "POLICY_HASH_MISMATCH"
  | OPA_DENY => "OPA_DENY"
  | OPA_UNAVAILABLE => "OPA_UNAVAILABLE"
  | GNARK_CREDENTIAL_INVALID => "GNARK_CREDENTIAL_INVALID"
  | GNARK_PROOF_INVALID => "GNARK_PROOF_INVALID"
  | GNARK_PUBLIC_INPUT_MISMATCH => "GNARK_PUBLIC_INPUT_MISMATCH"
  | GNARK_ARTIFACT_UNAPPROVED => "GNARK_ARTIFACT_UNAPPROVED"
  | BEHAVIOR_RISK_HIGH => "BEHAVIOR_RISK_HIGH"
  | BEHAVIOR_STATE_CONFLICT => "BEHAVIOR_STATE_CONFLICT"
  | JUDGE_UNSAFE => "JUDGE_UNSAFE"
  | JUDGE_REVIEW => "JUDGE_REVIEW"
  | JUDGE_FAILED => "JUDGE_FAILED"
  | EZKL_PROOF_INVALID => "EZKL_PROOF_INVALID"
  | EZKL_PUBLIC_INPUT_MISMATCH => "EZKL_PUBLIC_INPUT_MISMATCH"
  | EZKL_ARTIFACT_UNAPPROVED => "EZKL_ARTIFACT_UNAPPROVED"
  | EZKL_QUANTIZATION_GUARD => "EZKL_QUANTIZATION_GUARD"
  | EZKL_TIMEOUT => "EZKL_TIMEOUT"
  | APPROVAL_REQUIRED => "APPROVAL_REQUIRED"
  | APPROVAL_EXPIRED => "APPROVAL_EXPIRED"
  | FINAL_ACTION_BINDING_FAILED => "FINAL_ACTION_BINDING_FAILED"
  | DECISION_TOKEN_INVALID => "DECISION_TOKEN_INVALID"
  | DECISION_TOKEN_EXPIRED => "DECISION_TOKEN_EXPIRED"
  | DECISION_TOKEN_REPLAY => "DECISION_TOKEN_REPLAY"
  | DECISION_TOKEN_EPOCH_STALE => "DECISION_TOKEN_EPOCH_STALE"
  | DECISION_TOKEN_AUDIENCE_MISMATCH => "DECISION_TOKEN_AUDIENCE_MISMATCH"
  | AUDIT_CHAIN_BROKEN => "AUDIT_CHAIN_BROKEN"
  | TOOL_BYPASS_DENIED => "TOOL_BYPASS_DENIED"
  | NETWORK_BYPASS_DENIED => "NETWORK_BYPASS_DENIED"
  | EXECUTION_FAILED => "EXECUTION_FAILED"
  | SECURITY_DEPENDENCY_UNAVAILABLE => "SECURITY_DEPENDENCY_UNAVAILABLE"
  | ENFORCEMENT_DENIED => "ENFORCEMENT_DENIED"
  | FILE_PATH_ESCAPE => "FILE_PATH_ESCAPE"
  | FILE_ACCESS_DENIED => "FILE_ACCESS_DENIED"
  | EGRESS_DENIED => "EGRESS_DENIED"
  | PROCESS_COMMAND_DENIED => "PROCESS_COMMAND_DENIED"
  | SECRET_DISCLOSURE_FORBIDDEN => "SECRET_DISCLOSURE_FORBIDDEN"
  | SECRET_UNKNOWN => "SECRET_UNKNOWN"
  | OUTPUT_DENIED => "OUTPUT_DENIED"
  | MESSAGE_DENIED => "MESSAGE_DENIED"
  | MCP_BYPASS_DENIED => "MCP_BYPASS_DENIED"
  | CONTAINMENT_SUSPICIOUS => "CONTAINMENT_SUSPICIOUS"
  | CONTAINMENT_RESTRICTED => "CONTAINMENT_RESTRICTED"
  | CONTAINMENT_QUARANTINED => "CONTAINMENT_QUARANTINED"
  | CONTAINMENT_TERMINATED => "CONTAINMENT_TERMINATED"
  | CAPABILITY_DECAY_DENY => "CAPABILITY_DECAY_DENY"
  | CAPABILITY_EPOCH_MISMATCH => "CAPABILITY_EPOCH_MISMATCH"
  | RECOVERY_APPROVAL_REQUIRED => "RECOVERY_APPROVAL_REQUIRED"
  | CONFORMANCE_FAILED => "CONFORMANCE_FAILED"
  | ACTIVATION_BLOCKED => "ACTIVATION_BLOCKED"
  | MODE_CHANGE_FORBIDDEN => "MODE_CHANGE_FORBIDDEN"
  | FHE_CONTEXT_UNKNOWN => "FHE_CONTEXT_UNKNOWN"
  | FHE_CONTEXT_UNAPPROVED => "FHE_CONTEXT_UNAPPROVED"
  | FHE_CONTEXT_MISMATCH => "FHE_CONTEXT_MISMATCH"
  | FHE_KEY_EPOCH_MISMATCH => "FHE_KEY_EPOCH_MISMATCH"
  | FHE_CIPHERTEXT_INVALID => "FHE_CIPHERTEXT_INVALID"
  | FHE_CIPHERTEXT_TOO_LARGE => "FHE_CIPHERTEXT_TOO_LARGE"
  | FHE_PROGRAM_UNKNOWN => "FHE_PROGRAM_UNKNOWN"
  | FHE_PROGRAM_DENIED => "FHE_PROGRAM_DENIED"
  | FHE_COMPUTE_DENIED => "FHE_COMPUTE_DENIED"
  | FHE_COMPUTE_FAILED => "FHE_COMPUTE_FAILED"
  | FHE_COMPUTE_TIMEOUT => "FHE_COMPUTE_TIMEOUT"
  | FHE_DECRYPT_DENIED => "FHE_DECRYPT_DENIED"
  | FHE_THRESHOLD_INSUFFICIENT => "FHE_THRESHOLD_INSUFFICIENT"
  | FHE_PARTIAL_DECRYPT_INVALID => "FHE_PARTIAL_DECRYPT_INVALID"
  | FHE_RESULT_RELEASE_DENIED => "FHE_RESULT_RELEASE_DENIED"
  | FHE_PRIVACY_BUDGET_EXCEEDED => "FHE_PRIVACY_BUDGET_EXCEEDED"
  | FHE_QUERY_PATTERN_RISK => "FHE_QUERY_PATTERN_RISK"
  end.

Definition code_of_value (s : string) : option ErrorCode :=
  snd <$> list_find (λ c, code_value c = s) all_codes.

Lemma code_of_value_spec c : code_of_value (code_value c) = Some c.
Proof. destruct c; vm_compute; reflexivity. Qed.

Lemma code_value_inj c1 c2 : code_value c1 = code_value c2 → c1 = c2.
Proof.
  intros H. apply (f_equal code_of_value) in H.
  rewrite !code_of_value_spec in H. congruence.
Qed.

#[export] Instance ErrorCode_eq_dec : EqDecision ErrorCode.
Proof.
  intros c1 c2. destruct (decide (code_value c1 = code_value c2)) as [H|H].
  - left. by apply code_value_inj.
  - right. intros ->. done.
Defined.

(** [errors.CVZTTEError]; the internal [detail] never influences behaviour and is
    not carried. *)
Record CVZTTEError : Set := mkError { code : ErrorCode; message : string }.

(** [CVZTTEError.__init__]: an empty message defaults to the code. *)
Definition new_error (c : ErrorCode) (msg : string) : CVZTTEError :=
  mkError c (if decide (msg = "") then code_value c else msg).

(** [CVZTTEError.public_dict] *)
Definition public_dict (e : CVZTTEError) : list (string * string) :=
  [("error_code", code_value (code e)); ("error", message e)].

(** What a Python call can raise: the structured error, or another exception,
    named by its class and first argument. *)
Inductive exn : Set :=
| Cvztte (e : CVZTTEError)
| PyExc (cls : string) (arg : string).

Notation res A := (result exn A).
Notation M S A := (comp exn S A).

Definition err {A} (c : ErrorCode) (msg : string) : res A :=
  Err (Cvztte (new_error c msg)).
Definition raise {S A} (c : ErrorCode) (msg : string) : M S A :=
  cthrow (Cvztte (new_error c msg)).

(** The code of a structured failure, if that is what happened. *)
Definition res_code {A} (r : res A) : option ErrorCode :=
  match r with Err (Cvztte e) => Some (code e) | _ => None end.

(** A datetime operation whose result leaves the supported years raises. *)
Definition datetime_of (t : Z) : res Z :=
  if datetime_ok t then Ok t else Err (PyExc "OverflowError" "date value out of range").

Lemma res_code_err {A} c msg : res_code (err (A := A) c msg) = Some c.
Proof. done. Qed.
