(* ===== verification/Canonical.v ===== *)
(** Canonical JSON, domain-separated commitments and keyed MACs
    ([cvztte/canonical]).

    SHA-256 and the [rfc8785] package are interfaces: every theorem holds for
    whatever functions they are, and statements about hashes are of the form
    "equal, or here is a collision". *)

From S2P Require Export Errors.
From Corelib.Floats Require Export SpecFloat.

(** * JSON values (what [json.loads] and [model_dump(mode="json")] produce) *)

Inductive json : Set :=
| JNull
| JBool (b : bool)
| JInt (z : Z)
| JFloat (f : spec_float)
| JStr (s : string)
| JArr (l : list json)
| JObj (kvs : list (string * json)).

Section json_ind.
Variable P : json → Prop.
Hypothesis Hnull : P JNull.
Hypothesis Hbool : ∀ b, P (JBool b).
Hypothesis Hint : ∀ z, P (JInt z).
Hypothesis Hfloat : ∀ f, P (JFloat f).
Hypothesis Hstr : ∀ s, P (JStr s).
Hypothesis Harr : ∀ l, Forall P l → P (JArr l).
Hypothesis Hobj : ∀ kvs, Forall (λ kv, P kv.2) kvs → P (JObj kvs).
Fixpoint json_rect' (v : json) : P v :=
  match v with
  | JNull => Hnull
  | JBool b => Hbool b
  | JInt z => Hint z
  | JFloat f => Hfloat f
  | JStr s => Hstr s
  | JArr l =>
      Harr l ((fix go l := match l return Forall P l with
               | [] => Forall_nil_2 _
               | x :: l => Forall_cons_2 _ _ _ (json_rect' x) (go l) end) l)
  | JObj kvs =>
      Hobj kvs ((fix go l := match l return Forall (λ kv, P kv.2) l with
               | [] => Forall_nil_2 _
               | x :: l => Forall_cons_2 _ _ _ (json_rect' x.2) (go l) end) kvs)
  end.
End json_ind.

(** [None]-valued optional fields as pydantic dumps them. *)
Definition jopt (o : option string) : json :=
  match o with Some s => JStr s | None => JNull end.

Definition is_null (v : json) : bool :=
  match v with JNull => true | _ => false end.

(** [exclude_none=True] drops the model fields that are [None] (and only those:
    a [None] inside a dict-valued field stays). *)
Definition exclude_none (kvs : list (string * json)) : list (string * json) :=
  List.filter (λ kv, negb (is_null kv.2)) kvs.

Lemma exclude_none_elem k v kvs :
  (k, v) ∈ exclude_none kvs ↔ (k, v) ∈ kvs ∧ v ≠ JNull.
Proof.
  unfold exclude_none. induction kvs as [|[k' v'] kvs IH]; simpl; [set_solver|].
  destruct v'; simpl; rewrite ?elem_of_cons, IH; naive_solver.
Qed.

(** Keys are distinct, so a field of the dumped object is the field of the model
    unless that is [None]. *)
Lemma dget_exclude_none k kvs :
  NoDup kvs.*1 →
  dget k (exclude_none kvs) =
    match dget k kvs with Some JNull => None | o => o end.
Proof.
  induction kvs as [|[k' v'] kvs IH]; csimpl; [done|].
  intros [Hk Hnd]%NoDup_cons. unfold exclude_none in *. simpl.
  destruct v'; simpl; case_decide; subst; rewrite ?IH by done; try done.
  by rewrite (proj2 (dget_None _ _) Hk).
Qed.

(** * Domain tags ([canonical/domains.py]) *)

Inductive Domain : Set :=
| D_ACTION
| D_REQUEST
| D_POLICY
| D_DELEGATION
| D_SESSION
| D_AUDIT
| D_BEHAVIOR_STATE
| D_MODEL
| D_CIRCUIT
| D_FHE_CONTEXT
| D_FHE_CIPHERTEXT
| D_FHE_PROGRAM
| D_FHE_RESULT
| D_EXECUTION_RECEIPT
| D_DECISION_TOKEN
| D_AUDIT_EVENT
| D_AUDIT_CHECKPOINT
| D_CONTAINMENT_TRANSITION
| D_LINEAGE_NODE
| D_LINEAGE_GRAPH
| D_QUERY_SUBSET.

Definition domain_value (d : Domain) : string :=
  match d with
  | D_ACTION => "cvztte.action.v3"
  | D_REQUEST => "cvztte.request.v3"
  | D_POLICY => "cvztte.policy.v3"
  | D_DELEGATION => "cvztte.delegation.v3"
  | D_SESSION => "cvztte.session.v3"
  | D_AUDIT => "cvztte.audit.v3"
  | D_BEHAVIOR_STATE => "cvztte.behavior_state.v3"
  | D_MODEL => "cvztte.model.v3"
  | D_CIRCUIT => "cvztte.circuit.v3"
  | D_FHE_CONTEXT => "cvztte.fhe_context.v3"
  | D_FHE_CIPHERTEXT => "cvztte.fhe_ciphertext.v3"
  | D_FHE_PROGRAM => "cvztte.fhe_program.v3"
  | D_FHE_RESULT => "cvztte.fhe_result.v3"
  | D_EXECUTION_RECEIPT => "cvztte.execution_receipt.v3"
  | D_DECISION_TOKEN => "cvztte.decision_token.v3"
  | D_AUDIT_EVENT => "cvztte.audit_event.v3"
  | D_AUDIT_CHECKPOINT => "cvztte.audit_checkpoint.v3"
  | D_CONTAINMENT_TRANSITION => "cvztte.containment_transition.v3"
  | D_LINEAGE_NODE => "cvztte.lineage_node.v3"
  | D_LINEAGE_GRAPH => "cvztte.lineage_graph.v3"
  | D_QUERY_SUBSET => "cvztte.query_subset.v3"
  end.

#[export] Instance Domain_eq_dec : EqDecision Domain.
Proof. solve_decision. Defined.

(** * Hashing interfaces *)

(** [hashlib.sha256(b).digest()] on byte strings. *)
Class Hashlib := { sha256 : string → string }.

(** [rfc8785.dumps]; [None] is the [ValueError]/[TypeError] it raises. *)
Class Rfc8785 := { rfc8785_dumps : json → option string }.

Definition sha_collision `{Hashlib} : Prop :=
  ∃ x y : string, x ≠ y ∧ sha256 x = sha256 y.

(** * Hexadecimal *)

Definition hex_digit (n : nat) : Ascii.ascii :=
  Ascii.ascii_of_nat (if decide (n < 10) then 48 + n else 87 + n).

Definition hex_byte (c : Ascii.ascii) : string :=
  let n := Ascii.nat_of_ascii c in
  String (hex_digit (n / 16)) (String (hex_digit (n mod 16)) EmptyString).

(** [bytes.hex()] *)
Fixpoint hex (s : string) : string :=
  match s with
  | EmptyString => EmptyString
  | String c s' => hex_byte c +:+ hex s'
  end.

Definition unhex_digit (c : Ascii.ascii) : nat :=
  let n := Ascii.nat_of_ascii c in if decide (n < 58) then n - 48 else n - 87.

Fixpoint unhex (s : string) : string :=
  match s with
  | String a (String b s') =>
      String (Ascii.ascii_of_nat (16 * unhex_digit a + unhex_digit b)) (unhex s')
  | _ => EmptyString
  end.

Lemma unhex_hex_byte c s : unhex (hex_byte c +:+ s) = String c (unhex s).
Proof. by destruct c as [[] [] [] [] [] [] [] []]. Qed.

Lemma unhex_hex s : unhex (hex s) = s.
Proof.
  induction s as [|c s IH]; [done|]. simpl hex.
  by rewrite unhex_hex_byte, IH.
Qed.

Lemma hex_inj s1 s2 : hex s1 = hex s2 → s1 = s2.
Proof. intros H. apply (f_equal unhex) in H. by rewrite !unhex_hex in H. Qed.

(** * Commitments ([canonical/hashing.py], [canonical/jcs.py]) *)

Definition NUL : string := String Ascii.zero EmptyString.

Section commitments.
Context `{Hashlib, Rfc8785}.

Definition domain_hash (d : Domain) (payload : string) : string :=
  sha256 (domain_value d +:+ NUL +:+ payload).

Definition domain_hash_hex (d : Domain) (payload : string) : string :=
  "sha256:" +:+ hex (domain_hash d payload).

Definition canonicalize (v : json) : res string :=
  match rfc8785_dumps v with
  | Some s => Ok s
  | None => err SCHEMA_INVALID "value is not JCS-canonicalizable"
  end.

Definition commit (d : Domain) (v : json) : res string :=
  let? bytes := canonicalize v in Ok (domain_hash_hex d bytes).
End commitments.

(** * HMAC-SHA256 (RFC 2104, as [hmac.new(key, msg, sha256).hexdigest()]) *)

Definition byte_xor (n : N) (c : Ascii.ascii) : Ascii.ascii :=
  Ascii.ascii_of_N (N.lxor n (Ascii.N_of_ascii c)).

Fixpoint str_map (f : Ascii.ascii → Ascii.ascii) (s : string) : string :=
  match s with EmptyString => EmptyString | String c s' => String (f c) (str_map f s') end.

Fixpoint str_repeat (c : Ascii.ascii) (n : nat) : string :=
  match n with 0 => EmptyString | S n => String c (str_repeat c n) end.

Definition hmac_block : nat := 64.

Section hmac.
Context `{Hashlib}.
Definition hmac_key (key : string) : string :=
  let k := if decide (hmac_block < String.length key) then sha256 key else key in
  k +:+ str_repeat Ascii.zero (hmac_block - String.length k).
Definition hmac_sha256 (key msg : string) : string :=
  let k := hmac_key key in
  sha256 (str_map (byte_xor 0x5c) k +:+ sha256 (str_map (byte_xor 0x36) k +:+ msg)).
End hmac.

(** * Facts about commitments *)

Fixpoint nul_free (s : string) : bool :=
  match s with
  | EmptyString => true
  | String c s' => negb (bool_decide (c = Ascii.zero)) && nul_free s'
  end.

Lemma domain_nul_free d : nul_free (domain_value d) = true.
Proof. by destruct d. Qed.

Lemma domain_value_inj d1 d2 : domain_value d1 = domain_value d2 → d1 = d2.
Proof. destruct d1, d2; done. Qed.

(** The first NUL separates the tag from the payload. *)
Lemma nul_split a b x y :
  nul_free a = true → nul_free b = true →
  a +:+ NUL +:+ x = b +:+ NUL +:+ y → a = b ∧ x = y.
Proof.
  revert b. induction a as [|c a IH]; intros [|c' b] Ha Hb Heq; simpl in *.
  - by injection Heq.
  - injection Heq as <- _. by rewrite bool_decide_true in Hb.
  - injection Heq as -> _. by rewrite bool_decide_true in Ha.
  - injection Heq as -> Heq. apply andb_prop in Ha as [_ Ha], Hb as [_ Hb].
    destruct (IH b Ha Hb Heq) as [-> ->]. done.
Qed.

Section commitment_facts.
Context `{Hashlib, Rfc8785}.

Lemma sha256_inj x y : sha256 x = sha256 y → x = y ∨ sha_collision.
Proof.
  intros Heq. destruct (decide (x = y)) as [|Hne]; [by left|].
  right. by exists x, y.
Qed.

Lemma domain_hash_hex_inj d1 d2 p1 p2 :
  domain_hash_hex d1 p1 = domain_hash_hex d2 p2 →
  (d1 = d2 ∧ p1 = p2) ∨ sha_collision.
Proof.
  unfold domain_hash_hex, domain_hash. intros Heq.
  injection Heq as Heq. apply hex_inj, sha256_inj in Heq as [Heq|?]; [left|by right].
  apply nul_split in Heq as [Hd ->]; auto using domain_nul_free, domain_value_inj.
Qed.

Lemma commit_ok d v h :
  commit d v = Ok h ↔ ∃ b, rfc8785_dumps v = Some b ∧ h = domain_hash_hex d b.
Proof.
  unfold commit, canonicalize. destruct (rfc8785_dumps v); simpl; naive_solver.
Qed.
End commitment_facts.
