(* ===== verification/Sha256.v ===== *)
(** SHA-256 (FIPS 180-4), the function [hashlib.sha256] computes, on byte
    strings with 32-bit words as [N].  The rest of the development is generic in
    the hash function; this file provides the instance the program runs with and
    the witnesses evaluate. *)

From S2P Require Export Canonical.

Definition w32 : N := 2 ^ 32.
Definition add32 (a b : N) : N := (a + b) mod w32.
Definition rotr (n x : N) : N := N.lor (N.shiftr x n) (N.shiftl x (32 - n) mod w32).
Definition not32 (x : N) : N := w32 - 1 - x.

Definition big_sigma0 (x : N) : N := N.lxor (rotr 2 x) (N.lxor (rotr 13 x) (rotr 22 x)).
Definition big_sigma1 (x : N) : N := N.lxor (rotr 6 x) (N.lxor (rotr 11 x) (rotr 25 x)).
Definition small_sigma0 (x : N) : N := N.lxor (rotr 7 x) (N.lxor (rotr 18 x) (N.shiftr x 3)).
Definition small_sigma1 (x : N) : N := N.lxor (rotr 17 x) (N.lxor (rotr 19 x) (N.shiftr x 10)).
Definition choose (x y z : N) : N := N.lxor (N.land x y) (N.land (not32 x) z).
Definition majority (x y z : N) : N := N.lxor (N.land x y) (N.lxor (N.land x z) (N.land y z)).

(** Big-endian words of a byte list. *)
Fixpoint words (bs : list N) : list N :=
  match bs with
  | a :: b :: c :: d :: bs => (((a * 256 + b) * 256 + c) * 256 + d)%N :: words bs
  | _ => []
  end.

Definition bytes_of (s : string) : list N :=
  Ascii.N_of_ascii <$> String.list_ascii_of_string s.

(** The constants, as words of a hexadecimal string. *)
Definition round_constants : list N := Eval vm_compute in
  words (bytes_of (unhex (
    "428a2f9871374491b5c0fbcfe9b5dba53956c25b59f111f1923f82a4ab1c5ed5" +:+
    "d807aa9812835b01243185be550c7dc372be5d7480deb1fe9bdc06a7c19bf174" +:+
    "e49b69c1efbe47860fc19dc6240ca1cc2de92c6f4a7484aa5cb0a9dc76f988da" +:+
    "983e5152a831c66db00327c8bf597fc7c6e00bf3d5a7914706ca635114292967" +:+
    "27b70a852e1b21384d2c6dfc53380d13650a7354766a0abb81c2c92e92722c85" +:+
    "a2bfe8a1a81a664bc24b8b70c76c51a3d192e819d6990624f40e3585106aa070" +:+
    "19a4c1161e376c082748774c34b0bcb5391c0cb34ed8aa4a5b9cca4f682e6ff3" +:+
    "748f82ee78a5636f84c878148cc7020890befffaa4506cebbef9a3f7c67178f2"))).

Definition initial_state : list N := Eval vm_compute in
  words (bytes_of (unhex (
    "6a09e667bb67ae853c6ef372a54ff53a510e527f9b05688c1f83d9ab5be0cd19"))).

Definition word_bytes (w : N) : list N :=
  [N.shiftr w 24 mod 256; N.shiftr w 16 mod 256; N.shiftr w 8 mod 256; w mod 256]%N.

(** The message schedule, most recent word first. *)
Fixpoint schedule (n : nat) (rev_w : list N) : list N :=
  match n with
  | 0 => rev_w
  | S n =>
      let at_ i := nth i rev_w 0%N in
      schedule n (add32 (add32 (small_sigma1 (at_ 1)) (at_ 6))
                        (add32 (small_sigma0 (at_ 14)) (at_ 15)) :: rev_w)
  end.

Definition round (st : list N) (kw : N * N) : list N :=
  match st with
  | [a; b; c; d; e; f; g; h] =>
      let t1 := add32 (add32 (add32 h (big_sigma1 e)) (choose e f g)) (add32 kw.1 kw.2) in
      let t2 := add32 (big_sigma0 a) (majority a b c) in
      [add32 t1 t2; a; b; c; add32 d t1; e; f; g]
  | _ => st
  end.

Definition compress (st : list N) (block : list N) : list N :=
  let w := rev (schedule 48 (rev (words block))) in
  zip_with add32 st (foldl round st (zip round_constants w)).

Fixpoint blocks (fuel : nat) (bs : list N) (st : list N) : list N :=
  match fuel with
  | 0 => st
  | S fuel => match bs with
              | [] => st
              | _ => blocks fuel (drop 64 bs) (compress st (take 64 bs))
              end
  end.

(** [0x80], zeros up to 56 modulo 64, the bit length on eight bytes. *)
Definition padding (len : nat) : list N :=
  let bits := (8 * N.of_nat len)%N in
  [128%N] ++ replicate ((119 - len mod 64) mod 64) 0%N ++
  ((λ i, N.shiftr bits (8 * i) mod 256) <$> [7; 6; 5; 4; 3; 2; 1; 0])%N.

Definition sha256_digest (s : string) : string :=
  let bs := bytes_of s in
  let msg := bs ++ padding (length bs) in
  String.string_of_list_ascii
    (Ascii.ascii_of_N <$> concat (word_bytes <$> blocks (S (length msg)) msg initial_state)).

Definition hashlib_sha256 : Hashlib := {| sha256 := sha256_digest |}.
#[local] Existing Instance hashlib_sha256.

(** The FIPS 180-4 test vectors. *)
Example sha256_abc :
  hex (sha256 "abc") = "ba7816bf8f01cfea414140de5dae2223b00361a396177a9cb410ff61f20015ad".
Proof. vm_compute. reflexivity. Qed.
Example sha256_empty :
  hex (sha256 "") = "e3b0c44298fc1c149afbf4c8996fb92427ae41e4649b934ca495991b7852b855".
Proof. vm_compute. reflexivity. Qed.
Example sha256_two_blocks :
  hex (sha256 "abcdbcdecdefdefgefghfghighijhijkijkljklmklmnlmnomnopnopq")
  = "248d6a61d20638b8e5c026930c3e6039a33ce45964ff2167f6ecedd419db06c1".
Proof. vm_compute. reflexivity. Qed.

(** RFC 4231, test case 2. *)
Example hmac_jefe :
  hex (hmac_sha256 "Jefe" "what do ya want for nothing?")
  = "5bdcc146bf60754e6a042426089575c75a003f089d2739839dec58b964ec3843".
Proof. vm_compute. reflexivity. Qed.
