(* ===== verification/Action.v ===== *)
(** Canonical actions ([cvztte/action/model.py]), where an action was observed
    ([cvztte/context/model.py]) and the identity a runtime binds to an event
    ([cvztte/adapters/base.py]). *)

From S2P Require Export Canonical.

(** [action.model.ActionType] *)
Inductive ActionType : Set :=
| TOOL_CALL
| MCP_CALL
| API_REQUEST
| DB_OPERATION
| FILE_READ
| FILE_WRITE
| FILE_DELETE
| PROCESS_EXEC
| SHELL_EXEC
| CODE_EXECUTION
| NETWORK_REQUEST
| USER_OUTPUT
| AGENT_MESSAGE
| MEMORY_READ
| MEMORY_WRITE
| SECRET_ACCESS
| CLOUD_CONTROL_ACTION
| EXTERNAL_MESSAGE
| FHE_ENCRYPT
| FHE_COMPUTE
| FHE_DECRYPT_REQUEST
| FHE_PARTIAL_DECRYPT
| FHE_COMBINE_DECRYPT
| FHE_KEY_ROTATE
| FHE_CONTEXT_CREATE
| FHE_REENCRYPT.

Definition ActionType_value (x : ActionType) : string :=
  match x with
  | TOOL_CALL => "TOOL_CALL"
  | MCP_CALL => "MCP_CALL"
  | API_REQUEST => "API_REQUEST"
  | DB_OPERATION => "DB_OPERATION"
  | FILE_READ => "FILE_READ"
  | FILE_WRITE => "FILE_WRITE"
  | FILE_DELETE => "FILE_DELETE"
  | PROCESS_EXEC => "PROCESS_EXEC"
  | SHELL_EXEC => "SHELL_EXEC"
  | CODE_EXECUTION => "CODE_EXECUTION"
  | NETWORK_REQUEST => "NETWORK_REQUEST"
  | USER_OUTPUT => "USER_OUTPUT"
  | AGENT_MESSAGE => "AGENT_MESSAGE"
  | MEMORY_READ => "MEMORY_READ"
  | MEMORY_WRITE => "MEMORY_WRITE"
  | SECRET_ACCESS => "SECRET_ACCESS"
  | CLOUD_CONTROL_ACTION => "CLOUD_CONTROL_ACTION"
  | EXTERNAL_MESSAGE => "EXTERNAL_MESSAGE"
  | FHE_ENCRYPT => "FHE_ENCRYPT"
  | FHE_COMPUTE => "FHE_COMPUTE"
  | FHE_DECRYPT_REQUEST => "FHE_DECRYPT_REQUEST"
  | FHE_PARTIAL_DECRYPT => "FHE_PARTIAL_DECRYPT"
  | FHE_COMBINE_DECRYPT => "FHE_COMBINE_DECRYPT"
  | FHE_KEY_ROTATE => "FHE_KEY_ROTATE"
  | FHE_CONTEXT_CREATE => "FHE_CONTEXT_CREATE"
  | FHE_REENCRYPT => "FHE_REENCRYPT"
  end.

#[export] Instance ActionType_eq_dec : EqDecision ActionType.
Proof. solve_decision. Defined.

Lemma ActionType_value_inj x y : ActionType_value x = ActionType_value y → x = y.
Proof. destruct x, y; done. Qed.

(** [action.model.DataClassification] *)
Inductive DataClassification : Set :=
| PUBLIC
| INTERNAL
| CONFIDENTIAL
| SECRET.

Definition DataClassification_value (x : DataClassification) : string :=
  match x with
  | PUBLIC => "PUBLIC"
  | INTERNAL => "INTERNAL"
  | CONFIDENTIAL => "CONFIDENTIAL"
  | SECRET => "SECRET"
  end.

#[export] Instance DataClassification_eq_dec : EqDecision DataClassification.
Proof. solve_decision. Defined.

(** [context.model.ObservationSource] *)
Inductive ObservationSource : Set :=
| SRC_ADAPTER
| SRC_MCP_GATEWAY
| SRC_EGRESS_PROXY
| SRC_FILE_BROKER
| SRC_PROCESS_BROKER
| SRC_OUTPUT_PROXY
| SRC_MESSAGE_BROKER
| SRC_FHE_BROKER
| SRC_SECRET_BROKER.

Definition ObservationSource_value (x : ObservationSource) : string :=
  match x with
  | SRC_ADAPTER => "ADAPTER"
  | SRC_MCP_GATEWAY => "MCP_GATEWAY"
  | SRC_EGRESS_PROXY => "EGRESS_PROXY"
  | SRC_FILE_BROKER => "FILE_BROKER"
  | SRC_PROCESS_BROKER => "PROCESS_BROKER"
  | SRC_OUTPUT_PROXY => "OUTPUT_PROXY"
  | SRC_MESSAGE_BROKER => "MESSAGE_BROKER"
  | SRC_FHE_BROKER => "FHE_BROKER"
  | SRC_SECRET_BROKER => "SECRET_BROKER"
  end.

#[export] Instance ObservationSource_eq_dec : EqDecision ObservationSource.
Proof. solve_decision. Defined.

(** [action.model.PayloadRef] *)
Record PayloadRef : Set := mkPayloadRef {
  p_ref : string;
  p_hash : string;
  p_size : option Z
}.

(** [action.model.AgentAction] *)
Record AgentAction : Set := mkAction {
  action_version : Z;
  action_type : ActionType;
  target : string;
  operation : option string;
  resource : option string;
  arguments : list (string * json);
  data_classification : DataClassification;
  payload_ref : option PayloadRef
}.

(** [adapters.base.AdapterBinding] *)
Record AdapterBinding : Set := mkBinding {
  b_agent_id : string;
  b_runtime_id : string;
  b_session_id : string;
  b_delegation_id : option string
}.

(** [action.payload_ref.hash if action.payload_ref else None] *)
Definition payload_hash_of (a : AgentAction) : option string :=
  p_hash <$> payload_ref a.

Definition payload_ref_json (p : PayloadRef) : json :=
  JObj (exclude_none
    [ ("ref", JStr (p_ref p)); ("hash", JStr (p_hash p));
      ("size", match p_size p with Some n => JInt n | None => JNull end) ]).

(** [AgentAction.canonical_dict] *)
Definition canonical_dict (a : AgentAction) : json :=
  JObj (exclude_none
    [ ("action_version", JInt (action_version a));
      ("action_type", JStr (ActionType_value (action_type a)));
      ("target", JStr (target a));
      ("operation", jopt (operation a));
      ("resource", jopt (resource a));
      ("arguments", JObj (arguments a));
      ("data_classification", JStr (DataClassification_value (data_classification a)));
      ("payload_ref", match payload_ref a with
                      | Some p => payload_ref_json p
                      | None => JNull
                      end) ]).

(** [AgentAction.action_hash] *)
Definition action_hash `{Hashlib, Rfc8785} (a : AgentAction) : res string :=
  commit D_ACTION (canonical_dict a).

(** Two actions with the same hash have the same canonical bytes, or SHA-256
    collides on two canonical encodings. *)
Lemma action_hash_binds `{Hashlib, Rfc8785} a b h :
  action_hash a = Ok h → action_hash b = Ok h →
  rfc8785_dumps (canonical_dict a) = rfc8785_dumps (canonical_dict b) ∨ sha_collision.
Proof.
  unfold action_hash. rewrite !commit_ok.
  intros (x & Hx & ->) (y & Hy & Heq).
  apply domain_hash_hex_inj in Heq as [[_ ->]|?]; [left; congruence|by right].
Qed.

Lemma jobj_field k kvs1 kvs2 :
  JObj (exclude_none kvs1) = JObj (exclude_none kvs2) →
  NoDup kvs1.*1 → NoDup kvs2.*1 →
  match dget k kvs1 with Some JNull => None | o => o end =
  match dget k kvs2 with Some JNull => None | o => o end.
Proof.
  intros H ??. rewrite <-!dget_exclude_none by done. by injection H as ->.
Qed.

Ltac json_field H k H' :=
  pose proof (jobj_field k _ _ H ltac:(apply (bool_decide_unpack _); exact I)
                ltac:(apply (bool_decide_unpack _); exact I)) as H'; simpl in H'.

Lemma payload_ref_json_inj p q : payload_ref_json p = payload_ref_json q → p = q.
Proof.
  destruct p as [r h [n|]], q as [r' h' [n'|]]; unfold payload_ref_json; simpl;
    intros H; injection H; congruence.
Qed.

Arguments payload_ref_json : simpl never.

(** The canonical dictionary determines the action. *)
Lemma canonical_dict_inj a b : canonical_dict a = canonical_dict b → a = b.
Proof.
  destruct a as [v1 t1 g1 o1 r1 s1 c1 p1], b as [v2 t2 g2 o2 r2 s2 c2 p2].
  unfold canonical_dict. cbn [action_version action_type target operation resource
    arguments data_classification payload_ref]. intros H.
  json_field H "action_version" Hv. json_field H "action_type" Ht.
  json_field H "target" Hg. json_field H "operation" Ho.
  json_field H "resource" Hr. json_field H "arguments" Hs.
  json_field H "data_classification" Hc. json_field H "payload_ref" Hp. clear H.
  f_equal.
  - congruence.
  - apply ActionType_value_inj. congruence.
  - congruence.
  - destruct o1, o2; simpl in *; congruence.
  - destruct r1, r2; simpl in *; congruence.
  - congruence.
  - destruct c1, c2; simpl in *; congruence.
  - destruct p1, p2; unfold payload_ref_json in Hp; cbv beta iota in Hp;
      try congruence.
    f_equal. apply payload_ref_json_inj. unfold payload_ref_json. congruence.
Qed.
