(* ===== verification/Session.v ===== *)
(** Sessions ([cvztte/session/model.py]).

    Datetimes are UTC instants in microseconds.  [clock] arguments are the value
    [datetime.now(timezone.utc)] returns at that call, [uuid] arguments the value
    [uuid.uuid4().hex] draws. *)

From S2P Require Export Errors PyTime.

Definition DEFAULT_SESSION_TTL_SECONDS : Z := 3600.

(** [session.model.SessionState] *)
Inductive SessionState : Set := S_ACTIVE | S_EXPIRED | S_REVOKED.

#[export] Instance SessionState_eq_dec : EqDecision SessionState.
Proof. solve_decision. Defined.

(** [session.model.Session] *)
Record Session : Set := mkSession {
  session_id : string;
  s_agent_id : string;
  s_runtime_id : string;
  created_at : Z;
  s_expires_at : Z;
  s_revoked : bool
}.

(** [Session.state] *)
Definition session_state (s : Session) (now : Z) : SessionState :=
  if s_revoked s then S_REVOKED
  else if decide (s_expires_at s ≤ now)%Z then S_EXPIRED
  else S_ACTIVE.

(** [SessionStore._sessions] *)
Abbreviation SessionStore := (gmap string Session).

(** [SessionStore.create] *)
Definition session_create (agent_id runtime_id : string) (ttl_seconds : Z)
    (now : option Z) (clock : Z) (uuid : string) : M SessionStore Session :=
  λ store,
    let now := or_now now clock in
    match datetime_of (now + seconds ttl_seconds) with
    | Err x => (Err x, store)
    | Ok expires_at =>
        let sess := mkSession ("ses_" +:+ uuid) agent_id runtime_id now expires_at false in
        (Ok sess, <[session_id sess := sess]> store)
    end.

(** [SessionStore.get] *)
Definition session_get (store : SessionStore) (sid : string) : res Session :=
  match store !! sid with
  | None => err SESSION_UNKNOWN "unknown session"
  | Some s => Ok s
  end.

(** [SessionStore.validate] *)
Definition session_validate (store : SessionStore) (sid agent_id runtime_id : string)
    (now : option Z) (clock : Z) : res Session :=
  let now := or_now now clock in
  let? sess := session_get store sid in
  if decide (s_agent_id sess ≠ agent_id ∨ s_runtime_id sess ≠ runtime_id) then
    err SESSION_UNKNOWN "session not bound to agent/runtime"
  else match session_state sess now with
       | S_REVOKED => err SESSION_EXPIRED "session revoked"
       | S_EXPIRED => err SESSION_EXPIRED "session expired"
       | S_ACTIVE => Ok sess
       end.

Definition set_revoked (s : Session) : Session :=
  mkSession (session_id s) (s_agent_id s) (s_runtime_id s) (created_at s)
    (s_expires_at s) true.

(** [SessionStore.revoke] *)
Definition session_revoke (sid : string) : M SessionStore unit :=
  λ store, match session_get store sid with
           | Ok s => (Ok tt, <[sid := set_revoked s]> store)
           | Err e => (Err e, store)
           end.

(** * Facts *)

Lemma session_validate_ok store sid ag rt now clock s :
  session_validate store sid ag rt now clock = Ok s ↔
  store !! sid = Some s ∧ s_agent_id s = ag ∧ s_runtime_id s = rt ∧
  s_revoked s = false ∧ (or_now now clock < s_expires_at s)%Z.
Proof.
  unfold session_validate, session_get, session_state.
  destruct (store !! sid) as [s'|]; simpl; [|naive_solver].
  case_decide as Hb; [naive_solver|].
  assert (s_agent_id s' = ag ∧ s_runtime_id s' = rt) as [Ha Hr]
    by (split; apply dec_stable; naive_solver).
  destruct (s_revoked s') eqn:Hrev; [naive_solver congruence|].
  case_decide; split; intros Heq; simplify_eq/=.
  - destruct Heq as (? & ? & ? & ? & ?). simplify_eq. lia.
  - split_and!; [done..|lia].
  - naive_solver.
Qed.

(** One operation of the store, as clients interleave them. *)
Inductive session_op : Set :=
| SCreate (agent_id runtime_id : string) (ttl : Z) (now clock : Z) (uuid : string)
| SRevoke (sid : string).

Definition session_step (store : SessionStore) (o : session_op) : SessionStore :=
  match o with
  | SCreate ag rt ttl now clock uuid =>
      (session_create ag rt ttl (Some now) clock uuid store).2
  | SRevoke sid => (session_revoke sid store).2
  end.

(** [uuid4] never draws an identifier that is in use. *)
Definition session_fresh (store : SessionStore) (o : session_op) : Prop :=
  match o with
  | SCreate _ _ _ _ _ uuid => store !! ("ses_" +:+ uuid) = None
  | SRevoke _ => True
  end.
