(* ===== verification/Delegation.v ===== *)
(** Structured delegation ([cvztte/delegation/model.py]): issuance of root and
    child delegations, validation along the ancestry, revocation with its
    propagation sweep, and the no-widening guarantees. *)

From S2P Require Export Action Session.

(** [_CLEARANCE_ORDER] *)
Definition clearance_order (c : DataClassification) : Z :=
  match c with PUBLIC => 0 | INTERNAL => 1 | CONFIDENTIAL => 2 | SECRET => 3 end.

(** [delegation.model.AuthorityKind] *)
Inductive AuthorityKind : Set := SECURITY_ADMIN | AUTHORIZED_USER | ORCHESTRATOR_IAM.

(** [delegation.model.PolicyAuthority] *)
Record PolicyAuthority : Set := mkAuthority { authority_id : string; kind : AuthorityKind }.

(** [delegation.model.Delegation] *)
Record Delegation : Set := mkDelegation {
  delegation_id : string;
  subject_agent_id : string;
  capabilities : gset string;
  resource_scopes : gset string;
  clearance : DataClassification;
  not_before : Z;
  not_after : Z;
  max_chain_depth : Z;
  depth : Z;
  parent_id : option string;
  issuer_id : string;
  revoked : bool;
  revoked_at : option Z
}.

(** [Delegation.is_valid_at] *)
Definition is_valid_at (d : Delegation) (now : Z) : bool :=
  negb (revoked d) && bool_decide (not_before d ≤ now < not_after d)%Z.

(** [DelegationRegistry] *)
Record DelegationRegistry : Type := mkRegistry {
  authorities : gmap string PolicyAuthority;
  delegations : odict string Delegation
}.

Definition set_delegations (r : DelegationRegistry) (ds : odict string Delegation) :=
  mkRegistry (authorities r) ds.

(** [DelegationRegistry.__init__] *)
Definition new_registry (auths : list PolicyAuthority) : DelegationRegistry :=
  mkRegistry (foldl (λ m a, <[authority_id a := a]> m) ∅ auths) [].

(** [DelegationRegistry.register_authority] *)
Definition register_authority (a : PolicyAuthority) : M DelegationRegistry unit :=
  λ r, (Ok tt, mkRegistry (<[authority_id a := a]> (authorities r)) (delegations r)).

(** [DelegationRegistry._require], and [get], which is the same call *)
Definition require_delegation (r : DelegationRegistry) (did : string) : res Delegation :=
  match dget did (delegations r) with
  | None => err DELEGATION_INVALID "unknown delegation"
  | Some d => Ok d
  end.

(** [DelegationRegistry.issue_root] *)
Definition issue_root (auth_id subject : string) (caps scopes : gset string)
    (clr : DataClassification) (nbf naf mcd : Z) (uuid : string)
    : M DelegationRegistry Delegation :=
  λ r,
    match authorities r !! auth_id with
    | None => (err DELEGATION_INVALID "root delegation from untrusted issuer", r)
    | Some _ =>
        if decide (auth_id = subject) then
          (err DELEGATION_INVALID "authority cannot delegate to itself", r)
        else if decide (naf ≤ nbf)%Z then
          (err DELEGATION_INVALID "empty validity window", r)
        else if decide (mcd < 0)%Z then
          (err DELEGATION_INVALID "invalid chain depth", r)
        else
          let d := mkDelegation ("dlg_" +:+ uuid) subject caps scopes clr nbf naf
                     mcd 0 None auth_id false None in
          (Ok d, set_delegations r (dset (delegation_id d) d (delegations r)))
    end.

(** [DelegationRegistry.issue_child]; [clock] is [_utcnow()] *)
Definition issue_child (pid subject : string) (caps scopes : gset string)
    (clr : DataClassification) (nbf naf clock : Z) (uuid : string)
    : M DelegationRegistry Delegation :=
  λ r,
    match require_delegation r pid with
    | Err e => (Err e, r)
    | Ok parent =>
        let child_depth := (depth parent + 1)%Z in
        if negb (is_valid_at parent clock) then
          (err DELEGATION_INVALID "parent delegation invalid/expired/revoked", r)
        else if decide (child_depth > max_chain_depth parent)%Z then
          (err DELEGATION_INVALID "chain depth exceeded", r)
        else if decide (¬ caps ⊆ capabilities parent) then
          (err DELEGATION_INVALID "child capabilities exceed parent", r)
        else if decide (¬ scopes ⊆ resource_scopes parent) then
          (err DELEGATION_INVALID "child resource scope widens parent", r)
        else if decide (clearance_order clr > clearance_order (clearance parent))%Z then
          (err DELEGATION_INVALID "child clearance exceeds parent", r)
        else if decide (nbf < not_before parent ∨ naf > not_after parent)%Z then
          (err DELEGATION_INVALID "child validity exceeds parent", r)
        else if decide (naf ≤ nbf)%Z then
          (err DELEGATION_INVALID "empty validity window", r)
        else
          let d := mkDelegation ("dlg_" +:+ uuid) subject caps scopes clr nbf naf
                     (max_chain_depth parent) child_depth (Some pid)
                     (subject_agent_id parent) false None in
          (Ok d, set_delegations r (dset (delegation_id d) d (delegations r)))
    end.

(** [node.parent_id] is followed when it is truthy: neither [None] nor [""]. *)
Definition parent_node (ds : odict string Delegation) (d : Delegation) : option Delegation :=
  match parent_id d with
  | Some p => if decide (p = "") then None else dget p ds
  | None => None
  end.

(** A loop that has not ended within its fuel; theorems rule it out. *)
Definition diverges {A} : res A := Err (PyExc "diverges" "").

(** The [while node is not None] loop of [validate_for_agent]. *)
Fixpoint walk_chain (fuel : nat) (ds : odict string Delegation) (now : Z)
    (seen : list string) (node : option Delegation) : res unit :=
  match node with
  | None => Ok tt
  | Some d =>
      match fuel with
      | 0 => diverges
      | S fuel =>
          if decide (delegation_id d ∈ seen) then
            err DELEGATION_INVALID "delegation cycle"
          else if negb (is_valid_at d now) then
            err DELEGATION_INVALID "delegation chain invalid/expired/revoked"
          else walk_chain fuel ds now (delegation_id d :: seen) (parent_node ds d)
      end
  end.

(** [DelegationRegistry.validate_for_agent] *)
Definition validate_for_agent (r : DelegationRegistry) (did agent_id : string)
    (now : option Z) (clock : Z) : res Delegation :=
  let now := or_now now clock in
  let? d := require_delegation r did in
  if decide (subject_agent_id d ≠ agent_id) then
    err DELEGATION_INVALID "delegation not bound to agent"
  else
    let? _ := walk_chain (S (length (delegations r))) (delegations r) now [] (Some d) in
    Ok d.

Definition revoke_record (clock : Z) (d : Delegation) : Delegation :=
  mkDelegation (delegation_id d) (subject_agent_id d) (capabilities d)
    (resource_scopes d) (clearance d) (not_before d) (not_after d)
    (max_chain_depth d) (depth d) (parent_id d) (issuer_id d) true (Some clock).

#[export] Instance Delegation_eq_dec : EqDecision Delegation.
Proof. solve_decision. Defined.

(** The test of the inner [for] loop of [revoke]. *)
Definition orphaned (ds : odict string Delegation) (d : Delegation) : bool :=
  negb (revoked d) &&
  match parent_id d with
  | Some p => match dget p ds with Some pd => revoked pd | None => false end
  | None => false
  end.

(** One sweep [for d in self._delegations.values()]: the objects are mutated in
    place, so later iterations see earlier revocations. *)
Fixpoint sweep (clock : Z) (keys : list string)
    (st : odict string Delegation * list string * bool)
    : odict string Delegation * list string * bool :=
  match keys with
  | [] => st
  | k :: keys =>
      let '(ds, ids, changed) := st in
      match dget k ds with
      | Some d =>
          if orphaned ds d then
            sweep clock keys (dset k (revoke_record clock d) ds, ids ++ [delegation_id d], true)
          else sweep clock keys st
      | None => sweep clock keys st
      end
  end.

(** [while changed: ...] *)
Fixpoint revoke_loop (fuel : nat) (clock : Z) (ds : odict string Delegation)
    (ids : list string) : option (odict string Delegation * list string) :=
  match fuel with
  | 0 => None
  | S fuel =>
      let '(ds', ids', changed) := sweep clock ds.*1 (ds, ids, false) in
      if changed then revoke_loop fuel clock ds' ids' else Some (ds', ids')
  end.

(** [DelegationRegistry.revoke] *)
Definition revoke (did : string) (clock : Z) : M DelegationRegistry (list string) :=
  λ r,
    match require_delegation r did with
    | Err e => (Err e, r)
    | Ok root =>
        let '(ds, ids) :=
          if revoked root then (delegations r, [])
          else (dset did (revoke_record clock root) (delegations r), [delegation_id root]) in
        match revoke_loop (S (length ds)) clock ds ids with
        | Some (ds', ids') => (Ok ids', set_delegations r ds')
        | None => (diverges, r)
        end
    end.

(** * Ancestry and well-formedness *)

(** [desc ds k a]: following parents from [k] reaches [a]. *)
Inductive desc (ds : odict string Delegation) : string → string → Prop :=
| desc_refl k d : dget k ds = Some d → desc ds k k
| desc_step k d p a :
    dget k ds = Some d → parent_id d = Some p → desc ds p a → desc ds k a.

(** What [issue_child] guarantees of a child against its parent. *)
Record narrows (c p : Delegation) : Prop := {
  nw_caps : capabilities c ⊆ capabilities p;
  nw_scopes : resource_scopes c ⊆ resource_scopes p;
  nw_clr : (clearance_order (clearance c) ≤ clearance_order (clearance p))%Z;
  nw_from : (not_before p ≤ not_before c)%Z;
  nw_until : (not_after c ≤ not_after p)%Z;
  nw_depth : depth c = (depth p + 1)%Z;
  nw_max : max_chain_depth c = max_chain_depth p;
  nw_bound : (depth c ≤ max_chain_depth p)%Z;
  nw_issuer : issuer_id c = subject_agent_id p
}.

(** Issued by a registered authority other than the subject itself. *)
Definition rooted (auths : gmap string PolicyAuthority) (d : Delegation) : Prop :=
  depth d = 0%Z ∧ (0 ≤ max_chain_depth d)%Z ∧ is_Some (auths !! issuer_id d) ∧
  issuer_id d ≠ subject_agent_id d.

Record wf (r : DelegationRegistry) : Prop := {
  wf_nodup : NoDup (delegations r).*1;
  wf_id : ∀ k d, dget k (delegations r) = Some d → delegation_id d = k ∧ k ≠ "";
  wf_root : ∀ k d, dget k (delegations r) = Some d → parent_id d = None →
    rooted (authorities r) d;
  wf_child : ∀ k d p, dget k (delegations r) = Some d → parent_id d = Some p →
    ∃ pd, dget p (delegations r) = Some pd ∧ narrows d pd;
  wf_depth : ∀ k d, dget k (delegations r) = Some d → (0 ≤ depth d)%Z;
  wf_revoked : ∀ k d p pd, dget k (delegations r) = Some d → parent_id d = Some p →
    dget p (delegations r) = Some pd → revoked pd = true → revoked d = true
}.

Create HintDb deleg.
#[export] Hint Constructors desc : deleg.

(** Descent composes the narrowings. *)
Record envelope_le (c a : Delegation) : Prop := {
  ev_caps : capabilities c ⊆ capabilities a;
  ev_scopes : resource_scopes c ⊆ resource_scopes a;
  ev_clr : (clearance_order (clearance c) ≤ clearance_order (clearance a))%Z;
  ev_from : (not_before a ≤ not_before c)%Z;
  ev_until : (not_after c ≤ not_after a)%Z;
  ev_max : max_chain_depth c = max_chain_depth a;
  ev_depth : (depth a ≤ depth c)%Z
}.

#[export] Instance envelope_le_preorder : PreOrder envelope_le.
Proof.
  split.
  - intros d. by split.
  - intros a b c [] []. split; try (by etrans); try set_solver; lia.
Qed.

Lemma narrows_envelope c p : narrows c p → envelope_le c p.
Proof. intros []. split; try done; lia. Qed.

Lemma desc_envelope r k a d :
  wf r → desc (delegations r) k a → dget k (delegations r) = Some d →
  ∃ ad, dget a (delegations r) = Some ad ∧ envelope_le d ad.
Proof.
  intros Hwf Hdesc. revert d.
  induction Hdesc as [k d Hd|k d p a Hd Hp _ IH]; intros d' Hd'; simplify_eq.
  - eexists. split; [done|reflexivity].
  - destruct (wf_child _ Hwf _ _ _ Hd Hp) as (pd & Hpd & Hn).
    destruct (IH _ Hpd) as (ad & Had & Hle). exists ad. split; [done|].
    etrans; [by apply narrows_envelope|done].
Qed.

(** Every chain ends in a root. *)
Lemma desc_to_root r k d :
  wf r → dget k (delegations r) = Some d →
  ∃ a ad, desc (delegations r) k a ∧ dget a (delegations r) = Some ad ∧
          parent_id ad = None.
Proof.
  intros Hwf. remember (Z.to_nat (depth d)) as n eqn:Hn. revert k d Hn.
  induction n as [|n IH]; intros k d Hn Hd.
  all: destruct (parent_id d) as [p|] eqn:Hp; [|by eauto 6 with deleg].
  all: destruct (wf_child _ Hwf _ _ _ Hd Hp) as (pd & Hpd & Hnar).
  all: pose proof (wf_depth _ Hwf _ _ Hd); pose proof (wf_depth _ Hwf _ _ Hpd).
  all: pose proof (nw_depth _ _ Hnar).
  - lia.
  - destruct (IH p pd ltac:(lia) Hpd) as (a & ad & ? & ? & ?). eauto 6 with deleg.
Qed.

Lemma chain_depth_bound r k d :
  wf r → dget k (delegations r) = Some d → (depth d ≤ max_chain_depth d)%Z.
Proof.
  intros Hwf Hd. destruct (parent_id d) as [p|] eqn:Hp.
  - destruct (wf_child _ Hwf _ _ _ Hd Hp) as (pd & _ & []). lia.
  - destruct (wf_root _ Hwf _ _ Hd Hp) as (? & ? & _). lia.
Qed.

(** * Preservation *)

Lemma dlg_id_nonempty uuid : "dlg_" +:+ uuid ≠ "".
Proof. done. Qed.

(** Adding a fresh delegation under a live parent (or as a root). *)
Lemma wf_add r d :
  wf r → delegation_id d ≠ "" → dget (delegation_id d) (delegations r) = None →
  (0 ≤ depth d)%Z →
  (parent_id d = None → rooted (authorities r) d) →
  (∀ p, parent_id d = Some p →
    ∃ pd, dget p (delegations r) = Some pd ∧ narrows d pd ∧ revoked pd = false) →
  wf (set_delegations r (dset (delegation_id d) d (delegations r))).
Proof.
  intros Hwf Hne Hfresh Hdep Hroot Hpar.
  assert (Hget : ∀ k e, dget k (dset (delegation_id d) d (delegations r)) = Some e →
    (k = delegation_id d ∧ e = d) ∨ (k ≠ delegation_id d ∧ dget k (delegations r) = Some e)).
  { intros k e. rewrite dget_dset. case_decide; naive_solver. }
  assert (Hold : ∀ p pd, dget p (delegations r) = Some pd →
    dget p (dset (delegation_id d) d (delegations r)) = Some pd).
  { intros p pd Hp. rewrite dget_dset_ne; [done|congruence]. }
  split; simpl.
  - apply dset_NoDup, Hwf.
  - intros k e [[-> ->]|[_ He]]%Hget; [done|by eapply wf_id].
  - intros k e [[-> ->]|[_ He]]%Hget ?; [by apply Hroot|by eapply wf_root].
  - intros k e p [[-> ->]|[_ He]]%Hget Hp.
    + destruct (Hpar _ Hp) as (pd & ? & ? & _). eauto.
    + destruct (wf_child _ Hwf _ _ _ He Hp) as (pd & ? & ?). eauto.
  - intros k e [[-> ->]|[_ He]]%Hget; [done|by eapply wf_depth].
  - intros k e p pd [[-> ->]|[_ He]]%Hget Hp [[-> ->]|[_ Hpd]]%Hget Hrev.
    + done.
    + destruct (Hpar _ Hp) as (pd' & ? & ? & ?). congruence.
    + destruct (wf_child _ Hwf _ _ _ He Hp) as (pd & ? & ?). congruence.
    + by eapply wf_revoked.
Qed.

Definition fresh_id (r : DelegationRegistry) (uuid : string) : Prop :=
  dget ("dlg_" +:+ uuid) (delegations r) = None.

Lemma issue_root_wf auth s caps scopes clr nbf naf mcd uuid r :
  wf r → fresh_id r uuid → wf (issue_root auth s caps scopes clr nbf naf mcd uuid r).2.
Proof.
  intros Hwf Hfresh. unfold issue_root.
  destruct (authorities r !! auth) as [a|] eqn:Ha; [|done].
  repeat case_decide; try done. apply wf_add; simpl; try done.
  intros _. split_and!; simpl; [done|lia|by eexists|done].
Qed.

Lemma issue_child_ok pid s caps scopes clr nbf naf clock uuid r d r' :
  issue_child pid s caps scopes clr nbf naf clock uuid r = (Ok d, r') →
  ∃ parent, dget pid (delegations r) = Some parent ∧ is_valid_at parent clock = true ∧
    delegation_id d = "dlg_" +:+ uuid ∧ parent_id d = Some pid ∧ narrows d parent ∧
    (not_before d < not_after d)%Z ∧ revoked d = false ∧
    r' = set_delegations r (dset (delegation_id d) d (delegations r)).
Proof.
  unfold issue_child, require_delegation.
  destruct (dget pid (delegations r)) as [parent|]; simpl; [|done].
  destruct (is_valid_at parent clock) eqn:Hv; simpl; [|done].
  repeat case_decide; try done. intros [= <- <-]. exists parent.
  split_and!; try done; simpl; [|lia].
  split; simpl; try done; try lia; by apply dec_stable.
Qed.

Lemma valid_not_revoked d now : is_valid_at d now = true → revoked d = false.
Proof. unfold is_valid_at. by destruct (revoked d). Qed.

Lemma issue_child_err pid s caps scopes clr nbf naf clock uuid r e r' :
  issue_child pid s caps scopes clr nbf naf clock uuid r = (Err e, r') → r' = r.
Proof.
  unfold issue_child, require_delegation.
  destruct (dget pid (delegations r)) as [parent|]; simpl; [|naive_solver].
  destruct (is_valid_at parent clock); simpl; [|naive_solver].
  repeat case_decide; naive_solver.
Qed.

Lemma issue_child_wf pid s caps scopes clr nbf naf clock uuid r :
  wf r → fresh_id r uuid →
  wf (issue_child pid s caps scopes clr nbf naf clock uuid r).2.
Proof.
  intros Hwf Hfresh.
  destruct (issue_child pid s caps scopes clr nbf naf clock uuid r) as [[d|e] r'] eqn:Hi.
  - apply issue_child_ok in Hi as (par & Hpar & Hv & Hid & Hp & Hn & _ & _ & ->).
    apply wf_add; rewrite ?Hid; try done.
    + pose proof (wf_depth _ Hwf _ _ Hpar). pose proof (nw_depth _ _ Hn). lia.
    + congruence.
    + intros p Hp'. rewrite Hp in Hp'. injection Hp' as <-.
      exists par. eauto using valid_not_revoked.
  - by apply issue_child_err in Hi as ->.
Qed.

(** * Revocation *)

Definition unrevoked (ds : odict string Delegation) : nat :=
  length (filter (λ kd, revoked kd.2 = false) ds).

Lemma unrevoked_length ds : unrevoked ds ≤ length ds.
Proof. apply length_filter. Qed.

Lemma unrevoked_dset k d clock ds :
  dget k ds = Some d → revoked d = false →
  S (unrevoked (dset k (revoke_record clock d) ds)) = unrevoked ds.
Proof.
  intros Hd Hr. unfold unrevoked.
  induction ds as [|[k' d'] ds IH]; simpl in *; [done|].
  case_decide as Hk; simplify_eq.
  - rewrite filter_cons_False by done. rewrite filter_cons_True by done. done.
  - rewrite !filter_cons. case_decide; simpl; rewrite IH by done; done.
Qed.

Lemma dset_present_keys {V} k (v : V) (ds : odict string V) d :
  dget k ds = Some d → (dset k v ds).*1 = ds.*1.
Proof.
  intros Hd%dget_elem. rewrite dset_keys, decide_True; [done|].
  apply list_elem_of_fmap. by exists (k, d).
Qed.

Lemma orphaned_spec ds d :
  orphaned ds d = true ↔ revoked d = false ∧
  ∃ p pd, parent_id d = Some p ∧ dget p ds = Some pd ∧ revoked pd = true.
Proof.
  unfold orphaned. destruct (revoked d), (parent_id d) as [p|]; simpl; [naive_solver..| |naive_solver].
  destruct (dget p ds) eqn:?; naive_solver.
Qed.

Section revocation.
Context (clock : Z) (r0 : DelegationRegistry) (Hwf : wf r0) (root : string).
Notation ds0 := (delegations r0).

(** What has been revoked so far is a set of live descendants of [root]. *)
Record rev_inv (ds : odict string Delegation) (ids : list string) : Prop := {
  ri_keys : ds.*1 = ds0.*1;
  ri_ids : ∀ k, k ∈ ids → is_Some (dget k ds0);
  ri_get : ∀ k d, dget k ds0 = Some d →
    (dget k ds = Some d ∧ k ∉ ids) ∨
    (revoked d = false ∧ desc ds0 k root ∧
     dget k ds = Some (revoke_record clock d) ∧ k ∈ ids);
  ri_root : ∃ d, dget root ds = Some d ∧ revoked d = true
}.

Lemma rev_inv_live ds ids k d :
  rev_inv ds ids → dget k ds = Some d → revoked d = false → dget k ds0 = Some d ∧ k ∉ ids.
Proof.
  intros Hi Hd Hr. destruct (dget k ds0) as [d0|] eqn:H0.
  - destruct (ri_get _ _ Hi _ _ H0) as [[??]|(_&_&?&_)]; simplify_eq/=; naive_solver.
  - apply dget_None in H0. rewrite <-(ri_keys _ _ Hi), <-dget_None in H0. congruence.
Qed.

Lemma rev_inv_revoked ds ids k d :
  rev_inv ds ids → dget k ds = Some d → revoked d = true →
  (dget k ds0 = Some d) ∨ desc ds0 k root.
Proof.
  intros Hi Hd Hr. destruct (dget k ds0) as [d0|] eqn:H0.
  - destruct (ri_get _ _ Hi _ _ H0) as [[??]|(_&?&?&_)]; [left; congruence|by right].
  - apply dget_None in H0. rewrite <-(ri_keys _ _ Hi), <-dget_None in H0. congruence.
Qed.

Lemma rev_inv_mark ds ids k d :
  rev_inv ds ids → dget k ds = Some d → revoked d = false → desc ds0 k root →
  rev_inv (dset k (revoke_record clock d) ds) (ids ++ [delegation_id d]).
Proof.
  intros Hi Hd Hr Hdesc. destruct (rev_inv_live _ _ _ _ Hi Hd Hr) as [H0 Hk].
  destruct (wf_id _ Hwf _ _ H0) as [-> _]. split.
  - rewrite (dset_present_keys _ _ _ _ Hd). apply Hi.
  - intros k'. rewrite elem_of_app, list_elem_of_singleton. intros [?| ->].
    + by eapply ri_ids.
    + by eexists.
  - intros k' d' Hd'. rewrite dget_dset, elem_of_app, list_elem_of_singleton.
    case_decide; subst.
    + simplify_eq. right. auto.
    + destruct (ri_get _ _ Hi _ _ Hd') as [[??]|(?&?&?&?)]; [left|right]; naive_solver.
  - destruct (ri_root _ _ Hi) as (rd & Hrd & ?). rewrite dget_dset.
    case_decide; eauto.
Qed.

Lemma orphan_descends ds ids k d :
  rev_inv ds ids → dget k ds = Some d → orphaned ds d = true → desc ds0 k root.
Proof.
  intros Hi Hd (Hr & p & pd & Hp & Hpd & Hpr)%orphaned_spec.
  destruct (rev_inv_live _ _ _ _ Hi Hd Hr) as [H0 _].
  destruct (rev_inv_revoked _ _ _ _ Hi Hpd Hpr) as [Hpd0|?].
  - pose proof (wf_revoked _ Hwf _ _ _ _ H0 Hp Hpd0 Hpr). congruence.
  - eauto with deleg.
Qed.

Lemma sweep_changed keys ds ids ds' ids' c :
  sweep clock keys (ds, ids, true) = (ds', ids', c) → c = true.
Proof.
  revert ds ids. induction keys as [|k keys IH]; simpl; intros ds ids Hs.
  - congruence.
  - destruct (dget k ds) as [d|]; [destruct (orphaned ds d)|]; by eapply IH.
Qed.

Lemma sweep_spec keys ds ids changed ds' ids' changed' :
  rev_inv ds ids → sweep clock keys (ds, ids, changed) = (ds', ids', changed') →
  rev_inv ds' ids' ∧
  (changed' = false →
    ds' = ds ∧ ids' = ids ∧ ∀ k d, k ∈ keys → dget k ds = Some d → orphaned ds d = false) ∧
  unrevoked ds' ≤ unrevoked ds ∧
  (changed = false → changed' = true → unrevoked ds' < unrevoked ds).
Proof.
  revert ds ids changed. induction keys as [|k keys IH]; intros ds ids changed Hi Hs; simpl in Hs.
  { simplify_eq. split_and!; [done| |lia|congruence]. set_solver. }
  destruct (dget k ds) as [d|] eqn:Hd; [destruct (orphaned ds d) eqn:Ho|].
  - pose proof (orphan_descends _ _ _ _ Hi Hd Ho) as Hdesc.
    apply orphaned_spec in Ho as [Hr _].
    pose proof (unrevoked_dset k d clock ds Hd Hr).
    destruct (IH _ _ _ (rev_inv_mark _ _ _ _ Hi Hd Hr Hdesc) Hs) as (? & Hc & ? & _).
    apply sweep_changed in Hs as ->. split_and!; [done|done|lia|lia].
  - destruct (IH _ _ _ Hi Hs) as (? & Hc & ? & ?).
    split_and!; try done. intros Hf. destruct (Hc Hf) as (-> & -> & Hk).
    split_and!; [done..|]. intros k' d' [->|?]%elem_of_cons ?; [congruence|by eapply Hk].
  - destruct (IH _ _ _ Hi Hs) as (? & Hc & ? & ?).
    split_and!; try done. intros Hf. destruct (Hc Hf) as (-> & -> & Hk).
    split_and!; [done..|]. intros k' d' [->|?]%elem_of_cons ?; [congruence|by eapply Hk].
Qed.

Lemma revoke_loop_spec fuel ds ids :
  rev_inv ds ids → unrevoked ds < fuel →
  ∃ ds' ids', revoke_loop fuel clock ds ids = Some (ds', ids') ∧ rev_inv ds' ids' ∧
    (∀ k d, dget k ds' = Some d → orphaned ds' d = false).
Proof.
  revert ds ids. induction fuel as [|fuel IH]; intros ds ids Hi Hf; [lia|]. simpl.
  destruct (sweep clock ds.*1 (ds, ids, false)) as [[ds' ids'] changed] eqn:Hs.
  destruct (sweep_spec _ _ _ _ _ _ _ Hi Hs) as (Hi' & Hc & Hle & Hlt).
  destruct changed.
  - apply IH; [done|]. specialize (Hlt eq_refl eq_refl). lia.
  - destruct (Hc eq_refl) as (-> & -> & Hk). exists ds, ids. split_and!; try done.
    intros k d Hd. apply (Hk k); [|done]. apply dget_elem in Hd.
    apply list_elem_of_fmap. by exists (k, d).
Qed.

(** Once no orphan is left every descendant of [root] is revoked. *)
Lemma rev_inv_closed ds ids k a :
  rev_inv ds ids → (∀ k d, dget k ds = Some d → orphaned ds d = false) →
  desc ds0 k a → a = root → ∃ d, dget k ds = Some d ∧ revoked d = true.
Proof.
  intros Hi Ho. induction 1 as [k d Hd|k d p a Hd Hp _ IH]; intros ->.
  - apply Hi.
  - destruct (IH eq_refl) as (pd & Hpd & Hpr).
    destruct (ri_get _ _ Hi _ _ Hd) as [[Hk _]|(?&?&Hk&_)]; [|by eauto].
    exists d. split; [done|]. specialize (Ho _ _ Hk).
    destruct (revoked d) eqn:Hr; [done|].
    rewrite (proj2 (orphaned_spec ds d)) in Ho; [done|]. eauto 10.
Qed.
End revocation.

(** The record a delegation becomes when it is revoked now. *)
Definition after_revoke (clock : Z) (d : Delegation) : Delegation :=
  if revoked d then d else revoke_record clock d.

Lemma revoke_spec did clock r root :
  wf r → dget did (delegations r) = Some root →
  ∃ ids r', revoke did clock r = (Ok ids, r') ∧
    authorities r' = authorities r ∧ (delegations r').*1 = (delegations r).*1 ∧
    (∀ k d, dget k (delegations r) = Some d → desc (delegations r) k did →
       dget k (delegations r') = Some (after_revoke clock d)) ∧
    (∀ k d, dget k (delegations r) = Some d → ¬ desc (delegations r) k did →
       dget k (delegations r') = Some d) ∧
    (∀ k d, dget k (delegations r) = Some d →
       k ∈ ids ↔ desc (delegations r) k did ∧ revoked d = false) ∧
    (∀ k, k ∈ ids → is_Some (dget k (delegations r))) ∧
    (∀ k d, dget k (delegations r') = Some d → orphaned (delegations r') d = false).
Proof.
  intros Hwf Hroot. unfold revoke, require_delegation. rewrite Hroot.
  assert (Hinit : ∃ ds ids,
    (if revoked root then (delegations r, [])
     else (dset did (revoke_record clock root) (delegations r), [delegation_id root]))
    = (ds, ids) ∧ rev_inv clock r did ds ids).
  { destruct (wf_id _ Hwf _ _ Hroot) as [Hid _].
    destruct (revoked root) eqn:Hr; (do 2 eexists; split; [reflexivity|]).
    - split; [done|set_solver| |by eauto]. intros k d Hd. left. set_solver.
    - split.
      + by erewrite dset_present_keys.
      + intros k. rewrite Hid, list_elem_of_singleton. intros ->. by eexists.
      + intros k d Hd. rewrite dget_dset, Hid, list_elem_of_singleton.
        case_decide; subst; [right|left; naive_solver].
        simplify_eq. split_and!; eauto with deleg.
      + rewrite dget_dset_eq. eauto. }
  destruct Hinit as (ds & ids & -> & Hi).
  destruct (revoke_loop_spec clock r Hwf did (S (length ds)) ds ids Hi) as (ds' & ids' & -> & Hi' & Ho).
  { pose proof (unrevoked_length ds). lia. }
  exists ids', (set_delegations r ds'). simpl.
  assert (Hall : ∀ k d, dget k (delegations r) = Some d → desc (delegations r) k did →
    dget k ds' = Some (after_revoke clock d) ∧ (k ∈ ids' ↔ revoked d = false)).
  { intros k d Hd Hdesc.
    destruct (rev_inv_closed clock r did ds' ids' k did Hi' Ho Hdesc eq_refl) as (d' & Hd' & Hr').
    unfold after_revoke.
    destruct (ri_get _ _ _ _ _ Hi' _ _ Hd) as [[Hg Hk]|(Hr & _ & Hg & Hk)].
    - assert (d' = d) as -> by congruence. rewrite Hr'. naive_solver.
    - rewrite Hr. naive_solver. }
  split_and!; [done|done|apply Hi'|naive_solver| | |apply Hi'|exact Ho].
  - intros k d Hd Hnd. destruct (ri_get _ _ _ _ _ Hi' _ _ Hd) as [[Hg _]|(_ & ? & _)]; done.
  - intros k d Hd. destruct (ri_get _ _ _ _ _ Hi' _ _ Hd) as [[Hg Hk]|(? & ? & _ & ?)]; [|done].
    split; [done|]. intros [Hdesc Hr]. by apply (Hall k d Hd Hdesc).
Qed.

Lemma after_revoke_fields clock d :
  let d' := after_revoke clock d in
  delegation_id d' = delegation_id d ∧ parent_id d' = parent_id d ∧
  depth d' = depth d ∧ issuer_id d' = issuer_id d ∧
  subject_agent_id d' = subject_agent_id d ∧ max_chain_depth d' = max_chain_depth d ∧
  envelope_le d' d ∧ envelope_le d d' ∧ revoked d' = true.
Proof.
  unfold after_revoke. destruct (revoked d) eqn:Hr; split_and!; try done; by split.
Qed.

(** A delegation before and after a revocation: the same, or revoked. *)
Lemma revoke_lookup did clock r root ids r' k d' :
  wf r → dget did (delegations r) = Some root → revoke did clock r = (Ok ids, r') →
  dget k (delegations r') = Some d' →
  ∃ d, dget k (delegations r) = Some d ∧ (d' = d ∨ d' = after_revoke clock d).
Proof.
  intros Hwf Hroot Hr Hd'.
  destruct (revoke_spec did clock r root Hwf Hroot) as (ids2 & r2 & Heq & _ & Hk & Hdesc & Hnd & Hids & _).
  rewrite Hr in Heq. simplify_eq.
  destruct (dget k (delegations r)) as [d|] eqn:Hd.
  - exists d. split; [done|]. destruct (decide (k ∈ ids2)) as [Hin|Hin].
    + apply (Hids _ _ Hd) in Hin as [? _]. rewrite (Hdesc _ _ Hd) in Hd' by done. naive_solver.
    + destruct (revoked d) eqn:Hrev.
      * right. unfold after_revoke. rewrite Hrev.
        destruct (decide (d' = d)) as [|Hne]; [done|]. exfalso.
        assert (Hnn : ¬ ¬ desc (delegations r) k did)
          by (intros ?; rewrite (Hnd _ _ Hd) in Hd' by done; congruence).
        apply Hnn. intros ?. rewrite (Hdesc _ _ Hd) in Hd' by done.
        unfold after_revoke in Hd'. rewrite Hrev in Hd'. congruence.
      * left. assert (¬ desc (delegations r) k did) as Hn
          by (intros ?; apply Hin, (Hids _ _ Hd); done).
        rewrite (Hnd _ _ Hd Hn) in Hd'. congruence.
  - apply dget_None in Hd. rewrite <-Hk, <-dget_None in Hd. congruence.
Qed.

Lemma desc_trans_child ds k p d a :
  dget k ds = Some d → parent_id d = Some p → desc ds p a → desc ds k a.
Proof. eauto with deleg. Qed.

Lemma revoke_missing did clock r :
  dget did (delegations r) = None → (revoke did clock r).2 = r.
Proof. intros H. unfold revoke, require_delegation. by rewrite H. Qed.

Lemma revoke_wf did clock r : wf r → wf (revoke did clock r).2.
Proof.
  intros Hwf. destruct (dget did (delegations r)) as [root|] eqn:Hroot;
    [|by rewrite revoke_missing].
  destruct (revoke_spec did clock r root Hwf Hroot) as
    (ids & r' & Heq & Hauth & Hkeys & _ & _ & _ & _ & Hno).
  rewrite Heq. simpl.
  assert (Hget : ∀ k d', dget k (delegations r') = Some d' →
    ∃ d, dget k (delegations r) = Some d ∧ (d' = d ∨ d' = after_revoke clock d))
    by (intros; by eapply revoke_lookup).
  assert (Hfwd : ∀ k d, dget k (delegations r) = Some d →
    ∃ d', dget k (delegations r') = Some d' ∧ (d' = d ∨ d' = after_revoke clock d)).
  { intros k d Hd. destruct (dget k (delegations r')) as [d'|] eqn:Hd'.
    - destruct (Hget _ _ Hd') as (d2 & ? & ?). simplify_eq. eauto.
    - apply dget_None in Hd'. rewrite Hkeys, <-dget_None in Hd'. congruence. }
  split.
  - rewrite Hkeys. apply Hwf.
  - intros k d' (d & Hd & Hor)%Hget. destruct (after_revoke_fields clock d) as (Hid & _).
    destruct (wf_id _ Hwf _ _ Hd). destruct Hor as [->| ->]; rewrite ?Hid; done.
  - intros k d' (d & Hd & Hor)%Hget Hp. rewrite Hauth.
    destruct (after_revoke_fields clock d) as (_ & Hp' & He & Hi & Hs & Hm & _).
    assert (rooted (authorities r) d) as [].
    { eapply wf_root; eauto. destruct Hor as [->| ->]; congruence. }
    destruct Hor as [->| ->]; [by split|]. unfold rooted. by rewrite He, Hi, Hs, Hm.
  - intros k d' p (d & Hd & Hor)%Hget Hp.
    destruct (after_revoke_fields clock d) as (_ & Hp' & He & Hi & Hs & Hm & Hle & Hge & _).
    destruct (wf_child _ Hwf k d p Hd) as (pd & Hpd & Hn).
    { destruct Hor as [->| ->]; congruence. }
    destruct (Hfwd _ _ Hpd) as (pd' & Hpd' & Hor'). exists pd'. split; [done|].
    destruct (after_revoke_fields clock pd) as (_ & _ & ? & ? & ? & ? & [] & [] & _).
    destruct Hle, Hge, Hn. destruct Hor as [->| ->], Hor' as [->| ->];
      (split; [set_solver|set_solver|lia..|congruence]) ||
      (split; [set_solver|set_solver|lia|lia|lia|lia|congruence|lia|congruence]).
  - intros k d' (d & Hd & Hor)%Hget. destruct (after_revoke_fields clock d) as (_ & _ & He & _).
    pose proof (wf_depth _ Hwf _ _ Hd). destruct Hor as [->| ->]; lia.
  - intros k d' p pd' Hd' Hp Hpd' Hrev. destruct (revoked d') eqn:Hlive; [done|].
    rewrite <-(Hno _ _ Hd'). apply orphaned_spec. eauto 10.
Qed.

(** * Validation along the chain *)

Lemma parent_node_wf r k d :
  wf r → dget k (delegations r) = Some d →
  parent_node (delegations r) d =
    match parent_id d with Some p => dget p (delegations r) | None => None end.
Proof.
  intros Hwf Hd. unfold parent_node. destruct (parent_id d) as [p|] eqn:Hp; [|done].
  destruct (wf_child _ Hwf _ _ _ Hd Hp) as (pd & Hpd & _).
  destruct (wf_id _ Hwf _ _ Hpd). by rewrite decide_False.
Qed.

(** Validity is inherited upwards: windows are nested and revocation has been
    propagated to every descendant. *)
Lemma valid_parent r k d p pd now :
  wf r → dget k (delegations r) = Some d → parent_id d = Some p →
  dget p (delegations r) = Some pd → is_valid_at d now = true →
  is_valid_at pd now = true.
Proof.
  intros Hwf Hd Hp Hpd. destruct (wf_child _ Hwf _ _ _ Hd Hp) as (pd' & ? & Hn).
  simplify_eq. pose proof (nw_from _ _ Hn). pose proof (nw_until _ _ Hn).
  unfold is_valid_at. rewrite !andb_true_iff, !negb_true_iff, !bool_decide_eq_true.
  intros [Hr ?]. split; [|lia]. destruct (revoked pd) eqn:Hpr; [|done].
  pose proof (wf_revoked _ Hwf _ _ _ _ Hd Hp Hpd Hpr). congruence.
Qed.

Lemma valid_ancestors r k a now :
  wf r → desc (delegations r) k a → ∀ d, dget k (delegations r) = Some d →
  is_valid_at d now = true →
  ∃ ad, dget a (delegations r) = Some ad ∧ is_valid_at ad now = true.
Proof.
  intros Hwf. induction 1 as [k d Hd|k d p a Hd Hp _ IH]; intros d' Hd' Hv;
    assert (d' = d) as -> by congruence.
  - eauto.
  - destruct (wf_child _ Hwf _ _ _ Hd Hp) as (pd & Hpd & _).
    eauto using valid_parent.
Qed.

Definition chain_invalid : res unit :=
  err DELEGATION_INVALID "delegation chain invalid/expired/revoked".

(** The loop ends within its fuel and its cycle guard never fires: the keys
    seen have greater depth, so they are distinct. *)
Lemma walk_chain_spec r now fuel seen k d :
  wf r → dget k (delegations r) = Some d →
  NoDup seen → (∀ s, s ∈ seen → ∃ sd, dget s (delegations r) = Some sd ∧ (depth d < depth sd)%Z) →
  length (delegations r) < fuel + length seen →
  walk_chain fuel (delegations r) now seen (Some d)
  = if is_valid_at d now then Ok tt else chain_invalid.
Proof.
  intros Hwf. revert seen k d.
  induction fuel as [|fuel IH]; intros seen k d Hd Hnd Hseen Hlen.
  all: assert (Hk : k ∉ seen) by (intros (? & ? & ?)%Hseen; simplify_eq; lia).
  all: assert (S (length seen) ≤ length (delegations r)) as Hle.
  1,3: rewrite <-(length_fmap fst (delegations r)); apply (submseteq_length (k :: seen)),
    NoDup_submseteq; [by constructor|];
    intros s [->|(? & ? & _)%Hseen]%elem_of_cons; by eapply dget_key.
  { lia. }
  simpl. destruct (wf_id _ Hwf _ _ Hd) as [Hid _]. rewrite Hid, decide_False by done.
  destruct (is_valid_at d now) eqn:Hv; simpl; [|done].
  rewrite (parent_node_wf _ _ _ Hwf Hd).
  destruct (parent_id d) as [p|] eqn:Hp; [|by destruct fuel].
  destruct (wf_child _ Hwf _ _ _ Hd Hp) as (pd & Hpd & Hn). rewrite Hpd.
  pose proof (nw_depth _ _ Hn).
  erewrite IH; [by rewrite (valid_parent r k d p pd now)|done|by constructor| |simpl; lia].
  intros s [->|(sd & ? & ?)%Hseen]%elem_of_cons; eexists; split; eauto; lia.
Qed.

Lemma validate_spec r did agent now clock :
  wf r →
  validate_for_agent r did agent now clock =
    match dget did (delegations r) with
    | None => err DELEGATION_INVALID "unknown delegation"
    | Some d =>
        if decide (subject_agent_id d = agent) then
          if is_valid_at d (or_now now clock) then Ok d
          else err DELEGATION_INVALID "delegation chain invalid/expired/revoked"
        else err DELEGATION_INVALID "delegation not bound to agent"
    end.
Proof.
  intros Hwf. unfold validate_for_agent, require_delegation.
  destruct (dget did (delegations r)) as [d|] eqn:Hd; [|done]. unfold rbind.
  destruct (decide (subject_agent_id d = agent)) as [->|Hne].
  - rewrite decide_False by naive_solver.
    erewrite walk_chain_spec; [|done|done|constructor|set_solver|simpl; lia].
    by destruct (is_valid_at d (or_now now clock)).
  - by rewrite decide_True.
Qed.

(** * Histories of a registry *)

Inductive deleg_op : Type :=
| DRegister (a : PolicyAuthority)
| DIssueRoot (auth subject : string) (caps scopes : gset string)
    (clr : DataClassification) (nbf naf mcd : Z) (uuid : string)
| DIssueChild (pid subject : string) (caps scopes : gset string)
    (clr : DataClassification) (nbf naf clock : Z) (uuid : string)
| DRevoke (did : string) (clock : Z).

Definition deleg_step (r : DelegationRegistry) (o : deleg_op) : DelegationRegistry :=
  match o with
  | DRegister a => (register_authority a r).2
  | DIssueRoot a s c sc cl n1 n2 m u => (issue_root a s c sc cl n1 n2 m u r).2
  | DIssueChild p s c sc cl n1 n2 t u => (issue_child p s c sc cl n1 n2 t u r).2
  | DRevoke d t => (revoke d t r).2
  end.

(** [uuid.uuid4()] does not collide with an identifier already in use. *)
Definition deleg_fresh (r : DelegationRegistry) (o : deleg_op) : Prop :=
  match o with
  | DIssueRoot _ _ _ _ _ _ _ _ u | DIssueChild _ _ _ _ _ _ _ _ u => fresh_id r u
  | _ => True
  end.

Lemma wf_new auths : wf (new_registry auths).
Proof. split; simpl; try done. constructor. Qed.

Lemma register_authority_wf a r : wf r → wf (register_authority a r).2.
Proof.
  intros []. split; simpl; try done. intros k d Hd Hp.
  destruct (wf_root0 _ _ Hd Hp) as (? & ? & Hs & ?). split_and!; try done.
  rewrite lookup_insert_is_Some. destruct (decide (authority_id a = issuer_id d)); auto.
Qed.

Lemma deleg_step_wf r o : deleg_fresh r o → wf r → wf (deleg_step r o).
Proof.
  destruct o; simpl; intros.
  - by apply (register_authority_wf a).
  - by apply issue_root_wf.
  - by apply issue_child_wf.
  - by apply revoke_wf.
Qed.

Lemma deleg_run_wf r ops :
  guarded deleg_step deleg_fresh r ops → wf r → wf (run deleg_step r ops).
Proof. apply run_invariant_guarded, deleg_step_wf. Qed.

(** What no operation undoes: a record keeps its parent, and once revoked stays
    revoked. *)
Definition persists (r r' : DelegationRegistry) : Prop :=
  ∀ k d, dget k (delegations r) = Some d →
  ∃ d', dget k (delegations r') = Some d' ∧ (d' = d ∨ ∃ t, d' = after_revoke t d).

Lemma issue_root_persists a s c sc cl n1 n2 m u r :
  fresh_id r u → persists r (issue_root a s c sc cl n1 n2 m u r).2.
Proof.
  intros Hf k d Hd. exists d. split; [|by left]. unfold issue_root.
  destruct (authorities r !! a); [|done]. repeat case_decide; try done.
  simpl. rewrite dget_dset_ne; [done|]. intros <-. unfold fresh_id in Hf. congruence.
Qed.

Lemma issue_child_persists p s c sc cl n1 n2 t u r :
  fresh_id r u → persists r (issue_child p s c sc cl n1 n2 t u r).2.
Proof.
  intros Hf k d Hd. exists d. split; [|by left].
  destruct (issue_child p s c sc cl n1 n2 t u r) as [[d'|e] r'] eqn:Hi.
  - apply issue_child_ok in Hi as (_ & _ & _ & Hid & _ & _ & _ & _ & ->). simpl.
    rewrite dget_dset_ne; [done|]. rewrite Hid. intros <-. unfold fresh_id in Hf. congruence.
  - by apply issue_child_err in Hi as ->.
Qed.

Lemma revoke_persists did t r : wf r → persists r (revoke did t r).2.
Proof.
  intros Hwf k d Hd. destruct (dget did (delegations r)) as [root|] eqn:Hroot.
  - destruct (revoke_spec did t r root Hwf Hroot) as (ids & r' & Heq & _ & Hk & _).
    rewrite Heq. simpl. destruct (dget k (delegations r')) as [d'|] eqn:Hd'.
    + destruct (revoke_lookup _ _ _ _ _ _ _ _ Hwf Hroot Heq Hd') as (d2 & ? & Hor).
      exists d'. split; [done|]. simplify_eq. naive_solver.
    + apply dget_None in Hd'. rewrite Hk, <-dget_None in Hd'. congruence.
  - rewrite revoke_missing by done. eauto.
Qed.

Lemma deleg_step_persists r o : wf r → deleg_fresh r o → persists r (deleg_step r o).
Proof.
  intros Hwf. destruct o; simpl; intros.
  - intros k d ?. exists d. auto.
  - by apply issue_root_persists.
  - by apply issue_child_persists.
  - by apply revoke_persists.
Qed.

Lemma revoked_stays r ops did d :
  wf r → guarded deleg_step deleg_fresh r ops →
  dget did (delegations r) = Some d → revoked d = true →
  ∃ d', dget did (delegations (run deleg_step r ops)) = Some d' ∧ revoked d' = true.
Proof.
  revert r d. induction ops as [|o ops IH]; simpl; intros r d Hwf; [eauto|].
  intros [Ho Hops] Hd Hr.
  destruct (deleg_step_persists r o Hwf Ho _ _ Hd) as (d' & Hd' & Hor).
  apply (IH _ d'); [by apply deleg_step_wf|done..|].
  destruct Hor as [->|[t ->]]; [done|]. by destruct (after_revoke_fields t d) as (?&?&?&?&?&?&?&?&?).
Qed.

(** * Properties *)

(** A registry reachable from a configuration of trusted authorities. *)
Definition reachable (auths : list PolicyAuthority) (ops : list deleg_op)
    (r : DelegationRegistry) : Prop :=
  guarded deleg_step deleg_fresh (new_registry auths) ops ∧
  r = run deleg_step (new_registry auths) ops.

Lemma reachable_wf auths ops r : reachable auths ops r → wf r.
Proof. intros [Hg ->]. apply deleg_run_wf; [done|apply wf_new]. Qed.

(** C23. No operation sequence ever produces a delegation that is wider than an
    ancestor: along the parent chain capabilities and scopes only shrink, the
    clearance and the validity window only narrow, the depth stays within the
    root's bound, and the chain ends in a root issued by a registered authority
    to somebody other than itself (no self-authorization). *)
Theorem delegation_no_widening auths ops r k d :
  reachable auths ops r → dget k (delegations r) = Some d →
  (∀ a, desc (delegations r) k a →
    ∃ ad, dget a (delegations r) = Some ad ∧ envelope_le d ad ∧
          (depth d ≤ max_chain_depth ad)%Z) ∧
  (∃ a ad, desc (delegations r) k a ∧ dget a (delegations r) = Some ad ∧
    parent_id ad = None ∧ is_Some (authorities r !! issuer_id ad) ∧
    issuer_id ad ≠ subject_agent_id ad).
Proof.
  intros Hwf%reachable_wf Hd. split.
  - intros a Ha. destruct (desc_envelope _ _ _ _ Hwf Ha Hd) as (ad & Had & Hle).
    exists ad. split_and!; [done..|]. rewrite <-(ev_max _ _ Hle).
    by eapply chain_depth_bound.
  - destruct (desc_to_root _ _ _ Hwf Hd) as (a & ad & ? & Had & Hp).
    destruct (wf_root _ Hwf _ _ Had Hp) as (_ & _ & ? & ?). eauto 10.
Qed.

(** Revoking a registered delegation always terminates and revokes exactly
    it and its descendants, however the dictionary is ordered: they become
    revoked, every other record is untouched, and the identifiers returned are
    those that were live before. *)
Theorem revoke_exact auths ops r did clock root :
  reachable auths ops r → dget did (delegations r) = Some root →
  ∃ ids r', revoke did clock r = (Ok ids, r') ∧
    (∀ k d, dget k (delegations r) = Some d → desc (delegations r) k did →
      dget k (delegations r') = Some (after_revoke clock d)) ∧
    (∀ k d, dget k (delegations r) = Some d → ¬ desc (delegations r) k did →
      dget k (delegations r') = Some d) ∧
    (∀ k d, dget k (delegations r) = Some d →
      k ∈ ids ↔ desc (delegations r) k did ∧ revoked d = false).
Proof.
  intros Hwf%reachable_wf Hroot.
  destruct (revoke_spec did clock r root Hwf Hroot) as (ids & r' & ? & _ & _ & ? & ? & ? & _).
  eauto 10.
Qed.

(** The validation used by the control plane accepts a delegation exactly
    when it is registered, bound to the agent, and it and every ancestor up to
    the root are unrevoked and inside their windows; its chain walk terminates
    on every reachable registry (the cycle guard is never what stops it). *)
Theorem validate_for_agent_iff auths ops r did agent now clock d :
  reachable auths ops r →
  validate_for_agent r did agent now clock = Ok d ↔
  dget did (delegations r) = Some d ∧ subject_agent_id d = agent ∧
  ∀ a, desc (delegations r) did a →
    ∃ ad, dget a (delegations r) = Some ad ∧ is_valid_at ad (or_now now clock) = true.
Proof.
  intros Hwf%reachable_wf. rewrite validate_spec by done. split.
  - destruct (dget did (delegations r)) as [d'|] eqn:Hd; [|done].
    case_decide; [|done]. destruct (is_valid_at d' (or_now now clock)) eqn:Hv; [|done].
    intros [= ->]. split_and!; [done..|]. intros a Ha. by eapply valid_ancestors.
  - intros (Hd & <- & Hall). rewrite Hd, decide_True by done.
    destruct (Hall did) as (ad & ? & Hv); [eauto with deleg|]. simplify_eq. by rewrite Hv.
Qed.

(** Revocation is permanent and transitive: after [revoke did], no later
    history of the registry makes [did], or any delegation that descended from
    it when it was revoked, validate again for any agent at any time. *)
Theorem revocation_is_permanent auths ops ops' r did clock k d agent now clock' :
  reachable auths ops r → dget k (delegations r) = Some d →
  desc (delegations r) k did →
  guarded deleg_step deleg_fresh (revoke did clock r).2 ops' →
  is_ok (validate_for_agent (run deleg_step (revoke did clock r).2 ops')
           k agent now clock') = false.
Proof.
  intros Hwf%reachable_wf Hd Hdesc Hops.
  assert (is_Some (dget did (delegations r))) as [root Hroot]
    by (clear Hops Hd; induction Hdesc; eauto).
  destruct (revoke_spec did clock r root Hwf Hroot) as (ids & r' & Heq & _ & _ & Hrev & _).
  pose proof (revoke_wf did clock r Hwf) as Hwf'. rewrite Heq in *. simpl in *.
  destruct (after_revoke_fields clock d) as (_&_&_&_&_&_&_&_&Hr).
  destruct (revoked_stays r' ops' k _ Hwf' Hops (Hrev _ _ Hd Hdesc) Hr) as (d' & Hd' & Hr').
  rewrite validate_spec by (by apply deleg_run_wf). rewrite Hd'.
  case_decide; [|done]. unfold is_valid_at. by rewrite Hr'.
Qed.

(** * A concrete history *)

Section example.
Definition ex_auths : list PolicyAuthority := [mkAuthority "auth" SECURITY_ADMIN].
Definition ex_ops : list deleg_op :=
  [DIssueRoot "auth" "alice" {["file"; "mail"]} {["/data"]} SECRET 0 100 2 "r";
   DIssueChild "dlg_r" "bob" {["file"]} {["/data"]} INTERNAL 10 50 20 "c";
   DIssueChild "dlg_c" "eve" {["mail"]} {["/data"]} INTERNAL 10 50 20 "x"].
Definition ex_registry := run deleg_step (new_registry ex_auths) ex_ops.
Definition ex_child := mkDelegation "dlg_c" "bob" {["file"]} {["/data"]} INTERNAL
  10 50 2 1 (Some "dlg_r") "alice" false None.

Lemma ex_reachable : reachable ex_auths ex_ops ex_registry.
Proof. split; [|reflexivity]. repeat split; vm_compute; reflexivity. Qed.
Lemma ex_child_get : dget "dlg_c" (delegations ex_registry) = Some ex_child.
Proof. vm_compute. reflexivity. Qed.
Lemma ex_child_desc : desc (delegations ex_registry) "dlg_c" "dlg_r".
Proof.
  eapply desc_step; [apply ex_child_get|reflexivity|].
  eapply desc_refl. vm_compute. reflexivity.
Qed.
End example.

(** C23 at a two-level chain. *)
Lemma delegation_no_widening_witness :
  ∃ ad, dget "dlg_r" (delegations ex_registry) = Some ad ∧ envelope_le ex_child ad ∧
    (depth ex_child ≤ max_chain_depth ad)%Z.
Proof.
  apply (delegation_no_widening ex_auths ex_ops ex_registry "dlg_c" ex_child
    ex_reachable ex_child_get), ex_child_desc.
Defined.

(** At a two-level chain: revoking the root revokes the child. *)
Lemma revoke_exact_witness :
  ∃ ids r', revoke "dlg_r" 30 ex_registry = (Ok ids, r') ∧
    dget "dlg_c" (delegations r') = Some (after_revoke 30 ex_child).
Proof.
  destruct (dget "dlg_r" (delegations ex_registry)) as [root|] eqn:Hroot;
    [|vm_compute in Hroot; discriminate].
  destruct (revoke_exact ex_auths ex_ops ex_registry "dlg_r" 30 root ex_reachable Hroot)
    as (ids & r' & Heq & Hdesc & _).
  exists ids, r'. split; [exact Heq|].
  apply Hdesc; [exact ex_child_get|exact ex_child_desc].
Defined.

(** At a two-level chain. *)
Lemma validate_for_agent_iff_witness :
  validate_for_agent ex_registry "dlg_c" "bob" (Some 30%Z) 0 = Ok ex_child ∧
  ∃ ad, dget "dlg_r" (delegations ex_registry) = Some ad ∧ is_valid_at ad 30 = true.
Proof.
  assert (validate_for_agent ex_registry "dlg_c" "bob" (Some 30%Z) 0 = Ok ex_child) as H
    by (vm_compute; reflexivity).
  split; [exact H|].
  apply (validate_for_agent_iff ex_auths ex_ops ex_registry "dlg_c" "bob" (Some 30%Z) 0
    ex_child ex_reachable) in H as (_ & _ & H).
  apply (H "dlg_r"), ex_child_desc.
Defined.

(** At a two-level chain: the root is revoked and a fresh delegation issued. *)
Lemma revocation_is_permanent_witness :
  is_ok (validate_for_agent
    (run deleg_step (revoke "dlg_r" 30 ex_registry).2
       [DIssueRoot "auth" "bob" {["file"]} ∅ PUBLIC 0 100 0 "n"])
    "dlg_c" "bob" None 40) = false.
Proof.
  apply (revocation_is_permanent ex_auths ex_ops _ ex_registry "dlg_r" 30 "dlg_c" ex_child
    "bob" None 40 ex_reachable ex_child_get ex_child_desc).
  repeat split; vm_compute; reflexivity.
Defined.
