(* ===== verification/Token.v ===== *)
(** Decision Tokens ([cvztte/decision/model.py], [mac.py], [authority.py],
    [replay.py]): the token body, its keyed MAC, the authority that mints it and
    the single-use tracker. *)

From S2P Require Export Action PyTime.

(** * Data *)

(** [decision.model.TokenDecision] *)
Inductive TokenDecision : Set := TD_ALLOW | TD_DENY | TD_REDACT.

Definition TokenDecision_value (d : TokenDecision) : string :=
  match d with TD_ALLOW => "ALLOW" | TD_DENY => "DENY" | TD_REDACT => "REDACT" end.

(** [decision.model.ContainmentState] *)
Inductive ContainmentState : Set :=
| NORMAL | SUSPICIOUS | RESTRICTED | QUARANTINED | TERMINATED.

Definition ContainmentState_value (s : ContainmentState) : string :=
  match s with
  | NORMAL => "NORMAL" | SUSPICIOUS => "SUSPICIOUS" | RESTRICTED => "RESTRICTED"
  | QUARANTINED => "QUARANTINED" | TERMINATED => "TERMINATED"
  end.

#[export] Instance TokenDecision_eq_dec : EqDecision TokenDecision.
Proof. solve_decision. Defined.
#[export] Instance ContainmentState_eq_dec : EqDecision ContainmentState.
Proof. solve_decision. Defined.

(** [decision.model.EpochSet] *)
Record EpochSet : Set := mkEpochs {
  agent_revocation_epoch : Z;
  runtime_revocation_epoch : Z;
  policy_epoch : Z;
  capability_epoch : Z;
  risk_epoch : Z
}.

Definition default_epochs : EpochSet := mkEpochs 0 0 0 0 0.

#[export] Instance EpochSet_eq_dec : EqDecision EpochSet.
Proof. solve_decision. Defined.

(** [decision.model.TokenChecks] *)
Record TokenChecks : Set := mkChecks {
  ck_mldsa : bool;
  ck_opa : bool;
  ck_gnark : bool;
  ck_behavior : bool;
  ck_judge : string;
  ck_ezkl : bool
}.

Definition default_checks : TokenChecks := mkChecks false false false false "UNKNOWN" false.

(** [decision.model.DecisionToken] *)
Record DecisionToken : Set := mkToken {
  token_version : Z;
  decision_id : string;
  t_request_id : string;
  t_agent_id : string;
  t_runtime_id : string;
  t_session_id : string;
  t_action_hash : string;
  t_action_type : string;
  target_constraint : string;
  operation_constraint : option string;
  t_payload_hash : option string;
  t_policy_hash : string;
  t_risk_level : Z;
  t_containment_state : ContainmentState;
  t_decision : TokenDecision;
  issued_at : Z;
  t_not_before : Z;
  t_expires_at : Z;
  max_uses : Z;
  t_nonce : string;
  t_audience : string;
  epochs : EpochSet;
  checks : TokenChecks
}.

(** [decision.model.SignedDecisionToken] *)
Record SignedDecisionToken : Set := mkSigned { token : DecisionToken; mac : string }.

(** Pydantic's JSON rendering of a datetime, and that distinct instants render
    differently. *)
Class Pydantic := { dump_datetime : Z → string }.
Definition dump_datetime_injective `{Pydantic} : Prop :=
  ∀ s t, dump_datetime s = dump_datetime t → s = t.

(** * Canonical form and MAC *)

Definition epochs_json (e : EpochSet) : json :=
  JObj [ ("agent_revocation_epoch", JInt (agent_revocation_epoch e));
         ("runtime_revocation_epoch", JInt (runtime_revocation_epoch e));
         ("policy_epoch", JInt (policy_epoch e));
         ("capability_epoch", JInt (capability_epoch e));
         ("risk_epoch", JInt (risk_epoch e)) ].

Definition checks_json (c : TokenChecks) : json :=
  JObj [ ("mldsa", JBool (ck_mldsa c)); ("opa", JBool (ck_opa c));
         ("gnark", JBool (ck_gnark c)); ("behavior", JBool (ck_behavior c));
         ("judge", JStr (ck_judge c)); ("ezkl", JBool (ck_ezkl c)) ].

Section token.
Context `{Hashlib, Rfc8785, Pydantic}.

(** [DecisionToken.to_json_dict] *)
Definition to_json_dict (t : DecisionToken) : json :=
  JObj (exclude_none
    [ ("token_version", JInt (token_version t));
      ("decision_id", JStr (decision_id t));
      ("request_id", JStr (t_request_id t));
      ("agent_id", JStr (t_agent_id t));
      ("runtime_id", JStr (t_runtime_id t));
      ("session_id", JStr (t_session_id t));
      ("action_hash", JStr (t_action_hash t));
      ("action_type", JStr (t_action_type t));
      ("target_constraint", JStr (target_constraint t));
      ("operation_constraint", jopt (operation_constraint t));
      ("payload_hash", jopt (t_payload_hash t));
      ("policy_hash", JStr (t_policy_hash t));
      ("risk_level", JInt (t_risk_level t));
      ("containment_state", JStr (ContainmentState_value (t_containment_state t)));
      ("decision", JStr (TokenDecision_value (t_decision t)));
      ("issued_at", JStr (dump_datetime (issued_at t)));
      ("not_before", JStr (dump_datetime (t_not_before t)));
      ("expires_at", JStr (dump_datetime (t_expires_at t)));
      ("max_uses", JInt (max_uses t));
      ("nonce", JStr (t_nonce t));
      ("audience", JStr (t_audience t));
      ("epochs", epochs_json (epochs t));
      ("checks", checks_json (checks t)) ]).

(** [DecisionToken.canonical_bytes] *)
Definition canonical_bytes (t : DecisionToken) : res string :=
  canonicalize (to_json_dict t).

(** [mac.compute_mac] *)
Definition compute_mac (key : string) (t : DecisionToken) : res string :=
  if decide (key = "") then Err (PyExc "ValueError" "empty MAC key")
  else
    let? bytes := canonical_bytes t in
    Ok ("hmac-sha256:" +:+
        hex (hmac_sha256 key (domain_value D_DECISION_TOKEN +:+ NUL +:+ bytes))).

(** [hmac.compare_digest] on two [str]: both must be ASCII. *)
Definition compare_digest (a b : string) : res bool :=
  if forallb (λ c, (Ascii.N_of_ascii c <? 128)%N)
       (String.list_ascii_of_string a ++ String.list_ascii_of_string b)
  then Ok (bool_decide (a = b))
  else Err (PyExc "TypeError" "comparing strings with non-ASCII characters").

(** [mac.verify_mac] *)
Definition verify_mac (key : string) (t : DecisionToken) (m : string) : res bool :=
  match compute_mac key t with
  | Err (PyExc "ValueError" _) => Ok false
  | Err e => Err e
  | Ok expected => compare_digest expected m
  end.

(** * The authority *)

Record DecisionTokenAuthority : Set := mkDTA { dta_key : string; default_ttl : Z }.

(** [DecisionTokenAuthority.__init__] *)
Definition new_authority (mac_key : string) (default_ttl_seconds : Z)
    : res DecisionTokenAuthority :=
  if decide (String.length mac_key < 32) then
    err SECURITY_DEPENDENCY_UNAVAILABLE "decision-token MAC key must be >=32 bytes"
  else Ok (mkDTA mac_key default_ttl_seconds).

(** What [secrets] and [uuid] draw during one [issue]. *)
Record draws : Set := mkDraws { dr_decision : string; dr_request : string; dr_nonce : string }.

(** [request_id or "req_" + uuid.uuid4().hex] *)
Definition request_id_or (rid : option string) (uuid : string) : string :=
  match rid with
  | Some r => if decide (r = "") then "req_" +:+ uuid else r
  | None => "req_" +:+ uuid
  end.

(** [DecisionTokenAuthority.issue] *)
Definition issue (auth : DecisionTokenAuthority) (action : AgentAction)
    (binding : AdapterBinding) (audience policy_hash : string) (eps : EpochSet)
    (decision : TokenDecision) (risk_level : Z) (cs : ContainmentState)
    (cks : option TokenChecks) (request_id : option string) (uses : Z)
    (ttl_seconds now : option Z) (clock : Z) (dr : draws) : res SignedDecisionToken :=
  if decide (uses < 1)%Z then err SCHEMA_INVALID "max_uses must be >= 1"
  else
    let now := or_now now clock in
    let ttl := default (default_ttl auth) ttl_seconds in
    if decide (ttl ≤ 0)%Z then err SCHEMA_INVALID "ttl must be positive"
    else
      let? ah := action_hash action in
      let t := mkToken 3 ("dec_" +:+ dr_decision dr) (request_id_or request_id (dr_request dr))
        (b_agent_id binding) (b_runtime_id binding) (b_session_id binding)
        ah (ActionType_value (action_type action)) (target action) (operation action)
        (payload_hash_of action) policy_hash risk_level cs decision now now
        (now + seconds ttl) uses (dr_nonce dr) audience eps (default default_checks cks) in
      let? m := compute_mac (dta_key auth) t in
      Ok (mkSigned t m).
End token.

(** * Single-use tracking *)

(** [InMemoryTokenUseTracker.consume]; the state is [_counts]. *)
Definition consume (nonce : string) (uses : Z) : M (gmap string Z) unit :=
  λ counts,
    let used := default 0%Z (counts !! nonce) in
    if decide (uses ≤ used)%Z then
      (err DECISION_TOKEN_REPLAY "decision token already consumed", counts)
    else (Ok tt, <[nonce := (used + 1)%Z]> counts).

(** * Facts *)

Definition ascii_only (s : string) : bool :=
  forallb (λ c, (Ascii.N_of_ascii c <? 128)%N) (String.list_ascii_of_string s).

Lemma list_ascii_app a b :
  String.list_ascii_of_string (a +:+ b) =
  String.list_ascii_of_string a ++ String.list_ascii_of_string b.
Proof. induction a as [|c a IH]; [done|]. simpl. f_equal. exact IH. Qed.

Lemma ascii_only_app a b : ascii_only (a +:+ b) = ascii_only a && ascii_only b.
Proof. unfold ascii_only. by rewrite list_ascii_app, forallb_app. Qed.

Lemma ascii_only_hex s : ascii_only (hex s) = true.
Proof.
  induction s as [|c s IH]; [done|].
  change (hex (String c s)) with (hex_byte c +:+ hex s).
  rewrite ascii_only_app, IH, andb_true_r.
  by destruct c as [[] [] [] [] [] [] [] []].
Qed.

Lemma compare_digest_spec a b :
  ascii_only a = true →
  compare_digest a b =
    if ascii_only b then Ok (bool_decide (a = b))
    else Err (PyExc "TypeError" "comparing strings with non-ASCII characters").
Proof.
  intros Ha. unfold compare_digest. rewrite forallb_app.
  unfold ascii_only in Ha. by rewrite Ha.
Qed.

Section token_facts.
Context `{Hashlib, Rfc8785, Pydantic}.

Lemma compute_mac_ok key t m :
  compute_mac key t = Ok m ↔ key ≠ "" ∧ ∃ bytes, canonical_bytes t = Ok bytes ∧
    m = "hmac-sha256:" +:+
        hex (hmac_sha256 key (domain_value D_DECISION_TOKEN +:+ NUL +:+ bytes)).
Proof.
  unfold compute_mac. case_decide; [naive_solver|]. rewrite rbind_ok. naive_solver.
Qed.

Lemma compute_mac_ascii key t m : compute_mac key t = Ok m → ascii_only m = true.
Proof.
  rewrite compute_mac_ok. intros (_ & bytes & _ & ->).
  rewrite ascii_only_app, ascii_only_hex. done.
Qed.

(** Verification succeeds exactly on the recomputed MAC. *)
Lemma verify_mac_true key t m : verify_mac key t m = Ok true ↔ compute_mac key t = Ok m.
Proof.
  unfold verify_mac. destruct (compute_mac key t) as [e|[e|cls a]] eqn:Hc.
  - rewrite (compare_digest_spec _ _ (compute_mac_ascii _ _ _ Hc)).
    pose proof (compute_mac_ascii _ _ _ Hc) as Ha.
    destruct (ascii_only m) eqn:Hm; split; intros Heq; simplify_eq.
    + f_equal. by apply bool_decide_eq_true in Heq.
    + by rewrite bool_decide_true.
    + congruence.
  - done.
  - split; [|done]. repeat case_match; done.
Qed.

Lemma issue_ok auth a b aud ph eps dec rl cs cks rid uses ttl now clock dr s :
  issue auth a b aud ph eps dec rl cs cks rid uses ttl now clock dr = Ok s →
  let t := token s in
  (1 ≤ uses)%Z ∧ compute_mac (dta_key auth) t = Ok (mac s) ∧
  action_hash a = Ok (t_action_hash t) ∧ token_version t = 3%Z ∧
  t_action_type t = ActionType_value (action_type a) ∧
  target_constraint t = target a ∧ operation_constraint t = operation a ∧
  t_payload_hash t = payload_hash_of a ∧
  t_agent_id t = b_agent_id b ∧ t_runtime_id t = b_runtime_id b ∧
  t_session_id t = b_session_id b ∧ t_audience t = aud ∧ epochs t = eps ∧
  t_decision t = dec ∧ max_uses t = uses ∧ t_nonce t = dr_nonce dr ∧
  t_not_before t = or_now now clock ∧ (t_not_before t < t_expires_at t)%Z ∧
  t_expires_at t = (or_now now clock + seconds (default (default_ttl auth) ttl))%Z.
Proof.
  unfold issue. repeat (case_decide; [done|]).
  rewrite rbind_ok. intros (ah & Hah & [m [Hm [= <-]]]%rbind_ok). simpl in *.
  split_and!; try done; unfold seconds; lia.
Qed.
End token_facts.

(** * Exactly [max_uses] *)

Definition consume_step (counts : gmap string Z) (call : string * Z) : gmap string Z :=
  (consume call.1 call.2 counts).2.

(** The answers to a sequence of calls, in order. *)
Fixpoint consume_results (counts : gmap string Z) (calls : list (string * Z)) : list bool :=
  match calls with
  | [] => []
  | c :: calls =>
      is_ok (consume c.1 c.2 counts).1 :: consume_results (consume_step counts c) calls
  end.

Lemma consume_spec n m counts :
  let used := default 0%Z (counts !! n) in
  consume n m counts =
    if decide (used < m)%Z then (Ok tt, <[n := (used + 1)%Z]> counts)
    else (err DECISION_TOKEN_REPLAY "decision token already consumed", counts).
Proof. unfold consume. simpl. repeat case_decide; (lia || done). Qed.

(** How often the calls for [n] were granted. *)
Definition granted (n : string) (calls : list (string * Z)) (rs : list bool) : nat :=
  length (filter (λ cr : (string * Z) * bool, cr.1.1 = n ∧ cr.2 = true) (zip calls rs)).
Definition asked (n : string) (calls : list (string * Z)) : nat :=
  length (filter (λ c : string * Z, c.1 = n) calls).

Lemma granted_from n m calls counts :
  Forall (λ c : string * Z, c.1 = n → c.2 = m) calls →
  (0 ≤ default 0%Z (counts !! n))%Z →
  Z.of_nat (granted n calls (consume_results counts calls)) =
    Z.max 0 (Z.min (m - default 0%Z (counts !! n)) (Z.of_nat (asked n calls))).
Proof.
  unfold granted, asked. intros Hall. revert counts.
  induction Hall as [|[n' m'] calls Hc _ IH]; intros counts Hpos; simpl in *; [lia|].
  unfold consume_step. simpl. rewrite consume_spec.
  destruct (decide (n' = n)) as [->|Hne].
  - rewrite (Hc eq_refl). rewrite (filter_cons_True _ (n, m)) by done. simpl.
    case_decide; simpl.
    + rewrite filter_cons_True by done. simpl. rewrite Nat2Z.inj_succ, IH.
      all: rewrite lookup_insert_eq; simpl; lia.
    + rewrite filter_cons_False by naive_solver. rewrite IH by done. lia.
  - rewrite (filter_cons_False _ (n', m')) by done.
    rewrite filter_cons_False by (simpl; naive_solver).
    case_decide; simpl; rewrite IH; rewrite ?lookup_insert_ne by done; done.
Qed.

(** * Properties *)

(** A nonce is granted exactly [max_uses] times, or as often as it is asked
    for if that is less, in any interleaving of calls for it and for other
    nonces; a non-positive [max_uses] grants nothing. *)
Theorem consume_exactly_max_uses n m calls :
  Forall (λ c : string * Z, c.1 = n → c.2 = m) calls →
  Z.of_nat (granted n calls (consume_results ∅ calls)) =
    Z.max 0 (Z.min m (Z.of_nat (asked n calls))).
Proof.
  intros Hall. rewrite (granted_from n m) by (try done; by rewrite lookup_empty).
  rewrite lookup_empty. simpl. by rewrite Z.sub_0_r.
Qed.

(** On three interleaved calls for a single-use nonce. *)
Lemma consume_exactly_max_uses_witness :
  Z.of_nat (granted "a" [("a", 1%Z); ("b", 5%Z); ("a", 1%Z); ("a", 1%Z)]
    (consume_results ∅ [("a", 1%Z); ("b", 5%Z); ("a", 1%Z); ("a", 1%Z)])) = 1%Z.
Proof.
  apply (consume_exactly_max_uses "a" 1).
  repeat constructor; simpl; congruence.
Defined.

Section token_properties.
Context `{Hashlib, Rfc8785, Pydantic}.

Lemma str_app_inv_head (a x y : string) : a +:+ x = a +:+ y → x = y.
Proof. induction a as [|c a IH]; simpl; [done|]. intros [= Heq]. by apply IH. Qed.

Lemma hmac_inj key x y : hmac_sha256 key x = hmac_sha256 key y → x = y ∨ sha_collision.
Proof.
  unfold hmac_sha256. intros [Heq|?]%sha256_inj; [|by right].
  apply str_app_inv_head, sha256_inj in Heq as [Heq|?]; [|by right].
  left. by eapply str_app_inv_head.
Qed.

(** What the authority mints, it vouches for: an issued token verifies under
    the authority's key, carries the hash, type, target, operation and payload
    of the canonical action and the identities of the binding, and its window
    opens now and is not empty. *)
Theorem issued_token_verifies auth a b aud ph eps dec rl cs cks rid uses ttl now clock dr s :
  issue auth a b aud ph eps dec rl cs cks rid uses ttl now clock dr = Ok s →
  verify_mac (dta_key auth) (token s) (mac s) = Ok true ∧
  action_hash a = Ok (t_action_hash (token s)) ∧
  t_action_type (token s) = ActionType_value (action_type a) ∧
  target_constraint (token s) = target a ∧
  operation_constraint (token s) = operation a ∧
  t_payload_hash (token s) = payload_hash_of a ∧
  t_agent_id (token s) = b_agent_id b ∧ t_runtime_id (token s) = b_runtime_id b ∧
  t_session_id (token s) = b_session_id b ∧ t_audience (token s) = aud ∧
  (1 ≤ max_uses (token s))%Z ∧
  t_not_before (token s) = or_now now clock ∧
  (t_not_before (token s) < t_expires_at (token s))%Z.
Proof.
  intros Hi. destruct (issue_ok _ _ _ _ _ _ _ _ _ _ _ _ _ _ _ _ _ Hi)
    as (? & ? & ? & _ & ? & ? & ? & ? & ? & ? & ? & ? & _ & _ & ? & _ & ? & ? & _).
  rewrite verify_mac_true. split_and!; try done; lia.
Qed.

(** A MAC authenticates one token body: two tokens accepted with the same MAC
    under the same key have the same canonical bytes, or SHA-256 collides. *)
Theorem mac_binds_body key t t' m :
  verify_mac key t m = Ok true → verify_mac key t' m = Ok true →
  canonical_bytes t = canonical_bytes t' ∨ sha_collision.
Proof.
  rewrite !verify_mac_true, !compute_mac_ok.
  intros (_ & x & Hx & ->) (_ & y & Hy & Heq).
  apply str_app_inv_head, hex_inj, hmac_inj in Heq as [Heq|?]; [left|by right].
  apply nul_split in Heq as [_ ->]; auto using domain_nul_free. congruence.
Qed.
End token_properties.
