(* ===== verification/Concrete.v ===== *)
(** Concrete instances of the interfaces to code outside the repository, on which
    the witnesses evaluate: SHA-256 itself, a canonical JSON printer for the
    float-free values the witnesses use, and a datetime rendering. *)

From S2P Require Export Sha256 Token.

(** * A float-free RFC 8785 printer *)

Fixpoint decimal_digits (fuel : nat) (n : N) (acc : string) : string :=
  match fuel with
  | 0 => acc
  | S fuel =>
      let acc := String (Ascii.ascii_of_N (48 + n mod 10)) acc in
      if (n <? 10)%N then acc else decimal_digits fuel (n / 10) acc
  end.

Definition print_int (z : Z) : string :=
  let digits := decimal_digits 20 (Z.to_N (Z.abs z)) "" in
  if (z <? 0)%Z then "-" +:+ digits else digits.

Definition escape_char (c : Ascii.ascii) : string :=
  let n := Ascii.N_of_ascii c in
  if (n =? 34)%N then "\" +:+ String c ""
  else if (n =? 92)%N then "\\"
  else if (n <? 32)%N then "\u00" +:+ hex_byte c
  else String c "".

Fixpoint escape (s : string) : string :=
  match s with
  | EmptyString => ""
  | String c s' => escape_char c +:+ escape s'
  end.

Definition quote : string := String (Ascii.ascii_of_nat 34) "".
Definition print_str (s : string) : string := quote +:+ escape s +:+ quote.

Fixpoint insert_key {A} (k : string) (v : A) (l : list (string * A)) : list (string * A) :=
  match l with
  | [] => [(k, v)]
  | (k', v') :: l' =>
      match String.compare k k' with
      | Gt => (k', v') :: insert_key k v l'
      | _ => (k, v) :: l
      end
  end.

Definition sort_keys {A} (l : list (string * A)) : list (string * A) :=
  foldr (λ kv acc, insert_key kv.1 kv.2 acc) [] l.

Definition join (l : list string) : string := String.concat "," l.

(** Integers beyond 2^53 and floats are refused. *)
Fixpoint jcs (v : json) : option string :=
  match v with
  | JNull => Some "null"
  | JBool b => Some (if b then "true" else "false")
  | JInt z => if (Z.abs z <=? 9007199254740991)%Z then Some (print_int z) else None
  | JFloat _ => None
  | JStr s => Some (print_str s)
  | JArr l =>
      (λ xs, "[" +:+ join xs +:+ "]") <$>
        (fix go l := match l with
                     | [] => Some []
                     | x :: l => x ← jcs x; l ← go l; Some (x :: l)
                     end) l
  | JObj kvs =>
      (λ xs, "{" +:+ join ((λ kv, print_str kv.1 +:+ ":" +:+ kv.2) <$> sort_keys xs) +:+ "}") <$>
        (fix go l := match l with
                     | [] => Some []
                     | (k, x) :: l => x ← jcs x; l ← go l; Some ((k, x) :: l)
                     end) kvs
  end.

Definition jcs_instance : Rfc8785 := {| rfc8785_dumps := jcs |}.
Definition pydantic_instance : Pydantic :=
  {| dump_datetime := λ t, date_text t +:+ "T" +:+ time_text t +:+ "." +:+ pad 6 (t mod 1000000) +:+ "Z" |}.

Module Instances.
#[export] Existing Instances hashlib_sha256 jcs_instance pydantic_instance.
End Instances.

(** A four-byte checksum in the place of SHA-256, for long witnesses that do not depend on
    the hash. *)
Definition short_hash : Hashlib :=
  {| sha256 s :=
       let h := foldl (λ h c, ((h * 31 + Ascii.N_of_ascii c) mod 4294967296)%N) 7%N
                  (String.list_ascii_of_string s) in
       String.string_of_list_ascii
         (Ascii.ascii_of_N <$> [h / 16777216; h / 65536 mod 256; h / 256 mod 256; h mod 256]%N) |}.
Module ShortInstances.
#[export] Existing Instances short_hash jcs_instance pydantic_instance.
End ShortInstances.

(** * A concrete action, binding and authority *)

Import Instances.

Definition ex_action : AgentAction :=
  mkAction 1 FILE_READ "/data/report.txt" (Some "read") None [("n", JInt 3)] INTERNAL None.
Definition ex_other_action : AgentAction :=
  mkAction 1 FILE_READ "/data/secret.txt" (Some "read") None [("n", JInt 3)] INTERNAL None.
Definition ex_binding : AdapterBinding := mkBinding "agt_1" "rt_1" "ses_1" (Some "dlg_1").
Definition ex_key : string := "0123456789abcdef0123456789abcdef".
Definition ex_dta : DecisionTokenAuthority := mkDTA ex_key 30.
Definition ex_draws : draws := mkDraws "d1" "q1" "n1".
Definition ex_issue : res SignedDecisionToken :=
  issue ex_dta ex_action ex_binding "file" "sha256:p" default_epochs TD_ALLOW 1 NORMAL None
    None 1 None (Some 1000%Z) 0 ex_draws.

Example ex_action_canonical :
  jcs (canonical_dict ex_action) =
    Some ("{" +:+ join [print_str "action_type" +:+ ":" +:+ print_str (ActionType_value FILE_READ);
      print_str "action_version" +:+ ":1";
      print_str "arguments" +:+ ":{" +:+ print_str "n" +:+ ":3}";
      print_str "data_classification" +:+ ":" +:+ print_str "INTERNAL";
      print_str "operation" +:+ ":" +:+ print_str "read";
      print_str "target" +:+ ":" +:+ print_str "/data/report.txt"] +:+ "}").
Proof. vm_compute. reflexivity. Qed.
(** The token minted, as a value. *)
Definition ex_signed : SignedDecisionToken := Eval vm_compute in
  match ex_issue with
  | Ok s => s
  | Err _ => mkSigned (mkToken 0 "" "" "" "" "" "" "" "" None None "" 0 NORMAL TD_DENY 0 0 0 0
               "" "" default_epochs default_checks) ""
  end.
Lemma ex_issue_ok : ex_issue = Ok ex_signed.
Proof. vm_compute. reflexivity. Qed.
Lemma ex_signed_verifies : verify_mac ex_key (token ex_signed) (mac ex_signed) = Ok true.
Proof. vm_compute. reflexivity. Qed.

(** At a concrete action. *)
Lemma issued_token_verifies_witness :
  verify_mac ex_key (token ex_signed) (mac ex_signed) = Ok true ∧
  target_constraint (token ex_signed) = "/data/report.txt".
Proof.
  destruct (issued_token_verifies ex_dta ex_action ex_binding "file" "sha256:p" default_epochs
    TD_ALLOW 1 NORMAL None None 1 None (Some 1000%Z) 0 ex_draws ex_signed ex_issue_ok)
    as (Hv & _ & _ & Ht & _).
  split; [exact Hv|exact Ht].
Defined.

(** At a concrete token. *)
Lemma mac_binds_body_witness :
  canonical_bytes (token ex_signed) = canonical_bytes (token ex_signed) ∨ sha_collision.
Proof.
  exact (mac_binds_body ex_key (token ex_signed) (token ex_signed) (mac ex_signed)
    ex_signed_verifies ex_signed_verifies).
Defined.
