(* ===== verification/Containment.v ===== *)
(** The containment state machine ([cvztte/containment]): the severity ladder and
    the capability ceiling ([model.py]), the threshold policy ([policy.py]) and
    the escalation engine that drives the capability epoch ([engine.py]). *)

From S2P Require Export Token.
From S2P Require Import Concrete.
From Stdlib Require Import Sorted.

(** * model.py *)

Definition STATE_ORDER : list ContainmentState :=
  [NORMAL; SUSPICIOUS; RESTRICTED; QUARANTINED; TERMINATED].

(** [STATE_ORDER.index(state)] *)
Fixpoint index_of (s : ContainmentState) (l : list ContainmentState) : nat :=
  match l with
  | [] => 0
  | s' :: l => if decide (s' = s) then 0 else S (index_of s l)
  end.
Definition severity (s : ContainmentState) : nat := index_of s STATE_ORDER.

Definition more_severe (a b : ContainmentState) : ContainmentState :=
  if decide (severity b ≤ severity a) then a else b.

Record CapabilityAttributes : Set := mkAttrs {
  optional_high_risk : bool;
  writes : bool;
  external_network : bool;
  secret_access : bool;
  new_subagent : bool;
  diagnostic : bool
}.

Definition default_attrs : CapabilityAttributes :=
  mkAttrs false false false false false false.

Definition ceiling_allows (s : ContainmentState) (a : CapabilityAttributes) : bool :=
  match s with
  | NORMAL => true
  | SUSPICIOUS => negb (optional_high_risk a)
  | RESTRICTED =>
      negb (optional_high_risk a || writes a || external_network a
            || secret_access a || new_subagent a)
  | QUARANTINED => diagnostic a
  | TERMINATED => false
  end.

Definition effective_capabilities (delegated enterprise_policy runtime_profile : gset string)
    (s : ContainmentState) (profile : gmap string CapabilityAttributes) : gset string :=
  filter (λ c, ceiling_allows s (default default_attrs (profile !! c)) = true)
    (delegated ∩ enterprise_policy ∩ runtime_profile).

Record ContainmentTransition : Set := mkTransition {
  tr_subject : string;
  tr_agent_id : string;
  tr_runtime_id : option string;
  old_state : ContainmentState;
  new_state : ContainmentState;
  tr_reason_codes : list string;
  tr_evidence_hash : string;
  tr_capability_epoch : Z;
  tr_at : string
}.

(** [blocks_new_consequential_tokens] *)
Definition blocks_new_consequential_tokens (s : ContainmentState) : bool :=
  bool_decide (severity QUARANTINED ≤ severity s).

(** * policy.py *)

Record ContainmentThresholds : Type := mkThresholds {
  suspicious_denials_60s : Z;
  suspicious_bypass_5m : Z;
  restricted_denials_5m : Z;
  restricted_bypass_5m : Z;
  quarantine_bypass_5m : Z;
  quarantine_secret_probe : Z;
  quarantine_signal_flags : gset string
}.

Definition default_thresholds : ContainmentThresholds :=
  mkThresholds 3 1 8 2 3 3
    {["sensitive_read_to_egress_sequence"; "secret_exfiltration_attempt"]}.

(** [int(x)] on a float: truncation towards zero. *)
Definition float_to_int (f : spec_float) : res Z :=
  match f with
  | S754_zero _ => Ok 0%Z
  | S754_infinity _ => Err (PyExc "OverflowError" "cannot convert float infinity to integer")
  | S754_nan => Err (PyExc "ValueError" "cannot convert float NaN to integer")
  | S754_finite s m e =>
      let n := (if 0 <=? e then Z.pos m * 2 ^ e else Z.pos m / 2 ^ (- e))%Z in
      Ok (if s then (- n)%Z else n)
  end.

(** [policy._get] *)
Definition feature_get (features : odict string json) (key : string) : res Z :=
  match dget key features with
  | None => Ok 0%Z
  | Some (JInt z) => Ok z
  | Some (JBool b) => Ok (if b then 1 else 0)%Z
  | Some (JFloat f) => float_to_int f
  | Some _ => Ok 0%Z
  end.

(** [bool(v)] *)
Definition truthy (v : json) : bool :=
  match v with
  | JNull => false
  | JBool b => b
  | JInt z => negb (bool_decide (z = 0%Z))
  | JFloat (S754_zero _) => false
  | JFloat _ => true
  | JStr s => negb (bool_decide (s = ""))
  | JArr l => match l with [] => false | _ => true end
  | JObj l => match l with [] => false | _ => true end
  end.

(** [a or b], where evaluating either may raise. *)
Definition ror (a b : res bool) : res bool :=
  let? x := a in if x : bool then Ok true else b.

Definition feature_ge (features : odict string json) (key : string) (bound : Z) : res bool :=
  let? v := feature_get features key in Ok (bool_decide (bound ≤ v)%Z).

Definition feature_flag (features : odict string json) (key : string) : bool :=
  match dget key features with Some v => truthy v | None => false end.

(** [ThresholdPolicy.assess] *)
Definition assess (t : ContainmentThresholds) (features : odict string json)
    : res ContainmentState :=
  let? s := ror (feature_ge features "denials_60s" (suspicious_denials_60s t))
                (feature_ge features "bypass_attempts_5m" (suspicious_bypass_5m t)) in
  let warranted := if s : bool then SUSPICIOUS else NORMAL in
  let? r := ror (feature_ge features "denials_5m" (restricted_denials_5m t))
                (feature_ge features "bypass_attempts_5m" (restricted_bypass_5m t)) in
  let warranted := if r : bool then RESTRICTED else warranted in
  let signal := existsb (feature_flag features) (elements (quarantine_signal_flags t)) in
  let? q := ror (Ok signal)
             (ror (feature_ge features "bypass_attempts_5m" (quarantine_bypass_5m t))
                  (feature_ge features "secret_probe_count" (quarantine_secret_probe t))) in
  Ok (if q : bool then QUARANTINED else warranted).

(** * engine.py *)

Inductive RecoveryMethod : Set := COOLDOWN_CLEAN | FRESH_SESSION | ADMIN_APPROVAL | REONBOARD.

Definition RecoveryMethod_value (m : RecoveryMethod) : string :=
  match m with
  | COOLDOWN_CLEAN => "COOLDOWN_CLEAN" | FRESH_SESSION => "FRESH_SESSION"
  | ADMIN_APPROVAL => "ADMIN_APPROVAL" | REONBOARD => "REONBOARD"
  end.

#[export] Instance RecoveryMethod_eq_dec : EqDecision RecoveryMethod.
Proof. solve_decision. Defined.

(** [_RECOVERY_ALLOWED] *)
Definition recovery_allowed (s : ContainmentState) : list RecoveryMethod :=
  match s with
  | NORMAL => []
  | SUSPICIOUS => [COOLDOWN_CLEAN; FRESH_SESSION; ADMIN_APPROVAL; REONBOARD]
  | RESTRICTED => [FRESH_SESSION; ADMIN_APPROVAL; REONBOARD]
  | QUARANTINED => [ADMIN_APPROVAL; REONBOARD]
  | TERMINATED => [REONBOARD]
  end.

(** [_SubjectState] *)
Record SubjectState : Set := mkSubject {
  sb_state : ContainmentState;
  sb_agent_id : string;
  sb_runtime_id : option string;
  last_transition_at : option Z;
  sb_transitions : list ContainmentTransition
}.

(** [ContainmentEngine]; [epoch_source] is the [EpochSource] it shares with the
    token validator. *)
Record ContainmentEngine : Type := mkEngine {
  threshold_policy : ContainmentThresholds;
  epoch_source : EpochSet;
  cooldown : Z;
  subjects : gmap string SubjectState
}.

Definition set_epoch_source (e : ContainmentEngine) (x : EpochSet) : ContainmentEngine :=
  mkEngine (threshold_policy e) x (cooldown e) (subjects e).
Definition set_subjects (e : ContainmentEngine) (x : gmap string SubjectState) : ContainmentEngine :=
  mkEngine (threshold_policy e) (epoch_source e) (cooldown e) x.

(** [ContainmentEngine.__init__] *)
Definition new_engine (policy : option ContainmentThresholds) (source : option EpochSet)
    (cooldown_us : Z) : ContainmentEngine :=
  mkEngine (default default_thresholds policy) (default default_epochs source) cooldown_us ∅.

(** [ContainmentEngine._subject] *)
Definition subject_entry (subject agent_id : string) (runtime_id : option string)
    : M ContainmentEngine SubjectState :=
  λ e,
    let st :=
      match subjects e !! subject with
      | None => mkSubject NORMAL agent_id runtime_id None []
      | Some st =>
          mkSubject (sb_state st)
            (if decide (agent_id = "") then sb_agent_id st else agent_id)
            (match runtime_id with Some r => Some r | None => sb_runtime_id st end)
            (last_transition_at st) (sb_transitions st)
      end in
    (Ok st, set_subjects e (<[subject := st]> (subjects e))).

(** [ContainmentEngine.state] *)
Definition engine_state (e : ContainmentEngine) (subject : string) : ContainmentState :=
  match subjects e !! subject with Some st => sb_state st | None => NORMAL end.

(** [ContainmentEngine.transitions] *)
Definition engine_transitions (e : ContainmentEngine) (subject : string)
    : list ContainmentTransition :=
  match subjects e !! subject with Some st => sb_transitions st | None => [] end.

(** [ContainmentEngine.blocks_new_consequential_tokens] *)
Definition engine_blocks (e : ContainmentEngine) (subject : string) : bool :=
  blocks_new_consequential_tokens (engine_state e subject).

(** [ContainmentEngine.effective_capabilities] *)
Definition engine_effective (e : ContainmentEngine) (subject : string)
    (delegated enterprise_policy runtime_profile : gset string)
    (profile : gmap string CapabilityAttributes) : gset string :=
  effective_capabilities delegated enterprise_policy runtime_profile
    (engine_state e subject) profile.

Definition bump_capability (x : EpochSet) : EpochSet :=
  mkEpochs (agent_revocation_epoch x) (runtime_revocation_epoch x) (policy_epoch x)
    (capability_epoch x + 1) (risk_epoch x).

(** [ContainmentEngine._bump_capability_epoch] *)
Definition bump_capability_epoch : M ContainmentEngine Z :=
  λ e, let new := bump_capability (epoch_source e) in
       (Ok (capability_epoch new), set_epoch_source e new).

Section engine.
Context `{Hashlib, Rfc8785}.

(** [ContainmentEngine._commit_transition] *)
Definition commit_transition (st : SubjectState) (subject : string) (new : ContainmentState)
    (reason_codes : list string) (evidence : list (string * json)) (now : Z)
    : M ContainmentEngine ContainmentTransition :=
  let! evidence_hash := clift (commit D_CONTAINMENT_TRANSITION
    (JObj [ ("subject", JStr subject); ("agent_id", JStr (sb_agent_id st));
            ("old_state", JStr (ContainmentState_value (sb_state st)));
            ("new_state", JStr (ContainmentState_value new));
            ("reason_codes", JArr (JStr <$> sorted_strings reason_codes));
            ("evidence", JObj evidence) ])) in
  let! cap := bump_capability_epoch in
  let record := mkTransition subject (sb_agent_id st) (sb_runtime_id st) (sb_state st) new
    reason_codes evidence_hash cap (isoformat now) in
  let st' := mkSubject new (sb_agent_id st) (sb_runtime_id st) (Some now)
    (sb_transitions st ++ [record]) in
  let! _ := cmodify (λ e, set_subjects e (<[subject := st']> (subjects e))) in
  cret record.

(** [ContainmentEngine.evaluate] *)
Definition evaluate (subject agent_id : string) (features : odict string json)
    (runtime_id : option string) (reason_codes : option (list string))
    (now : option Z) (clock : Z) : M ContainmentEngine (option ContainmentTransition) :=
  let now := or_now now clock in
  let! st := subject_entry subject agent_id runtime_id in
  let! e := cget in
  let! warranted := clift (assess (threshold_policy e) features) in
  let target := more_severe (sb_state st) warranted in
  if decide (severity target ≤ severity (sb_state st)) then cret None
  else
    let! tr := commit_transition st subject target
      (default [] reason_codes ++ ["ASSESSED_" +:+ ContainmentState_value warranted])
      [("features", JObj features); ("assessed", JStr (ContainmentState_value warranted))] now in
    cret (Some tr).

(** [ContainmentEngine.kill_switch] *)
Definition kill_switch (subject agent_id : string) (target_state : ContainmentState)
    (reason_codes : list string) (runtime_id : option string) (now : option Z) (clock : Z)
    : M ContainmentEngine ContainmentTransition :=
  if decide (target_state ≠ QUARANTINED ∧ target_state ≠ TERMINATED) then
    raise CONTAINMENT_QUARANTINED "kill switch target must be QUARANTINED or TERMINATED"
  else
    let now := or_now now clock in
    let! st := subject_entry subject agent_id runtime_id in
    commit_transition st subject (more_severe (sb_state st) target_state)
      (reason_codes ++ ["KILL_SWITCH"])
      [("kill_switch", JBool true); ("requested", JStr (ContainmentState_value target_state))] now.

(** [last is not None and (now - last) < self._cooldown] *)
Definition cooling_down (e : ContainmentEngine) (st : SubjectState) (now : Z) : bool :=
  match last_transition_at st with
  | Some last => bool_decide (now - last < cooldown e)%Z
  | None => false
  end.

(** [ContainmentEngine.recover] *)
Definition recover (subject agent_id : string) (method : RecoveryMethod)
    (approver runtime_id : option string) (now : option Z) (clock : Z)
    : M ContainmentEngine ContainmentTransition :=
  let now := or_now now clock in
  let! st := subject_entry subject agent_id runtime_id in
  let! e := cget in
  let current := sb_state st in
  if decide (current = NORMAL) then
    raise RECOVERY_APPROVAL_REQUIRED "subject is not contained"
  else if decide (method ∉ recovery_allowed current) then
    raise RECOVERY_APPROVAL_REQUIRED "method insufficient"
  else if decide (method = COOLDOWN_CLEAN ∧ cooling_down e st now = true) then
    raise RECOVERY_APPROVAL_REQUIRED "cooldown not elapsed"
  else if decide ((method = ADMIN_APPROVAL ∨ severity QUARANTINED ≤ severity current) ∧
                  method ≠ REONBOARD ∧ truthy_opt approver = false) then
    raise RECOVERY_APPROVAL_REQUIRED "approver required"
  else
    commit_transition st subject NORMAL
      (("RECOVER_" +:+ RecoveryMethod_value method) ::
       match approver with
       | Some a => if decide (a = "") then [] else ["APPROVER:" +:+ a]
       | None => []
       end)
      [("method", JStr (RecoveryMethod_value method)); ("approver", jopt approver);
       ("from", JStr (ContainmentState_value current))] now.
End engine.

(** * Facts about the ladder *)

Lemma severity_inj a b : severity a = severity b → a = b.
Proof. by destruct a, b. Qed.

Lemma more_severe_ge a b :
  severity a ≤ severity (more_severe a b) ∧ severity b ≤ severity (more_severe a b).
Proof. unfold more_severe. case_decide; lia. Qed.

Lemma recovery_allowed_antitone a b m :
  severity a ≤ severity b → m ∈ recovery_allowed b → m ∈ recovery_allowed a ∨ a = NORMAL.
Proof. destruct a, b, m; apply (bool_decide_unpack _); vm_compute; exact I. Qed.

Lemma effective_elem c d p r s prof :
  c ∈ effective_capabilities d p r s prof ↔
  c ∈ d ∧ c ∈ p ∧ c ∈ r ∧ ceiling_allows s (default default_attrs (prof !! c)) = true.
Proof. unfold effective_capabilities. set_solver. Qed.

(** * One step of the engine *)

(** Nothing that decides authority has changed. *)
Definition quiet (e e' : ContainmentEngine) : Prop :=
  (∀ s, engine_state e' s = engine_state e s) ∧
  (∀ s, engine_transitions e' s = engine_transitions e s) ∧
  epoch_source e' = epoch_source e.

(** [subject] has made the transition [tr], and the capability epoch advanced. *)
Record moved (e : ContainmentEngine) (subject : string) (tr : ContainmentTransition)
    (e' : ContainmentEngine) : Prop := {
  mv_old : old_state tr = engine_state e subject;
  mv_new : engine_state e' subject = new_state tr;
  mv_trail : engine_transitions e' subject = engine_transitions e subject ++ [tr];
  mv_other : ∀ s, s ≠ subject →
    engine_state e' s = engine_state e s ∧ engine_transitions e' s = engine_transitions e s;
  mv_epoch : epoch_source e' = bump_capability (epoch_source e);
  mv_stamp : tr_capability_epoch tr = capability_epoch (epoch_source e')
}.

Section steps.
Context `{Hashlib, Rfc8785}.

Lemma subject_entry_spec subject agent rt e :
  ∃ st e', subject_entry subject agent rt e = (Ok st, e') ∧ quiet e e' ∧
    subjects e' !! subject = Some st ∧ sb_state st = engine_state e subject ∧
    sb_transitions st = engine_transitions e subject ∧
    threshold_policy e' = threshold_policy e ∧ cooldown e' = cooldown e ∧
    last_transition_at st = (subjects e !! subject) ≫= last_transition_at.
Proof.
  unfold subject_entry. do 2 eexists. split; [reflexivity|].
  unfold quiet, engine_state, engine_transitions. simpl.
  rewrite lookup_insert_eq.
  split_and!; try done; try (by destruct (subjects e !! subject)).
  all: intros s; destruct (decide (s = subject)) as [->|Hne];
    [rewrite lookup_insert_eq; by destruct (subjects e !! subject)
    |by rewrite lookup_insert_ne].
Qed.

Lemma commit_transition_spec st subject new codes ev now e r e' :
  subjects e !! subject = Some st →
  commit_transition st subject new codes ev now e = (r, e') →
  (∃ x, r = Err x ∧ e' = e) ∨
  (∃ tr, r = Ok tr ∧ moved e subject tr e' ∧ new_state tr = new).
Proof.
  intros Hst. unfold commit_transition, cbind, clift, bump_capability_epoch, cmodify, cret.
  destruct (commit _ _) as [h|x]; intros [= <- <-]; [right|left; eauto].
  eexists. split; [reflexivity|]. split; [|done].
  split; simpl; unfold engine_state, engine_transitions; simpl.
  - by rewrite Hst.
  - by rewrite lookup_insert_eq.
  - by rewrite lookup_insert_eq, Hst.
  - intros s Hs. by rewrite lookup_insert_ne.
  - done.
  - done.
Qed.

Lemma moved_quiet e0 e1 subject tr e' :
  quiet e0 e1 → moved e1 subject tr e' → moved e0 subject tr e'.
Proof.
  intros (Hs & Ht & He) []. split; try congruence; try done.
  intros s Hne. rewrite <-Hs, <-Ht. auto.
Qed.

(** Completing a handler that has fetched its subject. *)
Lemma committed e0 e1 st subject new codes ev now r e' :
  quiet e0 e1 → subjects e1 !! subject = Some st →
  commit_transition st subject new codes ev now e1 = (r, e') →
  (∃ x, r = Err x ∧ quiet e0 e') ∨
  (∃ tr, r = Ok tr ∧ moved e0 subject tr e' ∧ new_state tr = new).
Proof.
  intros Hq Hst Hc.
  destruct (commit_transition_spec _ _ _ _ _ _ _ _ _ Hst Hc) as [(x & ? & ->)|(tr & ? & ? & ?)].
  - left. eauto.
  - right. exists tr. eauto using moved_quiet.
Qed.

Lemma evaluate_spec subject agent features rt codes now clock e r e' :
  evaluate subject agent features rt codes now clock e = (r, e') →
  (∃ x, r = Err x ∧ quiet e e') ∨
  ∃ w, assess (threshold_policy e) features = Ok w ∧
    ((r = Ok None ∧ quiet e e' ∧ severity w ≤ severity (engine_state e subject)) ∨
     (∃ tr, r = Ok (Some tr) ∧ moved e subject tr e' ∧ new_state tr = w ∧
        severity (engine_state e subject) < severity w)).
Proof.
  unfold evaluate, cbind, clift, cget.
  destruct (subject_entry_spec subject agent rt e) as (st & e1 & -> & Hq & Hst & Hs & _ & Hp & _).
  rewrite Hp. destruct (assess (threshold_policy e) features) as [w|x];
    [|intros [= <- <-]; left; eauto].
  rewrite Hs. set (target := more_severe (engine_state e subject) w).
  case_decide as Hsev.
  - intros [= <- <-]. right. exists w. split; [done|]. left. split_and!; [done..|].
    pose proof (more_severe_ge (engine_state e subject) w). fold target in H1. lia.
  - assert (target = w ∧ severity (engine_state e subject) < severity w) as [Ht Hlt].
    { unfold target, more_severe in *. case_decide; split; (done || lia). }
    rewrite Ht.
    destruct (commit_transition st subject w _ _ _ e1) as [r1 e2] eqn:Hc.
    destruct (committed _ _ _ _ _ _ _ _ _ _ Hq Hst Hc) as [(x & -> & ?)|(tr & -> & ? & ?)];
      intros [= <- <-]; [left; eauto|right; eauto 10].
Qed.

Lemma kill_switch_spec subject agent target codes rt now clock e r e' :
  kill_switch subject agent target codes rt now clock e = (r, e') →
  (∃ x, r = Err x ∧ quiet e e') ∨
  (target = QUARANTINED ∨ target = TERMINATED) ∧
  ∃ tr, r = Ok tr ∧ moved e subject tr e' ∧
    new_state tr = more_severe (engine_state e subject) target.
Proof.
  unfold kill_switch. case_decide as Ht; [intros [= <- <-]; left; unfold quiet; eauto|].
  unfold cbind.
  destruct (subject_entry_spec subject agent rt e) as (st & e1 & -> & Hq & Hst & Hs & _).
  rewrite Hs. intros Hc.
  destruct (committed _ _ _ _ _ _ _ _ _ _ Hq Hst Hc) as [?|(tr & ? & ? & ?)]; [by left|].
  right. split; [destruct target; naive_solver|eauto].
Qed.

(** What [recover] demands of the method and the approver in a state. *)
Definition recovery_ok (e : ContainmentEngine) (subject : string) (m : RecoveryMethod)
    (approver : option string) (now : Z) : Prop :=
  let s := engine_state e subject in
  s ≠ NORMAL ∧ m ∈ recovery_allowed s ∧
  (m = COOLDOWN_CLEAN → ∀ last, (subjects e !! subject) ≫= last_transition_at = Some last →
     (cooldown e ≤ now - last)%Z) ∧
  (m = ADMIN_APPROVAL → truthy_opt approver = true).

Lemma recover_spec subject agent m approver rt now clock e r e' :
  recover subject agent m approver rt now clock e = (r, e') →
  (∃ x, r = Err x ∧ quiet e e') ∨
  recovery_ok e subject m approver (or_now now clock) ∧
  ∃ tr, r = Ok tr ∧ moved e subject tr e' ∧ new_state tr = NORMAL.
Proof.
  unfold recover, cbind, cget.
  destruct (subject_entry_spec subject agent rt e)
    as (st & e1 & -> & Hq & Hst & Hs & _ & _ & Hcd & Hlast).
  rewrite Hs. unfold raise, cthrow.
  case_decide as Hn; [intros [= <- <-]; left; eauto|].
  case_decide as Hm; [intros [= <- <-]; left; eauto|].
  case_decide as Hc; [intros [= <- <-]; left; eauto|].
  case_decide as Ha; [intros [= <- <-]; left; eauto|].
  intros Hct.
  destruct (committed _ _ _ _ _ _ _ _ _ _ Hq Hst Hct) as [?|(tr & ? & ? & ?)]; [by left|].
  right. split; [|eauto]. unfold recovery_ok. cbv zeta.
  split_and!; [done|exact Hm| |].
  - intros -> last Hl. rewrite <-Hlast in Hl. unfold cooling_down in Hc.
    rewrite Hl, Hcd, bool_decide_eq_true in Hc.
    apply Znot_gt_le. intros ?. apply Hc. split; [done|lia].
  - intros ->. destruct (truthy_opt approver) eqn:?; [done|]. exfalso. naive_solver.
Qed.
End steps.

(** * Histories *)

Inductive engine_op : Type :=
| EEvaluate (subject agent : string) (features : odict string json)
    (rt : option string) (codes : option (list string)) (now : Z)
| EKill (subject agent : string) (target : ContainmentState) (codes : list string)
    (rt : option string) (now : Z)
| ERecover (subject agent : string) (m : RecoveryMethod)
    (approver rt : option string) (now : Z).

Definition op_subject (o : engine_op) : string :=
  match o with
  | EEvaluate s _ _ _ _ _ | EKill s _ _ _ _ _ | ERecover s _ _ _ _ _ => s
  end.

Section histories.
Context `{Hashlib, Rfc8785}.

Definition engine_step (e : ContainmentEngine) (o : engine_op) : ContainmentEngine :=
  match o with
  | EEvaluate s a f rt c now => (evaluate s a f rt c (Some now) now e).2
  | EKill s a t c rt now => (kill_switch s a t c rt (Some now) now e).2
  | ERecover s a m ap rt now => (recover s a m ap rt (Some now) now e).2
  end.

(** What an operation may do to a state. *)
Definition op_may (e : ContainmentEngine) (o : engine_op) (old new : ContainmentState) : Prop :=
  match o with
  | EEvaluate _ _ f _ _ _ =>
      assess (threshold_policy e) f = Ok new ∧ severity old < severity new
  | EKill _ _ t _ _ _ => (t = QUARANTINED ∨ t = TERMINATED) ∧ new = more_severe old t
  | ERecover s _ m ap _ now => recovery_ok e s m ap now ∧ new = NORMAL
  end.

Lemma engine_step_cases e o :
  quiet e (engine_step e o) ∨
  ∃ tr, moved e (op_subject o) tr (engine_step e o) ∧ op_may e o (old_state tr) (new_state tr).
Proof.
  destruct o as [s a f rt c now|s a t c rt now|s a m ap rt now]; simpl.
  - destruct (evaluate _ _ _ _ _ _ _ _) as [r e'] eqn:He.
    destruct (evaluate_spec _ _ _ _ _ _ _ _ _ _ He)
      as [(x & _ & ?)|(w & Hw & [(_ & ? & _)|(tr & _ & Hm & Hn & ?)])]; [by left..|].
    right. exists tr. split; [done|]. by rewrite (mv_old _ _ _ _ Hm), Hn.
  - destruct (kill_switch _ _ _ _ _ _ _ _) as [r e'] eqn:He.
    destruct (kill_switch_spec _ _ _ _ _ _ _ _ _ _ He) as [(x & _ & ?)|(? & tr & _ & Hm & Hn)];
      [by left|].
    right. exists tr. split; [done|]. by rewrite (mv_old _ _ _ _ Hm), Hn.
  - destruct (recover _ _ _ _ _ _ _ _) as [r e'] eqn:He.
    destruct (recover_spec _ _ _ _ _ _ _ _ _ _ He) as [(x & _ & ?)|(? & tr & _ & Hm & Hn)];
      [by left|].
    right. exists tr. by split.
Qed.

(** The states a trail of transitions leads through. *)
Fixpoint trail_from (s : ContainmentState) (trs : list ContainmentTransition)
    (s' : ContainmentState) : Prop :=
  match trs with
  | [] => s = s'
  | tr :: trs => old_state tr = s ∧ trail_from (new_state tr) trs s'
  end.

Lemma trail_snoc s trs tr : trail_from s trs (old_state tr) → trail_from s (trs ++ [tr]) (new_state tr).
Proof. revert s. induction trs as [|x trs IH]; simpl; intros s; [done|]. naive_solver. Qed.

(** A legal edge of the ladder: upwards (or a kill that keeps the state), or
    back to [NORMAL]. *)
Definition legal (tr : ContainmentTransition) : Prop :=
  severity (old_state tr) < severity (new_state tr) ∨
  (old_state tr = QUARANTINED ∨ old_state tr = TERMINATED) ∧ new_state tr = old_state tr ∨
  old_state tr ≠ NORMAL ∧ new_state tr = NORMAL.

Lemma op_may_legal e o tr :
  old_state tr = engine_state e (op_subject o) →
  op_may e o (old_state tr) (new_state tr) → legal tr.
Proof.
  unfold legal. intros Hold. destruct o; simpl in *.
  - intros [_ ?]. by left.
  - intros [Ht ->]. destruct (old_state tr), Ht as [->| ->]; vm_compute; 
      first [left; lia | right; left; split; [by auto|done]].
  - intros [(? & _) ->]. right. right. split; [congruence|done].
Qed.

Definition audited (base : Z) (e : ContainmentEngine) : Prop :=
  (base ≤ capability_epoch (epoch_source e))%Z ∧
  ∀ s, trail_from NORMAL (engine_transitions e s) (engine_state e s) ∧
       Forall legal (engine_transitions e s) ∧
       StronglySorted Z.lt (tr_capability_epoch <$> engine_transitions e s) ∧
       Forall (λ tr, base < tr_capability_epoch tr ≤ capability_epoch (epoch_source e))%Z
         (engine_transitions e s).

Lemma StronglySorted_snoc (l : list Z) x :
  StronglySorted Z.lt l → Forall (λ y, y < x)%Z l → StronglySorted Z.lt (l ++ [x]).
Proof.
  induction 1 as [|y l _ IH Hy]; simpl.
  - intros _. repeat constructor.
  - intros [??]%Forall_cons. constructor; [by apply IH|]. apply Forall_app. auto.
Qed.

Lemma audited_step base e o : audited base e → audited base (engine_step e o).
Proof.
  intros [Hb Hall]. destruct (engine_step_cases e o) as [(Hs & Ht & He)|(tr & Hm & Hmay)].
  - split; [by rewrite He|]. intros s. rewrite Hs, Ht, He. apply Hall.
  - pose proof (op_may_legal _ _ _ (mv_old _ _ _ _ Hm) Hmay) as Hlegal.
    destruct Hm as [Hold Hnew Htrail Hother Hep Hst].
    assert (Hcap : capability_epoch (epoch_source (engine_step e o)) =
                   (capability_epoch (epoch_source e) + 1)%Z) by by rewrite Hep.
    split; [lia|]. intros s. destruct (decide (s = op_subject o)) as [->|Hne].
    + destruct (Hall (op_subject o)) as (H1 & H2 & H3 & H4).
      rewrite Hnew, Htrail. split_and!.
      * apply trail_snoc. by rewrite Hold.
      * apply Forall_app. auto.
      * rewrite fmap_app. apply StronglySorted_snoc; [done|].
        rewrite Forall_fmap. eapply Forall_impl; [done|]. simpl. intros. lia.
      * apply Forall_app. split; [|constructor; [lia|constructor]].
        eapply Forall_impl; [done|]. simpl. intros. lia.
    + destruct (Hother s Hne) as [-> ->]. destruct (Hall s) as (H1 & H2 & H3 & H4).
      split_and!; try done. eapply Forall_impl; [done|]. simpl. intros. lia.
Qed.

(** The capability epoch never goes back, and moves whenever a state does. *)
Lemma epoch_step e o :
  let c := capability_epoch (epoch_source e) in
  let c' := capability_epoch (epoch_source (engine_step e o)) in
  (c ≤ c')%Z ∧ ((∃ s, engine_state (engine_step e o) s ≠ engine_state e s) → (c < c')%Z).
Proof.
  simpl. destruct (engine_step_cases e o) as [(Hs & _ & He)|(tr & Hm & _)].
  - rewrite He. split; [lia|]. intros [s Hne]. by rewrite Hs in Hne.
  - rewrite (mv_epoch _ _ _ _ Hm). simpl. lia.
Qed.
End histories.

(** A recovery attempt that does not satisfy the demands of state [s0]. *)
Definition insufficient (subject : string) (s0 : ContainmentState) (o : engine_op) : Prop :=
  match o with
  | ERecover s _ m ap _ _ =>
      s = subject → m ∉ recovery_allowed s0 ∨ (m = ADMIN_APPROVAL ∧ truthy_opt ap = false)
  | _ => True
  end.

Section ratchet.
Context `{Hashlib, Rfc8785}.

Lemma ratchet_step e o subject s0 :
  s0 ≠ NORMAL → severity s0 ≤ severity (engine_state e subject) → insufficient subject s0 o →
  severity s0 ≤ severity (engine_state (engine_step e o) subject).
Proof.
  intros Hs0 Hle Ho.
  destruct (engine_step_cases e o) as [(Hs & _)|(tr & Hm & Hmay)]; [by rewrite Hs|].
  destruct (decide (op_subject o = subject)) as [<-|Hne];
    [|by destruct (mv_other _ _ _ _ Hm subject) as [-> _]].
  rewrite (mv_new _ _ _ _ Hm). rewrite <-(mv_old _ _ _ _ Hm) in Hle.
  pose proof (mv_old _ _ _ _ Hm) as Hold.
  destruct o as [| |s a m ap rt now]; simpl in *.
  - destruct Hmay. lia.
  - destruct Hmay as [_ ->]. pose proof (more_severe_ge (old_state tr) target). lia.
  - destruct Hmay as [(_ & Hal & _ & Hap) _]. rewrite <-Hold in Hal.
    destruct (Ho eq_refl) as [Hno|[-> Hf]]; [|by rewrite Hap in Hf].
    exfalso. by destruct (recovery_allowed_antitone _ _ _ Hle Hal).
Qed.

Lemma ratchet_from ops e subject s0 :
  s0 ≠ NORMAL → severity s0 ≤ severity (engine_state e subject) →
  Forall (insufficient subject s0) ops →
  severity s0 ≤ severity (engine_state (run engine_step e ops) subject).
Proof.
  intros Hs0 Hle Hops. revert e Hle.
  induction Hops as [|o ops Ho _ IH]; intros e Hle; [done|].
  apply IH. by apply ratchet_step.
Qed.
End ratchet.

(** * Properties *)

Section properties.
Context `{Hashlib, Rfc8785}.

(** Whatever operations run on a fresh engine, every subject's audit trail
    starts in NORMAL, links without gaps to its present state, contains only
    legal edges (strictly upwards, a repeated kill, or a recovery from a contained
    state to NORMAL), and is stamped with strictly increasing capability epochs
    up to the present one. *)
Theorem containment_trail_complete pol src cd ops subject :
  let e := run engine_step (new_engine pol src cd) ops in
  let base := capability_epoch (epoch_source (new_engine pol src cd)) in
  trail_from NORMAL (engine_transitions e subject) (engine_state e subject) ∧
  Forall legal (engine_transitions e subject) ∧
  StronglySorted Z.lt (tr_capability_epoch <$> engine_transitions e subject) ∧
  Forall (λ tr, base < tr_capability_epoch tr ≤ capability_epoch (epoch_source e))%Z
    (engine_transitions e subject).
Proof.
  intros e base. assert (audited base e) as [_ Ha].
  { apply run_invariant; [intros; by apply audited_step|].
    split; [lia|]. intros s. unfold engine_transitions, engine_state. simpl.
    rewrite lookup_empty. split_and!; constructor. }
  apply Ha.
Qed.

(** C17. Escalation is a ratchet: whatever evaluations, kill switches and recovery
    attempts follow, a contained subject ends at least as contained as it was,
    unless an attempt used a recovery method admitted for that state (with a named
    approver where it is an administrator's approval). *)
Theorem containment_ratchet e ops subject :
  engine_state e subject ≠ NORMAL →
  Forall (insufficient subject (engine_state e subject)) ops →
  severity (engine_state e subject) ≤ severity (engine_state (run engine_step e ops) subject).
Proof. intros Hs Hops. by apply ratchet_from. Qed.

(** Every change of any subject's state advances the capability epoch, so
    every Decision Token minted before it is stale afterwards; the epoch never
    goes back and no other epoch is touched. *)
Theorem transition_advances_epoch e ops :
  let e' := run engine_step e ops in
  ((∃ s, engine_state e' s ≠ engine_state e s) →
     (capability_epoch (epoch_source e) < capability_epoch (epoch_source e'))%Z) ∧
  (capability_epoch (epoch_source e) ≤ capability_epoch (epoch_source e'))%Z ∧
  policy_epoch (epoch_source e') = policy_epoch (epoch_source e) ∧
  risk_epoch (epoch_source e') = risk_epoch (epoch_source e).
Proof.
  simpl. revert e. induction ops as [|o ops IH]; intros e; simpl.
  { split_and!; try done; try lia. by intros [s ?]. }
  destruct (IH (engine_step e o)) as (Hlt & Hle & Hp & Hr).
  destruct (epoch_step e o) as [Hle1 Hlt1].
  assert (policy_epoch (epoch_source (engine_step e o)) = policy_epoch (epoch_source e) ∧
          risk_epoch (epoch_source (engine_step e o)) = risk_epoch (epoch_source e)) as [Hp1 Hr1].
  { destruct (engine_step_cases e o) as [(_ & _ & ->)|(tr & Hm & _)]; [done|].
    by rewrite (mv_epoch _ _ _ _ Hm). }
  split_and!; [|lia|congruence|congruence]. intros [s Hs].
  destruct (decide (engine_state (engine_step e o) s = engine_state e s)) as [Heq|Hne].
  - specialize (Hlt ltac:(exists s; congruence)). lia.
  - specialize (Hlt1 ltac:(by exists s)). lia.
Qed.

(** [recover] either refuses and leaves every state, trail and epoch as they
    were, or the subject was contained, the method is admitted for its state, the
    cooldown has run out when the method relies on it, an approver is named when
    the method is an administrator's, and the subject is back in NORMAL with a new
    capability epoch. *)
Theorem recover_gated subject agent m approver rt now clock e :
  let res := recover subject agent m approver rt now clock e in
  (is_ok res.1 = false ∧ quiet e res.2) ∨
  (recovery_ok e subject m approver (or_now now clock) ∧
   engine_state res.2 subject = NORMAL ∧
   epoch_source res.2 = bump_capability (epoch_source e)).
Proof.
  simpl. destruct (recover _ _ _ _ _ _ _ _) as [r e'] eqn:Hr.
  destruct (recover_spec _ _ _ _ _ _ _ _ _ _ Hr) as [(x & -> & ?)|(? & tr & -> & Hm & Hn)].
  - by left.
  - right. simpl. split_and!; [done| |apply Hm]. by rewrite (mv_new _ _ _ _ Hm).
Qed.
End properties.

(** The classification a deployment is expected to give: a diagnostic capability
    is not one of the dangerous kinds. *)
Definition diagnostics_benign (profile : gmap string CapabilityAttributes) : Prop :=
  ∀ c a, profile !! c = Some a → diagnostic a = true →
    optional_high_risk a || writes a || external_network a || secret_access a
    || new_subagent a = false.

(** Containment only removes authority: at every state the effective
    capabilities are within each of the three sources, NORMAL gives exactly their
    intersection, TERMINATED gives nothing, and with a profile whose diagnostic
    capabilities are benign the ceiling only tightens as the state escalates. *)
Theorem containment_only_removes d p r profile a b :
  diagnostics_benign profile → severity a ≤ severity b →
  effective_capabilities d p r b profile ⊆ effective_capabilities d p r a profile ∧
  effective_capabilities d p r a profile ⊆ d ∩ p ∩ r ∧
  effective_capabilities d p r NORMAL profile = d ∩ p ∩ r ∧
  effective_capabilities d p r TERMINATED profile = ∅.
Proof.
  intros Hb Hle. split_and!.
  - intros c. rewrite !effective_elem. intros (? & ? & ? & Hc). split_and!; try done.
    assert (Hd : diagnostic (default default_attrs (profile !! c)) = true →
      ceiling_allows RESTRICTED (default default_attrs (profile !! c)) = true).
    { destruct (profile !! c) as [x|] eqn:Hx; simpl; [|done].
      intros ?. by rewrite (Hb _ _ Hx). }
    destruct (default default_attrs (profile !! c)) as [[] [] [] [] [] []], a, b;
      simpl in *; try done; try lia; try (by discriminate (Hd eq_refl)); vm_compute in Hle; lia.
  - intros c. rewrite effective_elem. set_solver.
  - apply set_eq. intros c. rewrite effective_elem. set_solver.
  - apply set_eq. intros c. rewrite effective_elem. simpl. set_solver.
Qed.

(** Every count that [assess] reads is a number. *)
Definition readable (f : odict string json) : Prop :=
  ∀ k, ∃ v, feature_get f k = Ok v.

(** [g] shows at least the activity [f] shows. *)
Definition features_le (t : ContainmentThresholds) (f g : odict string json) : Prop :=
  (∀ k x y, feature_get f k = Ok x → feature_get g k = Ok y → (x ≤ y)%Z) ∧
  (∀ k, k ∈ quarantine_signal_flags t → feature_flag f k = true → feature_flag g k = true).

Definition ladder (q r s : bool) : ContainmentState :=
  if q then QUARANTINED else if r then RESTRICTED else if s then SUSPICIOUS else NORMAL.

Definition reaches (a b c d : Z) : bool := bool_decide (a ≤ b)%Z || bool_decide (c ≤ d)%Z.

(** [assess] without its error cases. *)
Definition assess_pure (t : ContainmentThresholds) (flag : bool) (n : string → Z)
    : ContainmentState :=
  ladder
    (flag || reaches (quarantine_bypass_5m t) (n "bypass_attempts_5m")
                     (quarantine_secret_probe t) (n "secret_probe_count"))
    (reaches (restricted_denials_5m t) (n "denials_5m")
             (restricted_bypass_5m t) (n "bypass_attempts_5m"))
    (reaches (suspicious_denials_60s t) (n "denials_60s")
             (suspicious_bypass_5m t) (n "bypass_attempts_5m")).

Definition count (f : odict string json) (k : string) : Z :=
  match feature_get f k with Ok v => v | Err _ => 0%Z end.

Lemma assess_readable t f :
  readable f →
  assess t f = Ok (assess_pure t (existsb (feature_flag f) (elements (quarantine_signal_flags t)))
                     (count f)).
Proof.
  intros Hr. unfold assess, assess_pure, ladder, reaches, ror, feature_ge, count, rbind.
  repeat match goal with
  | |- context [feature_get f ?k] => destruct (Hr k) as [? ->]
  end.
  destruct (existsb _ _); repeat case_bool_decide; reflexivity.
Qed.

Lemma ladder_mono q r s q' r' s' :
  (q = true → q' = true) → (r = true → r' = true) → (s = true → s' = true) →
  severity (ladder q r s) ≤ severity (ladder q' r' s').
Proof.
  destruct q, r, s, q', r', s'; simpl; intros Hq Hr Hs;
    first [discriminate (Hq eq_refl) | discriminate (Hr eq_refl) | discriminate (Hs eq_refl)
          | vm_compute; lia].
Qed.

Lemma reaches_mono a b b' c d d' :
  (b ≤ b')%Z → (d ≤ d')%Z → reaches a b c d = true → reaches a b' c d' = true.
Proof.
  unfold reaches. rewrite !orb_true_iff, !bool_decide_eq_true. lia.
Qed.

Lemma assess_pure_mono t fl fl' n n' :
  (fl = true → fl' = true) → (∀ k, n k ≤ n' k)%Z →
  severity (assess_pure t fl n) ≤ severity (assess_pure t fl' n').
Proof.
  intros Hfl Hn. apply ladder_mono; [|by apply reaches_mono..].
  rewrite !orb_true_iff. intros [?|Hr]; [left; auto|right].
  revert Hr. by apply reaches_mono.
Qed.

Lemma ladder_not_terminated q r s : ladder q r s ≠ TERMINATED.
Proof. by destruct q, r, s. Qed.

(** The threshold policy is total on numeric features, never assesses
    TERMINATED (that is left to the kill switch), and is monotone: more denials,
    bypass attempts, secret probes or signal flags never lower the state that is
    warranted, whatever thresholds are configured. *)
Theorem assess_monotone t f g :
  readable f → readable g → features_le t f g →
  ∃ wf wg, assess t f = Ok wf ∧ assess t g = Ok wg ∧
    severity wf ≤ severity wg ∧ wf ≠ TERMINATED ∧ wg ≠ TERMINATED.
Proof.
  intros Hf Hg [Hn Hfl]. do 2 eexists.
  split_and!; [by apply assess_readable|by apply assess_readable| | |].
  - apply assess_pure_mono.
    + rewrite !existsb_exists. intros (k & Hk & ?). exists k. split; [done|].
      apply Hfl; [|done]. by apply elem_of_elements, list_elem_of_In.
    + intros k. unfold count. destruct (Hf k) as [x Hx], (Hg k) as [y Hy].
      rewrite Hx, Hy. by eapply Hn.
  - apply ladder_not_terminated.
  - apply ladder_not_terminated.
Qed.

(** * Witnesses *)

Import Instances.

Definition ex_engine : ContainmentEngine :=
  run engine_step (new_engine None None 300000000)
    [EEvaluate "agt" "agt" [("denials_60s", JInt 5)] None None 10;
     EKill "agt" "agt" QUARANTINED ["MANUAL"] (Some "rt") 20].

Example ex_engine_state : engine_state ex_engine "agt" = QUARANTINED.
Proof. vm_compute. reflexivity. Qed.
Example ex_engine_epoch : capability_epoch (epoch_source ex_engine) = 2%Z.
Proof. vm_compute. reflexivity. Qed.

Definition ex_attempts : list engine_op :=
  [ERecover "agt" "agt" FRESH_SESSION (Some "ops") None 5000;
   EEvaluate "agt" "agt" [] None None 6000].

(** C17 at a quarantined agent that tries to recover with a fresh session. *)
Lemma containment_ratchet_witness :
  severity QUARANTINED ≤ severity (engine_state (run engine_step ex_engine ex_attempts) "agt").
Proof.
  assert (H1 : engine_state ex_engine "agt" ≠ NORMAL) by (rewrite ex_engine_state; discriminate).
  assert (H2 : Forall (insufficient "agt" (engine_state ex_engine "agt")) ex_attempts).
  { rewrite ex_engine_state. constructor; [|constructor; [exact I|constructor]].
    intros _. left. apply (bool_decide_unpack _). vm_compute. exact I. }
  pose proof (containment_ratchet ex_engine ex_attempts "agt" H1 H2) as H.
  rewrite ex_engine_state in H. exact H.
Defined.

Definition ex_profile : gmap string CapabilityAttributes :=
  {[ "net" := mkAttrs false false true false false false;
     "ping" := mkAttrs false false false false false true ]}.

Definition ex_caps : gset string := {["net"; "ping"; "read"]}.

Lemma ex_profile_benign : diagnostics_benign ex_profile.
Proof.
  intros c a. unfold ex_profile. rewrite lookup_insert_Some.
  intros [[_ <-]|[_ Hs]]; [done|]. apply lookup_singleton_Some in Hs as [_ <-]. done.
Qed.

(** With a networking and a diagnostic capability. *)
Lemma containment_only_removes_witness :
  effective_capabilities ex_caps ex_caps ex_caps QUARANTINED ex_profile ⊆
  effective_capabilities ex_caps ex_caps ex_caps RESTRICTED ex_profile.
Proof.
  assert (Hle : severity RESTRICTED ≤ severity QUARANTINED) by (vm_compute; lia).
  destruct (containment_only_removes ex_caps ex_caps ex_caps ex_profile
    RESTRICTED QUARANTINED ex_profile_benign Hle) as [H _].
  exact H.
Defined.

(** From no activity to four denials. *)
Lemma assess_monotone_witness :
  ∃ wf wg, assess default_thresholds [] = Ok wf ∧
    assess default_thresholds [("denials_60s", JInt 4)] = Ok wg ∧ severity wf ≤ severity wg.
Proof.
  destruct (assess_monotone default_thresholds [] [("denials_60s", JInt 4)])
    as (wf & wg & ? & ? & ? & _ & _).
  - intros k. by exists 0%Z.
  - intros k. unfold feature_get. cbn [dget]. destruct (decide ("denials_60s" = k)); eauto.
  - split; [|intros k _ Hk; discriminate Hk].
    intros k x y. unfold feature_get. cbn [dget].
    destruct (decide ("denials_60s" = k)); intros [= <-] [= <-]; lia.
  - exists wf, wg. split; [assumption|]. split; assumption.
Defined.
