(* ===== verification/Behavior.v ===== *)
(** The stateful behavior engine ([cvztte/behavior]): lifecycle events, rolling
    per-scope state with pruned windows, and the canonical snapshot. *)

From S2P Require Export Action PyTime.
From S2P Require Import Concrete.

Definition WINDOW_10S : Z := 10.
Definition WINDOW_60S : Z := 60.
Definition WINDOW_5M : Z := 300.

(** [behavior.model.BehaviorEventKind] *)
Inductive BehaviorEventKind : Set := BE_PROPOSED | BE_DENIED | BE_BYPASS_ATTEMPTED | BE_EXECUTED | BE_FAILED.

#[export] Instance BehaviorEventKind_eq_dec : EqDecision BehaviorEventKind.
Proof. solve_decision. Defined.

(** [behavior.model.BehaviorEvent] *)
Record BehaviorEvent : Set := mkEvent {
  ev_kind : BehaviorEventKind;
  ev_action_type : string;
  ev_at : Z;
  ev_resource : option string;
  ev_external_destination : option string;
  ev_data_classification : DataClassification;
  ev_bytes_read : Z;
  ev_bytes_written : Z;
  ev_external_bytes : Z;
  ev_sensitive_read : bool;
  ev_secret_access : bool;
  ev_privilege_escalation : bool;
  ev_destructive : bool;
  ev_message_recipient : option string
}.

(** [behavior.model.BehaviorScope], also the key of [BehaviorEngine._scopes]:
    agent, session, runtime, delegation. *)
Abbreviation BehaviorScope := (string * string * string * option string)%type.

(** [behavior.model.BehaviorSnapshot] *)
Record BehaviorSnapshot : Type := mkSnapshot {
  snapshot_version : Z;
  sn_scope : BehaviorScope;
  windows_seconds : list (string * json);
  actions_last_10s : Z;
  actions_last_60s : Z;
  actions_last_5m : Z;
  sensitive_reads_last_5m : Z;
  sn_bytes_read : Z;
  sn_bytes_written : Z;
  sn_external_bytes : Z;
  sn_unique_resources : Z;
  sn_secret_access_count : Z;
  sn_policy_denials : Z;
  sn_privilege_escalation_attempts : Z;
  sn_new_external_destination : Z;
  sn_destructive_action_count : Z;
  sn_agent_message_fanout : Z;
  sn_bypass_attempts : Z;
  computed_at : string
}.

Definition default_windows : list (string * json) :=
  [("s10", JInt WINDOW_10S); ("s60", JInt WINDOW_60S); ("m5", JInt WINDOW_5M)].

Definition scope_json (s : BehaviorScope) : json :=
  let '(a, se, r, d) := s in
  JObj (exclude_none [("agent_id", JStr a); ("session_id", JStr se); ("runtime_id", JStr r);
                      ("delegation_id", jopt d)]).

(** [BehaviorSnapshot._hashable_dict] *)
Definition hashable_dict (s : BehaviorSnapshot) : json :=
  JObj [ ("snapshot_version", JInt (snapshot_version s)); ("scope", scope_json (sn_scope s));
    ("windows_seconds", JObj (windows_seconds s));
    ("actions_last_10s", JInt (actions_last_10s s));
    ("actions_last_60s", JInt (actions_last_60s s));
    ("actions_last_5m", JInt (actions_last_5m s));
    ("sensitive_reads_last_5m", JInt (sensitive_reads_last_5m s));
    ("bytes_read", JInt (sn_bytes_read s)); ("bytes_written", JInt (sn_bytes_written s));
    ("external_bytes", JInt (sn_external_bytes s));
    ("unique_resources", JInt (sn_unique_resources s));
    ("secret_access_count", JInt (sn_secret_access_count s));
    ("policy_denials", JInt (sn_policy_denials s));
    ("privilege_escalation_attempts", JInt (sn_privilege_escalation_attempts s));
    ("new_external_destination", JInt (sn_new_external_destination s));
    ("destructive_action_count", JInt (sn_destructive_action_count s));
    ("agent_message_fanout", JInt (sn_agent_message_fanout s));
    ("bypass_attempts", JInt (sn_bypass_attempts s)) ].

(** [BehaviorSnapshot.snapshot_hash] *)
Definition snapshot_hash `{Hashlib, Rfc8785} (s : BehaviorSnapshot) : res string :=
  commit D_BEHAVIOR_STATE (hashable_dict s).

(** * engine.py *)

(** [_ScopeState] *)
Record ScopeState : Type := mkScopeState {
  executed : list Z;
  sensitive_reads : list Z;
  bytes_read : Z;
  bytes_written : Z;
  external_bytes : Z;
  unique_resources : gset string;
  secret_access_count : Z;
  policy_denials : Z;
  privilege_escalation_attempts : Z;
  destructive_action_count : Z;
  bypass_attempts : Z;
  destinations_seen : gset string;
  new_external_destination : Z;
  message_recipients : gset string
}.

Definition new_scope_state : ScopeState := mkScopeState [] [] 0 0 0 ∅ 0 0 0 0 0 ∅ 0 ∅.

(** [while dq and dq[0] < cutoff: dq.popleft()] *)
Fixpoint popleft_while (cutoff : Z) (dq : list Z) : list Z :=
  match dq with
  | [] => []
  | t :: dq' => if (t <? cutoff)%Z then popleft_while cutoff dq' else dq
  end.

(** [_ScopeState._prune] *)
Definition prune (now : Z) (st : ScopeState) : ScopeState :=
  let cutoff := (now - seconds WINDOW_5M)%Z in
  mkScopeState (popleft_while cutoff (executed st)) (popleft_while cutoff (sensitive_reads st))
    (bytes_read st) (bytes_written st) (external_bytes st) (unique_resources st)
    (secret_access_count st) (policy_denials st) (privilege_escalation_attempts st)
    (destructive_action_count st) (bypass_attempts st) (destinations_seen st)
    (new_external_destination st) (message_recipients st).

Definition incr_if (b : bool) (n : Z) : Z := if b then (n + 1)%Z else n.
Definition push_if (b : bool) (x : Z) (l : list Z) : list Z := if b then l ++ [x] else l.

(** [if x: s.add(x)] for an optional string *)
Definition add_if (b : bool) (x : option string) (s : gset string) : gset string :=
  match x with
  | Some v => if b && negb (bool_decide (v = "")) then {[v]} ∪ s else s
  | None => s
  end.

Definition is_kind (k : BehaviorEventKind) (e : BehaviorEvent) : bool :=
  bool_decide (ev_kind e = k).

(** A destination that is named and not yet in the set. *)
Definition is_new (x : option string) (s : gset string) : bool :=
  match x with
  | Some v => negb (bool_decide (v = "")) && bool_decide (v ∉ s)
  | None => false
  end.

(** [BehaviorEngine._apply] *)
Definition apply_event (e : BehaviorEvent) (now : Z) (st : ScopeState) : ScopeState :=
  let ex := is_kind BE_EXECUTED e in
  prune now
    (mkScopeState
      (push_if ex (ev_at e) (executed st))
      (push_if (ex && ev_sensitive_read e) (ev_at e) (sensitive_reads st))
      (bytes_read st + if ex then ev_bytes_read e else 0)
      (bytes_written st + if ex then ev_bytes_written e else 0)
      (external_bytes st + if ex then ev_external_bytes e else 0)
      (add_if ex (ev_resource e) (unique_resources st))
      (incr_if (ex && ev_secret_access e) (secret_access_count st))
      (incr_if (is_kind BE_DENIED e) (policy_denials st))
      (incr_if (ev_privilege_escalation e && negb (is_kind BE_FAILED e))
         (privilege_escalation_attempts st))
      (incr_if (ex && ev_destructive e) (destructive_action_count st))
      (incr_if (is_kind BE_BYPASS_ATTEMPTED e) (bypass_attempts st))
      (add_if ex (ev_external_destination e) (destinations_seen st))
      (incr_if (ex && is_new (ev_external_destination e) (destinations_seen st))
         (new_external_destination st))
      (add_if ex (ev_message_recipient e) (message_recipients st))).

Abbreviation BehaviorEngine := (gmap (string * string * string * option string) ScopeState).

(** [BehaviorEngine._state] *)
Definition scope_state (scope : BehaviorScope) : M BehaviorEngine ScopeState :=
  λ en, match en !! scope with
        | Some st => (Ok st, en)
        | None => (Ok new_scope_state, <[scope := new_scope_state]> en)
        end.

(** [BehaviorEngine.record] *)
Definition record (scope : BehaviorScope) (e : BehaviorEvent) (now : option Z) (clock : Z)
    : M BehaviorEngine unit :=
  let now := or_now now clock in
  let! st := scope_state scope in
  cmodify (λ en, <[scope := apply_event e now st]> en).

(** [sum(1 for t in dq if t >= cutoff)] *)
Definition count_since (cutoff : Z) (dq : list Z) : Z :=
  Z.of_nat (length (List.filter (λ t, (cutoff <=? t)%Z) dq)).

(** [BehaviorEngine.snapshot] *)
Definition snapshot (scope : BehaviorScope) (now : option Z) (clock : Z)
    : M BehaviorEngine BehaviorSnapshot :=
  let now := or_now now clock in
  let! st0 := scope_state scope in
  let st := prune now st0 in
  let! _ := cmodify (λ en, <[scope := st]> en) in
  let c10 := (now - seconds WINDOW_10S)%Z in
  let c60 := (now - seconds WINDOW_60S)%Z in
  let c5m := (now - seconds WINDOW_5M)%Z in
  cret (mkSnapshot 1 scope default_windows
    (count_since c10 (executed st)) (count_since c60 (executed st))
    (count_since c5m (executed st)) (count_since c5m (sensitive_reads st))
    (bytes_read st) (bytes_written st) (external_bytes st)
    (Z.of_nat (size (unique_resources st))) (secret_access_count st) (policy_denials st)
    (privilege_escalation_attempts st) (new_external_destination st)
    (destructive_action_count st) (Z.of_nat (size (message_recipients st)))
    (bypass_attempts st) (iso_ms now)).

(** * Histories *)

Inductive behavior_op : Type :=
| BRecord (scope : BehaviorScope) (e : BehaviorEvent) (now : Z)
| BSnapshot (scope : BehaviorScope) (now : Z).

Definition bop_now (o : behavior_op) : Z :=
  match o with BRecord _ _ now | BSnapshot _ now => now end.

Definition behavior_step (en : BehaviorEngine) (o : behavior_op) : BehaviorEngine :=
  match o with
  | BRecord scope e now => (record scope e (Some now) now en).2
  | BSnapshot scope now => (snapshot scope (Some now) now en).2
  end.

(** The events recorded for a scope, oldest first. *)
Definition events_of (scope : BehaviorScope) (ops : list behavior_op) : list BehaviorEvent :=
  omap (λ o, match o with
             | BRecord s e _ => if decide (s = scope) then Some e else None
             | BSnapshot _ _ => None
             end) ops.

Definition executed_events (evs : list BehaviorEvent) : list BehaviorEvent :=
  List.filter (is_kind BE_EXECUTED) evs.

Definition sumZ (f : BehaviorEvent → Z) (evs : list BehaviorEvent) : Z :=
  foldr (λ e acc, (f e + acc)%Z) 0%Z evs.
Definition countZ (f : BehaviorEvent → bool) (evs : list BehaviorEvent) : Z :=
  sumZ (λ e, if f e then 1 else 0)%Z evs.

(** The named (non-empty) values of a field. *)
Definition named (f : BehaviorEvent → option string) (evs : list BehaviorEvent) : gset string :=
  list_to_set (List.filter (λ v, negb (bool_decide (v = ""))) (omap f evs)).

(** * Facts *)

Definition abstracts (now : Z) (evs : list BehaviorEvent) (st : ScopeState) : Prop :=
  let ex := executed_events evs in
  (∀ c, now - seconds WINDOW_5M ≤ c →
    count_since c (executed st) = countZ (λ e, (c <=? ev_at e)%Z) ex ∧
    count_since c (sensitive_reads st) =
      countZ (λ e, ev_sensitive_read e && (c <=? ev_at e)%Z) ex)%Z ∧
  bytes_read st = sumZ ev_bytes_read ex ∧
  bytes_written st = sumZ ev_bytes_written ex ∧
  external_bytes st = sumZ ev_external_bytes ex ∧
  unique_resources st = named ev_resource ex ∧
  secret_access_count st = countZ ev_secret_access ex ∧
  policy_denials st = countZ (is_kind BE_DENIED) evs ∧
  privilege_escalation_attempts st =
    countZ (λ e, ev_privilege_escalation e && negb (is_kind BE_FAILED e)) evs ∧
  destructive_action_count st = countZ ev_destructive ex ∧
  bypass_attempts st = countZ (is_kind BE_BYPASS_ATTEMPTED) evs ∧
  destinations_seen st = named ev_external_destination ex ∧
  new_external_destination st = Z.of_nat (size (destinations_seen st)) ∧
  message_recipients st = named ev_message_recipient ex.

Lemma sumZ_app f a b : sumZ f (a ++ b) = (sumZ f a + sumZ f b)%Z.
Proof. induction a as [|e a IH]; simpl; [done|]. rewrite IH. lia. Qed.

Lemma countZ_snoc f evs e : countZ f (evs ++ [e]) = incr_if (f e) (countZ f evs).
Proof. unfold countZ. rewrite sumZ_app. simpl. destruct (f e); simpl; lia. Qed.

Lemma sumZ_snoc f evs e : sumZ f (evs ++ [e]) = (sumZ f evs + f e)%Z.
Proof. rewrite sumZ_app. simpl. lia. Qed.

Lemma executed_snoc evs e :
  executed_events (evs ++ [e]) =
    if is_kind BE_EXECUTED e then executed_events evs ++ [e] else executed_events evs.
Proof.
  unfold executed_events. rewrite List.filter_app. simpl.
  destruct (is_kind BE_EXECUTED e); [done|]. by rewrite app_nil_r.
Qed.

Lemma named_snoc f evs e : named f (evs ++ [e]) = add_if true (f e) (named f evs).
Proof.
  unfold named. rewrite omap_app, List.filter_app. simpl. destruct (f e) as [v|]; simpl.
  - rewrite list_to_set_app_L. destruct (negb (bool_decide (v = ""))); simpl; set_solver.
  - set_solver.
Qed.

Lemma count_since_popleft c cutoff dq :
  (cutoff ≤ c)%Z → count_since c (popleft_while cutoff dq) = count_since c dq.
Proof.
  intros Hc. induction dq as [|t dq IH]; simpl; [done|].
  destruct (Z.ltb_spec t cutoff); [|done]. rewrite IH. unfold count_since. simpl.
  by destruct (Z.leb_spec c t); [lia|].
Qed.

Lemma count_since_push c b x dq :
  count_since c (push_if b x dq) = incr_if (b && (c <=? x)%Z) (count_since c dq).
Proof.
  unfold count_since. destruct b; simpl; [|done]. rewrite List.filter_app, length_app. simpl.
  destruct (c <=? x)%Z; simpl; lia.
Qed.

(** Pruning loses nothing that a later window can see. *)
Lemma abstracts_prune now now' evs st :
  (now ≤ now')%Z → abstracts now evs st → abstracts now' evs (prune now' st).
Proof.
  intros Hle (Hw & Hrest). split; [|exact Hrest]. intros c Hc.
  unfold prune. cbn [executed sensitive_reads]. rewrite !count_since_popleft by lia.
  apply Hw. lia.
Qed.

Lemma incr_new b x s n :
  n = Z.of_nat (size s) → incr_if (b && is_new x s) n = Z.of_nat (size (add_if b x s)).
Proof.
  intros ->. unfold add_if, is_new. destruct x as [v|]; simpl; [|by rewrite andb_false_r].
  destruct b; simpl; [|done]. destruct (decide (v = "")) as [->|Hne]; simpl; [done|].
  rewrite bool_decide_false by done. simpl. case_bool_decide as Hin; simpl.
  - rewrite size_union by set_solver. rewrite size_singleton. lia.
  - f_equal. f_equal. set_solver.
Qed.

Lemma add_if_false x s : add_if false x s = s.
Proof. by destruct x. Qed.

Lemma abstracts_event now now' evs st e :
  (now ≤ now')%Z → abstracts now evs st → abstracts now' (evs ++ [e]) (apply_event e now' st).
Proof.
  intros Hle Ha. unfold apply_event.
  destruct Ha as (Hw & H1 & H2 & H3 & H4 & H5 & H6 & H7 & H8 & H9 & H10 & H11 & H12).
  apply (abstracts_prune now now'); [done|]. unfold abstracts.
  rewrite executed_snoc, !countZ_snoc. simpl.
  split_and!; try congruence.
  { intros c Hc. destruct (Hw c Hc) as [Hx Hy].
    rewrite !count_since_push, Hx, Hy. destruct (is_kind BE_EXECUTED e); simpl;
      rewrite ?countZ_snoc; split; done. }
  all: try by apply incr_new.
  all: destruct (is_kind BE_EXECUTED e); simpl;
    rewrite ?sumZ_snoc, ?countZ_snoc, ?named_snoc; try congruence; try lia.
  all: rewrite add_if_false; congruence.
Qed.

Lemma abstracts_weaken now now' evs st :
  (now ≤ now')%Z → abstracts now evs st → abstracts now' evs st.
Proof. intros Hle (Hw & Hrest). split; [|exact Hrest]. intros c Hc. apply Hw. lia. Qed.

Lemma abstracts_new now : abstracts now [] new_scope_state.
Proof. by split_and!. Qed.

Definition state_of (en : BehaviorEngine) (scope : BehaviorScope) : ScopeState :=
  default new_scope_state (en !! scope).

(** [now] values never go back. *)
Fixpoint monotone (from : Z) (ops : list behavior_op) : Prop :=
  match ops with
  | [] => True
  | o :: ops => (from ≤ bop_now o)%Z ∧ monotone (bop_now o) ops
  end.

Definition last_now (from : Z) (ops : list behavior_op) : Z :=
  foldl (λ _ o, bop_now o) from ops.

Lemma scope_state_spec scope en :
  ∃ en', scope_state scope en = (Ok (state_of en scope), en') ∧
    ∀ s, state_of en' s = state_of en s.
Proof.
  unfold scope_state, state_of. destruct (en !! scope) as [st|] eqn:Hen; simpl.
  - eexists. split; [reflexivity|done].
  - eexists. split; [reflexivity|]. intros s. destruct (decide (s = scope)) as [->|].
    + by rewrite lookup_insert_eq, Hen.
    + by rewrite lookup_insert_ne.
Qed.

Lemma state_of_insert scope st en s :
  state_of (<[scope := st]> en) s = if decide (s = scope) then st else state_of en s.
Proof.
  unfold state_of. case_decide; subst; [by rewrite lookup_insert_eq|by rewrite lookup_insert_ne].
Qed.

Lemma record_state scope e now clock en s :
  state_of (record scope e now clock en).2 s =
    if decide (s = scope) then apply_event e (or_now now clock) (state_of en scope)
    else state_of en s.
Proof.
  unfold record, cbind. destruct (scope_state_spec scope en) as (en' & -> & Hs).
  simpl. by rewrite state_of_insert, Hs.
Qed.

Lemma snapshot_state scope now clock en s :
  state_of (snapshot scope now clock en).2 s =
    if decide (s = scope) then prune (or_now now clock) (state_of en scope)
    else state_of en s.
Proof.
  unfold snapshot, cbind. destruct (scope_state_spec scope en) as (en' & -> & Hs).
  simpl. by rewrite state_of_insert, Hs.
Qed.

Definition events_of_op (scope : BehaviorScope) (o : behavior_op) : list BehaviorEvent :=
  match o with
  | BRecord s e _ => if decide (s = scope) then [e] else []
  | BSnapshot _ _ => []
  end.

Lemma events_of_cons scope o ops :
  events_of scope (o :: ops) = events_of_op scope o ++ events_of scope ops.
Proof.
  unfold events_of, events_of_op. destruct o as [s e now|s now]; simpl; [|done].
  by case_decide.
Qed.

Lemma step_abstracts en now scope evs o :
  (now ≤ bop_now o)%Z → abstracts now evs (state_of en scope) →
  abstracts (bop_now o) (evs ++ events_of_op scope o) (state_of (behavior_step en o) scope).
Proof.
  intros Hle Ha. destruct o as [s e n|s n]; simpl in *.
  - rewrite record_state. destruct (decide (s = scope)) as [->|Hne].
    + rewrite decide_True by done. by apply (abstracts_event now).
    + rewrite decide_False by done. rewrite app_nil_r. by apply (abstracts_weaken now).
  - rewrite snapshot_state, app_nil_r. destruct (decide (scope = s)) as [->|Hne].
    + by apply (abstracts_prune now).
    + by apply (abstracts_weaken now).
Qed.

Lemma run_abstracts from ops scope :
  monotone from ops →
  abstracts (last_now from ops) (events_of scope ops) (state_of (run behavior_step ∅ ops) scope).
Proof.
  assert (Hgen : ∀ ops from en evs, monotone from ops → abstracts from evs (state_of en scope) →
    abstracts (last_now from ops) (evs ++ events_of scope ops)
      (state_of (run behavior_step en ops) scope)).
  { clear. intros ops. induction ops as [|o ops IH]; intros from en evs Hm Ha.
    - by rewrite app_nil_r.
    - destruct Hm as [Hle Hm]. pose proof (step_abstracts _ _ _ _ _ Hle Ha) as Ha'.
      specialize (IH _ _ _ Hm Ha'). rewrite <-app_assoc in IH.
      by rewrite events_of_cons. }
  intros Hm. apply (Hgen ops from ∅ []); [done|]. apply abstracts_new.
Qed.

(** The snapshot as a function of the whole history of a scope. *)
Definition snapshot_spec (scope : BehaviorScope) (evs : list BehaviorEvent) (now : Z)
    : BehaviorSnapshot :=
  let ex := executed_events evs in
  let since w e := (now - seconds w <=? ev_at e)%Z in
  mkSnapshot 1 scope default_windows
    (countZ (since WINDOW_10S) ex) (countZ (since WINDOW_60S) ex) (countZ (since WINDOW_5M) ex)
    (countZ (λ e, ev_sensitive_read e && since WINDOW_5M e) ex)
    (sumZ ev_bytes_read ex) (sumZ ev_bytes_written ex) (sumZ ev_external_bytes ex)
    (Z.of_nat (size (named ev_resource ex))) (countZ ev_secret_access ex)
    (countZ (is_kind BE_DENIED) evs)
    (countZ (λ e, ev_privilege_escalation e && negb (is_kind BE_FAILED e)) evs)
    (Z.of_nat (size (named ev_external_destination ex))) (countZ ev_destructive ex)
    (Z.of_nat (size (named ev_message_recipient ex)))
    (countZ (is_kind BE_BYPASS_ATTEMPTED) evs) (iso_ms now).

Lemma snapshot_value scope now clock en evs t :
  (t ≤ or_now now clock)%Z → abstracts t evs (state_of en scope) →
  (snapshot scope now clock en).1 = Ok (snapshot_spec scope evs (or_now now clock)).
Proof.
  intros Hle Ha. apply (abstracts_prune t (or_now now clock)) in Ha; [|done].
  unfold snapshot, cbind. destruct (scope_state_spec scope en) as (en' & -> & _).
  cbn -[prune Z.sub seconds]. set (n := or_now now clock) in *.
  destruct Ha as (Hw & H1 & H2 & H3 & H4 & H5 & H6 & H7 & H8 & H9 & H10 & H11 & H12).
  unfold snapshot_spec.
  destruct (Hw (n - seconds WINDOW_10S)%Z) as [W1 _]; [unfold seconds, WINDOW_5M, WINDOW_10S; lia|].
  destruct (Hw (n - seconds WINDOW_60S)%Z) as [W2 _]; [unfold seconds, WINDOW_5M, WINDOW_60S; lia|].
  destruct (Hw (n - seconds WINDOW_5M)%Z) as [W3 W4]; [lia|].
  rewrite W1, W2, W3, W4, H1, H2, H3, H4, H5, H6, H7, H8, H9, H11, H10, H12. done.
Qed.

(** * Properties *)

(** C40. The incremental, pruned state is exact.  After any sequence of recordings and
    snapshots of any scopes whose clock does not go back, a snapshot taken no earlier
    equals the one computed from the scope's complete event history, whatever timestamps
    the events carry: pruning never loses an event a window still sees.  The windows and
    the effect counters count EXECUTED events only.  The counter of privilege escalations
    is the code's, which is not the documented one: it counts every escalating event but a
    FAILED one, a proposal and its execution twice. *)
Theorem snapshot_exact from ops scope now clock :
  monotone from ops → (last_now from ops ≤ or_now now clock)%Z →
  (snapshot scope now clock (run behavior_step ∅ ops)).1
  = Ok (snapshot_spec scope (events_of scope ops) (or_now now clock)).
Proof. intros Hm Hle. by eapply snapshot_value, run_abstracts. Qed.

Definition ex_scope : BehaviorScope := ("agt", "ses", "rt", None).
Definition ex_event (k : BehaviorEventKind) (at_ : Z) : BehaviorEvent :=
  mkEvent k "FILE_READ" at_ (Some "/a") None INTERNAL 7 0 0 true false false false None.
Definition ex_history : list behavior_op :=
  [BRecord ex_scope (ex_event BE_PROPOSED 1000000) 1000000;
   BRecord ex_scope (ex_event BE_EXECUTED 2000000) 2000000;
   BRecord ex_scope (ex_event BE_EXECUTED 400000000) 400000000;
   BRecord ex_scope (ex_event BE_DENIED 401000000) 401000000].

Example ex_snapshot_counts :
  (λ s, (actions_last_5m s, sn_bytes_read s, sn_policy_denials s)) <$>
    match (snapshot ex_scope (Some 402000000%Z) 0 (run behavior_step ∅ ex_history)).1 with
    | Ok s => Some s | Err _ => None end = Some (1, 14, 1)%Z.
Proof. vm_compute. reflexivity. Qed.

(** An escalating action that is proposed and then executed counts as two attempts, and one
    that fails, with no proposal recorded, as none. *)
Definition ex_escalation (k : BehaviorEventKind) : behavior_op :=
  BRecord ex_scope (mkEvent k "PRIVILEGE_CHANGE" 1000000 None None INTERNAL 0 0 0 false false true false None) 1000000.
Definition ex_escalations (ks : list BehaviorEventKind) : option Z :=
  match (snapshot ex_scope (Some 2000000%Z) 0 (run behavior_step ∅ (ex_escalation <$> ks))).1 with
  | Ok s => Some (sn_privilege_escalation_attempts s)
  | Err _ => None
  end.
Example escalation_counted_twice :
  ex_escalations [BE_PROPOSED; BE_EXECUTED] = Some 2%Z ∧ ex_escalations [BE_FAILED] = Some 0%Z.
Proof. vm_compute. by split. Qed.

(** On a clock that goes back pruning is not harmless: a snapshot far ahead drops an
    execution that a later call, at an earlier time, should still count. *)
Example clock_back_loses :
  (λ h, match (snapshot ex_scope (Some 2000000%Z) 0 (run behavior_step ∅ h)).1 with
        | Ok s => Some (actions_last_5m s) | Err _ => None end)
    <$> [[BRecord ex_scope (ex_event BE_EXECUTED 1000000) 1000000];
         [BRecord ex_scope (ex_event BE_EXECUTED 1000000) 1000000; BSnapshot ex_scope 400000000]]
  = [Some 1%Z; Some 0%Z].
Proof. vm_compute. reflexivity. Qed.

(** C40 at a history in which one execution has left the window. *)
Lemma snapshot_exact_witness :
  (snapshot ex_scope (Some 402000000%Z) 0 (run behavior_step ∅ ex_history)).1
  = Ok (snapshot_spec ex_scope (events_of ex_scope ex_history) 402000000).
Proof.
  assert (Hm : monotone 0 ex_history) by (simpl; lia).
  assert (Hl : (last_now 0 ex_history ≤ or_now (Some 402000000%Z) 0)%Z) by (simpl; lia).
  exact (snapshot_exact 0 ex_history ex_scope (Some 402000000%Z) 0 Hm Hl).
Defined.

(** The snapshot hash is content-addressed: the wall-clock time of the
    snapshot does not enter it, so equal behavioral content hashes equally, and
    equal hashes mean equal canonical content unless SHA-256 collides. *)
Theorem snapshot_hash_content `{Hashlib, Rfc8785} s s' h h' :
  snapshot_hash s = Ok h → snapshot_hash s' = Ok h' →
  (hashable_dict s = hashable_dict s' → h = h') ∧
  (h = h' → rfc8785_dumps (hashable_dict s) = rfc8785_dumps (hashable_dict s') ∨ sha_collision).
Proof.
  unfold snapshot_hash. rewrite !commit_ok. intros (x & Hx & ->) (y & Hy & ->). split.
  - intros Heq. rewrite Heq in Hx. congruence.
  - intros [[_ ->]|?]%domain_hash_hex_inj; [left; congruence|by right].
Qed.

Import Instances.

Definition ex_snapshot (t : Z) : BehaviorSnapshot := snapshot_spec ex_scope [] t.

(** At two snapshots of an idle scope taken at different times. *)
Lemma snapshot_hash_content_witness :
  ∃ h h', snapshot_hash (ex_snapshot 0) = Ok h ∧ snapshot_hash (ex_snapshot 5000) = Ok h' ∧ h = h'.
Proof.
  destruct (snapshot_hash (ex_snapshot 0)) as [h|x] eqn:Hh; [|vm_compute in Hh; discriminate].
  destruct (snapshot_hash (ex_snapshot 5000)) as [h'|x] eqn:Hh'; [|vm_compute in Hh'; discriminate].
  exists h, h'. split; [reflexivity|]. split; [reflexivity|].
  apply (snapshot_hash_content (ex_snapshot 0) (ex_snapshot 5000) h h' Hh Hh').
  reflexivity.
Defined.
