(* ===== verification/Enforcement.v ===== *)
(** The common mediation flow of every enforcement point
    ([enforcement/common.py]): observe, recompute the hash, authorize, re-check
    the constraints, execute only on an exact ALLOW, emit a receipt.

    [DecisionValidator] and [ReceiptSink] are the interfaces the flow is written
    against; a broker contributes [observe] and [_execute]. *)

From S2P Require Export Token.

(** [common.DecisionEffect] *)
Inductive DecisionEffect : Set := ALLOW | DENY | REDACT.

#[export] Instance DecisionEffect_eq_dec : EqDecision DecisionEffect.
Proof. solve_decision. Defined.

Definition DecisionEffect_value (e : DecisionEffect) : string :=
  match e with ALLOW => "ALLOW" | DENY => "DENY" | REDACT => "REDACT" end.

(** [common.AuthorizedDecision] *)
Record AuthorizedDecision : Set := mkDecision {
  d_decision_id : string;
  effect : DecisionEffect;
  d_action_hash : string;
  d_target_constraint : string;
  d_operation_constraint : option string;
  d_payload_hash : option string;
  d_risk_level : Z;
  d_audience : string
}.

(** [common.ExecutionReceipt] *)
Record ExecutionReceipt : Set := mkReceipt {
  receipt_version : Z;
  rc_decision_id : option string;
  rc_action_hash : string;
  rc_action_type : string;
  rc_target : string;
  rc_operation : option string;
  rc_audience : string;
  rc_source : ObservationSource;
  rc_outcome : string;
  rc_error_code : option string;
  rc_result_hash : option string;
  rc_observed_at : string
}.

(** [receipt.model_dump(mode="json", exclude_none=True)] *)
Definition receipt_json (r : ExecutionReceipt) : list (string * json) :=
  exclude_none
    [ ("receipt_version", JInt (receipt_version r));
      ("decision_id", jopt (rc_decision_id r));
      ("action_hash", JStr (rc_action_hash r));
      ("action_type", JStr (rc_action_type r));
      ("target", JStr (rc_target r));
      ("operation", jopt (rc_operation r));
      ("audience", JStr (rc_audience r));
      ("source", JStr (ObservationSource_value (rc_source r)));
      ("outcome", JStr (rc_outcome r));
      ("error_code", jopt (rc_error_code r));
      ("result_hash", jopt (rc_result_hash r));
      ("observed_at", JStr (rc_observed_at r)) ].

(** [ExecutionReceipt.receipt_hash] *)
Definition receipt_hash `{Hashlib, Rfc8785} (r : ExecutionReceipt) : res string :=
  commit D_EXECUTION_RECEIPT (JObj (receipt_json r)).

(** [common.ExecutionResult] *)
Record ExecutionResult : Set := mkResult {
  result_ref : option string;
  result_hash : option string;
  result_detail : option json
}.

(** [common.MediationOutcome] *)
Record MediationOutcome : Set := mkOutcome {
  mo_action : AgentAction;
  mo_decision : AuthorizedDecision;
  mo_result : ExecutionResult;
  mo_receipt : ExecutionReceipt
}.

(** [common.DecisionValidator]: [authorize] may change the validator's own state
    (replay tracking); [now] is the instant of the call. *)
Class DecisionValidator (V : Type) := {
  authorize : AgentAction → string → AdapterBinding → string → Z → M V AuthorizedDecision
}.

(** [common.ReceiptSink] *)
Class ReceiptSink (K : Type) := { emit : ExecutionReceipt → M K unit }.

(** [common.InMemoryReceiptSink] *)
#[export] Instance InMemoryReceiptSink : ReceiptSink (list ExecutionReceipt) :=
  {| emit := λ r receipts, (Ok tt, receipts ++ [r]) |}.

(** What a subclass of [EnforcementBroker] supplies; [W] is the part of the world
    its effects change. *)
Record EnforcementBroker (Req W : Type) : Type := mkBroker {
  source : ObservationSource;
  audience : string;
  observe : Req → AdapterBinding → res AgentAction;
  execute : AgentAction → AuthorizedDecision → Req → M W ExecutionResult
}.
Arguments mkBroker {Req W}.
Arguments source {Req W}.
Arguments audience {Req W}.
Arguments observe {Req W}.
Arguments execute {Req W}.

Record enforcement_state (V K W : Type) : Type := mkES { validator : V; sink : K; world : W }.
Arguments mkES {V K W}.
Arguments validator {V K W}.
Arguments sink {V K W}.
Arguments world {V K W}.

(** [EnforcementBroker._assert_exact_match] *)
Definition assert_exact_match (a : AgentAction) (h : string) (d : AuthorizedDecision) : res unit :=
  if decide (d_action_hash d ≠ h) then
    err FINAL_ACTION_BINDING_FAILED "decision action_hash does not match recomputed hash"
  else if decide (d_target_constraint d ≠ target a) then
    err FINAL_ACTION_BINDING_FAILED "target constraint mismatch"
  else if decide (d_operation_constraint d ≠ None ∧ d_operation_constraint d ≠ operation a) then
    err FINAL_ACTION_BINDING_FAILED "operation constraint mismatch"
  else if decide (d_payload_hash d ≠ None ∧ d_payload_hash d ≠ payload_hash_of a) then
    err FINAL_ACTION_BINDING_FAILED "payload hash mismatch"
  else Ok tt.

Section mediation.
Context `{Hashlib, Rfc8785} {V K : Type} `{DecisionValidator V, ReceiptSink K}.
Context {Req W : Type} (b : EnforcementBroker Req W).

Definition zoom_validator {A} (m : M V A) : M (enforcement_state V K W) A :=
  czoom validator (λ v s, mkES v (sink s) (world s)) m.
Definition zoom_sink {A} (m : M K A) : M (enforcement_state V K W) A :=
  czoom sink (λ k s, mkES (validator s) k (world s)) m.
Definition zoom_world {A} (m : M W A) : M (enforcement_state V K W) A :=
  czoom world (λ w s, mkES (validator s) (sink s) w) m.

(** [EnforcementBroker._emit] *)
Definition emit_receipt (a : AgentAction) (d : option AuthorizedDecision) (outcome : string)
    (error_code result_hash : option string) (now : Z)
    : M (enforcement_state V K W) ExecutionReceipt :=
  let! h := clift (action_hash a) in
  let receipt := mkReceipt 1 (d_decision_id <$> d) h (ActionType_value (action_type a))
    (target a) (operation a) (audience b) (source b) outcome error_code result_hash
    (iso_ms now) in
  let! _ := zoom_sink (emit receipt) in
  cret receipt.

(** The [except] clauses around [_execute]. *)
Definition execution_failed (a : AgentAction) (d : AuthorizedDecision) (now : Z) (x : exn)
    : M (enforcement_state V K W) ExecutionResult :=
  match x with
  | Cvztte e =>
      let! _ := emit_receipt a (Some d) "FAILED" (Some (code_value (code e))) None now in
      cthrow x
  | PyExc _ _ =>
      let! _ := emit_receipt a (Some d) "FAILED" (Some (code_value EXECUTION_FAILED)) None now in
      raise EXECUTION_FAILED "execution failed"
  end.

(** The [except CVZTTEError] clause around [authorize]. *)
Definition authorization_failed (a : AgentAction) (now : Z) (x : exn)
    : M (enforcement_state V K W) AuthorizedDecision :=
  match x with
  | Cvztte e =>
      let! _ := emit_receipt a None "DENIED" (Some (code_value (code e))) None now in
      cthrow x
  | PyExc _ _ => cthrow x
  end.

(** [EnforcementBroker.mediate]; [now] is the clock during the call. *)
Definition mediate (request : Req) (binding : AdapterBinding) (now : Z)
    : M (enforcement_state V K W) MediationOutcome :=
  let! a := clift (observe b request binding) in
  let! h := clift (action_hash a) in
  let! d := ccatch (zoom_validator (authorize a h binding (audience b) now))
                   (authorization_failed a now) in
  let! _ := clift (assert_exact_match a h d) in
  if decide (effect d ≠ ALLOW) then
    let! _ := emit_receipt a (Some d) "DENIED" (Some (code_value ENFORCEMENT_DENIED)) None now in
    raise ENFORCEMENT_DENIED "decision was not ALLOW"
  else
    let! result := ccatch (zoom_world (execute b a d request)) (execution_failed a d now) in
    let! receipt := emit_receipt a (Some d) "EXECUTED" None (result_hash result) now in
    cret (mkOutcome a d result receipt).
End mediation.

(** * Facts *)

Lemma assert_exact_match_ok a h d :
  assert_exact_match a h d = Ok tt ↔
  d_action_hash d = h ∧ d_target_constraint d = target a ∧
  (d_operation_constraint d = None ∨ d_operation_constraint d = operation a) ∧
  (d_payload_hash d = None ∨ d_payload_hash d = payload_hash_of a).
Proof.
  unfold assert_exact_match.
  case_decide; [split; [done|naive_solver]|]. case_decide; [split; [done|naive_solver]|].
  case_decide as Ho; [split; [done|]; intros (_ & _ & Hor & _); exfalso; tauto|].
  case_decide as Hp; [split; [done|]; intros (_ & _ & _ & Hor); exfalso; tauto|].
  split; [intros _|done]. split_and!; try done.
  - destruct (decide (d_operation_constraint d = None)); [by left|right].
    apply dec_stable. naive_solver.
  - destruct (decide (d_payload_hash d = None)); [by left|right].
    apply dec_stable. naive_solver.
Qed.

Section mediation_facts.
Context `{Hashlib, Rfc8785} {V K : Type} `{DecisionValidator V, ReceiptSink K}.
Context {Req W : Type} (b : EnforcementBroker Req W).
Implicit Types s : enforcement_state V K W.

(** Emitting a receipt touches the sink only. *)
Lemma emit_receipt_frame a d o e rh now s r s' :
  emit_receipt b a d o e rh now s = (r, s') →
  validator s' = validator s ∧ world s' = world s.
Proof.
  unfold emit_receipt, zoom_sink, cbind, clift, cret, czoom.
  destruct (action_hash a); simpl; [|by intros [= <- <-]].
  destruct (emit _ (sink s)) as [[]]; by intros [= <- <-].
Qed.

Lemma execution_failed_frame a d now x s r s' :
  execution_failed b a d now x s = (r, s') →
  is_ok r = false ∧ validator s' = validator s ∧ world s' = world s.
Proof.
  unfold execution_failed, cbind, raise, cthrow.
  destruct x; destruct (emit_receipt _ _ _ _ _ _ _ s) as [[] s1] eqn:He;
    apply emit_receipt_frame in He as [??]; by intros [= <- <-].
Qed.

Lemma authorization_failed_frame a now x s r s' :
  authorization_failed b a now x s = (r, s') →
  is_ok r = false ∧ validator s' = validator s ∧ world s' = world s.
Proof.
  unfold authorization_failed, cbind, cthrow. destruct x; [|by intros [= <- <-]].
  destruct (emit_receipt _ _ _ _ _ _ _ s) as [[] s1] eqn:He;
    apply emit_receipt_frame in He as [??]; by intros [= <- <-].
Qed.

(** The validator granted exactly this action and the grant is an ALLOW. *)
Record granted_for (req : Req) (binding : AdapterBinding) (now : Z) s
    (a : AgentAction) (d : AuthorizedDecision) (v' : V) : Prop := {
  gf_observed : observe b req binding = Ok a;
  gf_authorized : ∃ h, action_hash a = Ok h ∧
    authorize a h binding (audience b) now (validator s) = (Ok d, v') ∧
    assert_exact_match a h d = Ok tt;
  gf_allow : effect d = ALLOW
}.

(** Every run of [mediate] is one of: nothing executed, and it raised; or the
    effect ran under a grant, and the outcome is the effect's. *)
Lemma mediate_cases req binding now s r s' :
  mediate b req binding now s = (r, s') →
  (is_ok r = false ∧ world s' = world s) ∨
  ∃ a d v', granted_for req binding now s a d v' ∧ validator s' = v' ∧
    world s' = (execute b a d req (world s)).2 ∧
    (∀ o, r = Ok o → mo_action o = a ∧ mo_decision o = d ∧
       (execute b a d req (world s)).1 = Ok (mo_result o)).
Proof.
  unfold mediate, cbind at 1, clift at 1.
  destruct (observe b req binding) as [a|x] eqn:Ho; [|intros [= <- <-]; by left].
  unfold cbind at 1, clift at 1.
  destruct (action_hash a) as [h|x] eqn:Hh; [|intros [= <- <-]; by left].
  unfold cbind at 1, ccatch at 1, zoom_validator, czoom at 1.
  destruct (authorize a h binding (audience b) now (validator s)) as [[d|x] v'] eqn:Ha.
  2: { destruct (authorization_failed _ _ _ _ _) as [[] s1] eqn:Hf;
       apply authorization_failed_frame in Hf as (Hk & _ & Hw); simpl in *;
       [done|intros [= <- <-]; by left]. }
  unfold cbind at 1, clift at 1.
  destruct (assert_exact_match a h d) as [[]|x] eqn:Hm; [|intros [= <- <-]; by left].
  case_decide as He.
  { unfold cbind, raise, cthrow. destruct (emit_receipt _ _ _ _ _ _ _ _) as [[] s1] eqn:Hr;
      apply emit_receipt_frame in Hr as [_ Hw]; simpl in Hw; intros [= <- <-]; by left. }
  assert (Hg : granted_for req binding now s a d v').
  { split; [done|by eauto|done]. }
  intros Hrun. right. exists a, d, v'. split; [done|].
  unfold cbind at 1, ccatch at 1, zoom_world, czoom at 1 in Hrun. cbn [world validator sink] in Hrun.
  destruct (execute b a d req (world s)) as [[res|x] w'] eqn:Hx.
  - unfold cbind, cret in Hrun.
    destruct (emit_receipt _ _ _ _ _ _ _ _) as [[rc|x] s1] eqn:Hr;
      apply emit_receipt_frame in Hr as [Hv Hw]; simpl in Hv, Hw; simplify_eq/=.
    + split; [done|]. split; [done|]. by intros o [= <-].
    + split; [done|]. split; [done|]. by intros o ?.
  - destruct (execution_failed _ _ _ _ _ _) as [[o|y] s1] eqn:Hf;
      apply execution_failed_frame in Hf as (Hk & Hv & Hw); simpl in *; [done|].
    simplify_eq. split; [done|]. split; [done|]. by intros o ?.
Qed.

(** The validator sees one call of [authorize], for the action observed. *)
Lemma mediate_validator_state req binding now s :
  validator (mediate b req binding now s).2 =
    match observe b req binding with
    | Ok a =>
        match action_hash a with
        | Ok h => (authorize a h binding (audience b) now (validator s)).2
        | Err _ => validator s
        end
    | Err _ => validator s
    end.
Proof.
  destruct (mediate b req binding now s) as [r s'] eqn:Hm. simpl. revert Hm.
  unfold mediate, cbind at 1, clift at 1.
  destruct (observe b req binding) as [a|x]; [|by intros [= <- <-]].
  unfold cbind at 1, clift at 1. destruct (action_hash a) as [h|x]; [|by intros [= <- <-]].
  unfold cbind at 1, ccatch at 1, zoom_validator, czoom at 1.
  destruct (authorize a h binding (audience b) now (validator s)) as [[d|x] v'].
  2: { destruct (authorization_failed _ _ _ _ _) as [[] s1] eqn:Hf;
       apply authorization_failed_frame in Hf as (Hk & Hv & _); simpl in *;
       [done|by intros [= <- <-]]. }
  unfold cbind at 1, clift at 1.
  destruct (assert_exact_match a h d) as [[]|x]; [|by intros [= <- <-]].
  case_decide.
  { unfold cbind, raise, cthrow. destruct (emit_receipt _ _ _ _ _ _ _ _) as [[] s1] eqn:Hr;
      apply emit_receipt_frame in Hr as [Hv _]; simpl in Hv; by intros [= <- <-]. }
  unfold cbind at 1, ccatch at 1, zoom_world, czoom at 1. cbn [world validator sink].
  destruct (execute b a d req (world s)) as [[res|x] w'].
  - unfold cbind, cret. destruct (emit_receipt _ _ _ _ _ _ _ _) as [[rc|x] s1] eqn:Hr;
      apply emit_receipt_frame in Hr as [Hv _]; simpl in Hv; by intros [= <- <-].
  - destruct (execution_failed _ _ _ _ _ _) as [[o|y] s1] eqn:Hf;
      apply execution_failed_frame in Hf as (Hk & Hv & _); simpl in *;
      [done|by intros [= <- <-]].
Qed.
End mediation_facts.

(** * Properties *)

Section properties.
Context `{Hashlib, Rfc8785} {V K : Type} `{DecisionValidator V, ReceiptSink K}.
Context {Req W : Type} (b : EnforcementBroker Req W).

(** C1. Complete mediation, for every broker, validator and receipt sink: if a
    mediation changes the world, or returns an outcome, then the validator granted
    this very call, for the action observed, under the hash recomputed from it,
    with matching target, operation and payload constraints, and the grant is an
    ALLOW; and what happened to the world is the broker's effect for that action,
    once. *)
Theorem mediation_complete req binding now (s : enforcement_state V K W) r s' :
  mediate b req binding now s = (r, s') →
  is_ok r = true ∨ world s' ≠ world s →
  ∃ a h d, observe b req binding = Ok a ∧ action_hash a = Ok h ∧
    (authorize a h binding (audience b) now (validator s)).1 = Ok d ∧
    effect d = ALLOW ∧ d_action_hash d = h ∧ d_target_constraint d = target a ∧
    (d_operation_constraint d = None ∨ d_operation_constraint d = operation a) ∧
    (d_payload_hash d = None ∨ d_payload_hash d = payload_hash_of a) ∧
    world s' = (execute b a d req (world s)).2.
Proof.
  intros Hm Hor. destruct (mediate_cases b _ _ _ _ _ _ Hm)
    as [[Hk Hw]|(a & d & v' & [Ho (h & Hh & Ha & Hx) Hallow] & _ & Hw & _)].
  - destruct Hor; congruence.
  - apply assert_exact_match_ok in Hx as (? & ? & ? & ?).
    exists a, h, d. rewrite Ha. split_and!; done.
Qed.
End properties.

(** Receipts of the in-memory sink. *)
Section receipts.
Context `{Hashlib, Rfc8785} {V : Type} `{DecisionValidator V}.
Context {Req W : Type} (b : EnforcementBroker Req W).
Implicit Types s : enforcement_state V (list ExecutionReceipt) W.

Lemma emit_receipt_ok a h d o e rh now s :
  action_hash a = Ok h →
  emit_receipt b a d o e rh now s =
    let rc := mkReceipt 1 (d_decision_id <$> d) h (ActionType_value (action_type a)) (target a)
      (operation a) (audience b) (source b) o e rh (iso_ms now) in
    (Ok rc, mkES (validator s) (sink s ++ [rc]) (world s)).
Proof. intros Hh. unfold emit_receipt, zoom_sink, cbind, clift, czoom. by rewrite Hh. Qed.

(** What the receipt of a run must say. *)
Definition receipt_reflects (req : Req) (binding : AdapterBinding) (r : res MediationOutcome)
    (s s' : enforcement_state V (list ExecutionReceipt) W) (rc : ExecutionReceipt) : Prop :=
  match r with
  | Ok o => rc_outcome rc = "EXECUTED" ∧ rc = mo_receipt o ∧
      rc_result_hash rc = result_hash (mo_result o) ∧
      rc_decision_id rc = Some (d_decision_id (mo_decision o))
  | Err x =>
      (rc_outcome rc = "DENIED" ∧ world s' = world s ∨ rc_outcome rc = "FAILED") ∧
      ∃ c, res_code r = Some c ∧ rc_error_code rc = Some (code_value c)
  end.

(** Every attempt leaves exactly one receipt that tells what happened: when
    the observed action can be hashed, the validator answers with a decision or a
    structured error, and its grants match the action they are asked for (as the
    token validator's do), one receipt is appended for the observed action,
    EXECUTED for an outcome, DENIED for a refusal that left the world untouched,
    FAILED for an effect that raised, with the error code that is raised. *)
Theorem one_receipt_per_attempt req binding now s r s' a h :
  mediate b req binding now s = (r, s') →
  observe b req binding = Ok a → action_hash a = Ok h →
  (∀ cls arg, (authorize a h binding (audience b) now (validator s)).1 ≠ Err (PyExc cls arg)) →
  (∀ d, (authorize a h binding (audience b) now (validator s)).1 = Ok d →
     assert_exact_match a h d = Ok tt) →
  ∃ rc, sink s' = sink s ++ [rc] ∧ rc_action_hash rc = h ∧ rc_target rc = target a ∧
    rc_audience rc = audience b ∧ receipt_reflects req binding r s s' rc.
Proof.
  intros Hm Ho Hh Hpy Hex. revert Hm. unfold mediate, cbind at 1, clift at 1. rewrite Ho.
  unfold cbind at 1, clift at 1. rewrite Hh.
  unfold cbind at 1, ccatch at 1, zoom_validator, czoom at 1.
  destruct (authorize a h binding (audience b) now (validator s)) as [[d|[e|cls arg]] v'] eqn:Ha;
    simpl in Hpy, Hex; [| |by destruct (Hpy cls arg)].
  2: { unfold authorization_failed, cbind. rewrite (emit_receipt_ok _ h) by done.
       simpl. intros [= <- <-]. eexists. do 4 (split; [reflexivity|]).
       split; [by left|by exists (code e)]. }
  unfold cbind at 1, clift at 1. rewrite (Hex d) by done. case_decide as He.
  { unfold cbind. rewrite (emit_receipt_ok _ h) by done. simpl. intros [= <- <-].
    eexists. do 4 (split; [reflexivity|]). split; [by left|by eexists]. }
  unfold cbind at 1, ccatch at 1, zoom_world, czoom at 1. cbn [world validator sink].
  destruct (execute b a d req (world s)) as [[rs|[e|cls arg]] w'].
  - unfold cbind. rewrite (emit_receipt_ok _ h) by done. simpl. intros [= <- <-].
    by eexists.
  - unfold execution_failed, cbind. rewrite (emit_receipt_ok _ h) by done. simpl.
    intros [= <- <-]. eexists. do 4 (split; [reflexivity|]). split; [by right|by exists (code e)].
  - unfold execution_failed, cbind. rewrite (emit_receipt_ok _ h) by done. simpl.
    intros [= <- <-]. eexists. do 4 (split; [reflexivity|]). split; [by right|by eexists].
Qed.
End receipts.
