(* ===== verification/Validator.v ===== *)
(** The Decision Token validator ([cvztte/decision/validator.py]), the instance of
    [DecisionValidator] the enforcement points run with: the presented-token
    store, the full check sequence of [authorize], and what follows for a
    history of presentations and mediations. *)

From S2P Require Export Enforcement.
From S2P Require Import Concrete.

(** [DecisionTokenValidator]; [v_epochs] is what [EpochSource.current] returns,
    [v_store] the [PresentedTokenStore], [v_uses] the tracker's counts. *)
Record DecisionTokenValidator : Type := mkValidator {
  v_key : string;
  v_epochs : EpochSet;
  v_store : gmap (string * string) SignedDecisionToken;
  v_uses : gmap string Z
}.

(** [DecisionTokenValidator.__init__] *)
Definition new_validator (mac_key : string) (source : EpochSet) : res DecisionTokenValidator :=
  if decide (mac_key = "") then
    err SECURITY_DEPENDENCY_UNAVAILABLE "missing decision-token key"
  else Ok (mkValidator mac_key source ∅ ∅).

(** [PresentedTokenStore.present] *)
Definition present (signed : SignedDecisionToken) : M DecisionTokenValidator unit :=
  λ v, (Ok tt, mkValidator (v_key v) (v_epochs v)
    (<[(t_audience (token signed), t_action_hash (token signed)) := signed]> (v_store v)) (v_uses v)).

(** [EpochSource.set] *)
Definition set_epochs (e : EpochSet) (v : DecisionTokenValidator) : DecisionTokenValidator :=
  mkValidator (v_key v) e (v_store v) (v_uses v).

Definition effect_of (d : TokenDecision) : DecisionEffect :=
  match d with TD_ALLOW => ALLOW | TD_DENY => DENY | TD_REDACT => REDACT end.

Definition decision_of (t : DecisionToken) : AuthorizedDecision :=
  mkDecision (decision_id t) (effect_of (t_decision t)) (t_action_hash t) (target_constraint t)
    (operation_constraint t) (t_payload_hash t) (t_risk_level t) (t_audience t).

Definition zoom_uses {A} (m : M (gmap string Z) A) : M DecisionTokenValidator A :=
  czoom v_uses (λ u v, mkValidator (v_key v) (v_epochs v) (v_store v) u) m.

Section validator.
Context `{Hashlib, Rfc8785, Pydantic}.

(** [DecisionTokenValidator.authorize] *)
Definition token_authorize (action : AgentAction) (h : string) (binding : AdapterBinding)
    (aud : string) (now : Z) : M DecisionTokenValidator AuthorizedDecision :=
  let! v := cget in
  match v_store v !! (aud, h) with
  | None => raise DECISION_TOKEN_INVALID "no decision token presented"
  | Some signed =>
      let t := token signed in
      let! ok := clift (verify_mac (v_key v) t (mac signed)) in
      if negb ok then raise DECISION_TOKEN_INVALID "token MAC invalid"
      else if decide (token_version t ≠ 3%Z) then
        raise DECISION_TOKEN_INVALID "unsupported token version"
      else if decide (t_action_hash t ≠ h) then
        raise FINAL_ACTION_BINDING_FAILED "token action_hash mismatch"
      else if decide (t_action_type t ≠ ActionType_value (action_type action)) then
        raise DECISION_TOKEN_INVALID "action type mismatch"
      else if decide (t_agent_id t ≠ b_agent_id binding ∨ t_runtime_id t ≠ b_runtime_id binding
                      ∨ t_session_id t ≠ b_session_id binding) then
        raise DECISION_TOKEN_INVALID "token binding mismatch"
      else if decide (t_audience t ≠ aud) then
        raise DECISION_TOKEN_AUDIENCE_MISMATCH "token audience mismatch"
      else if decide (now < t_not_before t)%Z then
        raise DECISION_TOKEN_EXPIRED "token not yet valid"
      else if decide (t_expires_at t ≤ now)%Z then
        raise DECISION_TOKEN_EXPIRED "token expired"
      else if decide (epochs t ≠ v_epochs v) then
        raise DECISION_TOKEN_EPOCH_STALE "token minted under a stale epoch"
      else if decide (target_constraint t ≠ target action) then
        raise FINAL_ACTION_BINDING_FAILED "target constraint mismatch"
      else if decide (operation_constraint t ≠ None ∧ operation_constraint t ≠ operation action) then
        raise FINAL_ACTION_BINDING_FAILED "operation constraint mismatch"
      else if decide (t_payload_hash t ≠ payload_hash_of action) then
        raise FINAL_ACTION_BINDING_FAILED "payload hash mismatch"
      else
        let! _ := zoom_uses (consume (t_nonce t) (max_uses t)) in
        cret (decision_of t)
  end.

#[export] Instance token_validator : DecisionValidator DecisionTokenValidator :=
  {| authorize := token_authorize |}.

(** * Facts *)

(** What it means for a presented token to authorize a call. *)
Record authorizes (v : DecisionTokenValidator) (signed : SignedDecisionToken)
    (action : AgentAction) (h : string) (binding : AdapterBinding) (aud : string) (now : Z)
    : Prop := {
  az_presented : v_store v !! (aud, h) = Some signed;
  az_mac : verify_mac (v_key v) (token signed) (mac signed) = Ok true;
  az_version : token_version (token signed) = 3%Z;
  az_hash : t_action_hash (token signed) = h;
  az_type : t_action_type (token signed) = ActionType_value (action_type action);
  az_agent : t_agent_id (token signed) = b_agent_id binding;
  az_runtime : t_runtime_id (token signed) = b_runtime_id binding;
  az_session : t_session_id (token signed) = b_session_id binding;
  az_audience : t_audience (token signed) = aud;
  az_window : (t_not_before (token signed) ≤ now < t_expires_at (token signed))%Z;
  az_epochs : epochs (token signed) = v_epochs v;
  az_target : target_constraint (token signed) = target action;
  az_operation : operation_constraint (token signed) = None ∨
                 operation_constraint (token signed) = operation action;
  az_payload : t_payload_hash (token signed) = payload_hash_of action;
  az_uses : (default 0%Z (v_uses v !! t_nonce (token signed)) < max_uses (token signed))%Z
}.

(** The state after a use of [signed] has been recorded. *)
Definition use_recorded (signed : SignedDecisionToken) (v : DecisionTokenValidator)
    : DecisionTokenValidator :=
  let n := t_nonce (token signed) in
  mkValidator (v_key v) (v_epochs v) (v_store v)
    (<[n := (default 0%Z (v_uses v !! n) + 1)%Z]> (v_uses v)).

Lemma authorize_ok action h binding aud now v d v' :
  token_authorize action h binding aud now v = (Ok d, v') ↔
  ∃ signed, authorizes v signed action h binding aud now ∧ d = decision_of (token signed) ∧
    v' = use_recorded signed v.
Proof.
  unfold token_authorize, cbind at 1, cget. split.
  - destruct (v_store v !! (aud, h)) as [signed|] eqn:Hst; [|done].
    unfold cbind at 1, clift.
    destruct (verify_mac (v_key v) (token signed) (mac signed)) as [[]|] eqn:Hmac; simpl; try done.
    repeat (case_decide; [done|]).
    unfold cbind, zoom_uses, czoom. rewrite consume_spec. case_decide; [|done].
    intros [= <- <-]. exists signed. split; [|done].
    split; try done; try lia; try (by apply dec_stable; naive_solver).
  - intros (signed & [Hst Hmac ????????????? ] & -> & ->). rewrite Hst.
    unfold cbind at 1, clift. rewrite Hmac. simpl.
    repeat (rewrite decide_False by (first [lia | naive_solver])).
    unfold cbind, zoom_uses, czoom. rewrite consume_spec. by rewrite decide_True.
Qed.

(** A refusal leaves the validator as it was. *)
Lemma authorize_err action h binding aud now v x v' :
  token_authorize action h binding aud now v = (Err x, v') → v' = v.
Proof.
  unfold token_authorize, cbind at 1, cget, raise, cthrow.
  destruct (v_store v !! (aud, h)) as [signed|]; [|naive_solver].
  unfold cbind at 1, clift.
  destruct (verify_mac (v_key v) (token signed) (mac signed)) as [[]|]; simpl; try naive_solver.
  repeat (case_decide; [naive_solver|]).
  unfold cbind, zoom_uses, czoom. rewrite consume_spec. case_decide; [done|].
  intros [= <- <-]. by destruct v.
Qed.

(** The boundary re-check of the mediation flow never fails on its decisions. *)
Lemma authorize_exact action h binding aud now v d v' :
  token_authorize action h binding aud now v = (Ok d, v') →
  assert_exact_match action h d = Ok tt.
Proof.
  intros (signed & [] & -> & _)%authorize_ok. apply assert_exact_match_ok. simpl. auto.
Qed.
End validator.

(** * Histories of an enforcement fabric *)

Section fabric.
Context `{Hashlib, Rfc8785, Pydantic} {K W : Type} `{ReceiptSink K}.
Abbreviation fabric := (enforcement_state DecisionTokenValidator K W).

(** Agents present tokens, epochs move, brokers of any kind mediate requests. *)
Inductive fabric_op : Type :=
| FPresent (signed : SignedDecisionToken)
| FEpochs (e : EpochSet)
| FMediate {Req : Type} (b : EnforcementBroker Req W) (req : Req)
    (binding : AdapterBinding) (now : Z).

Definition fabric_step (s : fabric) (o : fabric_op) : fabric :=
  match o with
  | FPresent signed => mkES (present signed (validator s)).2 (sink s) (world s)
  | FEpochs e => mkES (set_epochs e (validator s)) (sink s) (world s)
  | FMediate b req binding now => (mediate b req binding now s).2
  end.

(** The decision under which a mediation reaches the broker's effect, if it does. *)
Definition executes (s : fabric) (o : fabric_op) : option AuthorizedDecision :=
  match o with
  | FMediate b req binding now =>
      match observe b req binding with
      | Ok a =>
          match action_hash a with
          | Ok h =>
              match authorize a h binding (audience b) now (validator s) with
              | (Ok d, _) => if decide (effect d = ALLOW) then Some d else None
              | _ => None
              end
          | Err _ => None
          end
      | Err _ => None
      end
  | _ => None
  end.

Fixpoint executions (s : fabric) (ops : list fabric_op) : list AuthorizedDecision :=
  match ops with
  | [] => []
  | o :: ops =>
      match executes s o with
      | Some d => d :: executions (fabric_step s o) ops
      | None => executions (fabric_step s o) ops
      end
  end.

Definition executions_of (id : string) (s : fabric) (ops : list fabric_op) : Z :=
  Z.of_nat (length (filter (λ d, d_decision_id d = id) (executions s ops))).

(** Tokens that the validator can come to see. *)
Definition in_play (s : fabric) (ops : list fabric_op) (signed : SignedDecisionToken) : Prop :=
  (∃ k, v_store (validator s) !! k = Some signed) ∨ FPresent signed ∈ ops.

Definition uses_of (n : string) (s : fabric) : Z :=
  default 0%Z (v_uses (validator s) !! n).

(** What a mediation does to the validator: nothing, or it records one use of an
    authorizing token; and it executes only in the latter case. *)
Lemma mediate_validator {Req} (b : EnforcementBroker Req W) req binding now s :
  let o := FMediate b req binding now in
  (executes s o = None ∧ validator (fabric_step s o) = validator s) ∨
  ∃ signed a h, authorizes (validator s) signed a h binding (audience b) now ∧
    validator (fabric_step s o) = use_recorded signed (validator s) ∧
    (executes s o = None ∨ executes s o = Some (decision_of (token signed))).
Proof.
  cbn [executes fabric_step]. rewrite mediate_validator_state.
  destruct (observe b req binding) as [a|x]; [|by left].
  destruct (action_hash a) as [h|x]; [|by left].
  cbn [authorize token_validator].
  destruct (token_authorize a h binding (audience b) now (validator s)) as [[d|x] v'] eqn:Ha.
  - apply authorize_ok in Ha as (signed & Haz & -> & ->). right. exists signed, a, h.
    split_and!; [done..|]. case_decide; auto.
  - apply authorize_err in Ha as ->. by left.
Qed.

Lemma in_play_step s o ops signed :
  in_play (fabric_step s o) ops signed → in_play s (o :: ops) signed.
Proof.
  unfold in_play. intros [[k Hk]|?]; [|right; set_solver].
  destruct o as [sg|e|Req b req binding now].
  - simpl in Hk. apply lookup_insert_Some in Hk as [[_ ->]|[_ ?]]; [right; set_solver|eauto].
  - simpl in Hk. eauto.
  - left. destruct (mediate_validator b req binding now s) as [[_ Hv]|(sg & a & h & _ & Hv & _)];
      rewrite Hv in Hk; eauto.
Qed.

Lemma key_step s o : v_key (validator (fabric_step s o)) = v_key (validator s).
Proof.
  destruct o as [sg|e|Req b req binding now]; [done..|].
  by destruct (mediate_validator b req binding now s) as [[_ ->]|(sg & a & h & _ & -> & _)].
Qed.

(** All authentic tokens in play with this decision id carry this nonce, and all
    those with this nonce have the same use limit. *)
Definition one_token (id n : string) (m : Z) (s : fabric) (ops : list fabric_op) : Prop :=
  ∀ signed, in_play s ops signed →
    verify_mac (v_key (validator s)) (token signed) (mac signed) = Ok true →
    (decision_id (token signed) = id → t_nonce (token signed) = n) ∧
    (t_nonce (token signed) = n → max_uses (token signed) = m).

Lemma one_token_step id n m s o ops :
  one_token id n m s (o :: ops) → one_token id n m (fabric_step s o) ops.
Proof.
  intros Hone signed Hin. rewrite key_step. apply Hone. by apply in_play_step.
Qed.

(** One step: each execution of the decision consumes a use. *)
Lemma execution_consumes id n m s o ops :
  one_token id n m s (o :: ops) →
  let e := match executes s o with
           | Some d => if decide (d_decision_id d = id) then 1%Z else 0%Z
           | None => 0%Z
           end in
  (uses_of n s + e ≤ uses_of n (fabric_step s o))%Z ∧
  (uses_of n (fabric_step s o) ≤ Z.max (uses_of n s) m)%Z.
Proof.
  intros Hone. destruct o as [sg|e|Req b req binding now]; [simpl; unfold uses_of; simpl; lia..|].
  unfold uses_of. cbv zeta.
  destruct (mediate_validator b req binding now s)
    as [[-> ->]|(sg & a & h & Haz & -> & Hx)]; [lia|].
  pose proof (az_uses _ _ _ _ _ _ _ Haz) as Hlt.
  destruct (Hone sg) as [Hid Hm]; [left; eauto using az_presented|apply Haz|].
  assert (He : ∀ d, executes s (FMediate b req binding now) = Some d →
               d = decision_of (token sg)) by (intros d Hd; destruct Hx; congruence).
  clear Hx. destruct (executes s (FMediate b req binding now)) as [d|]; simpl;
    [rewrite (He d eq_refl); simpl|].
  all: destruct (decide (t_nonce (token sg) = n)) as [<-|Hne];
    [rewrite lookup_insert_eq; simpl; rewrite Hm in Hlt by done
    |rewrite lookup_insert_ne by done].
  - case_decide; lia.
  - rewrite decide_False by naive_solver. lia.
  - lia.
  - lia.
Qed.

Lemma executions_bound id n m ops s :
  one_token id n m s ops → (executions_of id s ops ≤ Z.max 0 (m - uses_of n s))%Z.
Proof.
  revert s. induction ops as [|o ops IH]; intros s Hone; [unfold executions_of; simpl; lia|].
  specialize (IH _ (one_token_step _ _ _ _ _ _ Hone)).
  destruct (execution_consumes _ _ _ _ _ _ Hone) as [Hge Hle].
  unfold executions_of in *. simpl. destruct (executes s o) as [d|]; [|lia].
  rewrite filter_cons. case_decide; simpl; lia.
Qed.
End fabric.

(** * Properties *)

Section validator_properties.
Context `{Hashlib, Rfc8785, Pydantic}.

(** C2. [authorize] grants exactly when a token presented for this audience and
    hash has a valid MAC under the gateway key, version 3, the action's hash, type,
    target, operation and payload, the caller's identities and audience, an open
    time window, the current epochs, and a use left; it then returns the token's
    decision and records one use; otherwise it raises and changes nothing. *)
Theorem authorize_iff v action h binding aud now :
  (∃ signed, authorizes v signed action h binding aud now ∧
     authorize action h binding aud now v
     = (Ok (decision_of (token signed)), use_recorded signed v)) ∨
  ((∀ signed, ¬ authorizes v signed action h binding aud now) ∧
   is_ok (authorize action h binding aud now v).1 = false ∧
   (authorize action h binding aud now v).2 = v).
Proof.
  simpl. destruct (token_authorize action h binding aud now v) as [[d|x] v'] eqn:Ha.
  - pose proof Ha as Ha'. apply authorize_ok in Ha' as (signed & ? & -> & ->). left. eauto.
  - right. split_and!; [|done|by eapply authorize_err].
    intros signed Haz.
    assert (token_authorize action h binding aud now v
            = (Ok (decision_of (token signed)), use_recorded signed v)) as Hok.
    { apply authorize_ok. eauto. }
    congruence.
Qed.

(** C5. A token for action A cannot execute action B: if a token the authority
    minted for one action authorizes another, the two have the same canonical
    bytes, or SHA-256 collides; target, payload and identities agree in any case. *)
Theorem token_for_a_is_not_for_b auth a bind aud ph eps dec rl cs cks rid uses ttl t0 clock dr
    signed v b h bind' aud' now :
  issue auth a bind aud ph eps dec rl cs cks rid uses ttl t0 clock dr = Ok signed →
  v_store v !! (aud', h) = Some signed →
  action_hash b = Ok h →
  is_ok (authorize b h bind' aud' now v).1 = true →
  (rfc8785_dumps (canonical_dict a) = rfc8785_dumps (canonical_dict b) ∨ sha_collision) ∧
  target b = target a ∧ payload_hash_of b = payload_hash_of a ∧ aud' = aud ∧
  b_agent_id bind' = b_agent_id bind ∧ b_runtime_id bind' = b_runtime_id bind ∧
  b_session_id bind' = b_session_id bind.
Proof.
  intros Hi Hst Hb. simpl.
  destruct (token_authorize b h bind' aud' now v) as [[d|x] v'] eqn:Ha; [|done].
  intros _. apply authorize_ok in Ha as (sg & [] & _). simplify_eq.
  destruct (issue_ok _ _ _ _ _ _ _ _ _ _ _ _ _ _ _ _ _ Hi)
    as (_ & _ & Hah & _ & _ & Htg & _ & Hph & Hag & Hrt & Hss & Haud & _).
  split; [|split_and!; congruence].
  by eapply action_hash_binds.
Qed.

(** C9. A token is executed at most [max_uses] times, over every broker that
    shares the validator: in any history of presentations (of any tokens, forged
    ones included), epoch changes and mediations by any brokers, the executions
    under a decision id number at most the use limit of its nonce. *)
Theorem executions_within_max_uses {K W : Type} `{ReceiptSink K} id n m
    (s : enforcement_state DecisionTokenValidator K W) ops :
  v_uses (validator s) !! n = None →
  one_token id n m s ops →
  (executions_of id s ops ≤ Z.max 0 m)%Z.
Proof.
  intros Hn Hone. pose proof (executions_bound id n m ops s Hone) as Hb.
  unfold uses_of in Hb. rewrite Hn in Hb. simpl in Hb. lia.
Qed.

(** Executions are exactly what the history function counts: a mediation
    that is not counted raises and leaves the world untouched, whatever the
    broker; so with C20 no effect escapes the use limit. *)
Theorem uncounted_mediation_is_inert {K W : Type} `{ReceiptSink K} {Req} (b : EnforcementBroker Req W)
    req binding now (s : enforcement_state DecisionTokenValidator K W) :
  executes s (FMediate b req binding now) = None →
  is_ok (mediate b req binding now s).1 = false ∧
  world (mediate b req binding now s).2 = world s.
Proof.
  intros Hx. destruct (mediate b req binding now s) as [r s'] eqn:Hm. simpl.
  destruct (mediate_cases b _ _ _ _ _ _ Hm) as [?|(a & d & v' & [Ho (h & Hh & Ha & _) He] & _)];
    [done|].
  simpl in Hx. rewrite Ho, Hh in Hx. simpl in Ha. rewrite Ha in Hx.
  by rewrite decide_True in Hx.
Qed.
End validator_properties.

(** * Witnesses: a broker that appends its target to a log *)

Import Instances.

Definition ex_broker : EnforcementBroker string (list string) :=
  mkBroker SRC_FILE_BROKER "file"
    (λ req _, if decide (req = "/data/report.txt") then Ok ex_action else Ok ex_other_action)
    (λ a _ _ w, (Ok (mkResult (Some (target a)) None None), w ++ [target a])).

Definition ex_state : enforcement_state DecisionTokenValidator (list ExecutionReceipt) (list string) :=
  Eval vm_compute in mkES (present ex_signed (mkValidator ex_key default_epochs ∅ ∅)).2 [] [].

Definition ex_hash : string := Eval vm_compute in
  match action_hash ex_action with Ok h => h | Err _ => "" end.
Lemma ex_hash_ok : action_hash ex_action = Ok ex_hash.
Proof. vm_compute. reflexivity. Qed.

Definition ex_outcome := Eval vm_compute in mediate ex_broker "/data/report.txt" ex_binding 2000 ex_state.
Lemma ex_mediated : mediate ex_broker "/data/report.txt" ex_binding 2000 ex_state = ex_outcome.
Proof. vm_compute. reflexivity. Qed.

Example ex_mediated_world : world ex_outcome.2 = ["/data/report.txt"].
Proof. vm_compute. reflexivity. Qed.
(** A second use is refused, and so is another target under the same token. *)
Example ex_replay_refused :
  res_code (mediate ex_broker "/data/report.txt" ex_binding 2000 ex_outcome.2).1
  = Some DECISION_TOKEN_REPLAY.
Proof. vm_compute. reflexivity. Qed.
Example ex_other_refused :
  res_code (mediate ex_broker "/data/secret.txt" ex_binding 2000 ex_state).1
  = Some DECISION_TOKEN_INVALID.
Proof. vm_compute. reflexivity. Qed.

(** C1 at the mediation of a file read. *)
Lemma mediation_complete_witness :
  ∃ a h d, observe ex_broker "/data/report.txt" ex_binding = Ok a ∧ action_hash a = Ok h ∧
    (authorize a h ex_binding "file" 2000 (validator ex_state)).1 = Ok d ∧ effect d = ALLOW.
Proof.
  destruct (mediation_complete ex_broker "/data/report.txt" ex_binding 2000 ex_state
    ex_outcome.1 ex_outcome.2) as (a & h & d & H1 & H2 & H3 & H4 & _).
  - rewrite ex_mediated. destruct ex_outcome. reflexivity.
  - left. reflexivity.
  - exists a, h, d. split; [exact H1|]. split; [exact H2|]. split; [exact H3|exact H4].
Defined.

(** C5 at the token minted for the file read. *)
Lemma token_for_a_is_not_for_b_witness :
  (rfc8785_dumps (canonical_dict ex_action) = rfc8785_dumps (canonical_dict ex_action)
   ∨ sha_collision) ∧ target ex_action = target ex_action.
Proof.
  destruct (token_for_a_is_not_for_b ex_dta ex_action ex_binding "file" "sha256:p" default_epochs
    TD_ALLOW 1 NORMAL None None 1 None (Some 1000%Z) 0 ex_draws ex_signed (validator ex_state)
    ex_action ex_hash ex_binding "file" 2000) as (H1 & H2 & _).
  - exact ex_issue_ok.
  - vm_compute. reflexivity.
  - exact ex_hash_ok.
  - vm_compute. reflexivity.
  - split; [exact H1|exact H2].
Defined.

Definition ex_fabric_ops : list fabric_op :=
  [FMediate ex_broker "/data/report.txt" ex_binding 2000;
   FPresent ex_signed;
   FMediate ex_broker "/data/report.txt" ex_binding 3000].

Example ex_executed_once : executions_of "dec_d1" ex_state ex_fabric_ops = 1%Z.
Proof. vm_compute. reflexivity. Qed.

(** C9 at a token used, presented again and used again. *)
Lemma executions_within_max_uses_witness :
  (executions_of "dec_d1" ex_state ex_fabric_ops ≤ 1)%Z.
Proof.
  apply (executions_within_max_uses "dec_d1" "n1" 1 ex_state ex_fabric_ops).
  - reflexivity.
  - intros signed Hin _. assert (signed = ex_signed) as ->.
    { destruct Hin as [[k Hk]|Hin].
      - change (v_store (validator ex_state))
          with ({[ ("file", ex_hash) := ex_signed ]} : gmap (string * string) SignedDecisionToken) in Hk.
        apply lookup_singleton_Some in Hk as [_ <-]. reflexivity.
      - unfold ex_fabric_ops in Hin. set_solver. }
    split; reflexivity.
Defined.

(** At a mediation without a matching token. *)
Lemma uncounted_mediation_is_inert_witness :
  is_ok (mediate ex_broker "/data/secret.txt" ex_binding 2000 ex_state).1 = false ∧
  world (mediate ex_broker "/data/secret.txt" ex_binding 2000 ex_state).2 = world ex_state.
Proof.
  apply (uncounted_mediation_is_inert ex_broker "/data/secret.txt" ex_binding 2000 ex_state).
  vm_compute. reflexivity.
Defined.
