(* ===== verification/PyJson.v ===== *)
(** [json.dumps(v, sort_keys=True)] with the default separators and
    [ensure_ascii], on strings held as UTF-8.  The rendering of floats
    ([float.__repr__]) is an interface. *)

From S2P Require Export Canonical.

Class FloatRepr := { float_repr : spec_float → string }.

(** * Code points *)

Definition cont_bits (c : Ascii.ascii) : N := (Ascii.N_of_ascii c mod 64)%N.

(** The code points of a UTF-8 string. *)
Fixpoint code_points (s : string) : list N :=
  match s with
  | EmptyString => []
  | String a r =>
      let n := Ascii.N_of_ascii a in
      if (n <? 128)%N then n :: code_points r
      else if (n <? 224)%N then
        match r with
        | String b r => ((n mod 32) * 64 + cont_bits b)%N :: code_points r
        | _ => []
        end
      else if (n <? 240)%N then
        match r with
        | String b (String c r) =>
            (((n mod 16) * 64 + cont_bits b) * 64 + cont_bits c)%N :: code_points r
        | _ => []
        end
      else
        match r with
        | String b (String c (String d r)) =>
            ((((n mod 8) * 64 + cont_bits b) * 64 + cont_bits c) * 64 + cont_bits d)%N
              :: code_points r
        | _ => []
        end
  end.

(** * Escapes *)

Definition u_escape (n : N) : string :=
  "\u" +:+ hex (String (Ascii.ascii_of_N (n / 256)) (String (Ascii.ascii_of_N (n mod 256)) "")).

(** [json.encoder.ESCAPE_ASCII] *)
Definition json_escape (n : N) : string :=
  if (n =? 34)%N then "\" +:+ String (Ascii.ascii_of_nat 34) ""
  else if (n =? 92)%N then "\\"
  else if (n =? 10)%N then "\n"
  else if (n =? 13)%N then "\r"
  else if (n =? 9)%N then "\t"
  else if (n =? 12)%N then "\f"
  else if (n =? 8)%N then "\b"
  else if ((32 <=? n) && (n <=? 126))%N then String (Ascii.ascii_of_N n) ""
  else if (n <? 65536)%N then u_escape n
  else
    let v := (n - 65536)%N in
    u_escape (55296 + v / 1024) +:+ u_escape (56320 + v mod 1024).

Definition dq : string := String (Ascii.ascii_of_nat 34) "".

Definition dumps_str (s : string) : string :=
  dq +:+ String.concat "" (json_escape <$> code_points s) +:+ dq.

(** * Values *)

Fixpoint int_digits (fuel : nat) (n : N) (acc : string) : string :=
  match fuel with
  | 0 => acc
  | S fuel =>
      let acc := String (Ascii.ascii_of_N (48 + n mod 10)) acc in
      if (n <? 10)%N then acc else int_digits fuel (n / 10) acc
  end.

(** [int.__repr__]; the fuel bounds the number of digits by that of bits. *)
Definition int_repr (z : Z) : string :=
  let n := Z.to_N (Z.abs z) in
  (if (z <? 0)%Z then "-" else "") +:+ int_digits (S (N.to_nat (N.size n))) n "".

Fixpoint insert_item {A} (kv : string * A) (l : list (string * A)) : list (string * A) :=
  match l with
  | [] => [kv]
  | kv' :: l' => if String.leb kv.1 kv'.1 then kv :: l else kv' :: insert_item kv l'
  end.
Definition sorted_items {A} (l : list (string * A)) : list (string * A) :=
  foldr insert_item [] l.

Section dumps.
Context `{FloatRepr}.

(** [json.dumps(v, sort_keys=True)] *)
Fixpoint json_dumps (v : json) : string :=
  match v with
  | JNull => "null"
  | JBool b => if b then "true" else "false"
  | JInt z => int_repr z
  | JFloat S754_nan => "NaN"
  | JFloat (S754_infinity s) => if s then "-Infinity" else "Infinity"
  | JFloat f => float_repr f
  | JStr s => dumps_str s
  | JArr l => "[" +:+ String.concat ", " (json_dumps <$> l) +:+ "]"
  | JObj kvs =>
      "{" +:+ String.concat ", "
        ((λ kv, dumps_str kv.1 +:+ ": " +:+ kv.2) <$>
           sorted_items ((λ kv, (kv.1, json_dumps kv.2)) <$> kvs)) +:+ "}"
  end.
End dumps.

Definition no_floats : FloatRepr := {| float_repr := λ _, "0.0" |}.

Example dumps_sorted :
  json_dumps (H := no_floats) (JObj [("b", JInt (-12)); ("a", JArr [JNull; JBool true])])
  = "{" +:+ dq +:+ "a" +:+ dq +:+ ": [null, true], " +:+ dq +:+ "b" +:+ dq +:+ ": -12}".
Proof. vm_compute. reflexivity. Qed.
(** U+00E9 and U+1F600. *)
Example dumps_escapes :
  dumps_str (String (Ascii.ascii_of_nat 195) (String (Ascii.ascii_of_nat 169)
    (String (Ascii.ascii_of_nat 240) (String (Ascii.ascii_of_nat 159)
    (String (Ascii.ascii_of_nat 152) (String (Ascii.ascii_of_nat 128) ""))))))
  = dq +:+ "\u00e9\ud83d\ude00" +:+ dq.
Proof. vm_compute. reflexivity. Qed.

(** * What a rendering contains *)

#[local] Arguments String.append !s1 s2 : simpl nomatch.

(** A printable ASCII character that JSON does not escape. *)
Definition plain_char (c : Ascii.ascii) : bool :=
  let n := Ascii.N_of_ascii c in
  ((32 <=? n) && (n <=? 126) && negb (n =? 34) && negb (n =? 92))%N.

Fixpoint plain (s : string) : bool :=
  match s with EmptyString => true | String c s => plain_char c && plain s end.

Definition continuation (c : Ascii.ascii) : bool := (128 <=? Ascii.N_of_ascii c)%N.

(** Every lead byte is followed by its continuation bytes, as in the encoding of
    any Python [str]. *)
Fixpoint valid_utf8 (s : string) : bool :=
  match s with
  | EmptyString => true
  | String a r =>
      let n := Ascii.N_of_ascii a in
      if (n <? 128)%N then valid_utf8 r
      else if (n <? 224)%N then
        match r with String b r => continuation b && valid_utf8 r | _ => false end
      else if (n <? 240)%N then
        match r with
        | String b (String c r) => continuation b && continuation c && valid_utf8 r
        | _ => false
        end
      else
        match r with
        | String b (String c (String d r)) =>
            continuation b && continuation c && continuation d && valid_utf8 r
        | _ => false
        end
  end.

(** The strings of a value: keys and values at every depth. *)
Fixpoint strings_of (v : json) : list string :=
  match v with
  | JStr s => [s]
  | JArr l => flat_map strings_of l
  | JObj kvs => flat_map (λ kv, kv.1 :: strings_of kv.2) kvs
  | _ => []
  end.

Definition has_infix (p s : string) : Prop := ∃ l r, s = l +:+ p +:+ r.

Lemma str_app_nil_r (a : string) : a +:+ "" = a.
Proof. induction a as [|x a IH]; [done|]. cbn [String.append]. by rewrite IH. Qed.

Lemma has_infix_refl s : has_infix s s.
Proof. exists "", "". simpl. by rewrite str_app_nil_r. Qed.
Lemma has_infix_trans a b c : has_infix a b → has_infix b c → has_infix a c.
Proof.
  intros (l & r & ->) (l' & r' & ->). exists (l' +:+ l), (r +:+ r').
  by rewrite !str_app_assoc.
Qed.
Lemma has_infix_l a b c : has_infix a b → has_infix a (b +:+ c).
Proof. intros (l & r & ->). exists l, (r +:+ c). by rewrite !str_app_assoc. Qed.
Lemma has_infix_r a b c : has_infix a b → has_infix a (c +:+ b).
Proof. intros (l & r & ->). exists (c +:+ l), r. by rewrite !str_app_assoc. Qed.

Lemma concat_infix sep x l : x ∈ l → has_infix x (String.concat sep l).
Proof.
  induction l as [|y l IH]; [set_solver|]. intros [->|Hin]%elem_of_cons.
  - destruct l; simpl; [apply has_infix_refl|]. apply has_infix_l, has_infix_refl.
  - destruct l as [|z l]; [set_solver|]. apply has_infix_r, has_infix_r, IH, Hin.
Qed.

Definition codes (s : string) : list N := Ascii.N_of_ascii <$> String.list_ascii_of_string s.

Lemma plain_char_spec c :
  plain_char c = true →
  (Ascii.N_of_ascii c < 128)%N ∧ json_escape (Ascii.N_of_ascii c) = String c "".
Proof. by destruct c as [[] [] [] [] [] [] [] []]. Qed.

Lemma plain_not_continuation c : plain_char c = true → continuation c = false.
Proof. by destruct c as [[] [] [] [] [] [] [] []]. Qed.

Lemma code_points_plain p r : plain p = true → code_points (p +:+ r) = codes p ++ code_points r.
Proof.
  induction p as [|c p IH]; [done|]. simpl. intros [Hc Hp]%andb_prop.
  destruct (plain_char_spec c Hc) as [Hlt _]. apply N.ltb_lt in Hlt. rewrite Hlt.
  unfold codes. simpl. f_equal. by apply IH.
Qed.

(** In valid UTF-8 a plain substring is decoded on its own. *)
Lemma code_points_split n l p0 p r :
  String.length l ≤ n →
  plain (String p0 p) = true → valid_utf8 (l +:+ String p0 p +:+ r) = true →
  ∃ a b, code_points (l +:+ String p0 p +:+ r) = a ++ codes (String p0 p) ++ b.
Proof.
  intros Hn Hp.
  assert (Hp0 : continuation p0 = false).
  { apply plain_not_continuation. simpl in Hp. by apply andb_prop in Hp as [? _]. }
  revert l Hn. induction n as [|n IH]; intros l Hn Hv; destruct l as [|x l]; simpl in Hn; try lia.
  1,2: exists [], (code_points r); exact (code_points_plain _ _ Hp).
  assert (Hstep : ∀ k l', l' = l' → String.length l' ≤ n →
    valid_utf8 (l' +:+ String p0 p +:+ r) = true →
    ∃ a b, k :: code_points (l' +:+ String p0 p +:+ r) = a ++ codes (String p0 p) ++ b).
  { intros k l' _ Hl' Hv'. destruct (IH l' Hl' Hv') as (a & b & ->). by exists (k :: a), b. }
  simpl in Hv. simpl code_points.
  destruct (_ <? 128)%N; [by apply Hstep; [|lia|]|].
  destruct (_ <? 224)%N.
  { destruct l as [|y l]; simpl in Hv; [by rewrite Hp0 in Hv|].
    apply andb_prop in Hv as [_ Hv]. simpl in Hn. simpl. apply Hstep; [done|lia|done]. }
  destruct (_ <? 240)%N.
  { destruct l as [|y [|z l]]; simpl in Hv.
    - destruct p; simpl in Hv; [destruct r; simpl in Hv|]; rewrite ?Hp0 in Hv; done.
    - rewrite Hp0, andb_false_r in Hv. done.
    - apply andb_prop in Hv as [_ Hv]. simpl in Hn. simpl. apply Hstep; [done|lia|done]. }
  destruct l as [|y [|z [|w l]]]; simpl in Hv.
  - destruct (p +:+ r) as [|? [|? ?]]; rewrite ?Hp0 in Hv; done.
  - destruct (p +:+ r) as [|? ?]; rewrite ?Hp0, ?andb_false_r in Hv; done.
  - rewrite Hp0, andb_false_r in Hv. done.
  - apply andb_prop in Hv as [_ Hv]. simpl in Hn. simpl. apply Hstep; [done|lia|done].
Qed.

Lemma concat_cons x l : String.concat "" (x :: l) = x +:+ String.concat "" l.
Proof. destruct l; simpl; [by rewrite str_app_nil_r|done]. Qed.

Lemma concat_app l1 l2 :
  String.concat "" (l1 ++ l2) = String.concat "" l1 +:+ String.concat "" l2.
Proof.
  induction l1 as [|x l1 IH]; [done|].
  change ((x :: l1) ++ l2) with (x :: (l1 ++ l2)).
  by rewrite !concat_cons, IH, str_app_assoc.
Qed.

Lemma escape_plain p :
  plain p = true → String.concat "" (json_escape <$> codes p) = p.
Proof.
  induction p as [|c p IH]; [done|]. intros [Hc Hp]%andb_prop.
  unfold codes. cbn [String.list_ascii_of_string fmap list_fmap].
  rewrite concat_cons. destruct (plain_char_spec c Hc) as [_ ->].
  change (String c "" +:+ ?x) with (String c x). f_equal. by apply IH.
Qed.

(** A plain substring of a string shows in its rendering. *)
Lemma dumps_str_infix p s :
  plain p = true → p ≠ "" → valid_utf8 s = true → has_infix p s → has_infix p (dumps_str s).
Proof.
  intros Hp Hne Hv (l & r & ->). destruct p as [|p0 p]; [done|].
  destruct (code_points_split (String.length l) l p0 p r (le_n _) Hp Hv) as (a & b & Heq).
  unfold dumps_str. rewrite Heq, !fmap_app, !concat_app.
  rewrite (escape_plain _ Hp).
  apply has_infix_r, has_infix_l, has_infix_r, has_infix_l, has_infix_refl.
Qed.

Lemma insert_item_elem {A} (kv x : string * A) l :
  x ∈ insert_item kv l ↔ x = kv ∨ x ∈ l.
Proof.
  induction l as [|y l IH]; simpl; [set_solver|]. case_match; set_solver.
Qed.
Lemma sorted_items_elem {A} (x : string * A) l : x ∈ sorted_items l ↔ x ∈ l.
Proof.
  induction l as [|y l IH]; simpl; [done|]. rewrite insert_item_elem, IH. set_solver.
Qed.

(** Every string of a value is rendered somewhere in the rendering of the value. *)
Lemma strings_rendered `{FloatRepr} v s :
  s ∈ strings_of v → has_infix (dumps_str s) (json_dumps v).
Proof.
  revert v s.
  refine (json_rect' (λ v, ∀ s, s ∈ strings_of v → has_infix (dumps_str s) (json_dumps v))
    _ _ _ _ _ _ _); try (intros; simpl in *; set_solver).
  - intros s s' Hs. simpl in Hs. apply list_elem_of_singleton in Hs as ->. apply has_infix_refl.
  - intros l IH s Hs. cbn [strings_of json_dumps] in *. apply list_elem_of_In, in_flat_map in Hs as (x & Hx & Hs).
    apply list_elem_of_In in Hx, Hs. rewrite Forall_forall in IH.
    eapply has_infix_trans; [by apply (IH x)|].
    apply has_infix_r, has_infix_l, concat_infix, list_elem_of_fmap. by exists x.
  - intros kvs IH s Hs. cbn [strings_of json_dumps] in *. apply list_elem_of_In, in_flat_map in Hs as ([k x] & Hx & Hs).
    apply list_elem_of_In in Hx, Hs. rewrite Forall_forall in IH.
    eapply has_infix_trans with (dumps_str k +:+ ": " +:+ json_dumps x).
    + apply elem_of_cons in Hs as [->|Hs]; [apply has_infix_l, has_infix_refl|].
      apply has_infix_r, has_infix_r. by apply (IH (k, x)).
    + apply has_infix_r, has_infix_l, concat_infix, list_elem_of_fmap.
      exists (k, json_dumps x). split; [done|]. apply sorted_items_elem, list_elem_of_fmap.
      by exists (k, x).
Qed.

(** A plain text that does not occur in the rendering occurs in no string of the
    value. *)
Lemma absent_from_rendering `{FloatRepr} p v s :
  plain p = true → p ≠ "" → str_in p (json_dumps v) = false →
  s ∈ strings_of v → valid_utf8 s = true → str_in p s = false.
Proof.
  intros Hp Hne Hno Hs Hv. apply not_true_is_false. intros Hin.
  apply not_true_iff_false in Hno. apply Hno. apply str_in_spec in Hin. apply str_in_spec.
  eapply has_infix_trans; [|by apply strings_rendered].
  by apply dumps_str_infix.
Qed.
