(* ===== verification/Brokers.v ===== *)
(** Enforcement brokers ([enforcement/file_broker.py], [secret_broker.py],
    [mcp_gateway.py], [message_broker.py]): for each, the canonical action it
    observes and the effect it performs. *)

From S2P Require Export Enforcement PyJson Delegation.
From S2P Require Import Concrete.

(** ["sha256:" + hashlib.sha256(data).hexdigest()] *)
Definition content_digest `{Hashlib} (data : string) : string :=
  "sha256:" +:+ hex (sha256 data).

(** * The operating system

    The kernel is an oracle: it answers each system call from the whole history
    of calls, in any way it likes, so what is proved about a broker holds for
    every file system and every concurrent change to it. *)

Inductive syscall : Set :=
| SRealpath (path : string)
| SOpen (path : string) (write_create : bool)
| SFdRealpath (fd : Z)
| SRead (fd : Z) (size : Z)
| SWrite (fd : Z) (data : string)
| SClose (fd : Z)
| SUnlink (path : string)
| SExists (path : string)
| SMkdtemp (prefix : string)
| SRmtree (path : string).

Inductive answer : Set :=
| AUnit
| AStr (s : string)
| AInt (n : Z)
| ARaise (cls arg : string).

Class Kernel := { kernel : list (syscall * answer) → syscall → answer }.

Abbreviation history := (list (syscall * answer)).

Section kernel.
Context `{Kernel}.

Definition ask (c : syscall) : M history answer :=
  λ h, let a := kernel h c in
       (match a with ARaise cls arg => Err (PyExc cls arg) | _ => Ok a end, h ++ [(c, a)]).

Definition ask_str (c : syscall) : M history string :=
  let! a := ask c in
  match a with AStr s => cret s | _ => cthrow (PyExc "TypeError" "not a string") end.
Definition ask_int (c : syscall) : M history Z :=
  let! a := ask c in
  match a with AInt n => cret n | _ => cthrow (PyExc "TypeError" "not an integer") end.
Definition ask_unit (c : syscall) : M history unit :=
  let! _ := ask c in cret tt.
End kernel.

(** [OSError] and its subclasses among the built-in exceptions, which are those the calls of
    [os] raise and [except OSError] catches. *)
Definition oserror_classes : list string :=
  ["OSError"; "BlockingIOError"; "ChildProcessError"; "ConnectionError"; "BrokenPipeError";
   "ConnectionAbortedError"; "ConnectionRefusedError"; "ConnectionResetError"; "FileExistsError";
   "FileNotFoundError"; "InterruptedError"; "IsADirectoryError"; "NotADirectoryError";
   "PermissionError"; "ProcessLookupError"; "TimeoutError"].
Definition is_oserror (x : exn) : bool :=
  match x with PyExc cls _ => bool_decide (cls ∈ oserror_classes) | Cvztte _ => false end.

(** [try: m finally: f] *)
Definition cfinally {S A} (m : M S A) (f : M S unit) : M S A :=
  λ s, let '(r, s') := m s in
       match f s' with
       | (Ok _, s'') => (r, s'')
       | (Err x, s'') => (Err x, s'')
       end.

(** [os.path.isabs], [os.path.join] (posix) *)
Definition isabs (p : string) : bool := str_startswith p "/".
Definition path_join (a b : string) : string :=
  if isabs b then b
  else if bool_decide (a = "") || str_endswith a "/" then a +:+ b
  else a +:+ "/" +:+ b.

(** * File broker *)

Section file_broker.
Context `{Hashlib, Rfc8785, Kernel}.

(** [file_broker.FileRequest] *)
Record FileRequest : Set := mkFileRequest {
  fr_path : string;
  fr_operation : string;
  fr_content : option string;
  fr_classification : DataClassification
}.

(** [file_broker._OP_TO_ACTION] *)
Definition op_to_action (op : string) : option ActionType :=
  if decide (op = "read") then Some FILE_READ
  else if decide (op = "write") then Some FILE_WRITE
  else if decide (op = "delete") then Some FILE_DELETE
  else None.

Variable root : string.

(** [FileBroker.observe] *)
Definition file_observe (request : FileRequest) (binding : AdapterBinding) : res AgentAction :=
  match op_to_action (fr_operation request) with
  | None => err SCHEMA_INVALID "unknown file operation"
  | Some ty =>
      Ok (mkAction 1 ty (fr_path request) (Some (fr_operation request)) (Some root) []
            (fr_classification request) None)
  end.

(** [p == self._root or p.startswith(self._root + os.sep)] *)
Definition contained (p : string) : bool :=
  bool_decide (p = root) || str_startswith p (root +:+ "/").

(** [FileBroker._safe_resolve] *)
Definition safe_resolve (requested : string) : M history string :=
  if isabs requested then raise FILE_PATH_ESCAPE "absolute paths are not permitted"
  else
    let! candidate := ask_str (SRealpath (path_join root requested)) in
    if contained candidate then cret candidate
    else raise FILE_PATH_ESCAPE "resolved path escapes the workspace root".

(** [FileBroker._open_nofollow] *)
Definition open_nofollow (path : string) (write_create : bool) : M history Z :=
  let! fd := ccatch (ask_int (SOpen path write_create))
    (λ x, if is_oserror x then raise FILE_PATH_ESCAPE "refusing to follow symlink at target"
          else cthrow x) in
  let! _ := ccatch
    (let! real := ask_str (SFdRealpath fd) in
     if contained real then cret tt
     else
       let! _ := ask_unit (SClose fd) in
       raise FILE_PATH_ESCAPE "opened path escapes workspace root")
    (λ x, if is_oserror x then
            let! _ := ask_unit (SClose fd) in
            raise FILE_ACCESS_DENIED "could not verify opened path"
          else cthrow x) in
  cret fd.

Definition file_effect (path : string) (request : FileRequest) : M history ExecutionResult :=
  if decide (fr_operation request = "read") then
    let! fd := open_nofollow path false in
    let! data := cfinally (ask_str (SRead fd (64 * 1024 * 1024))) (ask_unit (SClose fd)) in
    cret (mkResult (Some path) (Some (content_digest data)) None)
  else if decide (fr_operation request = "write") then
    let content := default "" (fr_content request) in
    let! fd := open_nofollow path true in
    let! _ := cfinally (ask (SWrite fd content)) (ask_unit (SClose fd)) in
    cret (mkResult (Some path) (Some (content_digest content)) None)
  else
    let! _ := ask (SUnlink path) in
    cret (mkResult (Some path) None None).

(** The [except] clauses of [_execute]. *)
Definition file_failed (x : exn) : M history ExecutionResult :=
  match x with
  | Cvztte _ => cthrow x
  | PyExc cls _ =>
      if decide (cls = "FileNotFoundError") then raise FILE_ACCESS_DENIED "file not found"
      else if is_oserror x then raise FILE_ACCESS_DENIED "filesystem operation failed"
      else cthrow x
  end.

(** [FileBroker._execute] *)
Definition file_execute (action : AgentAction) (decision : AuthorizedDecision)
    (request : FileRequest) : M history ExecutionResult :=
  let! path := safe_resolve (fr_path request) in
  ccatch (file_effect path request) file_failed.

Definition FileBroker : EnforcementBroker FileRequest history :=
  mkBroker SRC_FILE_BROKER "file-broker-01" file_observe file_execute.
End file_broker.

(** * Secret broker *)

(** [SecretBroker._DISCLOSURE_OPS] *)
Definition disclosure_ops : list string := ["reveal"; "read"; "read_secret"; "get"; "export"].

Section secret_broker.
Context `{Hashlib, Rfc8785, FloatRepr} {W : Type}.

(** [secret_broker.SecretRequest] *)
Record SecretRequest : Set := mkSecretRequest {
  sr_handle : string;
  sr_operation : string;
  sr_params : option (list (string * json))
}.

(** [DownstreamOp]: receives the secret and the parameters, acts on the world. *)
Abbreviation DownstreamOp := (string → list (string * json) → M W json).

Variable secrets : gmap string string.
Variable operations : gmap string DownstreamOp.

(** [SecretBroker.observe] *)
Definition secret_observe (request : SecretRequest) (binding : AdapterBinding)
    : res AgentAction :=
  Ok (mkAction 1 SECRET_ACCESS (sr_handle request) (Some (sr_operation request)) None []
        SECRET None).

(** The substring check on the serialized result, and the digest of it. *)
Definition release_unless_contains (forbidden ref message : string) (result : json)
    : res ExecutionResult :=
  let serialized := json_dumps result in
  if str_in forbidden serialized then err SECRET_DISCLOSURE_FORBIDDEN message
  else Ok (mkResult (Some ref) (Some (content_digest serialized))
             (Some (JObj [("result", result)]))).

(** [SecretBroker._execute] *)
Definition secret_execute (action : AgentAction) (decision : AuthorizedDecision)
    (request : SecretRequest) : M W ExecutionResult :=
  if decide (sr_operation request ∈ disclosure_ops) then
    raise SECRET_DISCLOSURE_FORBIDDEN "raw secret disclosure is not permitted; use a downstream operation"
  else
    match secrets !! sr_handle request with
    | None => raise SECRET_UNKNOWN "unknown secret handle"
    | Some secret =>
        match operations !! sr_operation request with
        | None => raise ENFORCEMENT_DENIED "unknown downstream operation"
        | Some op =>
            let! result := op secret (default [] (sr_params request)) in
            clift (release_unless_contains secret ("secret-op:" +:+ sr_operation request)
              "downstream result contained the secret; refusing to release" result)
        end
    end.

Definition SecretBroker : EnforcementBroker SecretRequest W :=
  mkBroker SRC_SECRET_BROKER "secret-broker-01" secret_observe secret_execute.
End secret_broker.

(** * MCP gateway *)

Section mcp_gateway.
Context `{Hashlib, Rfc8785, FloatRepr} {W : Type}.

(** [mcp_gateway.ProtectedServer]; the handler receives tool, arguments and the
    credential the gateway injects. *)
Record ProtectedServer : Type := mkServer {
  ps_endpoint : string;
  ps_credential : string;
  ps_handler : string → list (string * json) → string → M W json
}.

(** [mcp_gateway.MCPRequest] *)
Record MCPRequest : Set := mkMCPRequest {
  mr_server : string;
  mr_tool : string;
  mr_arguments : option (list (string * json));
  mr_classification : DataClassification
}.

Variable servers : gmap string ProtectedServer.
Variable sanitizer : option (json → M W json).

(** [MCPGateway.observe] *)
Definition mcp_observe (request : MCPRequest) (binding : AdapterBinding) : res AgentAction :=
  Ok (mkAction 1 MCP_CALL (mr_server request +:+ "/" +:+ mr_tool request)
        (Some (mr_tool request)) (Some (mr_server request))
        (default [] (mr_arguments request)) (mr_classification request) None).

(** [MCPGateway._execute] *)
Definition mcp_execute (action : AgentAction) (decision : AuthorizedDecision)
    (request : MCPRequest) : M W ExecutionResult :=
  match servers !! mr_server request with
  | None => raise MCP_BYPASS_DENIED "unknown MCP server; direct/protected access refused"
  | Some server =>
      let! raw := ps_handler server (mr_tool request) (default [] (mr_arguments request))
                    (ps_credential server) in
      let! result := match sanitizer with Some f => f raw | None => cret raw end in
      clift (release_unless_contains (ps_credential server)
        ("mcp:" +:+ mr_server request +:+ "/" +:+ mr_tool request)
        "MCP result contained the protected credential; refusing to release" result)
  end.

Definition MCPGateway : EnforcementBroker MCPRequest W :=
  mkBroker SRC_MCP_GATEWAY "mcp-gateway-01" mcp_observe mcp_execute.
End mcp_gateway.

(** * Message broker *)

Section message_broker.
Context `{Hashlib, Rfc8785}.

(** [message_broker.MessageRequest] *)
Record MessageRequest : Set := mkMessageRequest {
  ms_to_agent : string;
  ms_purpose_code : string;
  ms_content : string;
  ms_external : bool;
  ms_classification : DataClassification;
  ms_propagate : option string
}.

(** [message_broker.MessageConfig] *)
Record MessageConfig : Type := mkMessageConfig {
  allowed_external_recipients : gset string;
  allow_secret_external : bool
}.

Variable cfg : MessageConfig.
(** The clock [validate_for_agent] reads. *)
Variable clock : Z.

(** [MessageBroker.observe] *)
Definition message_observe (request : MessageRequest) (binding : AdapterBinding)
    : res AgentAction :=
  Ok (mkAction 1 (if ms_external request then EXTERNAL_MESSAGE else AGENT_MESSAGE)
        (ms_to_agent request) (Some "send") None
        [("purpose_code", JStr (ms_purpose_code request))] (ms_classification request) None).

Definition is_sensitive (c : DataClassification) : bool :=
  bool_decide (c = SECRET) || bool_decide (c = CONFIDENTIAL).

(** The propagated delegation, checked against the registry (if there is one). *)
Definition check_propagated (registry : option DelegationRegistry) (request : MessageRequest)
    : res unit :=
  match ms_propagate request with
  | None => Ok tt
  | Some did =>
      match registry with
      | None => err MESSAGE_DENIED "cannot validate propagated delegation (no registry)"
      | Some r =>
          match validate_for_agent r did (ms_to_agent request) None clock with
          | Ok _ => Ok tt
          | Err (Cvztte _) =>
              err MESSAGE_DENIED "propagated delegation invalid (authority laundering refused)"
          | Err x => Err x
          end
      end
  end.

(** [MessageBroker._execute]; the world is the registry, which it only reads. *)
Definition message_execute (action : AgentAction) (decision : AuthorizedDecision)
    (request : MessageRequest) : M (option DelegationRegistry) ExecutionResult :=
  let! registry := cget in
  if ms_external request && negb (bool_decide (ms_to_agent request ∈ allowed_external_recipients cfg))
  then raise MESSAGE_DENIED "external recipient not permitted"
  else if ms_external request && is_sensitive (ms_classification request)
          && negb (allow_secret_external cfg)
  then raise MESSAGE_DENIED "confidential/secret external message denied"
  else
    let! _ := clift (check_propagated registry request) in
    cret (mkResult (Some ("message:" +:+ ms_to_agent request))
            (Some (content_digest (ms_content request)))
            (Some (JObj [ ("to", JStr (ms_to_agent request));
                          ("purpose_code", JStr (ms_purpose_code request));
                          ("external", JBool (ms_external request)) ]))).

Definition MessageBroker : EnforcementBroker MessageRequest (option DelegationRegistry) :=
  mkBroker SRC_MESSAGE_BROKER "agent-message-broker-01" message_observe message_execute.
End message_broker.

(** * The file broker stays in its workspace *)

Section confinement.
Context `{Hashlib, Rfc8785, Kernel} (root : string).

(** What may be asked of the kernel after [seen]: files are opened or removed
    only at a path that was resolved inside the root, and data moves only through
    a descriptor whose own real path was found inside the root. *)
Definition allowed (seen : history) (c : syscall) : Prop :=
  match c with
  | SOpen p _ | SUnlink p => contained root p = true ∧ ∃ q, (SRealpath q, AStr p) ∈ seen
  | SRead fd _ | SWrite fd _ => ∃ p, (SFdRealpath fd, AStr p) ∈ seen ∧ contained root p = true
  | SRealpath _ | SFdRealpath _ | SClose _ => True
  | SExists _ | SMkdtemp _ | SRmtree _ => False
  end.

Fixpoint confined (seen calls : history) : Prop :=
  match calls with
  | [] => True
  | (c, a) :: calls => allowed seen c ∧ confined (seen ++ [(c, a)]) calls
  end.

Lemma confined_app seen l1 l2 :
  confined seen (l1 ++ l2) ↔ confined seen l1 ∧ confined (seen ++ l1) l2.
Proof.
  revert seen. induction l1 as [|[c a] l1 IH]; intros seen; simpl.
  - rewrite app_nil_r. tauto.
  - rewrite IH, <-app_assoc. simpl. tauto.
Qed.

(** [m], started after calls [seen] that satisfy [P], makes only allowed calls and
    on a normal return [Q] holds of the value and all calls so far. *)
Definition stays {A} (P : history → Prop) (m : M history A) (Q : A → history → Prop) : Prop :=
  ∀ h0 seen, confined [] seen → P seen →
  ∃ more, (m (h0 ++ seen)).2 = h0 ++ seen ++ more ∧ confined [] (seen ++ more) ∧
    ∀ a, (m (h0 ++ seen)).1 = Ok a → Q a (seen ++ more).

(** Facts about past calls survive further calls. *)
Definition lasting (P : history → Prop) : Prop := ∀ l l', P l → P (l ++ l').

Lemma lasting_elem x : lasting (λ l, x ∈ l).
Proof. intros l l' ?. set_solver. Qed.

Lemma stays_ret {A} P (a : A) : stays P (cret a) (λ a' l, a' = a ∧ P l).
Proof.
  intros h0 seen Hc HP. exists []. rewrite !app_nil_r. split_and!; [done..|].
  by intros a' [= <-].
Qed.

Lemma stays_throw {A} P x (Q : A → history → Prop) : stays P (cthrow x) Q.
Proof. intros h0 seen Hc HP. exists []. rewrite !app_nil_r. by split_and!. Qed.

Lemma stays_bind {A B} P (m : M history A) Q (k : A → M history B) R :
  stays P m Q → (∀ a, stays (Q a) (k a) R) → stays P (cbind m k) R.
Proof.
  intros Hm Hk h0 seen Hc HP. destruct (Hm h0 seen Hc HP) as (m1 & Hx1 & Hx2 & Hx3).
  unfold cbind. destruct (m (h0 ++ seen)) as [[a|x] s1]; simpl in *; subst.
  - destruct (Hk a h0 (seen ++ m1) Hx2 (Hx3 a eq_refl)) as (m2 & K1 & K2 & K3).
    rewrite <-(app_assoc seen) in K1, K2, K3. exists (m1 ++ m2). by split_and!.
  - by exists m1.
Qed.

Lemma stays_catch {A} P (m : M history A) Q (f : exn → M history A) :
  stays P m Q → lasting P → (∀ x, stays P (f x) Q) → stays P (ccatch m f) Q.
Proof.
  intros Hm Hl Hf h0 seen Hc HP. destruct (Hm h0 seen Hc HP) as (m1 & Hx1 & Hx2 & Hx3).
  unfold ccatch. destruct (m (h0 ++ seen)) as [[a|x] s1]; simpl in *; subst.
  - by exists m1.
  - destruct (Hf x h0 (seen ++ m1) Hx2 (Hl _ _ HP)) as (m2 & K1 & K2 & K3).
    rewrite <-(app_assoc seen) in K1, K2, K3. exists (m1 ++ m2). by split_and!.
Qed.

Lemma stays_finally {A} P (m : M history A) (f : M history unit) :
  stays P m (λ _ _, True) → lasting P → stays P f (λ _ _, True) →
  stays P (cfinally m f) (λ _ _, True).
Proof.
  intros Hm Hl Hf h0 seen Hc HP. destruct (Hm h0 seen Hc HP) as (m1 & Hx1 & Hx2 & _).
  unfold cfinally. destruct (m (h0 ++ seen)) as [r s1]; simpl in *; subst.
  destruct (Hf h0 (seen ++ m1) Hx2 (Hl _ _ HP)) as (m2 & K1 & K2 & _).
  rewrite <-(app_assoc seen) in K1, K2. exists (m1 ++ m2).
  destruct (f _) as [[|] ?]; simpl in *; by split_and!.
Qed.

Lemma stays_weaken {A} (P P' : history → Prop) (m : M history A) (Q Q' : A → history → Prop) :
  stays P m Q → (∀ l, P' l → P l) → (∀ a l, Q a l → Q' a l) → stays P' m Q'.
Proof.
  intros Hm HP HQ h0 seen Hc HP'. destruct (Hm h0 seen Hc (HP _ HP')) as (m1 & ? & ? & ?).
  exists m1. split_and!; eauto.
Qed.

(** A call that is allowed leaves itself and its answer behind. *)
Lemma stays_ask (P : history → Prop) c :
  lasting P → (∀ l, P l → allowed l c) →
  stays P (ask c) (λ a l, P l ∧ (c, a) ∈ l).
Proof.
  intros Hl Hal h0 seen Hc HP. exists [(c, kernel (h0 ++ seen) c)]. simpl.
  split_and!.
  - by rewrite app_assoc.
  - rewrite confined_app. simpl. auto.
  - intros a Ha. split; [by apply Hl|].
    destruct (kernel (h0 ++ seen) c); simplify_eq; set_solver.
Qed.

Lemma stays_ask_str (P : history → Prop) c :
  lasting P → (∀ l, P l → allowed l c) →
  stays P (ask_str c) (λ s l, P l ∧ (c, AStr s) ∈ l).
Proof.
  intros Hl Hal. eapply stays_bind; [by apply stays_ask|]. intros a.
  destruct a as [|s| |]; try apply stays_throw.
  eapply stays_weaken; [apply stays_ret|intros l Hx; exact Hx|naive_solver].
Qed.

Lemma stays_ask_int (P : history → Prop) c :
  lasting P → (∀ l, P l → allowed l c) → stays P (ask_int c) (λ _ l, P l).
Proof.
  intros Hl Hal. eapply stays_bind; [by apply stays_ask|]. intros a.
  destruct a as [| |n|]; try apply stays_throw.
  eapply stays_weaken; [apply stays_ret|intros l Hx; exact Hx|naive_solver].
Qed.

Lemma stays_ask_unit (P : history → Prop) c :
  lasting P → (∀ l, P l → allowed l c) → stays P (ask_unit c) (λ _ l, P l).
Proof.
  intros Hl Hal. eapply stays_bind; [by apply stays_ask|]. intros a.
  eapply stays_weaken; [apply stays_ret|intros l Hx; exact Hx|naive_solver].
Qed.

Lemma lasting_and P Q : lasting P → lasting Q → lasting (λ l, P l ∧ Q l).
Proof. intros HP HQ l l' [? ?]. split; auto. Qed.
Lemma lasting_const (P : Prop) : lasting (λ _, P).
Proof. by intros l l' ?. Qed.

Definition resolved (p : string) (l : history) : Prop :=
  contained root p = true ∧ ∃ q, (SRealpath q, AStr p) ∈ l.
Definition verified (fd : Z) (l : history) : Prop :=
  ∃ p, (SFdRealpath fd, AStr p) ∈ l ∧ contained root p = true.

Lemma lasting_resolved p : lasting (resolved p).
Proof. intros l l' (? & q & ?). split; [done|]. exists q. set_solver. Qed.
Lemma lasting_verified fd : lasting (verified fd).
Proof. intros l l' (p & ? & ?). exists p. set_solver. Qed.

Lemma safe_resolve_stays requested :
  stays (λ _, True) (safe_resolve root requested) resolved.
Proof.
  unfold safe_resolve. destruct (isabs requested); [apply stays_throw|].
  eapply stays_bind; [apply stays_ask_str; [apply lasting_const|done]|]. intros p.
  destruct (contained root p) eqn:Hp; [|apply stays_throw].
  eapply stays_weaken; [apply stays_ret|intros l Hx; exact Hx|].
  intros a l (-> & _ & ?). split; eauto.
Qed.

Lemma open_nofollow_stays path w :
  stays (resolved path) (open_nofollow root path w) verified.
Proof.
  unfold open_nofollow. eapply stays_bind.
  { apply stays_catch; [apply stays_ask_int; [apply lasting_resolved|done]
                       |apply lasting_resolved|].
    intros x. destruct (is_oserror x); apply stays_throw. }
  intros fd. eapply stays_bind with (Q := λ _ l, verified fd l).
  - apply stays_catch; [|apply lasting_resolved|].
    + eapply stays_bind; [apply stays_ask_str; [apply lasting_resolved|done]|]. intros p.
      destruct (contained root p) eqn:Hp.
      * eapply stays_weaken; [apply stays_ret|intros l Hx; exact Hx|].
        intros ? l (_ & _ & ?). by exists p.
      * eapply stays_bind; [apply stays_ask_unit; [|done]|intros; apply stays_throw].
        apply lasting_and; [apply lasting_resolved|apply lasting_elem].
    + intros x. destruct (is_oserror x); [|apply stays_throw].
      eapply stays_bind; [apply stays_ask_unit; [apply lasting_resolved|done]|].
      intros; apply stays_throw.
  - intros []. eapply stays_weaken; [apply stays_ret|intros l Hx; exact Hx|].
    by intros a l [-> ?].
Qed.

(** A transfer through a verified descriptor, closed whatever happens. *)
Lemma transfer_stays {A} fd (m : M history A) (k : A → M history ExecutionResult) :
  stays (verified fd) m (λ _ _, True) →
  (∀ a, stays (λ _, True) (k a) (λ _ _, True)) →
  stays (verified fd) (cbind (cfinally m (ask_unit (SClose fd))) k) (λ _ _, True).
Proof.
  intros Hm Hk. eapply stays_bind; [apply stays_finally; [done|apply lasting_verified|]|done].
  eapply stays_weaken; [apply stays_ask_unit; [apply lasting_verified|done]
                       |intros l Hx; exact Hx|done].
Qed.

Lemma file_effect_stays path request :
  stays (resolved path) (file_effect root path request) (λ _ _, True).
Proof.
  assert (Hret : ∀ (P : history → Prop) (r : ExecutionResult),
    stays P (cret r) (λ _ _, True)).
  { intros P r. eapply stays_weaken; [apply stays_ret|intros l Hx; exact Hx|done]. }
  unfold file_effect. repeat case_decide.
  - eapply stays_bind; [apply open_nofollow_stays|]. intros fd.
    apply transfer_stays; [|intros; apply Hret].
    eapply stays_weaken; [apply (stays_ask_str (verified fd)); [apply lasting_verified|done]
                         |intros l Hx; exact Hx|done].
  - eapply stays_bind; [apply open_nofollow_stays|]. intros fd.
    apply transfer_stays; [|intros; apply Hret].
    eapply stays_weaken; [apply (stays_ask (verified fd)); [apply lasting_verified|done]
                         |intros l Hx; exact Hx|done].
  - eapply stays_bind; [apply stays_ask; [apply lasting_resolved|done]|].
    intros; apply Hret.
Qed.

Lemma file_execute_stays action decision request :
  stays (λ _, True) (file_execute root action decision request) (λ _ _, True).
Proof.
  unfold file_execute. eapply stays_bind; [apply safe_resolve_stays|]. intros path.
  apply stays_catch; [apply file_effect_stays|apply lasting_resolved|].
  intros x. unfold file_failed. destruct x; [apply stays_throw|].
  repeat case_match; apply stays_throw.
Qed.

(** What [stays] says of a run from any point of the history. *)
Lemma stays_run {A} (m : M history A) Q h r h' :
  stays (λ _, True) m Q → m h = (r, h') → ∃ calls, h' = h ++ calls ∧ confined [] calls.
Proof.
  intros Hs Hm. destruct (Hs h [] I I) as (calls & Hx1 & Hx2 & _).
  rewrite app_nil_r in Hx1. rewrite Hm in Hx1. by exists calls.
Qed.

(** A write that succeeds has reached the kernel through a descriptor. *)
Lemma file_write_reaches action decision request h res h' :
  file_execute root action decision request h = (Ok res, h') → fr_operation request = "write" →
  ∃ l fd x y, h' = h ++ l ++ [(SWrite fd (default "" (fr_content request)), x); (SClose fd, y)].
Proof.
  unfold file_execute. intros He Hop. apply cbind_ok in He as (path & h1 & Hr & He).
  destruct (safe_resolve_stays (fr_path request) h [] I I) as (l1 & Hh & Hc & Hq).
  rewrite app_nil_r, Hr in Hh, Hq. simpl in Hh, Hc, Hq. subst h1. specialize (Hq path eq_refl).
  unfold ccatch in He. destruct (file_effect root path request (h ++ l1)) as [[res'|x] h2] eqn:Hf.
  2: { unfold file_failed in He. destruct x; [done|]. repeat case_match; done. }
  injection He as -> ->. unfold file_effect in Hf.
  rewrite decide_False, decide_True in Hf by (rewrite Hop; done).
  apply cbind_ok in Hf as (fd & h3 & Ho & Hf).
  destruct (open_nofollow_stays path true h l1 Hc Hq) as (l2 & Hh & _).
  rewrite Ho in Hh. simpl in Hh. subst h3.
  apply cbind_ok in Hf as (a & h4 & Hw & Hres). injection Hres as _ ->.
  unfold cfinally, ask_unit, ask, cbind, cret in Hw.
  repeat (case_match; simplify_eq/=);
    exists (l1 ++ l2), fd; do 2 eexists; rewrite <-!app_assoc; simpl; done.
Qed.

(** C31. Whatever the kernel answers, and however the file system changes between
    the calls, the file broker opens and removes files only at paths it has seen
    resolve inside the workspace root, and reads and writes only through
    descriptors whose own real path it has seen inside the root; requests by an
    absolute path reach the kernel not at all. *)
Theorem file_broker_confined action decision request h :
  ∃ calls, (file_execute root action decision request h).2 = h ++ calls ∧
    confined [] calls ∧
    (isabs (fr_path request) = true → calls = []).
Proof.
  pose proof (file_execute_stays action decision request) as Hs.
  destruct (Hs h [] I I) as (calls & Hx1 & Hx2 & _). rewrite !app_nil_r in Hx1.
  exists calls. split_and!; [done..|].
  intros Habs. unfold file_execute, safe_resolve, cbind, raise, cthrow in Hx1.
  rewrite Habs in Hx1. simpl in Hx1.
  apply (f_equal length) in Hx1. rewrite length_app in Hx1. destruct calls; simpl in *; [done|lia].
Qed.
End confinement.

(** * Secrets and credentials *)

Section non_disclosure.
Context `{Hashlib, Rfc8785, FloatRepr}.

Lemma release_ok forbidden ref msg result r :
  release_unless_contains forbidden ref msg result = Ok r ↔
  str_in forbidden (json_dumps result) = false ∧
  r = mkResult (Some ref) (Some (content_digest (json_dumps result)))
        (Some (JObj [("result", result)])).
Proof. unfold release_unless_contains. case_match; naive_solver. Qed.

(** The strings an execution result hands back: the text of its detail. *)
Definition released_strings (r : ExecutionResult) : list string :=
  match result_detail r with
  | Some (JObj [(_, v)]) => strings_of v
  | _ => []
  end.

Lemma released_without forbidden ref msg result r :
  plain forbidden = true → forbidden ≠ "" →
  release_unless_contains forbidden ref msg result = Ok r →
  ∀ s, s ∈ released_strings r → valid_utf8 s = true → str_in forbidden s = false.
Proof.
  intros Hp Hne (Hno & ->)%release_ok s Hs Hv. simpl in Hs. by eapply absent_from_rendering.
Qed.

Context {W : Type}.

(** C35. Use without disclosure: whatever a downstream operation does, a result
    the secret broker releases has no string, at any depth, that contains the
    secret, for any non-empty secret of printable ASCII without quote or backslash;
    and a disclosure operation, an unknown handle or an unknown operation is
    refused before anything runs. *)
Theorem secret_not_disclosed secrets operations action decision request (w : W) r w' :
  secret_execute secrets operations action decision request w = (r, w') →
  (is_ok r = false ∧ w' = w ∧
     (sr_operation request ∈ disclosure_ops ∨ secrets !! sr_handle request = None ∨
      operations !! sr_operation request = None)) ∨
  ∃ secret op, secrets !! sr_handle request = Some secret ∧
    operations !! sr_operation request = Some op ∧
    sr_operation request ∉ disclosure_ops ∧
    w' = (op secret (default [] (sr_params request)) w).2 ∧
    ∀ out, r = Ok out → plain secret = true → secret ≠ "" →
      ∀ s, s ∈ released_strings out → valid_utf8 s = true → str_in secret s = false.
Proof.
  unfold secret_execute, raise, cthrow.
  case_decide as Hop; [intros [= <- <-]; left; auto|].
  destruct (secrets !! sr_handle request) as [secret|] eqn:Hs; [|intros [= <- <-]; left; auto].
  destruct (operations !! sr_operation request) as [op|] eqn:Ho; [|intros [= <- <-]; left; auto 6].
  unfold cbind, clift. intros Hrun. right. exists secret, op. split_and!; try done.
  - destruct (op secret _ w) as [[v|x] w1]; by simplify_eq.
  - intros out -> Hp Hne. destruct (op secret _ w) as [[v|x] w1]; [|done].
    injection Hrun as Hrun _. by eapply released_without.
Qed.

(** The gateway hides the protected server: an unmapped logical name reaches
    no handler; a mapped one is called with exactly the tool and arguments of the
    request and the gateway's credential, and no string of a released result
    contains that credential (printable ASCII without quote or backslash), whatever
    the handler and the sanitizer do. *)
Theorem mcp_credential_hidden servers sanitizer action decision request (w : W) r w' :
  mcp_execute servers sanitizer action decision request w = (r, w') →
  match servers !! mr_server request with
  | None => r = err MCP_BYPASS_DENIED "unknown MCP server; direct/protected access refused" ∧ w' = w
  | Some server =>
      (is_ok r = true → ∃ raw, (ps_handler server (mr_tool request)
         (default [] (mr_arguments request)) (ps_credential server) w).1 = Ok raw) ∧
      ∀ out, r = Ok out → plain (ps_credential server) = true → ps_credential server ≠ "" →
        ∀ s, s ∈ released_strings out → valid_utf8 s = true →
          str_in (ps_credential server) s = false
  end.
Proof.
  unfold mcp_execute. destruct (servers !! mr_server request) as [server|];
    [|by intros [= <- <-]].
  unfold cbind at 1. destruct (ps_handler server _ _ _ w) as [[raw|x] w1];
    [|by intros [= <- <-]].
  intros Hrun. split; [by exists raw|]. intros out -> Hp Hne.
  unfold cbind, clift in Hrun.
  destruct (match sanitizer with Some f => f raw | None => cret raw end w1) as [[v|x] w2]; [|done].
  injection Hrun as Hrun _. by eapply released_without.
Qed.
End non_disclosure.

(** * Messages *)

Section messages.
Context `{Hashlib, Rfc8785}.

(** No authority laundering: over a registry any history has produced, a
    message that propagates a delegation is sent only if the delegation is
    registered, bound to the receiver, and valid together with every ancestor; an
    external message is sent only to an allowlisted recipient, and with sensitive
    content only if the configuration permits it.  Sending changes nothing. *)
Theorem message_no_laundering auths ops reg cfg clock action decision request r w' :
  reachable auths ops reg →
  message_execute cfg clock action decision request (Some reg) = (r, w') →
  w' = Some reg ∧
  (is_ok r = true →
    (ms_external request = true →
       ms_to_agent request ∈ allowed_external_recipients cfg ∧
       (is_sensitive (ms_classification request) = true → allow_secret_external cfg = true)) ∧
    (∀ did, ms_propagate request = Some did →
       ∃ d, dget did (delegations reg) = Some d ∧ subject_agent_id d = ms_to_agent request ∧
         ∀ a, desc (delegations reg) did a →
           ∃ ad, dget a (delegations reg) = Some ad ∧ is_valid_at ad clock = true)).
Proof.
  intros Hwf%reachable_wf. unfold message_execute, cbind at 1, cget, raise, cthrow.
  destruct (ms_external request && _) eqn:He; [by intros [= <- <-]|].
  destruct (ms_external request && is_sensitive _ && _) eqn:Hs; [by intros [= <- <-]|].
  unfold cbind, clift. destruct (check_propagated clock (Some reg) request) as [[]|x] eqn:Hc;
    intros [= <- <-]; split; try done. intros _. split.
  - intros Hx. rewrite Hx in He, Hs. simpl in *. apply negb_false_iff in He.
    apply bool_decide_eq_true in He. split; [done|]. intros Hse. rewrite Hse in Hs.
    by apply negb_false_iff in Hs.
  - intros did Hd. unfold check_propagated in Hc. rewrite Hd in Hc.
    rewrite validate_spec in Hc by done.
    destruct (dget did (delegations reg)) as [d|] eqn:Hg; [|done].
    case_decide; [|done]. destruct (is_valid_at d (or_now None clock)) eqn:Hv; [|done].
    exists d. split_and!; [done..|]. intros a Ha. by eapply valid_ancestors.
Qed.
End messages.

(** * Witnesses *)

Import Instances.
#[local] Existing Instance no_floats.

Definition ex_operations : gmap string (string → list (string * json) → M nat json) :=
  {[ "sign" := λ secret _ n, (Ok (JStr "signed"), S n);
     "echo" := λ secret _ n, (Ok (JArr [JStr secret]), S n) ]}.
Definition ex_secrets : gmap string string :=
  {[ "db" := "hunter2"; "quoted" := "pass" +:+ dq +:+ "word" ]}.
Definition ex_decision : AuthorizedDecision :=
  mkDecision "d" ALLOW "" "" None None 0 "".
Definition ex_secret_run (handle op : string) :=
  secret_execute ex_secrets ex_operations ex_action ex_decision (mkSecretRequest handle op None) 0.

Example ex_secret_signed : is_ok (ex_secret_run "db" "sign").1 = true.
Proof. vm_compute. reflexivity. Qed.
Example ex_secret_echo : res_code (ex_secret_run "db" "echo").1 = Some SECRET_DISCLOSURE_FORBIDDEN.
Proof. vm_compute. reflexivity. Qed.

Definition ex_secret_out : ExecutionResult := Eval vm_compute in
  match (ex_secret_run "db" "sign").1 with Ok o => o | Err _ => mkResult None None None end.
Lemma ex_secret_out_ok : (ex_secret_run "db" "sign").1 = Ok ex_secret_out.
Proof. vm_compute. reflexivity. Qed.

(** C35 at an operation that uses the secret without echoing it. *)
Lemma secret_not_disclosed_witness :
  Forall (λ s, valid_utf8 s = true → str_in "hunter2" s = false) (released_strings ex_secret_out).
Proof.
  apply Forall_forall.
  destruct (secret_not_disclosed ex_secrets ex_operations ex_action ex_decision
    (mkSecretRequest "db" "sign" None) 0 (ex_secret_run "db" "sign").1
    (ex_secret_run "db" "sign").2) as [(Hk & _)|(secret & op & Hs & _ & _ & _ & Hout)].
  - vm_compute. reflexivity.
  - vm_compute in Hk. discriminate.
  - assert (secret = "hunter2") as -> by (vm_compute in Hs; congruence).
    exact (Hout ex_secret_out ex_secret_out_ok eq_refl ltac:(discriminate)).
Defined.

(** The proviso on the characters of a secret is needed: the check looks for the
    secret in the escaped rendering, so a secret with a quote passes it. *)
Lemma quoted_secret_released :
  ∃ out, (ex_secret_run "quoted" "echo").1 = Ok out ∧
    released_strings out = ["pass" +:+ dq +:+ "word"].
Proof. eexists. split; vm_compute; reflexivity. Qed.

Definition ex_server : ProtectedServer (W := nat) :=
  mkServer "mcp://internal" "k3y" (λ tool args cred n, (Ok (JStr tool), S n)).

Definition ex_mcp_run :=
  mcp_execute {[ "search" := ex_server ]} None ex_action ex_decision
    (mkMCPRequest "search" "find" None INTERNAL) 0.
Definition ex_mcp_out : ExecutionResult := Eval vm_compute in
  match ex_mcp_run.1 with Ok o => o | Err _ => mkResult None None None end.
Lemma ex_mcp_out_ok : ex_mcp_run.1 = Ok ex_mcp_out.
Proof. vm_compute. reflexivity. Qed.

(** At a call that is forwarded. *)
Lemma mcp_credential_hidden_witness :
  Forall (λ s, valid_utf8 s = true → str_in "k3y" s = false) (released_strings ex_mcp_out).
Proof.
  apply Forall_forall. pose proof ex_mcp_out_ok as Ho. unfold ex_mcp_run in Ho.
  destruct (mcp_execute {[ "search" := ex_server ]} None ex_action ex_decision
            (mkMCPRequest "search" "find" None INTERNAL) 0) as [r w'] eqn:Hrun.
  pose proof (mcp_credential_hidden _ _ _ _ _ _ _ _ Hrun) as H. simpl in Ho.
  rewrite lookup_singleton_eq in H. destruct H as [_ H].
  exact (H ex_mcp_out Ho eq_refl ltac:(discriminate)).
Defined.

(** At a message that propagates the child delegation to its subject. *)
Lemma message_no_laundering_witness :
  ∃ d, dget "dlg_c" (delegations ex_registry) = Some d ∧ subject_agent_id d = "bob".
Proof.
  destruct (message_execute (mkMessageConfig ∅ false) 30 ex_action ex_decision
    (mkMessageRequest "bob" "task" "hi" false INTERNAL (Some "dlg_c")) (Some ex_registry))
    as [r w'] eqn:Hrun.
  destruct (message_no_laundering ex_auths ex_ops ex_registry _ _ _ _ _ _ _ ex_reachable Hrun)
    as [_ H].
  assert (Hok : is_ok r = true) by (change (is_ok (r, w').1 = true); rewrite <-Hrun; vm_compute; reflexivity).
  destruct (H Hok) as [_ Hp]. destruct (Hp "dlg_c" eq_refl) as (d & Hd & Hs & _).
  exists d. split; [exact Hd|exact Hs].
Defined.

(** A kernel with one file in the workspace. *)
Definition ex_kernel : Kernel :=
  {| kernel := λ _ c, match c with
       | SRealpath _ | SFdRealpath _ => AStr "/ws/a.txt"
       | SOpen _ _ => AInt 3
       | SRead _ _ => AStr "data"
       | _ => AUnit
       end |}.
Example ex_file_read :
  is_ok (file_execute (H1 := ex_kernel) "/ws" ex_action ex_decision
    (mkFileRequest "a.txt" "read" None INTERNAL) []).1 = true.
Proof. vm_compute. reflexivity. Qed.
