(* ===== verification/FileStore.v ===== *)
(** The file broker over a file system ([enforcement/file_broker.py]): what a kernel of the
    POSIX kind may answer, as a step relation, and that the broker then behaves as a store
    of files under its root.

    [Brokers] keeps the kernel an arbitrary oracle over the trace of calls; here the state
    of the file system is a function of that trace.  It has symbolic links, any call may be
    refused, and a transfer may be short.  Changes by other processes are left to the
    confinement theorem of [Brokers], and every file has one name. *)

From S2P Require Export Brokers.
From S2P Require Import Concrete.

(** * Paths *)

Definition slash : Ascii.ascii := Ascii.ascii_of_nat 47.
(** An absolute path from its segments, the last one first. *)
Definition path_of (acc : list string) : string := "/" +:+ String.concat "/" (rev acc).

(** [os.path.realpath], and the kernel's own walk: empty segments and dots go, two dots
    remove what is before them, a symbolic link is replaced by its target; through [n] links
    at most.  [acc] holds the segments so far, the last first. *)
Fixpoint walk (n : nat) (links : gmap string string) : list string → list string → option (list string) :=
  fix go (acc rest : list string) : option (list string) :=
    match rest with
    | [] => Some acc
    | s :: rest =>
        if decide (s = "" ∨ s = ".") then go acc rest
        else if decide (s = "..") then go (tail acc) rest
        else match links !! path_of (s :: acc) with
             | None => go (s :: acc) rest
             | Some t =>
                 match n with
                 | 0 => None
                 | S n => walk n links (if isabs t then [] else acc) (py_split slash t ++ rest)
                 end
             end
    end.
(** The limit of the kernel on the links of a path. *)
Definition MAXSYMLINKS : nat := 40.
Definition realpath_of (links : gmap string string) (x : string) : option string :=
  path_of <$> walk MAXSYMLINKS links [] (py_split slash x).
(** A path with no links, dots or empty segments in it. *)
Definition canonical (links : gmap string string) (p : string) : Prop := realpath_of links p = Some p.
Definition normpath (p : string) : string := default p (realpath_of ∅ p).
Definition parent (p : string) : string := normpath (p +:+ "/..").

Definition has_nul (p : string) : bool := str_in (String Ascii.zero "") p.

(** ** What is resolved stays resolved *)

Definition proper (s : string) : Prop := s ≠ "" ∧ s ≠ "." ∧ s ≠ ".." ∧ lacks slash s = true.
(** Every segment is proper, and no prefix of the path is a link. *)
Fixpoint clean (links : gmap string string) (acc : list string) : Prop :=
  match acc with
  | [] => True
  | s :: acc' => proper s ∧ links !! path_of (s :: acc') = None ∧ clean links acc'
  end.

Lemma py_split_lacks c s : Forall (λ x, lacks c x = true) (py_split c s).
Proof.
  induction s as [|a s IH]; simpl; [by repeat constructor|]. case_decide as Ha; [by constructor|].
  destruct IH as [|x xs Hx Hxs]; constructor; simpl; rewrite ?Hx, ?bool_decide_false by done; done.
Qed.
Lemma py_split_single c s : lacks c s = true → py_split c s = [s].
Proof.
  induction s as [|a s IH]; [done|]. cbn [lacks]. intros [Ha Hs]%andb_prop.
  apply negb_true_iff, bool_decide_eq_false in Ha. cbn [py_split]. rewrite decide_False by done. by rewrite IH.
Qed.
Lemma py_split_cons c s t : lacks c s = true → py_split c (s +:+ String c t) = s :: py_split c t.
Proof.
  induction s as [|a s IH].
  - intros _. change ("" +:+ String c t) with (String c t). cbn [py_split]. by rewrite decide_True.
  - cbn [lacks]. intros [Ha Hs]%andb_prop. apply negb_true_iff, bool_decide_eq_false in Ha.
    change (String a s +:+ String c t) with (String a (s +:+ String c t)). cbn [py_split].
    rewrite decide_False by done. by rewrite IH.
Qed.
Lemma py_split_concat l :
  l ≠ [] → Forall (λ s, lacks slash s = true) l → py_split slash (String.concat "/" l) = l.
Proof.
  induction l as [|s l IH]; [done|]. intros _ [Hs Hl]%Forall_cons. destruct l as [|s' l].
  - by apply py_split_single.
  - change (String.concat "/" (s :: s' :: l)) with (s +:+ String slash (String.concat "/" (s' :: l))).
    rewrite py_split_cons by done. by rewrite IH.
Qed.

Lemma clean_lacks links acc : clean links acc → Forall (λ s, lacks slash s = true) acc.
Proof. induction acc as [|s acc IH]; [constructor|]. intros ((_ & _ & _ & Hs) & _ & Hc). constructor; auto. Qed.
Lemma clean_tail links acc : clean links acc → clean links (tail acc).
Proof. destruct acc; [done|]. by intros (_ & _ & ?). Qed.

Lemma walk_clean n links acc rest out :
  clean links acc → Forall (λ s, lacks slash s = true) rest → walk n links acc rest = Some out → clean links out.
Proof.
  revert acc rest. induction n as [|n IHn]; intros acc rest; revert acc;
    (induction rest as [|s rest IH]; intros acc Hc Hr Hw; [by injection Hw as <-|]);
    apply Forall_cons in Hr as [Hs Hr]; cbn in Hw;
    (case_decide as Hd; [by eapply IH|]); (case_decide as Hdd; [by eapply IH; [by apply clean_tail|..]|]);
    destruct (links !! path_of (s :: acc)) as [t|] eqn:Hl.
  1,3: done || (eapply IHn; [| |exact Hw]; [by destruct (isabs t)|by apply Forall_app; split; [apply py_split_lacks|]]).
  all: eapply IH; [|done|exact Hw]; repeat split; tauto || done.
Qed.

Lemma walk_back n links acc l : clean links (rev l ++ acc) → walk n links acc l = Some (rev l ++ acc).
Proof.
  revert acc. induction l as [|s l IH]; intros acc Hc; [by destruct n|].
  simpl in Hc. rewrite <-app_assoc in Hc. simpl in Hc.
  assert (Hs : clean links (s :: acc)).
  { clear IH. induction (rev l) as [|x r IHr]; [done|]. apply IHr. by destruct Hc as (_ & _ & ?). }
  destruct Hs as ((H1 & H2 & H3 & _) & Hl & _).
  assert (walk n links acc (s :: l) = walk n links (s :: acc) l) as ->.
  { destruct n; cbn; rewrite !decide_False by tauto; by rewrite Hl. }
  rewrite IH by done. simpl. by rewrite <-app_assoc.
Qed.

Lemma realpath_canonical links x p : realpath_of links x = Some p → canonical links p.
Proof.
  unfold canonical, realpath_of. destruct (walk _ _ _ (py_split slash x)) as [acc|] eqn:Hw; [|done].
  intros [= <-]. apply walk_clean in Hw; [|done|apply py_split_lacks].
  unfold path_of at 2. change ("/" +:+ String.concat "/" (rev acc)) with (String slash (String.concat "/" (rev acc))).
  cbn [py_split]. rewrite decide_True by done.
  assert (Hempty : ∀ l, walk MAXSYMLINKS links [] ("" :: l) = walk MAXSYMLINKS links [] l) by done.
  rewrite Hempty. destruct acc as [|s acc]; [done|].
  rewrite py_split_concat.
  - rewrite walk_back by (by rewrite rev_involutive, app_nil_r). by rewrite rev_involutive, app_nil_r.
  - simpl. by destruct (rev acc).
  - apply Forall_rev. by eapply clean_lacks.
Qed.

(** * The file system *)

(** The contents of the files, the directories, the symbolic links with their targets, and
    for each open descriptor its path and its offset. *)
Record file_system : Type := mkFS {
  fs_files : gmap string string;
  fs_dirs : gset string;
  fs_links : gmap string string;
  fs_open : gmap Z (string * bool * nat)
}.
Definition set_files (m : gmap string string) (s : file_system) : file_system :=
  mkFS m (fs_dirs s) (fs_links s) (fs_open s).
Definition set_content (p c : string) (s : file_system) : file_system := set_files (<[p := c]> (fs_files s)) s.
Definition set_open (o : gmap Z (string * bool * nat)) (s : file_system) : file_system :=
  mkFS (fs_files s) (fs_dirs s) (fs_links s) o.

Definition slice (off n : nat) (c : string) : string := String.substring off n c.
Definition length_from (off : nat) (c : string) : nat := String.length c - off.
(** The content [c] after [d] is written at [off]. *)
Definition overwrite (off : nat) (d c : string) : string :=
  slice 0 off c +:+ d +:+ slice (off + String.length d) (length_from (off + String.length d) c) c.

Definition os_error (cls : string) : Prop := is_oserror (PyExc cls "") = true.

(** When a path with no links in it can be opened for reading, or for writing with
    [O_CREAT | O_TRUNC], as far as what it names goes. *)
Definition accepts (s : file_system) (p : string) (w : bool) : Prop :=
  if w then p ∉ fs_dirs s ∧ parent p ∈ fs_dirs s else is_Some (fs_files s !! p) ∨ p ∈ fs_dirs s.
#[local] Instance accepts_dec s p w : Decision (accepts s p w).
Proof. destruct w; apply _. Defined.
(** A new descriptor at offset zero; a file opened for writing is created or emptied. *)
Definition opened (s : file_system) (p : string) (w : bool) (fd : Z) : file_system :=
  let s1 := set_open (<[fd := (p, w, 0)]> (fs_open s)) s in if w then set_content p "" s1 else s1.

(** The calls that may fail for reasons of the kernel's own: permissions, descriptors,
    space, devices, signals. *)
Definition refusable (c : syscall) : bool :=
  match c with SOpen _ _ | SUnlink _ | SFdRealpath _ | SRead _ _ | SWrite _ _ => true | _ => false end.
(** The calls on a path that still has links, dots or empty segments in it. *)
Definition unresolved (s : file_system) (c : syscall) : Prop :=
  match c with SOpen p _ | SUnlink p => ¬ canonical (fs_links s) p | _ => False end.

(** What the kernel may answer to a call in a state, and the state it leaves.  A read or a
    write may transfer less than was asked for; a call may be refused; a failed close frees
    its descriptor; what [/proc/self/fd] shows is left open. *)
Inductive posix_step (s : file_system) : syscall → answer → file_system → Prop :=
| px_realpath x p : has_nul x = false → realpath_of (fs_links s) x = Some p → posix_step s (SRealpath x) (AStr p) s
| px_realpath_deep x y : realpath_of (fs_links s) x = None → posix_step s (SRealpath x) (AStr y) s
| px_realpath_nul x arg : has_nul x = true → posix_step s (SRealpath x) (ARaise "ValueError" arg) s
| px_open p w fd : canonical (fs_links s) p → fs_open s !! fd = None → accepts s p w →
    posix_step s (SOpen p w) (AInt fd) (opened s p w fd)
| px_fd_realpath fd x : posix_step s (SFdRealpath fd) (AStr x) s
| px_read fd n p o c k : fs_open s !! fd = Some (p, false, o) → fs_files s !! p = Some c →
    k ≤ length_from o c → (Z.of_nat k ≤ n)%Z →
    posix_step s (SRead fd n) (AStr (slice o k c)) (set_open (<[fd := (p, false, o + k)]> (fs_open s)) s)
| px_write fd d p o c k : fs_open s !! fd = Some (p, true, o) → fs_files s !! p = Some c → k ≤ String.length d →
    posix_step s (SWrite fd d) (AInt (Z.of_nat k))
      (set_content p (overwrite o (slice 0 k d) c) (set_open (<[fd := (p, true, o + k)]> (fs_open s)) s))
| px_close fd po : fs_open s !! fd = Some po → posix_step s (SClose fd) AUnit (set_open (delete fd (fs_open s)) s)
| px_close_error fd cls arg : os_error cls →
    posix_step s (SClose fd) (ARaise cls arg) (set_open (delete fd (fs_open s)) s)
| px_unlink p : canonical (fs_links s) p → is_Some (fs_files s !! p) →
    posix_step s (SUnlink p) AUnit (set_files (delete p (fs_files s)) s)
| px_refuse c cls arg : refusable c = true → os_error cls → posix_step s c (ARaise cls arg) s
| px_unresolved c a s' : unresolved s c → posix_step s c a s'.

(** The calls of the file broker. *)
Definition file_call (c : syscall) : Prop :=
  match c with SExists _ | SMkdtemp _ | SRmtree _ => False | _ => True end.

(** A kernel whose answers to a trace follow the steps, from one state to the next. *)
Class PosixKernel `{Kernel} := {
  fs : history → file_system;
  fs_step h c : file_call c → posix_step (fs h) c (kernel h c) (fs (h ++ [(c, kernel h c)]));
  fs_no_file_dirs h p : p ∈ fs_dirs (fs h) → fs_files (fs h) !! p = None
}.
Arguments fs {_ _} h.

(** * The store a broker promises *)

(** Why the store refuses: one of the coded errors, or the exception of a class as Python
    raises it. *)
Inductive store_error : Set := Coded (c : ErrorCode) | Raised (cls : string).

Section store.
Context `{Hashlib}.

(** The size of the single read. *)
Definition READ_LIMIT : Z := 64 * 1024 * 1024.
Definition read_part (c : string) : string :=
  if decide (Z.of_nat (String.length c) ≤ READ_LIMIT)%Z then c else slice 0 (Z.to_nat READ_LIMIT) c.

(** What a request on the resolved path [p] does to the files [m] under [root] with the
    directories [dirs]. *)
Definition store_run (root : string) (dirs : gset string) (p : string) (q : FileRequest) (m : gmap string string)
    : result store_error ExecutionResult * gmap string string :=
  if isabs (fr_path q) then (Err (Coded FILE_PATH_ESCAPE), m)
  else if has_nul (path_join root (fr_path q)) then (Err (Raised "ValueError"), m)
  else if negb (contained root p) then (Err (Coded FILE_PATH_ESCAPE), m)
  else if decide (fr_operation q = "read") then
    (if decide (p ∈ dirs) then Err (Coded FILE_ACCESS_DENIED)
     else match m !! p with
          | Some c => Ok (mkResult (Some p) (Some (content_digest (read_part c))) None)
          | None => Err (Coded FILE_PATH_ESCAPE)
          end, m)
  else if decide (fr_operation q = "write") then
    if decide (p ∉ dirs ∧ parent p ∈ dirs) then
      let content := default "" (fr_content q) in
      (Ok (mkResult (Some p) (Some (content_digest content)) None), <[p := content]> m)
    else (Err (Coded FILE_PATH_ESCAPE), m)
  else
    match m !! p with
    | Some _ => (Ok (mkResult (Some p) None None), delete p m)
    | None => (Err (Coded FILE_ACCESS_DENIED), m)
    end.
End store.

(** * The broker over such a kernel *)

Section broker.
Context `{Hashlib, Rfc8785, PosixKernel}.
Variable root : string.
Implicit Types (h : history) (s : file_system).

(** How much a read of [n] bytes at [off] transfers when it is not cut short. *)
Definition transferred (n : Z) (off : nat) (c : string) : nat :=
  if decide (Z.of_nat (length_from off c) ≤ n)%Z then length_from off c else Z.to_nat n.

(** The kernel serves: no call that can succeed is refused, no transfer is short, and a
    descriptor shows the path it was opened by. *)
Record serves : Prop := {
  sv_open h p w : canonical (fs_links (fs h)) p → accepts (fs h) p w → ∃ fd, kernel h (SOpen p w) = AInt fd;
  sv_fd_realpath h fd p w o : fs_open (fs h) !! fd = Some (p, w, o) → kernel h (SFdRealpath fd) = AStr p;
  sv_read h fd p o c n : fs_open (fs h) !! fd = Some (p, false, o) → fs_files (fs h) !! p = Some c → (0 ≤ n)%Z →
    kernel h (SRead fd n) = AStr (slice o (transferred n o c) c);
  sv_write h fd p o c d : fs_open (fs h) !! fd = Some (p, true, o) → fs_files (fs h) !! p = Some c →
    kernel h (SWrite fd d) = AInt (Z.of_nat (String.length d));
  sv_close h fd : is_Some (fs_open (fs h) !! fd) → kernel h (SClose fd) = AUnit;
  sv_unlink h p : canonical (fs_links (fs h)) p → is_Some (fs_files (fs h) !! p) → kernel h (SUnlink p) = AUnit
}.

(** ** Calls *)

(** The state after the call, and no call on an unresolved path. *)
Ltac after_call := repeat match goal with E : _ = fs (_ ++ [_]) |- _ => rewrite <-E; clear E end.
Ltac resolved := match goal with U : unresolved _ _ |- _ => by destruct U end.
Ltac step_of h c Hk := pose proof (fs_step h c I) as Hk; destruct (kernel h c) eqn:?; inversion Hk; subst; simplify_eq; try resolved; try done.

Lemma open_cases h p w :
  canonical (fs_links (fs h)) p →
  ∃ r h', ask_int (SOpen p w) h = (r, h') ∧
  match r with
  | Ok fd => fs_open (fs h) !! fd = None ∧ accepts (fs h) p w ∧ fs h' = opened (fs h) p w fd
  | Err x => is_oserror x = true ∧ fs h' = fs h ∧ (serves → ¬ accepts (fs h) p w)
  end.
Proof.
  intros Hc. unfold ask_int, cbind, ask. step_of h (SOpen p w) Hs.
  - eexists _, _. split; [reflexivity|]. by after_call.
  - eexists _, _. split; [reflexivity|]. after_call. split_and!; [done|done|].
    intros Hsv Ha. destruct (sv_open Hsv h p w Hc Ha). congruence.
Qed.

Lemma realpath_case h x p :
  realpath_of (fs_links (fs h)) x = Some p →
  ∃ r h', ask_str (SRealpath x) h = (r, h') ∧ fs h' = fs h ∧
    if has_nul x then ∃ arg, r = Err (PyExc "ValueError" arg) else r = Ok p.
Proof.
  intros Hp. unfold ask_str, cbind, ask. step_of h (SRealpath x) Hs.
  all: eexists _, _; split; [reflexivity|]; after_call; split; [done|].
  all: match goal with E : has_nul _ = _ |- _ => rewrite E end; first [congruence|by eexists].
Qed.

Lemma fd_realpath_case h fd :
  ∃ r h', ask_str (SFdRealpath fd) h = (r, h') ∧ fs h' = fs h ∧ (∀ x, r = Err x → is_oserror x = true) ∧
    (∀ p w o, fs_open (fs h) !! fd = Some (p, w, o) → serves → r = Ok p).
Proof.
  unfold ask_str, cbind, ask. step_of h (SFdRealpath fd) Hs.
  all: eexists _, _; split; [reflexivity|]; after_call; split_and!; [done|by intros x [= <-]|].
  all: intros p w o Ho Hsv; rewrite (sv_fd_realpath Hsv h fd p w o Ho) in *; congruence.
Qed.

Lemma close_case h fd :
  ∃ r h', ask_unit (SClose fd) h = (r, h') ∧ fs h' = set_open (delete fd (fs_open (fs h))) (fs h) ∧
    (∀ x, r = Err x → is_oserror x = true) ∧ (is_Some (fs_open (fs h) !! fd) → serves → r = Ok tt).
Proof.
  unfold ask_unit, cbind, ask. step_of h (SClose fd) Hs.
  all: eexists _, _; split; [reflexivity|]; after_call; split_and!; [done|by intros x [= <-]|].
  all: intros Ho Hsv; pose proof (sv_close Hsv h fd Ho); congruence.
Qed.

Lemma substring_empty off n : String.substring off n "" = "".
Proof. by destruct off, n. Qed.
Lemma append_nil_r (t : string) : t +:+ "" = t.
Proof. induction t as [|c t IH]; [done|]. exact (f_equal (String c) IH). Qed.
Lemma slice_whole (c : string) : slice 0 (String.length c) c = c.
Proof. unfold slice. induction c as [|x c IH]; [done|]. exact (f_equal (String x) IH). Qed.

Lemma read_case h fd p n :
  fs_open (fs h) !! fd = Some (p, false, 0) →
  ∃ r h' o, ask_str (SRead fd n) h = (r, h') ∧ fs h' = set_open (<[fd := (p, false, o)]> (fs_open (fs h))) (fs h) ∧
    match r with
    | Ok d => ∃ c, fs_files (fs h) !! p = Some c ∧ (serves → (0 ≤ n)%Z → d = slice 0 (transferred n 0 c) c)
    | Err x => is_oserror x = true ∧ (serves → (0 ≤ n)%Z → fs_files (fs h) !! p = None)
    end.
Proof.
  intros Ho. unfold ask_str, cbind, ask. step_of h (SRead fd n) Hs.
  - eexists _, _, _. split; [reflexivity|]. after_call. split; [done|]. eexists. split; [done|].
    intros Hsv Hn. erewrite (sv_read Hsv) in * by done. congruence.
  - eexists _, _, 0. split; [reflexivity|]. after_call. split; [rewrite insert_id by done; by destruct (fs h)|].
    split; [done|]. intros Hsv Hn. destruct (fs_files (fs h) !! p) as [c|] eqn:Hp; [|done].
    by erewrite (sv_read Hsv) in * by done.
Qed.

Lemma write_case h fd p d :
  fs_open (fs h) !! fd = Some (p, true, 0) → fs_files (fs h) !! p = Some "" →
  ∃ r h' o c, ask (SWrite fd d) h = (r, h') ∧
    fs h' = set_content p c (set_open (<[fd := (p, true, o)]> (fs_open (fs h))) (fs h)) ∧
    (serves → c = d) ∧ match r with Ok _ => True | Err x => is_oserror x = true ∧ (serves → False) end.
Proof.
  intros Ho Hf. unfold ask. step_of h (SWrite fd d) Hs.
  - eexists _, _, _, _. split; [reflexivity|]. after_call. split; [done|]. split; [|done]. intros Hsv.
    erewrite (sv_write Hsv) in * by done. match goal with E : AInt _ = AInt _ |- _ => injection E as E%Nat2Z.inj; subst end.
    unfold overwrite. unfold slice at 1 3. by rewrite !substring_empty, append_nil_r, slice_whole.
  - eexists _, _, 0, "". split; [reflexivity|]. after_call.
    assert (Hno : serves → False) by (intros Hsv; by erewrite (sv_write Hsv) in * by done).
    split_and!; [|by intros ?%Hno|done|done]. unfold set_content. simpl. rewrite !insert_id by done. by destruct (fs h).
Qed.

(** ** Opening without following a link *)

Definition broker_codes : list ErrorCode := [FILE_PATH_ESCAPE; FILE_ACCESS_DENIED].
(** One of the two codes, or an [OSError] on its way to the [except] clauses. *)
Definition broker_exn (x : exn) : Prop := (∃ e, x = Cvztte e ∧ code e ∈ broker_codes) ∨ is_oserror x = true.
Definition is_escape (x : exn) : Prop := ∃ e, x = Cvztte e ∧ code e = FILE_PATH_ESCAPE.
Lemma escape_exn x : is_escape x → broker_exn x.
Proof. intros (e & -> & He). left. exists e. split; [done|]. rewrite He. left. Qed.
Lemma oserror_exn x : is_oserror x = true → broker_exn x.
Proof. by right. Qed.
#[local] Hint Resolve escape_exn oserror_exn : core.

(** The file as the open leaves it. *)
Definition touched s p (w : bool) : file_system := if w then set_content p "" s else s.
Lemma opened_closed s p w fd :
  fs_open s !! fd = None → set_open (delete fd (fs_open (opened s p w fd))) (opened s p w fd) = touched s p w.
Proof.
  intros Hn. destruct w; destruct s; simpl in *; unfold set_open, set_content, set_files; simpl;
    by rewrite delete_insert_id.
Qed.
Lemma closed_twice s fd (s' := set_open (delete fd (fs_open s)) s) : set_open (delete fd (fs_open s')) s' = s'.
Proof. subst s'. unfold set_open. simpl. by rewrite delete_delete_eq. Qed.

(** The check of the descriptor: it stays open only if the check passes. *)
Lemma check_cases h p w fd s :
  contained root p = true → fs_open s !! fd = None → fs h = opened s p w fd →
  ∃ r h', ccatch
    (let! real := ask_str (SFdRealpath fd) in
     if contained root real then cret tt
     else let! _ := ask_unit (SClose fd) in raise FILE_PATH_ESCAPE "opened path escapes workspace root")
    (λ x, if is_oserror x then
            let! _ := ask_unit (SClose fd) in raise FILE_ACCESS_DENIED "could not verify opened path"
          else cthrow x) h = (r, h') ∧
  match r with
  | Ok _ => fs h' = fs h
  | Err x => broker_exn x ∧ fs h' = touched s p w ∧ (serves → False)
  end.
Proof.
  intros Hp Hn Hfs. destruct (fd_realpath_case h fd) as (r1 & h1 & Hq1 & Hf1 & Hx1 & Hs1).
  assert (Ho : fs_open (fs h) !! fd = Some (p, w, 0)) by (rewrite Hfs; destruct w; apply lookup_insert_eq).
  specialize (Hs1 _ _ _ Ho). destruct (close_case h1 fd) as (r2 & h2 & Hq2 & Hf2 & Hx2 & Hs2).
  assert (Ht : fs h2 = touched s p w) by (by rewrite Hf2, Hf1, Hfs, opened_closed).
  destruct (close_case h2 fd) as (r3 & h3 & Hq3 & Hf3 & Hx3 & _).
  assert (Ht3 : fs h3 = touched s p w).
  { rewrite Hf3, Ht, <-(opened_closed s p w fd Hn). apply closed_twice. }
  unfold ccatch. unfold cbind at 1. rewrite Hq1. destruct r1 as [real|x].
  - destruct (contained root real) eqn:Hreal; [by eexists _, h1|].
    assert (Hno : serves → False) by (intros Hsv; specialize (Hs1 Hsv); simplify_eq; congruence).
    unfold cbind at 1. rewrite Hq2. destruct r2 as [[]|x].
    + eexists _, h2. split; [reflexivity|]. split_and!; auto. apply escape_exn. by eexists.
    + specialize (Hx2 x eq_refl). rewrite Hx2. unfold cbind. rewrite Hq3. destruct r3 as [[]|y].
      * eexists _, h3. split; [reflexivity|]. split_and!; auto. left. eexists. split; [done|]. right. left.
      * eexists _, h3. split; [reflexivity|]. split_and!; auto.
  - specialize (Hx1 x eq_refl). rewrite Hx1. assert (Hno : serves → False) by (intros Hsv; by specialize (Hs1 Hsv)).
    unfold cbind. rewrite Hq2. destruct r2 as [[]|y].
    + eexists _, h2. split; [reflexivity|]. split_and!; auto. left. eexists. split; [done|]. right. left.
    + eexists _, h2. split; [reflexivity|]. split_and!; auto.
Qed.

Lemma open_nofollow_cases h p w :
  contained root p = true → canonical (fs_links (fs h)) p →
  ∃ r h', open_nofollow root p w h = (r, h') ∧
  match r with
  | Ok fd => fs_open (fs h) !! fd = None ∧ accepts (fs h) p w ∧ fs h' = opened (fs h) p w fd
  | Err x => broker_exn x ∧ (fs h' = fs h ∨ fs h' = touched (fs h) p w) ∧
      (serves → ¬ accepts (fs h) p w ∧ is_escape x ∧ fs h' = fs h)
  end.
Proof.
  intros Hp Hc. destruct (open_cases h p w Hc) as (r & h1 & Hq1 & Hr).
  unfold open_nofollow, cbind at 1, ccatch at 1. rewrite Hq1. destruct r as [fd|x].
  - destruct Hr as (Hn & Ha & Hfs). destruct (check_cases h1 p w fd (fs h) Hp Hn Hfs) as (r & h' & Hk & Hr).
    unfold cbind at 1. rewrite Hk. destruct r as [u|x].
    + eexists _, h'. split; [reflexivity|]. by rewrite Hr.
    + destruct Hr as (Hx & Hfs' & Hno). eexists _, h'. split; [reflexivity|]. split_and!; auto. by intros ?%Hno.
  - destruct Hr as (Hx & Hfs & Hno). rewrite Hx.
    assert (He : is_escape (Cvztte (mkError FILE_PATH_ESCAPE "refusing to follow symlink at target"))) by by eexists.
    eexists _, h1. split; [reflexivity|]. split_and!; auto.
Qed.

(** ** What a run leaves *)

(** The error of a failure, without its message. *)
Definition abstract {A} (r : res A) : result store_error A :=
  match r with Ok a => Ok a | Err (Cvztte e) => Err (Coded (code e)) | Err (PyExc cls _) => Err (Raised cls) end.
(** The same after the [except] clauses, for the failures the effect can have. *)
Definition caught {A} (r : res A) : result store_error A :=
  match r with Err (PyExc _ _) => Err (Coded FILE_ACCESS_DENIED) | _ => abstract r end.

(** From [s] to [s'] with the outcome [r], on the path [p], where the store would have
    made [spec]. *)
Record effect_outcome {A} s s' (p : string) (r : res A)
    (spec : result store_error A * gmap string string) : Prop := {
  eo_state : ∃ m, s' = set_files m s ∧ ∀ p', p' ≠ p → m !! p' = fs_files s !! p';
  eo_errors : ∀ x, r = Err x → broker_exn x;
  eo_exact : serves → spec = (caught r, fs_files s')
}.

Lemma set_files_self s : set_files (fs_files s) s = s.
Proof. by destruct s. Qed.
Lemma touched_state s p w : ∃ m, touched s p w = set_files m s ∧ ∀ p', p' ≠ p → m !! p' = fs_files s !! p'.
Proof.
  destruct w; [|by exists (fs_files s); rewrite set_files_self].
  eexists. split; [done|]. intros p' Hne. by rewrite lookup_insert_ne.
Qed.
Lemma same_state s p : ∃ m, s = set_files m s ∧ ∀ p' : string, p' ≠ p → m !! p' = fs_files s !! p'.
Proof. apply (touched_state s p false). Qed.

(** The file could not be opened: the store refuses it as an escape. *)
Lemma open_failed {A} s s' p w x (spec : result store_error A * gmap string string) :
  broker_exn x → s' = s ∨ s' = touched s p w → (serves → ¬ accepts s p w ∧ is_escape x ∧ s' = s) →
  (¬ accepts s p w → spec = (Err (Coded FILE_PATH_ESCAPE), fs_files s)) → effect_outcome s s' p (Err x) spec.
Proof.
  intros Hx Hs Hno Hspec. split.
  - destruct Hs as [->| ->]; [apply same_state|apply touched_state].
  - by intros ? [= <-].
  - intros Hsv. destruct (Hno Hsv) as (Ha & (e & -> & He) & ->). rewrite (Hspec Ha). simpl. by rewrite He.
Qed.

(** A transfer and the closing of its descriptor: the descriptor is gone, whatever the
    transfer returned. *)
Lemma transfer_case {A} (m : M history A) h fd s r h1 :
  m h = (r, h1) → is_Some (fs_open (fs h1) !! fd) → delete fd (fs_open (fs h1)) = fs_open s →
  ∃ r' h', cfinally m (ask_unit (SClose fd)) h = (r', h') ∧ fs h' = set_open (fs_open s) (fs h1) ∧
    (∀ x, r' = Err x → r = Err x ∨ is_oserror x = true) ∧ (serves → r' = r).
Proof.
  intros Hm Ho Hd. destruct (close_case h1 fd) as (rc & h' & Hc & Hfs & Hx & Hs). rewrite Hd in Hfs.
  unfold cfinally. rewrite Hm, Hc. destruct rc as [[]|x].
  - eexists r, h'. split_and!; auto.
  - eexists _, h'. split_and!; [done|done|intros ? [= <-]; auto|]. intros Hsv. by specialize (Hs Ho Hsv).
Qed.

Lemma read_part_slice c : read_part c = slice 0 (transferred READ_LIMIT 0 c) c.
Proof.
  unfold read_part, transferred, length_from. rewrite Nat.sub_0_r.
  case_decide; [by rewrite slice_whole|done].
Qed.

Lemma effect_read p q h :
  contained root p = true → canonical (fs_links (fs h)) p → fr_operation q = "read" →
  ∃ r h', file_effect root p q h = (r, h') ∧
    effect_outcome (fs h) (fs h') p r
      (if decide (p ∈ fs_dirs (fs h)) then Err (Coded FILE_ACCESS_DENIED)
       else match fs_files (fs h) !! p with
            | Some c => Ok (mkResult (Some p) (Some (content_digest (read_part c))) None)
            | None => Err (Coded FILE_PATH_ESCAPE)
            end, fs_files (fs h)).
Proof.
  intros Hp Hcan Hop. unfold file_effect. rewrite Hop. rewrite decide_True by done. unfold cbind at 1.
  destruct (open_nofollow_cases h p false Hp Hcan) as (r & h1 & -> & Hr). destruct r as [fd|x].
  2: { destruct Hr as (Hx & Hs & Hno). eexists _, h1. split; [reflexivity|]. apply (open_failed _ _ _ false); auto.
       intros Ha. simpl in Ha. rewrite decide_False by tauto. destruct (fs_files _ !! p); [|done]. exfalso; eauto. }
  destruct Hr as (Hn & Ha & Hfs).
  assert (Ho : fs_open (fs h1) !! fd = Some (p, false, 0)) by (rewrite Hfs; apply lookup_insert_eq).
  destruct (read_case h1 fd p READ_LIMIT Ho) as (r & h2 & o & Hr & Hf2 & Hres).
  destruct (transfer_case _ h1 fd (fs h) r h2 Hr) as (r' & h3 & Hc & Hf3 & Hx & Hs).
  { rewrite Hf2. simpl. rewrite lookup_insert_eq. by eexists. }
  { rewrite Hf2, Hfs. simpl. by rewrite insert_insert_eq, delete_insert_id. }
  assert (Hsame : fs h3 = fs h) by (rewrite Hf3, Hf2, Hfs; by destruct (fs h)).
  assert (Hfiles : fs_files (fs h1) = fs_files (fs h)) by by rewrite Hfs.
  unfold cbind at 1. change (64 * 1024 * 1024)%Z with READ_LIMIT. rewrite Hc. rewrite Hfiles in Hres.
  destruct r' as [d|x]; (eexists _, h3; split; [reflexivity|]; rewrite Hsame; split; [apply same_state|..]).
  - done.
  - intros Hsv. rewrite <-(Hs Hsv) in Hres. destruct Hres as (c & Hcf & Hd).
    rewrite decide_False by (intros Hd'; apply (fs_no_file_dirs h) in Hd'; congruence).
    by rewrite Hcf, (Hd Hsv), read_part_slice by done.
  - intros ? [= <-]. destruct (Hx x eq_refl) as [->|]; [|by auto]. destruct Hres. auto.
  - intros Hsv. rewrite <-(Hs Hsv) in Hres. destruct Hres as [Hos Hnone].
    destruct Ha as [[c Hcf]|Hd]; [by rewrite Hnone in Hcf|]. rewrite decide_True by done. by destruct x.
Qed.

Lemma effect_write p q h :
  contained root p = true → canonical (fs_links (fs h)) p → fr_operation q = "write" →
  ∃ r h', file_effect root p q h = (r, h') ∧
    effect_outcome (fs h) (fs h') p r
      (if decide (p ∉ fs_dirs (fs h) ∧ parent p ∈ fs_dirs (fs h)) then
         (Ok (mkResult (Some p) (Some (content_digest (default "" (fr_content q)))) None),
          <[p := default "" (fr_content q)]> (fs_files (fs h)))
       else (Err (Coded FILE_PATH_ESCAPE), fs_files (fs h))).
Proof.
  intros Hp Hcan Hop. set (content := default "" (fr_content q)). unfold file_effect. rewrite Hop.
  rewrite decide_False, decide_True by done. fold content. unfold cbind at 1.
  destruct (open_nofollow_cases h p true Hp Hcan) as (r & h1 & -> & Hr). destruct r as [fd|x].
  2: { destruct Hr as (Hx & Hs & Hno). eexists _, h1. split; [reflexivity|]. apply (open_failed _ _ _ true); auto.
       intros Ha. by rewrite decide_False by exact Ha. }
  destruct Hr as (Hn & Ha & Hfs). rewrite (decide_True (P := _ ∧ _)) by exact Ha.
  assert (Ho : fs_open (fs h1) !! fd = Some (p, true, 0)) by (rewrite Hfs; apply lookup_insert_eq).
  assert (Hf : fs_files (fs h1) !! p = Some "") by (rewrite Hfs; apply lookup_insert_eq).
  destruct (write_case h1 fd p content Ho Hf) as (r & h2 & o & c & Hr & Hf2 & Hcd & Hres).
  destruct (transfer_case _ h1 fd (fs h) r h2 Hr) as (r' & h3 & Hc & Hf3 & Hx & Hs).
  { rewrite Hf2. simpl. rewrite lookup_insert_eq. by eexists. }
  { rewrite Hf2, Hfs. simpl. by rewrite insert_insert_eq, delete_insert_id. }
  assert (Hst : fs h3 = set_content p c (fs h)).
  { rewrite Hf3, Hf2, Hfs. unfold set_content, set_files. simpl. by rewrite insert_insert_eq. }
  assert (Hm : ∃ m, set_content p c (fs h) = set_files m (fs h) ∧ ∀ p', p' ≠ p → m !! p' = fs_files (fs h) !! p').
  { eexists. split; [done|]. intros p' Hne. by rewrite lookup_insert_ne. }
  unfold cbind at 1. rewrite Hc. destruct r' as [a|x]; (eexists _, h3; split; [reflexivity|]; rewrite Hst; split; [done|..]).
  - done.
  - intros Hsv. by rewrite (Hcd Hsv).
  - intros ? [= <-]. destruct (Hx x eq_refl) as [->|]; [|by auto]. destruct Hres. auto.
  - intros Hsv. rewrite <-(Hs Hsv) in Hres. destruct Hres as [_ []]. done.
Qed.

Lemma effect_delete p q h :
  canonical (fs_links (fs h)) p → fr_operation q ≠ "read" → fr_operation q ≠ "write" →
  ∃ r h', file_effect root p q h = (r, h') ∧
    effect_outcome (fs h) (fs h') p r
      (match fs_files (fs h) !! p with
       | Some _ => (Ok (mkResult (Some p) None None), delete p (fs_files (fs h)))
       | None => (Err (Coded FILE_ACCESS_DENIED), fs_files (fs h))
       end).
Proof.
  intros Hcan Hr Hw. unfold file_effect. rewrite !decide_False by done. unfold cbind, ask. step_of h (SUnlink p) Hs.
  - match goal with Hf : is_Some _ |- _ => destruct Hf as [c Hc] end. rewrite Hc.
    eexists _, _. split; [reflexivity|]. after_call. split; [|done|done].
    eexists. split; [done|]. intros p' Hne. by rewrite lookup_delete_ne.
  - eexists _, _. split; [reflexivity|]. after_call. split; [apply same_state|intros ? [= <-]; auto|].
    intros Hsv. destruct (fs_files (fs h) !! p) as [c|] eqn:Hp; [|done].
    by rewrite (sv_unlink Hsv) in * by eauto.
Qed.

(** The [except] clauses: every failure of the effect becomes one of the two codes. *)
Lemma caught_outcome p q h r h' :
  file_effect root p q h = (r, h') → (∀ x, r = Err x → broker_exn x) →
  ∃ r', ccatch (file_effect root p q) file_failed h = (r', h') ∧ abstract r' = caught r ∧
    ∀ x, r' = Err x → ∃ e, x = Cvztte e ∧ code e ∈ broker_codes.
Proof.
  intros He Hx. unfold ccatch. rewrite He. destruct r as [a|[e|cls arg]]; [by eexists| |].
  - eexists. split_and!; [done|done|]. intros ? [= <-]. destruct (Hx _ eq_refl) as [|Ho]; [done|discriminate Ho].
  - destruct (Hx _ eq_refl) as [(e & He' & _)|Ho]; [discriminate|]. unfold file_failed. rewrite Ho.
    case_decide; (eexists; split_and!; [done|done|]; intros ? [= <-]; eexists; split; [done|]; right; left).
Qed.

Lemma run_outcome p q h :
  isabs (fr_path q) = false → has_nul (path_join root (fr_path q)) = false →
  contained root p = true → canonical (fs_links (fs h)) p →
  ∃ r h', file_effect root p q h = (r, h') ∧
    effect_outcome (fs h) (fs h') p r (store_run root (fs_dirs (fs h)) p q (fs_files (fs h))).
Proof.
  intros Habs Hnul Hp Hcan. unfold store_run. rewrite Habs, Hnul, Hp. cbn [negb].
  case_decide as Hr; [by apply effect_read|]. case_decide as Hw; [by apply effect_write|by apply effect_delete].
Qed.

(** C30. The file broker is a store of files under its root.  Over any kernel of the POSIX
    kind that the broker alone asks to change the files (its calls may be refused, its
    transfers short, its files behind symbolic links, each file under one name), and for
    every request on a path of at most forty links: no descriptor stays open and no
    directory or link changes; no file other than the one the path resolves to is touched,
    and none at all outside the root; the failures are FILE_PATH_ESCAPE and
    FILE_ACCESS_DENIED, and, for a relative path with a NUL character in it, the
    [ValueError] that [os.path.realpath] raises outside the [try], after which nothing has
    changed.  If the kernel serves (no possible call refused, no transfer short), the
    result and the files are exactly those of the store: a read returns the digest of the
    content, a write makes the file what was given, a deletion removes it, and everything
    else is refused and changes nothing. *)
Theorem file_broker_is_store action decision (q : FileRequest) h p :
  realpath_of (fs_links (fs h)) (path_join root (fr_path q)) = Some p →
  ∃ r h', file_execute root action decision q h = (r, h') ∧
    fs_dirs (fs h') = fs_dirs (fs h) ∧ fs_links (fs h') = fs_links (fs h) ∧ fs_open (fs h') = fs_open (fs h) ∧
    (∀ p', p' ≠ p ∨ contained root p' = false ∨ has_nul (path_join root (fr_path q)) = true →
       fs_files (fs h') !! p' = fs_files (fs h) !! p') ∧
    (∀ x, r = Err x → (∃ e, x = Cvztte e ∧ code e ∈ [FILE_PATH_ESCAPE; FILE_ACCESS_DENIED]) ∨
       isabs (fr_path q) = false ∧ has_nul (path_join root (fr_path q)) = true ∧ ∃ arg, x = PyExc "ValueError" arg) ∧
    (serves → store_run root (fs_dirs (fs h)) p q (fs_files (fs h)) = (abstract r, fs_files (fs h'))).
Proof.
  intros Hreal. unfold file_execute, safe_resolve, cbind at 1. destruct (isabs (fr_path q)) eqn:Habs.
  { eexists _, h. split; [reflexivity|]. split_and!; try done.
    - intros x [= <-]. left. eexists. split; [done|]. left.
    - intros _. unfold store_run. by rewrite Habs. }
  destruct (realpath_case h _ p Hreal) as (r & h1 & Hr & Hfs & Hk). unfold cbind at 1. rewrite Hr.
  destruct (has_nul (path_join root (fr_path q))) eqn:Hnul.
  { destruct Hk as [arg ->]. eexists _, h1. split; [reflexivity|]. rewrite Hfs. split_and!; try done.
    - intros x [= <-]. right. by eauto.
    - intros _. unfold store_run. by rewrite Habs, Hnul. }
  subst r. destruct (contained root p) eqn:Hp.
  - assert (Hcan : canonical (fs_links (fs h1)) p) by (rewrite Hfs; by eapply realpath_canonical).
    destruct (run_outcome p q h1 Habs Hnul Hp Hcan) as (r & h' & He & [(m & Hm & Ho) Hx Hs]).
    destruct (caught_outcome p q h1 r h' He Hx) as (r' & Hrun & Hab & Hx'). exists r', h'.
    unfold cret. rewrite Hrun, Hfs in *. rewrite Hm. split_and!; try done; [|by intros x ?%Hx'; left|by rewrite Hab, <-Hm].
    intros p' [Hne|[Hc|[=]]]; [by apply Ho|]. apply Ho. congruence.
  - eexists _, h1. split; [reflexivity|]. rewrite Hfs. split_and!; try done.
    + intros x [= <-]. left. eexists. split; [done|]. left.
    + intros _. unfold store_run. by rewrite Habs, Hnul, Hp.
Qed.
End broker.

(** * A file system in memory *)

Section memory.
(** The state at first, how many bytes a write takes at most, and the paths the broker may
    not open. *)
Variables (s0 : file_system) (cap : option nat) (locked : gset string).

Definition written (d : string) : nat :=
  match cap with Some m => Nat.min m (String.length d) | None => String.length d end.

(** The answer to a call, and the state after it. *)
Definition mem_call (s : file_system) (c : syscall) : answer * file_system :=
  match c with
  | SRealpath x =>
      (if has_nul x then ARaise "ValueError" "lstat: embedded null character in path"
       else AStr (default x (realpath_of (fs_links s) x)), s)
  | SOpen p w =>
      let fd := fresh (dom (fs_open s)) in
      if decide (realpath_of (fs_links s) p ≠ Some p) then (ARaise "OSError" p, s)
      else if decide (p ∈ locked) then (ARaise "PermissionError" p, s)
      else if decide (accepts s p w) then (AInt fd, opened s p w fd)
      else (ARaise (if decide (p ∈ fs_dirs s) then "IsADirectoryError" else "FileNotFoundError") p, s)
  | SFdRealpath fd =>
      match fs_open s !! fd with Some (p, _, _) => (AStr p, s) | None => (ARaise "OSError" "", s) end
  | SRead fd n =>
      match fs_open s !! fd with
      | Some (p, false, o) =>
          match fs_files s !! p with
          | Some c => if decide (n < 0)%Z then (ARaise "OSError" "", s)
                      else (AStr (slice o (transferred n o c) c), set_open (<[fd := (p, false, o + transferred n o c)]> (fs_open s)) s)
          | None => (ARaise "IsADirectoryError" p, s)
          end
      | _ => (ARaise "OSError" "", s)
      end
  | SWrite fd d =>
      match fs_open s !! fd with
      | Some (p, true, o) =>
          match fs_files s !! p with
          | Some c => (AInt (Z.of_nat (written d)),
                       set_content p (overwrite o (slice 0 (written d) d) c)
                         (set_open (<[fd := (p, true, o + written d)]> (fs_open s)) s))
          | None => (ARaise "OSError" p, s)
          end
      | _ => (ARaise "OSError" "", s)
      end
  | SClose fd =>
      match fs_open s !! fd with
      | Some _ => (AUnit, set_open (delete fd (fs_open s)) s)
      | None => (ARaise "OSError" "", set_open (delete fd (fs_open s)) s)
      end
  | SUnlink p =>
      if decide (realpath_of (fs_links s) p ≠ Some p) then (ARaise "OSError" p, s)
      else match fs_files s !! p with
           | Some _ => (AUnit, set_files (delete p (fs_files s)) s)
           | None => (ARaise (if decide (p ∈ fs_dirs s) then "IsADirectoryError" else "FileNotFoundError") p, s)
           end
  | _ => (AUnit, s)
  end.
Definition mem_state (h : history) : file_system := foldl (λ s ca, (mem_call s ca.1).2) s0 h.
Definition mem_kernel : Kernel := {| kernel h c := (mem_call (mem_state h) c).1 |}.

Lemma mem_step s c : file_call c → posix_step s c (mem_call s c).1 (mem_call s c).2.
Proof.
  destruct c as [x|p w|fd|fd n|fd d|fd|p| | |]; intros Hc; try done; cbn [mem_call].
  - destruct (has_nul x) eqn:Hn; [by constructor|]. destruct (realpath_of _ x) eqn:Hr; by constructor.
  - repeat case_decide; try by apply px_refuse. apply px_open; [|apply not_elem_of_dom, is_fresh|done].
    destruct (decide (realpath_of (fs_links s) p = Some p)); done.
  - destruct (fs_open s !! fd) as [[[p w] o]|] eqn:Ho; [by eapply px_fd_realpath|]. by apply px_refuse.
  - destruct (fs_open s !! fd) as [[[p []] o]|] eqn:Ho; try by apply px_refuse.
    destruct (fs_files s !! p) as [c|] eqn:Hp; [|by apply px_refuse].
    case_decide; [by apply px_refuse|]. eapply px_read; try done; unfold transferred; case_decide; lia.
  - destruct (fs_open s !! fd) as [[[p []] o]|] eqn:Ho; try by apply px_refuse.
    destruct (fs_files s !! p) as [c|] eqn:Hp; [|by apply px_refuse].
    eapply px_write; try done. unfold written. destruct cap; lia.
  - destruct (fs_open s !! fd) as [po|] eqn:Ho; [by eapply px_close|by apply px_close_error].
  - case_decide as Hcan; [by apply px_refuse|]. destruct (fs_files s !! p) as [c|] eqn:Hp.
    + apply px_unlink; [|by eexists]. destruct (decide (realpath_of (fs_links s) p = Some p)); done.
    + case_decide; by apply px_refuse.
Qed.

Definition files_apart (s : file_system) : Prop := ∀ p, p ∈ fs_dirs s → fs_files s !! p = None.
Lemma mem_call_apart s c : files_apart s → files_apart (mem_call s c).2.
Proof.
  intros Ha. destruct c as [x|p w|fd|fd n|fd d|fd|p| | |]; cbn [mem_call]; try done.
  - repeat case_decide; try done. destruct w; [|done]. intros p' Hd. simpl in *. rewrite lookup_insert_ne; [by apply Ha|].
    intros <-. tauto.
  - repeat case_match; done.
  - repeat case_match; done.
  - repeat case_match; try done. intros p' Hd. simpl in *. rewrite lookup_insert_ne; [by apply Ha|].
    intros <-. by rewrite Ha in *.
  - repeat case_match; done.
  - repeat case_match; try done. intros p' Hd. simpl in *. rewrite lookup_delete_None. right. by apply Ha.
Qed.
Lemma mem_state_apart h : files_apart s0 → files_apart (mem_state h).
Proof.
  intros Ha. induction h as [|x h IH] using rev_ind; [done|].
  unfold mem_state. rewrite foldl_app. by apply mem_call_apart.
Qed.

Definition mem_posix (Ha : files_apart s0) : PosixKernel (H := mem_kernel).
Proof.
  refine {| fs := mem_state |}.
  - intros h c Hc. unfold mem_state. rewrite foldl_app. by apply mem_step.
  - intros h p. by apply mem_state_apart.
Defined.

Lemma mem_serves Ha : cap = None → locked = ∅ → serves (H2 := mem_posix Ha).
Proof.
  intros Hc Hl. split; unfold kernel; cbn [mem_kernel mem_posix fs]; intros h; generalize (mem_state h); intros s;
    cbn [mem_call].
  - intros p w Hcan Hacc. rewrite decide_False by auto. rewrite decide_False by set_solver.
    rewrite decide_True by done. by eexists.
  - intros fd p w o Ho. by rewrite Ho.
  - intros fd p o c n Ho Hp Hn. rewrite Ho, Hp. by rewrite decide_False by lia.
  - intros fd p o c d Ho Hp. rewrite Ho, Hp. simpl. unfold written. by rewrite Hc.
  - intros fd [po Ho]. by rewrite Ho.
  - intros p Hcan [c Hp]. rewrite decide_False by auto. by rewrite Hp.
Qed.
End memory.

(** * A workspace with one file *)

Import Instances.

(** Beside the file, a link to it and a link that leaves the workspace. *)
Definition ex_disk : file_system :=
  mkFS {["/ws/a.txt" := "data"; "/etc/passwd" := "root:x"]} {["/"; "/ws"; "/etc"]}
    {["/ws/b.txt" := "sub/../a.txt"; "/ws/out" := "/etc"]} ∅.
Lemma ex_disk_apart : files_apart ex_disk.
Proof.
  intros p Hp. cbn [ex_disk fs_dirs fs_files] in *.
  assert (Hd : p = "/" ∨ p = "/ws" ∨ p = "/etc") by set_solver. by destruct Hd as [->|[->| ->]].
Qed.
Definition ex_mem (cap : option nat) (locked : gset string) : Kernel := mem_kernel ex_disk cap locked.
Definition ex_file_run (cap : option nat) (locked : gset string) (path op : string) (content : option string) :=
  file_execute (H1 := ex_mem cap locked) "/ws" ex_action ex_decision (mkFileRequest path op content INTERNAL) [].
Definition ex_content_after (cap : option nat) (path op : string) (content : option string) (p : string) : option string :=
  fs_files (mem_state ex_disk cap ∅ (ex_file_run cap ∅ path op content).2) !! p.

Example ex_file_runs :
  is_ok (ex_file_run None ∅ "sub/../notes.txt" "write" (Some "hello")).1 = true ∧
  ex_content_after None "a.txt" "delete" None "/ws/a.txt" = None ∧
  ex_content_after None "b.txt" "write" (Some "hello") "/ws/a.txt" = Some "hello" ∧
  res_code (ex_file_run None ∅ "out/passwd" "read" None).1 = Some FILE_PATH_ESCAPE ∧
  res_code (ex_file_run None ∅ "../../etc/passwd" "read" None).1 = Some FILE_PATH_ESCAPE ∧
  res_code (ex_file_run None ∅ "." "read" None).1 = Some FILE_ACCESS_DENIED ∧
  res_code (ex_file_run None ∅ "c.txt" "delete" None).1 = Some FILE_ACCESS_DENIED.
Proof. vm_compute. split_and!; reflexivity. Qed.

(** Reading a file that does not exist, or that may not be read, is reported as an escape
    from the root by a symbolic link. *)
Example missing_file_escapes :
  (ex_file_run None ∅ "c.txt" "read" None).1 = err FILE_PATH_ESCAPE "refusing to follow symlink at target" ∧
  (ex_file_run None {["/ws/a.txt"]} "a.txt" "read" None).1 =
    err FILE_PATH_ESCAPE "refusing to follow symlink at target".
Proof. vm_compute. split; reflexivity. Qed.

(** A NUL character in the path leaves the broker as the [ValueError] of [os.path.realpath]. *)
Example nul_path_raises :
  (ex_file_run None ∅ (String Ascii.zero "") "read" None).1 =
    Err (PyExc "ValueError" "lstat: embedded null character in path").
Proof. vm_compute. reflexivity. Qed.

(** The answer of the write is not looked at: the receipt names the digest of content of
    which the disk took two bytes. *)
Example short_write_reported_whole :
  (match (ex_file_run (Some 2) ∅ "a.txt" "write" (Some "hello")).1 with Ok x => result_hash x | Err _ => None end)
    = Some (content_digest "hello") ∧
  ex_content_after (Some 2) "a.txt" "write" (Some "hello") "/ws/a.txt" = Some "he".
Proof. vm_compute. split; reflexivity. Qed.

(** What a write will write is not part of the action that is observed, hashed and
    authorized. *)
Lemma content_not_observed root q content binding :
  file_observe root (mkFileRequest (fr_path q) (fr_operation q) content (fr_classification q)) binding =
  file_observe root q binding.
Proof. done. Qed.

(** C30 at a write through a symbolic link whose target has dots in it. *)
Lemma file_broker_is_store_witness :
  ∃ r h', ex_file_run None ∅ "b.txt" "write" (Some "hello") = (r, h') ∧ is_ok r = true ∧
    fs_files (mem_state ex_disk None ∅ h') = <["/ws/a.txt" := "hello"]> (fs_files ex_disk).
Proof.
  assert (Hn : realpath_of (fs_links ex_disk) (path_join "/ws" "b.txt") = Some "/ws/a.txt") by (vm_compute; reflexivity).
  destruct (file_broker_is_store (H2 := mem_posix ex_disk None ∅ ex_disk_apart) "/ws" ex_action ex_decision
    (mkFileRequest "b.txt" "write" (Some "hello") INTERNAL) [] "/ws/a.txt" Hn)
    as (r & h' & He & _ & _ & _ & _ & _ & Hx).
  specialize (Hx (mem_serves ex_disk None ∅ ex_disk_apart eq_refl eq_refl)).
  exists r, h'. split; [exact He|].
  assert (Hs : store_run "/ws" (fs_dirs ex_disk) "/ws/a.txt" (mkFileRequest "b.txt" "write" (Some "hello") INTERNAL)
      (fs_files ex_disk) = (Ok (mkResult (Some "/ws/a.txt") (Some (content_digest "hello")) None),
        <["/ws/a.txt" := "hello"]> (fs_files ex_disk))) by (vm_compute; reflexivity).
  change (fs (PosixKernel := mem_posix ex_disk None ∅ ex_disk_apart) []) with ex_disk in Hx.
  change (fs (PosixKernel := mem_posix ex_disk None ∅ ex_disk_apart) h') with (mem_state ex_disk None ∅ h') in Hx.
  rewrite Hs in Hx. destruct r as [x|[e|c a]]; cbn [abstract] in Hx; injection Hx as Hr Hf; try discriminate Hr.
  split; [reflexivity|symmetry; exact Hf].
Defined.
