(* ===== verification/PyBase64.v ===== *)
(** [base64.b64encode] and [base64.b64decode], the latter strict
    ([validate=True]) and lenient. *)

From S2P Require Export Prelude.

(** Six bits, least significant first, as in [Ascii]. *)
Definition sextet : Type := (bool * bool * bool * bool * bool * bool)%type.

Definition bit (b : bool) (n : N) : N := if b then n else 0%N.
Definition sextet_value (s : sextet) : N :=
  let '(b0, b1, b2, b3, b4, b5) := s in
  (bit b0 1 + bit b1 2 + bit b2 4 + bit b3 8 + bit b4 16 + bit b5 32)%N.

(** The standard alphabet. *)
Definition b64_char (s : sextet) : Ascii.ascii :=
  let v := sextet_value s in
  Ascii.ascii_of_N
    (if v <? 26 then 65 + v else if v <? 52 then 71 + v else if v <? 62 then v - 4
     else if v =? 62 then 43 else 47)%N.

Definition value_sextet (v : N) : sextet :=
  (N.testbit v 0, N.testbit v 1, N.testbit v 2, N.testbit v 3, N.testbit v 4, N.testbit v 5).

Definition b64_value (c : Ascii.ascii) : option sextet :=
  let n := Ascii.N_of_ascii c in
  (if (65 <=? n) && (n <=? 90) then Some (value_sextet (n - 65))
   else if (97 <=? n) && (n <=? 122) then Some (value_sextet (n - 71))
   else if (48 <=? n) && (n <=? 57) then Some (value_sextet (n + 4))
   else if n =? 43 then Some (value_sextet 62)
   else if n =? 47 then Some (value_sextet 63)
   else None)%N.

Lemma b64_value_char s : b64_value (b64_char s) = Some s.
Proof. by destruct s as [[[[[[] []] []] []] []] []]. Qed.

Definition pad_char : Ascii.ascii := Ascii.ascii_of_nat 61.
Lemma b64_char_not_pad s : b64_char s ≠ pad_char.
Proof. by destruct s as [[[[[[] []] []] []] []] []]. Qed.
Lemma b64_value_pad : b64_value pad_char = None.
Proof. done. Qed.

(** Three bytes make four sextets, most significant first. *)
Definition split3 (x y z : Ascii.ascii) : sextet * sextet * sextet * sextet :=
  match x, y, z with
  | Ascii.Ascii x0 x1 x2 x3 x4 x5 x6 x7, Ascii.Ascii y0 y1 y2 y3 y4 y5 y6 y7,
    Ascii.Ascii z0 z1 z2 z3 z4 z5 z6 z7 =>
      ((x2, x3, x4, x5, x6, x7), (y4, y5, y6, y7, x0, x1),
       (z6, z7, y0, y1, y2, y3), (z0, z1, z2, z3, z4, z5))
  end.

Definition join3 (a b c d : sextet) : Ascii.ascii * Ascii.ascii * Ascii.ascii :=
  match a, b, c, d with
  | (x2, x3, x4, x5, x6, x7), (y4, y5, y6, y7, x0, x1),
    (z6, z7, y0, y1, y2, y3), (z0, z1, z2, z3, z4, z5) =>
      (Ascii.Ascii x0 x1 x2 x3 x4 x5 x6 x7, Ascii.Ascii y0 y1 y2 y3 y4 y5 y6 y7,
       Ascii.Ascii z0 z1 z2 z3 z4 z5 z6 z7)
  end.

Lemma join3_split3 x y z :
  let '(a, b, c, d) := split3 x y z in join3 a b c d = (x, y, z).
Proof. by destruct x, y, z. Qed.

(** [base64.b64encode(s).decode("ascii")] *)
Fixpoint b64encode (s : string) : string :=
  match s with
  | EmptyString => EmptyString
  | String x EmptyString =>
      let '(a, b, _, _) := split3 x Ascii.zero Ascii.zero in
      String (b64_char a) (String (b64_char b) (String pad_char (String pad_char EmptyString)))
  | String x (String y EmptyString) =>
      let '(a, b, c, _) := split3 x y Ascii.zero in
      String (b64_char a) (String (b64_char b) (String (b64_char c) (String pad_char EmptyString)))
  | String x (String y (String z s')) =>
      let '(a, b, c, d) := split3 x y z in
      String (b64_char a) (String (b64_char b) (String (b64_char c) (String (b64_char d)
        (b64encode s'))))
  end.

Definition zero_sextet : sextet := (false, false, false, false, false, false).

(** [base64.b64decode(s, validate=True)]: full quartets of the alphabet, the last
    of which may be padded; [None] is [binascii.Error], a [ValueError]. *)
Fixpoint b64decode_strict (s : string) : option string :=
  match s with
  | EmptyString => Some EmptyString
  | String p (String q (String r (String t s'))) =>
      match b64_value p, b64_value q with
      | Some a, Some b =>
          match b64_value r, b64_value t with
          | Some c, Some d =>
              match b64decode_strict s' with
              | Some rest =>
                  let '(x, y, z) := join3 a b c d in
                  Some (String x (String y (String z rest)))
              | None => None
              end
          | Some c, None =>
              if bool_decide (t = pad_char) && bool_decide (s' = EmptyString) then
                let '(x, y, _) := join3 a b c zero_sextet in
                Some (String x (String y EmptyString))
              else None
          | None, None =>
              if bool_decide (r = pad_char) && bool_decide (t = pad_char)
                 && bool_decide (s' = EmptyString) then
                let '(x, _, _) := join3 a b zero_sextet zero_sextet in
                Some (String x EmptyString)
              else None
          | None, Some _ => None
          end
      | _, _ => None
      end
  | _ => None
  end.

(** Induction three bytes at a time. *)
Lemma string_ind3 (P : string → Prop) :
  P "" → (∀ x, P (String x "")) → (∀ x y, P (String x (String y ""))) →
  (∀ x y z s, P s → P (String x (String y (String z s)))) → ∀ s, P s.
Proof.
  intros H0 H1 H2 H3. fix IH 1.
  intros [|x [|y [|z s]]]; [exact H0|apply H1|apply H2|apply H3, IH].
Qed.

Lemma b64_roundtrip s : b64decode_strict (b64encode s) = Some s.
Proof.
  induction s as [|x|x y|x y z s IH] using string_ind3.
  - done.
  - by destruct x as [[] [] [] [] [] [] [] []].
  - cbn [b64encode]. pose proof (join3_split3 x y Ascii.zero) as Hj.
    destruct (split3 x y Ascii.zero) as [[[a b] c] d] eqn:Hs.
    cbn [b64decode_strict]. rewrite !b64_value_char, b64_value_pad.
    rewrite !bool_decide_true by done. cbn [andb].
    assert (d = zero_sextet) as -> by (destruct x, y; simpl in Hs; by simplify_eq).
    by rewrite Hj.
  - cbn [b64encode]. pose proof (join3_split3 x y z) as Hj.
    destruct (split3 x y z) as [[[a b] c] d].
    cbn [b64decode_strict]. rewrite !b64_value_char, IH, Hj. done.
Qed.

(** [base64.b64decode(s)]: characters outside the alphabet are skipped, a
    complete padding ends the data. *)
Fixpoint b64_lenient (pending : list sextet) (pads : nat) (s : string) : option string :=
  match s with
  | EmptyString => match pending with [] => Some "" | _ => None end
  | String ch s' =>
      if bool_decide (ch = pad_char) then
        match pending with
        | [a; b] =>
            if decide (2 ≤ S pads) then
              let '(x, _, _) := join3 a b zero_sextet zero_sextet in Some (String x "")
            else b64_lenient pending (S pads) s'
        | [a; b; c] =>
            let '(x, y, _) := join3 a b c zero_sextet in Some (String x (String y ""))
        | _ => b64_lenient pending pads s'
        end
      else
        match b64_value ch with
        | None => b64_lenient pending pads s'
        | Some v =>
            match pending with
            | [a; b; c] =>
                match b64_lenient [] 0 s' with
                | Some rest => let '(x, y, z) := join3 a b c v in
                               Some (String x (String y (String z rest)))
                | None => None
                end
            | _ => b64_lenient (pending ++ [v]) 0 s'
            end
        end
  end.

Definition b64decode (s : string) : option string := b64_lenient [] 0 s.

Example b64_example : b64encode "Many hands" = "TWFueSBoYW5kcw==".
Proof. vm_compute. reflexivity. Qed.
Example b64_lenient_example : b64decode "TWFu eSBo-YW5kcw==" = Some "Many hands".
Proof. vm_compute. reflexivity. Qed.

(** [s.isascii()] *)
Definition is_ascii (s : string) : bool :=
  forallb (λ c, (Ascii.N_of_ascii c <? 128)%N) (String.list_ascii_of_string s).

Lemma b64_char_ascii s : (Ascii.N_of_ascii (b64_char s) <? 128)%N = true.
Proof. by destruct s as [[[[[[] []] []] []] []] []]. Qed.

Lemma b64encode_ascii s : is_ascii (b64encode s) = true.
Proof.
  unfold is_ascii. induction s as [|x|x y|x y z s IH] using string_ind3; [done|..]; cbn [b64encode].
  - destruct (split3 x Ascii.zero Ascii.zero) as [[[a b] c] d].
    cbn [String.list_ascii_of_string forallb]. by rewrite !b64_char_ascii.
  - destruct (split3 x y Ascii.zero) as [[[a b] c] d].
    cbn [String.list_ascii_of_string forallb]. by rewrite !b64_char_ascii.
  - destruct (split3 x y z) as [[[a b] c] d].
    cbn [String.list_ascii_of_string forallb]. by rewrite !b64_char_ascii.
Qed.

Lemma b64_lenient_char a l p s :
  b64_lenient l p (String (b64_char a) s) =
    match l with
    | [x; y; z] =>
        match b64_lenient [] 0 s with
        | Some rest => let '(x, y, z) := join3 x y z a in
                       Some (String x (String y (String z rest)))
        | None => None
        end
    | _ => b64_lenient (l ++ [a]) 0 s
    end.
Proof.
  cbn [b64_lenient]. rewrite bool_decide_false by apply b64_char_not_pad. by rewrite b64_value_char.
Qed.

Lemma b64_lenient_roundtrip s : b64decode (b64encode s) = Some s.
Proof.
  unfold b64decode. induction s as [|x|x y|x y z s IH] using string_ind3.
  - done.
  - by destruct x as [[] [] [] [] [] [] [] []].
  - cbn [b64encode]. pose proof (join3_split3 x y Ascii.zero) as Hj.
    destruct (split3 x y Ascii.zero) as [[[a b] c] d] eqn:Hs.
    repeat (rewrite b64_lenient_char; cbn [app]).
    cbn [b64_lenient]. rewrite bool_decide_true by done.
    assert (d = zero_sextet) as -> by (destruct x, y; simpl in Hs; by simplify_eq).
    by rewrite Hj.
  - cbn [b64encode]. pose proof (join3_split3 x y z) as Hj.
    destruct (split3 x y z) as [[[a b] c] d].
    repeat (rewrite b64_lenient_char; cbn [app]). by rewrite IH, Hj.
Qed.
