(* ===== verification/Identity.v ===== *)
(** Agent identities and their keys ([cvztte/identity/registry.py], and the data of
    [provider.py]).  The signature provider is an interface: key generation
    consumes entropy, signing and verifying are functions of key and message. *)

From S2P Require Export Errors PyTime PyBase64 Canonical.
From S2P Require Import Sha256.

(** [provider.Algorithm] *)
Inductive Algorithm : Set := ML_DSA_44 | ML_DSA_65 | ML_DSA_87.
Definition Algorithm_value (a : Algorithm) : string :=
  match a with ML_DSA_44 => "ML-DSA-44" | ML_DSA_65 => "ML-DSA-65" | ML_DSA_87 => "ML-DSA-87" end.
Definition DEFAULT_ALGORITHM : Algorithm := ML_DSA_65.

(** [provider.PublicKey], [provider.PrivateKeyHandle] *)
Record PublicKey : Set := mkPublicKey { pk_algorithm : Algorithm; pem : string }.
Record PrivateKeyHandle : Set := mkHandle { ph_algorithm : Algorithm; ph_path : string }.

(** [provider.SignatureProvider] *)
Class SignatureProvider := {
  provider_generate_key : string → res (PrivateKeyHandle * PublicKey);
  provider_import_public_key : string → res PublicKey;
  provider_sign : PrivateKeyHandle → string → res string;
  provider_verify : PublicKey → string → string → res bool
}.

(** What a signature scheme promises: what a generated key signs, its public key
    verifies. *)
Definition provider_correct `{SignatureProvider} : Prop :=
  ∀ e h p m s, provider_generate_key e = Ok (h, p) → provider_sign h m = Ok s →
    provider_verify p m s = Ok true.

(** * Fingerprints *)

(** [str.splitlines] on ASCII text *)
Definition is_line_end (c : Ascii.ascii) : bool :=
  let n := Ascii.N_of_ascii c in
  ((10 <=? n) && (n <=? 13) || (28 <=? n) && (n <=? 30))%N.

Fixpoint splitlines_from (line : string) (s : string) : list string :=
  match s with
  | EmptyString => if decide (line = "") then [] else [str_rev line]
  | String c s' =>
      if is_line_end c then
        str_rev line ::
        match s' with
        | String d s'' =>
            if bool_decide (Ascii.N_of_ascii c = 13%N) && bool_decide (Ascii.N_of_ascii d = 10%N)
            then splitlines_from "" s'' else splitlines_from "" s'
        | EmptyString => splitlines_from "" s'
        end
      else splitlines_from (String c line) s'
  end.
Definition splitlines (s : string) : list string := splitlines_from "" s.

(** [str.strip()] *)
Definition is_space (c : Ascii.ascii) : bool :=
  let n := Ascii.N_of_ascii c in ((n =? 32) || (9 <=? n) && (n <=? 13) || (28 <=? n) && (n <=? 31))%N.
Fixpoint lstrip (s : string) : string :=
  match s with
  | String c s' => if is_space c then lstrip s' else s
  | EmptyString => EmptyString
  end.
Definition strip (s : string) : string := str_rev (lstrip (str_rev (lstrip s))).

(** The body lines between [-----BEGIN] and [-----END]. *)
Fixpoint pem_body (in_body : bool) (lines : list string) : list string :=
  match lines with
  | [] => []
  | l :: lines =>
      if str_startswith l "-----BEGIN" then pem_body true lines
      else if str_startswith l "-----END" then []
      else if in_body then strip l :: pem_body in_body lines
      else pem_body in_body lines
  end.

Section fingerprint.
Context `{Hashlib}.

(** [provider._spki_fingerprint] *)
Definition spki_fingerprint (public_pem : string) : res string :=
  if negb (forallb (λ c, (Ascii.N_of_ascii c <? 128)%N) (String.list_ascii_of_string public_pem))
  then Err (PyExc "UnicodeDecodeError" "ascii")
  else
    match pem_body false (splitlines public_pem) with
    | [] => err SCHEMA_INVALID "public key PEM has no SPKI body"
    | lines =>
        match b64decode (String.concat "" lines) with
        | Some der => Ok ("sha256:" +:+ hex (sha256 der))
        | None => Err (PyExc "ValueError" "Incorrect padding")
        end
    end.

(** [KeyRegistry._key_id]: the first 32 hexadecimal digits after the colon. *)
Definition key_id_of (p : PublicKey) : res string :=
  let? f := spki_fingerprint (pem p) in
  Ok ("key_" +:+ String.substring 0 32 (String.substring 7 (String.length f - 7) f)).
End fingerprint.

(** * The registry *)

(** [registry.KeyState] *)
Inductive KeyState : Set := PREPARED | ACTIVE | RETIRED | REVOKED.
Definition KeyState_value (s : KeyState) : string :=
  match s with
  | PREPARED => "prepared" | ACTIVE => "active" | RETIRED => "retired" | REVOKED => "revoked"
  end.

#[export] Instance KeyState_eq_dec : EqDecision KeyState.
Proof. solve_decision. Defined.

(** [registry.KeyRecord] *)
Record KeyRecord : Set := mkKey {
  key_id : string;
  k_agent_id : string;
  public_key : PublicKey;
  k_state : KeyState;
  k_not_before : Z;
  k_not_after : option Z;
  private_handle : option PrivateKeyHandle;
  k_created_at : Z;
  k_revoked_at : option Z;
  revocation_reason : option string
}.

(** [KeyRecord.within_window] *)
Definition within_window (k : KeyRecord) (now : Z) : bool :=
  if decide (now < k_not_before k)%Z then false
  else match k_not_after k with
       | Some e => negb (bool_decide (e ≤ now)%Z)
       | None => true
       end.

Definition set_state (s : KeyState) (k : KeyRecord) : KeyRecord :=
  mkKey (key_id k) (k_agent_id k) (public_key k) s (k_not_before k) (k_not_after k)
    (private_handle k) (k_created_at k) (k_revoked_at k) (revocation_reason k).

Definition revoke_key_record (now : Z) (reason : string) (k : KeyRecord) : KeyRecord :=
  mkKey (key_id k) (k_agent_id k) (public_key k) REVOKED (k_not_before k) (k_not_after k)
    (private_handle k) (k_created_at k) (Some now)
    (if decide (reason = "") then None else Some reason).

(** [KeyRegistry]: agents with their [enabled] flag, and keys by id in insertion
    order. *)
Record KeyRegistry : Type := mkKeyRegistry {
  agents : gmap string bool;
  keys : odict string KeyRecord
}.

Definition set_keys (r : KeyRegistry) (ks : odict string KeyRecord) : KeyRegistry :=
  mkKeyRegistry (agents r) ks.

Definition new_key_registry : KeyRegistry := mkKeyRegistry ∅ [].

(** [KeyRegistry.register_agent] *)
Definition register_agent (agent_id : string) : M KeyRegistry bool :=
  λ r, match agents r !! agent_id with
       | Some enabled => (Ok enabled, r)
       | None => (Ok true, mkKeyRegistry (<[agent_id := true]> (agents r)) (keys r))
       end.

(** [KeyRegistry._require_agent] *)
Definition require_agent (r : KeyRegistry) (agent_id : string) : res unit :=
  match agents r !! agent_id with
  | None => err AGENT_UNKNOWN "agent not registered"
  | Some false => err AGENT_DISABLED "agent disabled"
  | Some true => Ok tt
  end.

(** [KeyRegistry.disable_agent] *)
Definition disable_agent (agent_id : string) : M KeyRegistry unit :=
  λ r, match agents r !! agent_id with
       | None => (err AGENT_UNKNOWN "agent not registered", r)
       | Some _ => (Ok tt, mkKeyRegistry (<[agent_id := false]> (agents r)) (keys r))
       end.

(** [KeyRegistry._require_key], and [get_key], which is the same call *)
Definition require_key (r : KeyRegistry) (kid : string) : res KeyRecord :=
  match dget kid (keys r) with
  | None => err KEY_UNKNOWN "unknown key id"
  | Some k => Ok k
  end.

(** [KeyRegistry._retire_other_active] *)
Definition retire_other_active (agent_id keep : string) (ks : odict string KeyRecord)
    : odict string KeyRecord :=
  dmap (λ k, if decide (k_agent_id k = agent_id ∧ k_state k = ACTIVE ∧ key_id k ≠ keep)
             then set_state RETIRED k else k) ks.

Section registry.
Context `{Hashlib, SignatureProvider}.

(** [KeyRegistry.generate_key]; [clock] and [clock'] are the two readings of the
    clock, [entropy] what the provider draws. *)
Definition generate_key (agent_id : string) (state : KeyState) (not_before not_after : option Z)
    (clock : Z) (entropy : string) : M KeyRegistry KeyRecord :=
  λ r,
    match require_agent r agent_id with
    | Err x => (Err x, r)
    | Ok _ =>
        if decide (state = REVOKED) then (err SCHEMA_INVALID "cannot create a revoked key", r)
        else
          match provider_generate_key entropy with
          | Err x => (Err x, r)
          | Ok (handle, public) =>
              match key_id_of public with
              | Err x => (Err x, r)
              | Ok kid =>
                  match dget kid (keys r) with
                  | Some _ => (err SCHEMA_INVALID "duplicate key id", r)
                  | None =>
                      let k := mkKey kid agent_id public state (or_now not_before clock)
                                 not_after (Some handle) clock None None in
                      let ks := dset kid k (keys r) in
                      (Ok k, set_keys r (if decide (state = ACTIVE)
                                         then retire_other_active agent_id kid ks else ks))
                  end
              end
          end
    end.

(** [KeyRegistry.import_verification_key] *)
Definition import_verification_key (agent_id public_pem : string) (state : KeyState)
    (not_before not_after : option Z) (clock : Z) : M KeyRegistry KeyRecord :=
  λ r,
    match (let? _ := require_agent r agent_id in
           let? public := provider_import_public_key public_pem in
           let? kid := key_id_of public in
           Ok (mkKey kid agent_id public state (or_now not_before clock) not_after None
                 clock None None)) with
    | Err x => (Err x, r)
    | Ok k => (Ok k, set_keys r (dset (key_id k) k (keys r)))
    end.

(** [KeyRegistry.activate] *)
Definition activate (kid : string) : M KeyRegistry KeyRecord :=
  λ r,
    match require_key r kid with
    | Err x => (Err x, r)
    | Ok k =>
        if decide (k_state k = REVOKED) then (err KEY_REVOKED "cannot activate a revoked key", r)
        else if decide (private_handle k = None) then
          (err KEY_UNKNOWN "verify-only key cannot become a signing key", r)
        else
          let k' := set_state ACTIVE k in
          (Ok k', set_keys r (retire_other_active (k_agent_id k) kid (dset kid k' (keys r))))
    end.

(** [KeyRegistry.rotate] *)
Definition rotate (agent_id : string) (not_after : option Z) (clock : Z) (entropy : string)
    : M KeyRegistry KeyRecord :=
  generate_key agent_id ACTIVE None not_after clock entropy.

(** [KeyRegistry.revoke] *)
Definition revoke_key (kid reason : string) (clock : Z) : M KeyRegistry KeyRecord :=
  λ r,
    match require_key r kid with
    | Err x => (Err x, r)
    | Ok k =>
        let k' := revoke_key_record clock reason k in
        (Ok k', set_keys r (dset kid k' (keys r)))
    end.

Definition revoke_if_agent (agent_id reason : string) (clock : Z) (k : KeyRecord) : KeyRecord :=
  if decide (k_agent_id k = agent_id ∧ k_state k ≠ REVOKED)
  then revoke_key_record clock reason k else k.

(** [KeyRegistry.revoke_agent] *)
Definition revoke_agent (agent_id reason : string) (clock : Z) : M KeyRegistry (list KeyRecord) :=
  λ r,
    let revoked := filter (λ k, k_agent_id k = agent_id ∧ k_state k ≠ REVOKED) ((keys r).*2) in
    (Ok (revoke_key_record clock reason <$> revoked),
     mkKeyRegistry
       (if decide (is_Some (agents r !! agent_id)) then <[agent_id := false]> (agents r)
        else agents r)
       (dmap (revoke_if_agent agent_id reason clock) (keys r))).

(** [KeyRegistry.active_signing_key] *)
Definition active_signing_key (r : KeyRegistry) (agent_id : string) (now : option Z) (clock : Z)
    : res KeyRecord :=
  let? _ := require_agent r agent_id in
  let now := or_now now clock in
  match List.find (λ k, bool_decide (k_agent_id k = agent_id) && bool_decide (k_state k = ACTIVE)
                        && negb (bool_decide (private_handle k = None)) && within_window k now)
          ((keys r).*2) with
  | Some k => Ok k
  | None => err KEY_UNKNOWN "no active in-window signing key"
  end.

(** [KeyRegistry.sign_as_agent] *)
Definition sign_as_agent (r : KeyRegistry) (agent_id msg : string) (now : option Z) (clock : Z)
    : res (string * string) :=
  let? k := active_signing_key r agent_id now clock in
  match private_handle k with
  | None => Err (PyExc "AssertionError" "")
  | Some h => let? s := provider_sign h msg in Ok (key_id k, s)
  end.

(** [KeyRegistry.verify_with_key] *)
Definition verify_with_key (r : KeyRegistry) (kid msg signature : string) (now : option Z)
    (clock : Z) : res bool :=
  let now := or_now now clock in
  let? k := require_key r kid in
  if decide (k_state k = REVOKED) then err KEY_REVOKED "key is revoked"
  else if decide (k_state k = PREPARED) then err KEY_UNKNOWN "key not yet activated"
  else if negb (within_window k now) then err KEY_UNKNOWN "key outside validity window"
  else
    let? ok := provider_verify (public_key k) msg signature in
    if ok : bool then Ok true else err MLDSA_INVALID "signature verification failed".

(** [KeyRecord.public_view] *)
Definition public_view (k : KeyRecord) : res json :=
  let? f := spki_fingerprint (pem (public_key k)) in
  Ok (JObj [ ("key_id", JStr (key_id k)); ("agent_id", JStr (k_agent_id k));
    ("algorithm", JStr (Algorithm_value (pk_algorithm (public_key k))));
    ("fingerprint", JStr f); ("state", JStr (KeyState_value (k_state k)));
    ("not_before", JStr (isoformat (k_not_before k)));
    ("not_after", jopt (isoformat <$> k_not_after k));
    ("revoked_at", jopt (isoformat <$> k_revoked_at k));
    ("revocation_reason", jopt (revocation_reason k)) ]).

Fixpoint views (ks : list KeyRecord) : res (list json) :=
  match ks with
  | [] => Ok []
  | k :: ks => let? v := public_view k in let? vs := views ks in Ok (v :: vs)
  end.

(** [KeyRegistry.export_public_registry] *)
Definition export_public_registry (r : KeyRegistry) : res (list json) := views ((keys r).*2).
End registry.

(** * Histories *)

Inductive key_op : Type :=
| KRegister (agent_id : string)
| KDisable (agent_id : string)
| KGenerate (agent_id : string) (state : KeyState) (nbf naf : option Z) (clock : Z) (entropy : string)
| KImport (agent_id pem : string) (state : KeyState) (nbf naf : option Z) (clock : Z)
| KActivate (kid : string)
| KRevoke (kid reason : string) (clock : Z)
| KRevokeAgent (agent_id reason : string) (clock : Z).

Section histories.
Context `{Hashlib, SignatureProvider}.

Definition key_step (r : KeyRegistry) (o : key_op) : KeyRegistry :=
  match o with
  | KRegister a => (register_agent a r).2
  | KDisable a => (disable_agent a r).2
  | KGenerate a s n1 n2 c e => (generate_key a s n1 n2 c e r).2
  | KImport a p s n1 n2 c => (import_verification_key a p s n1 n2 c r).2
  | KActivate k => (activate k r).2
  | KRevoke k why c => (revoke_key k why c r).2
  | KRevokeAgent a why c => (revoke_agent a why c r).2
  end.

(** What a step may do to a key record that exists. *)
Definition lookup_key (r : KeyRegistry) (kid : string) : option KeyRecord := dget kid (keys r).

Definition signing (k : KeyRecord) : Prop := k_state k = ACTIVE ∧ is_Some (private_handle k).

Record key_inv (r : KeyRegistry) : Prop := {
  ki_nodup : NoDup (keys r).*1;
  ki_id : ∀ kid k, lookup_key r kid = Some k → key_id k = kid;
  ki_single : ∀ k1 k2 a b, lookup_key r k1 = Some a → lookup_key r k2 = Some b →
    signing a → signing b → k_agent_id a = k_agent_id b → k1 = k2;
  ki_pair : ∀ kid k h, lookup_key r kid = Some k → private_handle k = Some h →
    ∃ e, provider_generate_key e = Ok (h, public_key k)
}.

Lemma lookup_set r ks kid : lookup_key (set_keys r ks) kid = dget kid ks.
Proof. done. Qed.

(** Records may only be weakened: same identity, agent, key and handle, and
    signing afterwards only if signing before. *)
Definition weakens (k k' : KeyRecord) : Prop :=
  key_id k' = key_id k ∧ k_agent_id k' = k_agent_id k ∧ public_key k' = public_key k ∧
  private_handle k' = private_handle k ∧ (k_state k' = ACTIVE → k_state k = ACTIVE).

Lemma key_inv_map f r ag :
  (∀ k, weakens k (f k)) → key_inv r → key_inv (mkKeyRegistry ag (dmap f (keys r))).
Proof.
  intros Hf [Hnd Hid Hsi Hpa]. unfold lookup_key in *. split; unfold lookup_key; simpl.
  - by rewrite dmap_keys.
  - intros kid k. rewrite dget_dmap. intros (k0 & Hk0 & ->)%fmap_Some.
    destruct (Hf k0) as (-> & _). eauto.
  - intros k1 k2 a b. rewrite !dget_dmap.
    intros (a0 & Ha & ->)%fmap_Some (b0 & Hb & ->)%fmap_Some [Sa Pa] [Sb Pb] Hag.
    destruct (Hf a0) as (_ & Ea & _ & Fa & Ga), (Hf b0) as (_ & Eb & _ & Fb & Gb).
    apply (Hsi k1 k2 a0 b0); try done; [split|split|]; try congruence; eauto.
  - intros kid k h. rewrite dget_dmap. intros (k0 & Hk0 & ->)%fmap_Some.
    destruct (Hf k0) as (_ & _ & -> & -> & _). eauto.
Qed.

(** Writing one record under its own id. *)
Lemma key_inv_set r k :
  key_inv r →
  (∀ kid b, lookup_key r kid = Some b → kid ≠ key_id k → signing k → signing b →
     k_agent_id b ≠ k_agent_id k) →
  (∀ h, private_handle k = Some h → ∃ e, provider_generate_key e = Ok (h, public_key k)) →
  key_inv (set_keys r (dset (key_id k) k (keys r))).
Proof.
  intros [Hnd Hid Hsi Hpa] Hnew Hp. split; unfold lookup_key in *; simpl.
  - by apply dset_NoDup.
  - intros kid x. rewrite dget_dset. case_decide; [naive_solver|eauto].
  - intros k1 k2 a b. rewrite !dget_dset. repeat case_decide; intros; simplify_eq; try done.
    + exfalso. by eapply (Hnew k2 b).
    + exfalso. by eapply (Hnew k1 a).
    + eauto.
  - intros kid x h. rewrite dget_dset. case_decide; [naive_solver|eauto].
Qed.

Definition retire_if (agent_id keep : string) (k : KeyRecord) : KeyRecord :=
  if decide (k_agent_id k = agent_id ∧ k_state k = ACTIVE ∧ key_id k ≠ keep)
  then set_state RETIRED k else k.

Lemma retire_if_weakens a keep k : weakens k (retire_if a keep k).
Proof. unfold retire_if, weakens. case_decide; by split_and!. Qed.

(** Retiring the others first or last is the same, and makes room for a new
    signing key. *)
Lemma key_inv_activate r k :
  key_inv r →
  (∀ h, private_handle k = Some h → ∃ e, provider_generate_key e = Ok (h, public_key k)) →
  key_inv (set_keys r (retire_other_active (k_agent_id k) (key_id k) (dset (key_id k) k (keys r)))).
Proof.
  intros Hinv Hp. unfold retire_other_active. fold (retire_if (k_agent_id k) (key_id k)).
  assert (Hdm : ∀ ks, dmap (retire_if (k_agent_id k) (key_id k)) (dset (key_id k) k ks)
      = dset (key_id k) k (dmap (retire_if (k_agent_id k) (key_id k)) ks)).
  { assert (Hk : retire_if (k_agent_id k) (key_id k) k = k).
    { unfold retire_if. rewrite decide_False; [done|naive_solver]. }
    induction ks as [|[k0 x] ks IH]; unfold dmap in *; csimpl.
    - by rewrite Hk.
    - case_decide; csimpl; [by rewrite Hk|]. by rewrite IH. }
  rewrite Hdm.
  pose proof (key_inv_map (retire_if (k_agent_id k) (key_id k)) r (agents r)
    (retire_if_weakens _ _) Hinv) as Hinv'.
  apply (key_inv_set (mkKeyRegistry (agents r) (dmap (retire_if (k_agent_id k) (key_id k)) (keys r))));
    [done| |done].
  intros kid b Hb Hne _ [Sb _] Hag. unfold lookup_key in Hb. simpl in Hb.
  rewrite dget_dmap in Hb. apply fmap_Some in Hb as (b0 & Hb0 & ->).
  pose proof (ki_id _ Hinv _ _ Hb0) as Hid.
  unfold retire_if in Sb, Hag. case_decide as Hd; [done|]. apply Hd. by rewrite Hid.
Qed.

Lemma revoke_if_weakens a why c k : weakens k (revoke_if_agent a why c k).
Proof. unfold revoke_if_agent, weakens. case_decide; by split_and!. Qed.

Lemma key_inv_agents r ag : key_inv r → key_inv (mkKeyRegistry ag (keys r)).
Proof. by intros []. Qed.

Lemma key_step_inv r o : key_inv r → key_inv (key_step r o).
Proof.
  intros Hinv. destruct o; simpl.
  - unfold register_agent. destruct (agents r !! agent_id); [done|by apply key_inv_agents].
  - unfold disable_agent. destruct (agents r !! agent_id); [by apply key_inv_agents|done].
  - unfold generate_key. destruct (require_agent r agent_id); [|done]. case_decide; [done|].
    destruct (provider_generate_key entropy) as [[h p]|] eqn:Hg; [|done].
    destruct (key_id_of p) as [kid|]; [|done].
    destruct (dget kid (keys r)) as [|] eqn:Hk; [done|]. simpl. case_decide.
    + apply (key_inv_activate r (mkKey kid agent_id p state _ naf (Some h) clock None None));
        [done|]. intros h' [= <-]. by exists entropy.
    + apply (key_inv_set r (mkKey kid agent_id p state _ naf (Some h) clock None None)); [done| |].
      * by intros ???? [? _].
      * intros h' [= <-]. by exists entropy.
  - unfold import_verification_key.
    destruct (rbind _ _) as [k|] eqn:Hr; [|done].
    apply rbind_ok in Hr as (_ & _ & Hr). apply rbind_ok in Hr as (p & _ & Hr).
    apply rbind_ok in Hr as (kid & _ & [= <-]). apply key_inv_set; [done| |done].
    by intros ???? [_ [? ?]].
  - unfold activate, require_key. destruct (dget kid (keys r)) as [k|] eqn:Hk; [|done].
    case_decide; [done|]. case_decide; [done|]. simpl.
    pose proof (ki_id _ Hinv _ _ Hk) as <-.
    apply (key_inv_activate r (set_state ACTIVE k)); [done|].
    intros h Hh. exact (ki_pair _ Hinv _ _ _ Hk Hh).
  - unfold revoke_key, require_key. destruct (dget kid (keys r)) as [k|] eqn:Hk; [|done].
    simpl. pose proof (ki_id _ Hinv _ _ Hk) as <-.
    apply (key_inv_set r (revoke_key_record clock reason k)); [done| |].
    + by intros ???? [? _].
    + intros h Hh. exact (ki_pair _ Hinv _ _ _ Hk Hh).
  - apply (key_inv_map (revoke_if_agent agent_id reason clock)); [|done].
    intros. apply revoke_if_weakens.
Qed.

Lemma key_inv_new : key_inv new_key_registry.
Proof. split; unfold lookup_key; try done. constructor. Qed.

Lemma key_run_inv ops : key_inv (run key_step new_key_registry ops).
Proof. apply run_invariant; [apply key_step_inv|apply key_inv_new]. Qed.

(** The dead state of an agent: disabled, with every key revoked. *)
Definition killed (a : string) (r : KeyRegistry) : Prop :=
  agents r !! a = Some false ∧
  ∀ kid k, lookup_key r kid = Some k → k_agent_id k = a → k_state k = REVOKED.

Lemma killed_set_keys a r k :
  killed a r → (k_agent_id k = a → k_state k = REVOKED) →
  killed a (set_keys r (dset (key_id k) k (keys r))).
Proof.
  intros [Ha Hk] Hn. split; [done|]. intros kid x. rewrite lookup_set, dget_dset.
  case_decide; [naive_solver|]. apply Hk.
Qed.

Lemma killed_retire a r b keep ks :
  killed a (set_keys r ks) → killed a (set_keys r (retire_other_active b keep ks)).
Proof.
  intros [Ha Hk]. split; [done|]. intros kid x.
  rewrite lookup_set. unfold retire_other_active. rewrite dget_dmap.
  intros (x0 & Hx0 & ->)%fmap_Some. specialize (Hk kid x0 Hx0).
  case_decide as Hd; [|done]. simpl. intros He. destruct Hd as (_ & Hact & _).
  specialize (Hk He). congruence.
Qed.

Lemma require_killed a r : agents r !! a = Some false → is_ok (require_agent r a) = false.
Proof. intros Ha. unfold require_agent. by rewrite Ha. Qed.

Lemma killed_step a r o : key_inv r → killed a r → killed a (key_step r o).
Proof.
  intros Hinv Hkill. pose proof Hkill as [Ha Hk]. destruct o; simpl.
  - unfold register_agent. destruct (agents r !! agent_id) eqn:He; [done|].
    split; [|done]. simpl. rewrite lookup_insert_ne; [done|congruence].
  - unfold disable_agent. destruct (agents r !! agent_id) eqn:He; [|done].
    split; [|done]. simpl. destruct (decide (agent_id = a)) as [->|].
    + by rewrite lookup_insert_eq.
    + by rewrite lookup_insert_ne.
  - unfold generate_key. destruct (require_agent r agent_id) as [[]|] eqn:Hr; [|done].
    assert (agent_id ≠ a).
    { intros ->. apply require_killed in Ha. by rewrite Hr in Ha. }
    case_decide; [done|]. destruct (provider_generate_key entropy) as [[h p]|]; [|done].
    destruct (key_id_of p) as [kid|]; [|done]. destruct (dget kid (keys r)); [done|]. simpl.
    assert (killed a (set_keys r (dset kid (mkKey kid agent_id p state (or_now nbf clock) naf
      (Some h) clock None None) (keys r)))).
    { by apply (killed_set_keys a r (mkKey kid agent_id p state _ naf (Some h) clock None None)). }
    case_decide; [by apply killed_retire|done].
  - unfold import_verification_key. destruct (rbind _ _) as [k|] eqn:Hr; [|done].
    apply rbind_ok in Hr as (u & Hreq & Hr). apply rbind_ok in Hr as (p & _ & Hr).
    apply rbind_ok in Hr as (kid & _ & [= <-]). apply killed_set_keys; [done|].
    simpl. intros ->. apply require_killed in Ha. by rewrite Hreq in Ha.
  - unfold activate, require_key. destruct (dget kid (keys r)) as [k|] eqn:He; [|done].
    case_decide as Hrev; [done|]. case_decide; [done|]. simpl.
    pose proof (ki_id _ Hinv _ _ He) as Hid.
    apply killed_retire. rewrite <-Hid. apply (killed_set_keys a r (set_state ACTIVE k)); [done|].
    simpl. intros Hag. destruct Hrev. by apply (Hk kid).
  - unfold revoke_key, require_key. destruct (dget kid (keys r)) as [k|] eqn:He; [|done].
    simpl. pose proof (ki_id _ Hinv _ _ He) as <-.
    by apply (killed_set_keys a r (revoke_key_record clock reason k)).
  - unfold revoke_agent. split; simpl.
    + case_decide; [|done]. destruct (decide (agent_id = a)) as [->|].
      * by rewrite lookup_insert_eq.
      * by rewrite lookup_insert_ne.
    + intros kid x. unfold lookup_key. simpl. rewrite dget_dmap.
      intros (x0 & Hx0 & ->)%fmap_Some. unfold revoke_if_agent. case_decide; [done|].
      intros. by apply (Hk kid).
Qed.

Lemma killed_run a r ops : key_inv r → killed a r → killed a (run key_step r ops).
Proof.
  revert r. induction ops as [|o ops IH]; intros r Hi Hk; [done|].
  apply IH; [by apply key_step_inv|by apply killed_step].
Qed.

Lemma revoke_agent_kills a why c r :
  is_Some (agents r !! a) → killed a (revoke_agent a why c r).2.
Proof.
  intros Ha. split; simpl.
  - rewrite decide_True by done. by rewrite lookup_insert_eq.
  - intros kid k. unfold lookup_key. simpl. rewrite dget_dmap.
    intros (k0 & Hk0 & ->)%fmap_Some. unfold revoke_if_agent.
    case_decide as Hd; [done|]. intros He. destruct (decide (k_state k0 = REVOKED)); [done|].
    exfalso. by apply Hd.
Qed.
End histories.

(** * Properties *)

Section properties.
Context `{Hashlib, SignatureProvider}.

Lemma elem_snd_lookup r k :
  k ∈ (keys r).*2 → ∃ kid, (kid, k) ∈ keys r.
Proof. rewrite list_elem_of_fmap. intros ([kid k'] & -> & ?). by exists kid. Qed.

Lemma active_signing_key_ok r a now clock k :
  active_signing_key r a now clock = Ok k →
  agents r !! a = Some true ∧ k ∈ (keys r).*2 ∧ k_agent_id k = a ∧ signing k ∧
  within_window k (or_now now clock) = true.
Proof.
  unfold active_signing_key, require_agent.
  destruct (agents r !! a) as [[]|]; simpl; try done.
  destruct (List.find _ _) as [k'|] eqn:Hf; [|done]. intros [= ->].
  apply List.find_some in Hf as [Hin Hc].
  rewrite !andb_true_iff, !bool_decide_eq_true, negb_true_iff, bool_decide_eq_false in Hc.
  destruct Hc as [[[? ?] ?] ?]. apply list_elem_of_In in Hin.
  split_and!; try done. split; [done|]. by apply not_eq_None_Some.
Qed.

(** An emergency kill is final: once [revoke_agent] has run on a registered
    agent, no later history of the registry (key generation, import, activation,
    rotation, registration included) lets the agent sign, lets a signature by any
    of its keys verify, or lets it obtain a key. *)
Theorem agent_kill_is_final ops ops' a why c kid k msg sig now clock :
  let r0 := run key_step new_key_registry ops in
  is_Some (agents r0 !! a) →
  let r := run key_step (revoke_agent a why c r0).2 ops' in
  is_ok (sign_as_agent r a msg now clock) = false ∧
  (dget kid (keys r) = Some k → k_agent_id k = a →
     is_ok (verify_with_key r kid msg sig now clock) = false) ∧
  ∀ s n1 n2 cl e, is_ok (generate_key a s n1 n2 cl e r).1 = false.
Proof.
  intros r0 Ha r.
  assert (Hk : killed a r).
  { apply killed_run; [|by apply revoke_agent_kills].
    apply (key_step_inv r0 (KRevokeAgent a why c)), key_run_inv. }
  destruct Hk as [Hag Hk]. split_and!.
  - unfold sign_as_agent, active_signing_key, require_agent. by rewrite Hag.
  - intros Hkid Hka. unfold verify_with_key, require_key. rewrite Hkid. simpl.
    rewrite decide_True; [done|]. by apply (Hk kid).
  - intros. unfold generate_key, require_agent. by rewrite Hag.
Qed.

(** What [sign_as_agent] returns verifies under the record of its key id. *)
Lemma signed_verifies r a msg now clock kid sig :
  provider_correct → key_inv r →
  sign_as_agent r a msg now clock = Ok (kid, sig) →
  agents r !! a = Some true ∧
  ∃ k, active_signing_key r a now clock = Ok k ∧ lookup_key r kid = Some k ∧ key_id k = kid ∧
    k_agent_id k = a ∧ signing k ∧ within_window k (or_now now clock) = true ∧
    provider_verify (public_key k) msg sig = Ok true.
Proof.
  intros Hcorrect Hinv Hs.
  unfold sign_as_agent in Hs. apply rbind_ok in Hs as (k & Hact & Hs).
  pose proof Hact as Hok. apply active_signing_key_ok in Hok as (Hag & Hin & Hka & Hsg & Hw).
  destruct (private_handle k) as [h|] eqn:Hh; [|done].
  apply rbind_ok in Hs as (sg & Hsign & [= <- <-]).
  destruct (elem_snd_lookup r k Hin) as [kid Hkid].
  assert (Hget : lookup_key r (key_id k) = Some k).
  { apply (elem_dget kid k) in Hkid; [|apply Hinv].
    by rewrite (ki_id _ Hinv _ _ Hkid). }
  split; [done|]. exists k. split_and!; try done.
  destruct (ki_pair _ Hinv _ _ _ Hget Hh) as [e He]. eauto.
Qed.

(** There is one signing key per agent: after any history, the key
    [active_signing_key] returns is the only one of the agent that is ACTIVE with a
    private handle, it is inside its window and belongs to an enabled agent; and
    what the agent signs with it verifies under the key id it returns. *)
Theorem signing_key_unique_and_verifies ops a msg now clock kid sig :
  provider_correct →
  let r := run key_step new_key_registry ops in
  sign_as_agent r a msg now clock = Ok (kid, sig) →
  agents r !! a = Some true ∧
  verify_with_key r kid msg sig now clock = Ok true ∧
  ∃ k, lookup_key r kid = Some k ∧ k_agent_id k = a ∧ signing k ∧
    ∀ kid' k', lookup_key r kid' = Some k' → k_agent_id k' = a → signing k' → kid' = kid.
Proof.
  intros Hcorrect r Hs. pose proof (key_run_inv ops) as Hinv. fold r in Hinv.
  destruct (signed_verifies _ _ _ _ _ _ _ Hcorrect Hinv Hs)
    as (Hag & k & _ & Hget & <- & Hka & Hsg & Hw & Hv).
  split_and!; [done| |].
  - unfold verify_with_key, require_key. unfold lookup_key in Hget. rewrite Hget. simpl.
    destruct Hsg as [Hst _]. by rewrite Hst, Hw, Hv.
  - exists k. split_and!; [done..|]. intros kid' k' Hk' Hka' Hsg'.
    eapply (ki_single _ Hinv); eauto. congruence.
Qed.

(** A step that writes a fresh record over key id [kid]. *)
Definition reimports (kid : string) (o : key_op) : Prop :=
  match o with
  | KImport _ p _ _ _ _ =>
      ∃ pub, provider_import_public_key p = Ok pub ∧ key_id_of pub = Ok kid
  | _ => False
  end.

Definition dead_key (kid : string) (r : KeyRegistry) : Prop :=
  ∃ k, lookup_key r kid = Some k ∧ k_state k = REVOKED.

Lemma dead_key_step kid r o :
  ¬ reimports kid o → key_inv r → dead_key kid r → dead_key kid (key_step r o).
Proof.
  intros Hno Hinv (k & Hk & Hrev). unfold dead_key, lookup_key in *. destruct o; simpl.
  - unfold register_agent. destruct (agents r !! agent_id); eauto.
  - unfold disable_agent. destruct (agents r !! agent_id); eauto.
  - unfold generate_key. destruct (require_agent r agent_id); [|eauto].
    case_decide; [eauto|]. destruct (provider_generate_key entropy) as [[h p]|]; [|eauto].
    destruct (key_id_of p) as [kid'|]; [|eauto].
    destruct (dget kid' (keys r)) eqn:He; [eauto|]. simpl.
    assert (kid' ≠ kid) by congruence.
    case_decide; unfold retire_other_active; rewrite ?dget_dmap, dget_dset_ne by done;
      rewrite Hk; simpl; [|by eauto].
    eexists. split; [done|]. case_decide as Hd; [|done]. destruct Hd as (_ & ? & _). congruence.
  - unfold import_verification_key. destruct (rbind _ _) as [x|] eqn:Hr; [|eauto].
    apply rbind_ok in Hr as (u & _ & Hr). apply rbind_ok in Hr as (p & Hp & Hr).
    apply rbind_ok in Hr as (kid' & Hid & [= <-]). simpl.
    rewrite dget_dset_ne; [eauto|]. intros ->. apply Hno. simpl. eauto.
  - unfold activate, require_key. destruct (dget kid0 (keys r)) as [x|] eqn:He; [|eauto].
    case_decide as Hx; [eauto|]. case_decide; [eauto|]. simpl.
    assert (kid0 ≠ kid) by (intros ->; congruence).
    unfold retire_other_active. rewrite dget_dmap, dget_dset_ne by done. rewrite Hk. simpl.
    eexists. split; [done|]. case_decide as Hd; [|done]. destruct Hd as (_ & ? & _). congruence.
  - unfold revoke_key, require_key. destruct (dget kid0 (keys r)) as [x|] eqn:He; [|eauto].
    simpl. rewrite dget_dset. case_decide; eauto.
  - rewrite dget_dmap, Hk. simpl. eexists. split; [done|].
    unfold revoke_if_agent. by case_decide.
Qed.

(** Revoking a key is final as long as its public key is not imported again:
    whatever else happens to the registry, no signature under the key id verifies
    any more and the key cannot be activated. *)
Theorem key_revocation_is_final ops ops' kid why c msg sig now clock :
  let r0 := run key_step new_key_registry ops in
  is_Some (lookup_key r0 kid) →
  Forall (λ o, ¬ reimports kid o) ops' →
  let r := run key_step (revoke_key kid why c r0).2 ops' in
  is_ok (verify_with_key r kid msg sig now clock) = false ∧ is_ok (activate kid r).1 = false.
Proof.
  intros r0 [k Hk] Hops r.
  assert (Hd : dead_key kid r).
  { unfold r. clear r.
    assert (key_inv (revoke_key kid why c r0).2 ∧ dead_key kid (revoke_key kid why c r0).2)
      as [Hi Hd].
    { split; [apply (key_step_inv r0 (KRevoke kid why c)), key_run_inv|].
      unfold revoke_key, require_key, dead_key, lookup_key in *. rewrite Hk. simpl.
      rewrite dget_dset_eq. eauto. }
    revert Hi Hd. generalize (revoke_key kid why c r0).2 as r.
    induction Hops as [|o ops' Ho _ IH]; intros r Hi Hd; [done|].
    apply IH; [by apply key_step_inv|by apply dead_key_step]. }
  destruct Hd as (k' & Hk' & Hrev). unfold lookup_key in Hk'.
  unfold verify_with_key, activate, require_key. rewrite Hk'. simpl. by rewrite Hrev.
Qed.
End properties.

(** * Witnesses: a transparent signature scheme *)

#[local] Existing Instance hashlib_sha256.

Definition newline : string := String (Ascii.ascii_of_nat 10) "".
Definition pem_of (e : string) : string :=
  "-----BEGIN PUBLIC KEY-----" +:+ newline +:+ b64encode e +:+ newline +:+
  "-----END PUBLIC KEY-----" +:+ newline.

(** The signature of a message is the public key followed by the message. *)
Definition toy_provider : SignatureProvider :=
  {| provider_generate_key := λ e, Ok (mkHandle ML_DSA_65 e, mkPublicKey ML_DSA_65 (pem_of e));
     provider_import_public_key := λ p, Ok (mkPublicKey ML_DSA_65 p);
     provider_sign := λ h m, Ok (pem_of (ph_path h) +:+ m);
     provider_verify := λ p m s, Ok (bool_decide (s = pem p +:+ m)) |}.
#[local] Existing Instance toy_provider.

Lemma toy_provider_correct : provider_correct.
Proof.
  intros e h p m s Hg Hs.
  change (Ok (E := exn) (mkHandle ML_DSA_65 e, mkPublicKey ML_DSA_65 (pem_of e)) = Ok (h, p)) in Hg.
  change (Ok (E := exn) (pem_of (ph_path h) +:+ m) = Ok s) in Hs.
  assert (h = mkHandle ML_DSA_65 e ∧ p = mkPublicKey ML_DSA_65 (pem_of e)) as [-> ->]
    by (split; congruence).
  assert (s = pem_of e +:+ m) as -> by (cbn [ph_path] in Hs; congruence).
  change (Ok (E := exn) (bool_decide (pem_of e +:+ m = pem_of e +:+ m)) = Ok true).
  by rewrite bool_decide_true.
Qed.

Definition ex_key_ops : list key_op :=
  [KRegister "agt_1"; KGenerate "agt_1" ACTIVE (Some 0%Z) None 0 "seed-one";
   KGenerate "agt_1" ACTIVE (Some 0%Z) None 10 "seed-two"].
Definition ex_keys : KeyRegistry := Eval vm_compute in run key_step new_key_registry ex_key_ops.
Lemma ex_keys_run : run key_step new_key_registry ex_key_ops = ex_keys.
Proof. vm_compute. reflexivity. Qed.
Definition ex_kid : string := Eval vm_compute in
  match key_id_of (mkPublicKey ML_DSA_65 (pem_of "seed-two")) with Ok k => k | Err _ => "" end.

(** Rotation leaves one active key. *)
Example ex_rotated : k_state <$> ((keys ex_keys).*2) = [RETIRED; ACTIVE].
Proof. reflexivity. Qed.

(** At an agent whose key has been rotated. *)
Lemma signing_key_unique_and_verifies_witness :
  verify_with_key ex_keys ex_kid "msg" (pem_of "seed-two" +:+ "msg") (Some 20%Z) 0 = Ok true.
Proof.
  assert (Hs : sign_as_agent (run key_step new_key_registry ex_key_ops) "agt_1" "msg" (Some 20%Z) 0
               = Ok (ex_kid, pem_of "seed-two" +:+ "msg")) by (vm_compute; reflexivity).
  destruct (signing_key_unique_and_verifies ex_key_ops "agt_1" "msg" (Some 20%Z) 0 ex_kid
    (pem_of "seed-two" +:+ "msg") toy_provider_correct Hs) as (_ & H & _).
  rewrite ex_keys_run in H. exact H.
Defined.

(** At the same agent, killed and then registered again. *)
Lemma agent_kill_is_final_witness :
  is_ok (sign_as_agent
    (run key_step (revoke_agent "agt_1" "compromised" 30 (run key_step new_key_registry ex_key_ops)).2
       [KRegister "agt_1"; KActivate ex_kid])
    "agt_1" "msg" (Some 40%Z) 0) = false.
Proof.
  assert (Ha : is_Some (agents (run key_step new_key_registry ex_key_ops) !! "agt_1"))
    by (rewrite ex_keys_run; vm_compute; eauto).
  destruct (agent_kill_is_final ex_key_ops [KRegister "agt_1"; KActivate ex_kid] "agt_1"
    "compromised" 30 ex_kid (mkKey "" "" (mkPublicKey ML_DSA_65 "") REVOKED 0 None None 0 None None)
    "msg" "" (Some 40%Z) 0 Ha) as (H & _).
  exact H.
Defined.

(** At a revoked key of an agent that rotates afterwards. *)
Lemma key_revocation_is_final_witness :
  is_ok (verify_with_key
    (run key_step (revoke_key ex_kid "lost" 30 (run key_step new_key_registry ex_key_ops)).2
       [KGenerate "agt_1" ACTIVE None None 31 "seed-three"])
    ex_kid "msg" (pem_of "seed-two" +:+ "msg") (Some 40%Z) 0) = false.
Proof.
  assert (Ha : is_Some (lookup_key (run key_step new_key_registry ex_key_ops) ex_kid))
    by (rewrite ex_keys_run; vm_compute; eauto).
  assert (Ho : Forall (λ o, ¬ reimports ex_kid o)
    [KGenerate "agt_1" ACTIVE None None 31 "seed-three"]) by (constructor; [intros Hr; exact Hr|constructor]).
  destruct (key_revocation_is_final ex_key_ops _ ex_kid "lost" 30 "msg"
    (pem_of "seed-two" +:+ "msg") (Some 40%Z) 0 Ha Ho) as [H _].
  exact H.
Defined.

(** Importing the public key of a revoked key again makes its id verify once more,
    and for another agent at that. *)
Lemma reimported_key_verifies :
  let r := run key_step new_key_registry
    (ex_key_ops ++ [KRevoke ex_kid "lost" 30; KRegister "agt_2";
                    KImport "agt_2" (pem_of "seed-two") ACTIVE (Some 0%Z) None 31]) in
  verify_with_key r ex_kid "msg" (pem_of "seed-two" +:+ "msg") (Some 40%Z) 0 = Ok true ∧
  k_agent_id <$> lookup_key r ex_kid = Some "agt_2".
Proof. split; vm_compute; reflexivity. Qed.
