(* ===== verification/PyIso.v ===== *)
(** A reader of what [datetime.isoformat] writes: the inverse every Python version
    documents for [datetime.fromisoformat].  It instantiates the [IsoParser]
    interface; that it inverts [isoformat] on every supported instant rests on the
    Gregorian calendar being checked day by day over one 400-year era. *)

From S2P Require Export PyTime.

(** * The calendar *)

Definition days_of_civil (y m d : Z) : Z :=
  (let y := if (m <=? 2)%Z then y - 1 else y in
  let era := y / 400 in
  let yoe := y mod 400 in
  let doy := (153 * (if (m <=? 2)%Z then m + 9 else m - 3) + 2) / 5 + d - 1 in
  let doe := yoe * 365 + yoe / 4 - yoe / 100 + doy in
  era * 146097 + doe - 719468)%Z.

(** The year of the era a day falls in, and the first day of a year (both from
    0000-03-01; leap days end a year). *)
Definition year_num (doe : Z) : Z := (doe - doe / 1460 + doe / 36524 - doe / 146096)%Z.
Definition year_of (doe : Z) : Z := (year_num doe / 365)%Z.
Definition year_start (yoe : Z) : Z := (365 * yoe + yoe / 4 - yoe / 100)%Z.

Fixpoint all_from (n : nat) (z : Z) (f : Z → bool) : bool :=
  match n with
  | 0 => true
  | S n => if f z then all_from n (z + 1) f else false
  end.

Lemma all_from_spec n z f x :
  all_from n z f = true → (z ≤ x < z + Z.of_nat n)%Z → f x = true.
Proof.
  revert z. induction n as [|n IH]; intros z; simpl; [lia|].
  destruct (f z) eqn:Hz; [|done]. intros Hall Hx.
  destruct (decide (x = z)) as [->|]; [done|]. apply (IH (z + 1)%Z Hall). lia.
Qed.

(** On the first and last day of each year the formula gives that year. *)
Definition year_ends (y : Z) : bool :=
  ((year_of (year_start y) =? y)
   && (year_of (if y =? 399 then 146096 else year_start (y + 1) - 1) =? y))%Z.

Lemma years_ok : all_from 400 0 year_ends = true.
Proof. vm_compute. reflexivity. Qed.

Lemma year_num_step a : (0 ≤ a < 146096)%Z → (year_num a ≤ year_num (a + 1))%Z.
Proof. unfold year_num. intros Ha. Z.div_mod_to_equations. lia. Qed.

Lemma year_of_mono a b : (0 ≤ a ≤ b)%Z → (b ≤ 146096)%Z → (year_of a ≤ year_of b)%Z.
Proof.
  intros Hab Hb. apply Z.div_le_mono; [lia|].
  assert (Hn : ∀ n, (a + Z.of_nat n ≤ 146096)%Z → (year_num a ≤ year_num (a + Z.of_nat n))%Z).
  { induction n as [|n IH]; intros Hn; [by rewrite Z.add_0_r|].
    etrans; [apply IH; lia|].
    replace (a + Z.of_nat (S n))%Z with (a + Z.of_nat n + 1)%Z by lia.
    apply year_num_step. lia. }
  specialize (Hn (Z.to_nat (b - a))). rewrite Z2Nat.id in Hn by lia.
  replace (a + (b - a))%Z with b in Hn by lia. apply Hn. lia.
Qed.

Lemma year_bounds doe :
  (0 ≤ doe ≤ 146096)%Z →
  let y := year_of doe in
  (0 ≤ y ≤ 399)%Z ∧ (year_start y ≤ doe)%Z ∧ (doe - year_start y ≤ 365)%Z.
Proof.
  intros Hd y.
  assert (Hy : (0 ≤ y ≤ 399)%Z).
  { split; [change 0%Z with (year_of 0)|change 399%Z with (year_of 146096)];
      apply year_of_mono; lia. }
  assert (Hs : ∀ z, (0 ≤ z ≤ 399)%Z → (0 ≤ year_start z ≤ 146096)%Z).
  { intros z Hz. unfold year_start. Z.div_mod_to_equations. lia. }
  assert (He : ∀ z, (0 ≤ z ≤ 399)%Z → year_of (year_start z) = z ∧
             year_of (if z =? 399 then 146096 else year_start (z + 1) - 1)%Z = z).
  { intros z Hz. pose proof (all_from_spec _ _ _ z years_ok ltac:(lia)) as Hz'.
    unfold year_ends in Hz'. apply andb_prop in Hz' as [?%Z.eqb_eq ?%Z.eqb_eq]. done. }
  split_and!; [lia|lia| |].
  - destruct (Z_le_gt_dec (year_start y) doe) as [|Hgt]; [done|]. exfalso.
    destruct (decide (y = 0%Z)) as [Hy0|Hy0].
    { rewrite Hy0 in Hgt. change (year_start 0) with 0%Z in Hgt. lia. }
    destruct (He (y - 1)%Z ltac:(lia)) as [_ Hl].
    destruct (Z.eqb_spec (y - 1) 399); [lia|].
    replace (y - 1 + 1)%Z with y in Hl by lia.
    pose proof (year_of_mono doe (year_start y - 1) ltac:(lia)
                  ltac:(pose proof (Hs y Hy); lia)) as Hm.
    rewrite Hl in Hm. fold y in Hm. lia.
  - destruct (Z.eq_dec y 399) as [->|Hne]; [change (year_start 399) with 145731%Z; lia|].
    destruct (Z_le_gt_dec (year_start (y + 1)) doe) as [Hle|Hgt].
    + exfalso. destruct (He (y + 1)%Z ltac:(lia)) as [Hf _].
      pose proof (year_of_mono (year_start (y + 1)) doe
        ltac:(pose proof (Hs (y + 1)%Z ltac:(lia)); lia) ltac:(lia)) as Hm.
      rewrite Hf in Hm. fold y in Hm. lia.
    + unfold year_start in *. Z.div_mod_to_equations. lia.
Qed.

(** Month and day of a day of the March-based year, and back. *)
Definition month_day (doy : Z) : Z * Z :=
  (let mp := (5 * doy + 2) / 153 in
   (if mp <? 10 then mp + 3 else mp - 9, doy - (153 * mp + 2) / 5 + 1))%Z.
Definition day_ok (doy : Z) : bool :=
  (let '(m, d) := month_day doy in
   ((153 * (if m <=? 2 then m + 9 else m - 3) + 2) / 5 + d - 1 =? doy)
   && (1 <=? m) && (m <=? 12) && (1 <=? d) && (d <=? 31)
   && ((306 <=? doy) || negb (m <=? 2)))%Z.

Lemma days_ok : all_from 366 0 day_ok = true.
Proof. vm_compute. reflexivity. Qed.

Lemma civil_roundtrip days y m d :
  civil_of_days days = (y, m, d) →
  days_of_civil y m d = days ∧ (1 ≤ m ≤ 12)%Z ∧ (1 ≤ d ≤ 31)%Z ∧
  ((-719162 ≤ days ≤ 2932896)%Z → (0 ≤ y ≤ 9999)%Z).
Proof.
  unfold civil_of_days. set (era := ((days + 719468) / 146097)%Z).
  set (doe := ((days + 719468) mod 146097)%Z).
  assert (Hd : (0 ≤ doe < 146097)%Z) by (apply Z.mod_pos_bound; lia).
  assert (Hdays : days = (era * 146097 + doe - 719468)%Z).
  { pose proof (Z.div_mod (days + 719468) 146097 ltac:(lia)). unfold era, doe. lia. }
  clearbody era doe.
  pose proof (year_bounds doe ltac:(lia)) as Hy. fold (year_num doe) (year_of doe).
  set (yoe := year_of doe) in *. clearbody yoe. cbv zeta in Hy.
  destruct Hy as (Hy & Hlo & Hhi). fold (year_start yoe).
  set (doy := (doe - year_start yoe)%Z) in *.
  pose proof (all_from_spec _ _ _ doy days_ok ltac:(lia)) as Hok. unfold day_ok, month_day in Hok.
  cbv zeta in Hok |- *. intros [= Hyy Hm Hdd]. rewrite Hm, Hdd in Hok.
  repeat (apply andb_prop in Hok as [Hok ?]).
  apply Z.eqb_eq in Hok. rewrite Hm in Hyy.
  assert (Hback : days_of_civil y m d = days).
  { unfold days_of_civil. rewrite <-Hyy. destruct (m <=? 2)%Z.
    - replace (yoe + era * 400 + 1 - 1)%Z with (yoe + era * 400)%Z by lia.
      rewrite Z.div_add, Z.mod_add, (Z.div_small yoe 400), (Z.mod_small yoe 400) by lia.
      unfold doy, year_start in *. lia.
    - replace (yoe + era * 400 + 0)%Z with (yoe + era * 400)%Z by lia.
      rewrite Z.div_add, Z.mod_add, (Z.div_small yoe 400), (Z.mod_small yoe 400) by lia.
      unfold doy, year_start in *. lia. }
  split; [done|]. split; [lia|]. split; [lia|]. intros Hr. split.
  - destruct (m <=? 2)%Z; lia.
  - destruct (m <=? 2)%Z eqn:Hm2; [|lia].
    assert (306 ≤ doy)%Z by (destruct (306 <=? doy)%Z eqn:?; [lia|done]).
    destruct (decide (era * 400 + yoe < 9999)%Z); [lia|].
    assert (era = 24 ∧ yoe = 399)%Z as [-> ->] by lia.
    unfold doy in *. change (year_start 399) with 145731%Z in *. lia.
Qed.

(** * Reading fixed-width numbers *)

Definition digit_of (c : Ascii.ascii) : option Z :=
  let n := Z.of_N (Ascii.N_of_ascii c) in
  if decide (48 ≤ n ≤ 57)%Z then Some (n - 48)%Z else None.

Lemma digit_of_digit n : digit_of (digit n) = Some (n mod 10)%Z.
Proof.
  pose proof (Z.mod_pos_bound n 10 ltac:(lia)).
  unfold digit_of, digit. rewrite Ascii.N_ascii_embedding by lia.
  rewrite decide_True by lia. f_equal. lia.
Qed.

(** [w] digits from the front of a string, and the rest. *)
Fixpoint take_digits (w : nat) (acc : Z) (s : string) : option (Z * string) :=
  match w with
  | 0 => Some (acc, s)
  | S w =>
      match s with
      | String c s =>
          match digit_of c with
          | Some v => take_digits w (10 * acc + v) s
          | None => None
          end
      | EmptyString => None
      end
  end.

Lemma padded_app w n acc r : padded w n acc +:+ r = padded w n (acc +:+ r).
Proof. revert n acc. induction w; intros n acc; [done|]. simpl. by rewrite IHw. Qed.

Lemma padded_snoc w n acc :
  padded (S w) n acc = String (digit (n / 10 ^ Z.of_nat w)) (padded w n acc).
Proof.
  revert n acc. induction w as [|w IH]; intros n acc.
  - cbn [padded]. by rewrite Z.pow_0_r, Z.div_1_r.
  - change (padded (S (S w)) n acc) with (padded (S w) (n / 10) (String (digit n) acc)).
    rewrite IH. rewrite Z.div_div by lia.
    replace (10 * 10 ^ Z.of_nat w)%Z with (10 ^ Z.of_nat (S w))%Z by
      (rewrite Nat2Z.inj_succ, Z.pow_succ_r; lia).
    done.
Qed.

Lemma take_pad w a n r :
  (0 ≤ n)%Z →
  take_digits w a (pad w n +:+ r) = Some (a * 10 ^ Z.of_nat w + n mod 10 ^ Z.of_nat w, r)%Z.
Proof.
  intros Hn. unfold pad. rewrite padded_app. change ("" +:+ r) with r.
  revert a. induction w as [|w IH]; intros a.
  - simpl. rewrite Z.mod_1_r. f_equal. f_equal. lia.
  - rewrite padded_snoc. cbn [take_digits]. rewrite digit_of_digit, IH.
    f_equal. f_equal. rewrite Nat2Z.inj_succ, Z.pow_succ_r by lia.
    set (p := (10 ^ Z.of_nat w)%Z). assert (0 < p)%Z by (apply Z.pow_pos_nonneg; lia).
    rewrite (Z.mul_comm 10 p), Z.rem_mul_r by lia. lia.
Qed.

(** * Reading [isoformat] *)

Definition expect (p : string) (s : string) : option string :=
  if String.prefix p s
  then Some (String.substring (String.length p) (String.length s - String.length p) s)
  else None.

Lemma substring_whole s : String.substring 0 (String.length s) s = s.
Proof. induction s as [|c s IH]; [done|]. simpl. by rewrite IH. Qed.

Lemma expect_app p r : expect p (p +:+ r) = Some r.
Proof.
  unfold expect. assert (String.prefix p (p +:+ r) = true) as -> by (apply prefix_spec; eauto).
  f_equal. induction p as [|c p IH].
  - change ("" +:+ r) with r. simpl. rewrite Nat.sub_0_r. apply substring_whole.
  - change (String c p +:+ r) with (String c (p +:+ r)). exact IH.
Qed.

Definition read_fraction (s : string) : option (Z * string) :=
  match expect "." s with
  | Some s => take_digits 6 0 s
  | None => Some (0%Z, s)
  end.

Definition read_iso (s : string) : option Z :=
  '(y, s) ← take_digits 4 0 s; s ← expect "-" s;
  '(m, s) ← take_digits 2 0 s; s ← expect "-" s;
  '(d, s) ← take_digits 2 0 s; s ← expect "T" s;
  '(hh, s) ← take_digits 2 0 s; s ← expect ":" s;
  '(mm, s) ← take_digits 2 0 s; s ← expect ":" s;
  '(ss, s) ← take_digits 2 0 s;
  '(us, s) ← read_fraction s; s ← expect "+00:00" s;
  if bool_decide (s = "")
  then Some (((days_of_civil y m d * 86400) + hh * 3600 + mm * 60 + ss) * 1000000 + us)%Z
  else None.

Lemma take_pad_small w n r :
  (0 ≤ n < 10 ^ Z.of_nat w)%Z → take_digits w 0 (pad w n +:+ r) = Some (n, r).
Proof. intros Hn. rewrite take_pad by lia. by rewrite Z.mod_small by lia. Qed.

Lemma read_fraction_spec us :
  (0 ≤ us < 1000000)%Z →
  read_fraction ((if decide (us = 0)%Z then "" else "." +:+ pad 6 us) +:+ "+00:00") =
  Some (us, "+00:00").
Proof.
  intros Hu. unfold read_fraction. case_decide as Hz; [by rewrite Hz|].
  rewrite str_app_assoc, expect_app. apply take_pad_small. lia.
Qed.

Lemma read_iso_isoformat t : datetime_ok t = true → read_iso (isoformat t) = Some t.
Proof.
  intros Ht. apply bool_decide_eq_true in Ht.
  unfold isoformat, date_text, time_text.
  set (days := (t / 86400000000)%Z).
  destruct (civil_of_days days) as [[y m] d] eqn:Hc.
  destruct (civil_roundtrip _ _ _ _ Hc) as (Hdays & Hm & Hd & Hy).
  assert (Hr : (-719162 ≤ days ≤ 2932896)%Z) by (unfold days; Z.div_mod_to_equations; lia).
  specialize (Hy Hr).
  set (s := ((t / 1000000) mod 86400)%Z).
  assert (Hs : (0 ≤ s < 86400)%Z) by (apply Z.mod_pos_bound; lia).
  assert (Hus : (0 ≤ t mod 1000000 < 1000000)%Z) by (apply Z.mod_pos_bound; lia).
  assert (Hsum : t = ((days * 86400 + s) * 1000000 + t mod 1000000)%Z).
  { unfold days, s. Z.div_mod_to_equations. lia. }
  assert (H1 : (0 ≤ s / 3600 < 24)%Z) by (Z.div_mod_to_equations; lia).
  assert (H2 : (0 ≤ s / 60 mod 60 < 60)%Z) by (apply Z.mod_pos_bound; lia).
  assert (H3 : (0 ≤ s mod 60 < 60)%Z) by (apply Z.mod_pos_bound; lia).
  assert (H4 : s = (s / 3600 * 3600 + s / 60 mod 60 * 60 + s mod 60)%Z)
    by (Z.div_mod_to_equations; lia).
  rewrite !str_app_assoc. unfold read_iso.
  rewrite take_pad_small by lia; cbn [mbind option_bind]; rewrite expect_app; cbn [mbind option_bind].
  do 4 (rewrite take_pad_small by (simpl; lia); cbn [mbind option_bind];
        rewrite expect_app; cbn [mbind option_bind]).
  rewrite take_pad_small by (simpl; lia). cbn [mbind option_bind].
  rewrite read_fraction_spec by done.
  cbn [mbind option_bind]. change (expect "+00:00" "+00:00") with (Some ""). cbn [mbind option_bind].
  rewrite bool_decide_true by done. f_equal. lia.
Qed.
