(* ===== verification/Request.v ===== *)
(** Signed requests ([cvztte/request]): the SDK that assembles and signs one, the
    text of its timestamps, and the verifier.

    [datetime.fromisoformat] is an interface: which inputs beyond its own output
    it accepts depends on the Python version (3.10 reads little more than what
    [isoformat] writes, 3.11 most of ISO 8601); what every version documents is
    that it inverts [isoformat]. *)

From S2P Require Export Identity Action.
From S2P Require Import PyIso Concrete.

(** * Reading a timestamp *)

(** A parsed datetime: with an offset, as an instant, or without one. *)
Inductive parsed_datetime : Set :=
| Aware (instant : Z)
| Naive (wall_clock : Z).

Class IsoParser := { fromisoformat : string → option parsed_datetime }.

Definition inverts_isoformat `{IsoParser} : Prop :=
  ∀ t, datetime_ok t = true → fromisoformat (isoformat t) = Some (Aware t).

(** [builder._rfc3339] *)
Definition rfc3339 (t : Z) : string := str_replace "+00:00" "Z" (isoformat t).

(** [verify._parse_rfc3339]: a naive time is taken as UTC. *)
Definition parse_rfc3339 `{IsoParser} (value field : string) : res Z :=
  match fromisoformat (str_replace "Z" "+00:00" value) with
  | None => err SCHEMA_INVALID ("invalid " +:+ field +:+ " timestamp")
  | Some (Aware t) => Ok t
  | Some (Naive t) => Ok t
  end.

(** * The request *)

Definition PROTOCOL_VERSION : string := "3.0".
Definition NONCE_BYTES : nat := 16.
Definition DEFAULT_TTL_SECONDS : Z := 30.

(** [request.model.SignedActionRequest] *)
Record SignedActionRequest : Set := mkRequest {
  protocol_version : string;
  r_agent_id : string;
  r_key_id : string;
  r_runtime_id : string;
  r_session_id : string;
  r_delegation_id : string;
  r_policy_hash : string;
  r_action : AgentAction;
  r_action_hash : string;
  r_timestamp : string;
  r_expires_at : string;
  r_sequence : Z;
  r_nonce : string;
  r_request_id : string
}.

(** [request.model.SignedEnvelope] *)
Record SignedEnvelope : Set := mkEnvelope {
  request : SignedActionRequest;
  signature_b64 : string
}.

(** [AgentAction] inside [model_dump(mode="json")]: unlike [canonical_dict] of the
    action, the [None] fields are kept. *)
Definition action_json (a : AgentAction) : json :=
  JObj [ ("action_version", JInt (action_version a));
         ("action_type", JStr (ActionType_value (action_type a)));
         ("target", JStr (target a));
         ("operation", jopt (operation a));
         ("resource", jopt (resource a));
         ("arguments", JObj (arguments a));
         ("data_classification", JStr (DataClassification_value (data_classification a)));
         ("payload_ref",
            match payload_ref a with
            | None => JNull
            | Some p =>
                JObj [ ("ref", JStr (p_ref p)); ("hash", JStr (p_hash p));
                       ("size", match p_size p with Some n => JInt n | None => JNull end) ]
            end) ].

(** [SignedActionRequest.canonical_dict] *)
Definition request_canonical_dict (r : SignedActionRequest) : json :=
  JObj [ ("protocol_version", JStr (protocol_version r));
         ("agent_id", JStr (r_agent_id r));
         ("key_id", JStr (r_key_id r));
         ("runtime_id", JStr (r_runtime_id r));
         ("session_id", JStr (r_session_id r));
         ("delegation_id", JStr (r_delegation_id r));
         ("policy_hash", JStr (r_policy_hash r));
         ("action", action_json (r_action r));
         ("action_hash", JStr (r_action_hash r));
         ("timestamp", JStr (r_timestamp r));
         ("expires_at", JStr (r_expires_at r));
         ("sequence", JInt (r_sequence r));
         ("nonce", JStr (r_nonce r));
         ("request_id", JStr (r_request_id r)) ].

(** [SignedActionRequest.signing_input] *)
Definition signing_input `{Rfc8785} (r : SignedActionRequest) : res string :=
  let? bytes := canonicalize (request_canonical_dict r) in
  Ok (domain_value D_REQUEST +:+ NUL +:+ bytes).

(** * The SDK ([request/builder.py]) *)

(** [SequenceSource]: the last sequence number handed out per agent and session. *)
Definition SequenceSource : Type := gmap (string * string) Z.

(** [SequenceSource.next] *)
Definition next_sequence (agent_id session_id : string) : M SequenceSource Z :=
  λ s, let nxt := (default (-1) (s !! (agent_id, session_id)) + 1)%Z in
       (Ok nxt, <[(agent_id, session_id) := nxt]> s).

Section builder.
Context `{Hashlib, Rfc8785, SignatureProvider}.

(** [RequestBuilder.build_and_sign]; [nonce] and [uuid] are the draws of
    [secrets.token_hex] and [uuid.uuid4().hex]. *)
Definition build_and_sign (registry : KeyRegistry)
    (agent_id runtime_id session_id delegation_id policy_hash : string)
    (action : AgentAction) (ttl_seconds : Z) (now : option Z) (clock : Z)
    (nonce uuid : string) : M SequenceSource SignedEnvelope :=
  let now := or_now now clock in
  let! sequence := next_sequence agent_id session_id in
  clift (
    let? signing_key := active_signing_key registry agent_id (Some now) clock in
    let? ah := action_hash action in
    let? expiry := datetime_of (now + seconds ttl_seconds) in
    let request :=
      mkRequest PROTOCOL_VERSION agent_id (key_id signing_key) runtime_id session_id
        delegation_id policy_hash action ah (rfc3339 now) (rfc3339 expiry) sequence nonce
        ("req_" +:+ uuid) in
    let? input := signing_input request in
    let? signed := sign_as_agent registry agent_id input (Some now) clock in
    if decide (signed.1 = r_key_id request) then
      Ok (mkEnvelope request (b64encode signed.2))
    else Err (PyExc "AssertionError" "")).
End builder.

(** * The verifier ([request/verify.py]) *)

Definition CLOCK_SKEW : Z := seconds 30.

Section verifier.
Context `{Hashlib, Rfc8785, SignatureProvider, IsoParser}.

(** [verify.verify_request] *)
Definition verify_request (registry : KeyRegistry) (envelope : SignedEnvelope)
    (now : option Z) (clock : Z) (expected_policy_hash : option string)
    : res SignedActionRequest :=
  let now := or_now now clock in
  let request := request envelope in
  if decide (protocol_version request ≠ PROTOCOL_VERSION) then
    err SCHEMA_INVALID "unsupported protocol version"
  else
  let? recomputed := action_hash (r_action request) in
  if decide (recomputed ≠ r_action_hash request) then
    err ACTION_HASH_MISMATCH "action_hash does not match action"
  else if match expected_policy_hash with
          | Some h => negb (bool_decide (r_policy_hash request = h))
          | None => false
          end
  then err POLICY_HASH_MISMATCH "policy hash mismatch"
  else
  match b64decode_strict (signature_b64 envelope) with
  | None => err MLDSA_INVALID "malformed signature"
  | Some signature =>
      let? key_record := require_key registry (r_key_id request) in
      if decide (k_agent_id key_record ≠ r_agent_id request) then
        err MLDSA_INVALID "key not bound to agent"
      else
      let? input := signing_input request in
      let? _ := verify_with_key registry (r_key_id request) input signature (Some now) clock in
      let? expires_at := parse_rfc3339 (r_expires_at request) "expires_at" in
      let? timestamp := parse_rfc3339 (r_timestamp request) "timestamp" in
      if decide (expires_at ≤ now)%Z then err REQUEST_EXPIRED "request expired"
      else if decide (now + CLOCK_SKEW < timestamp)%Z then
        err REQUEST_EXPIRED "request timestamp is in the future"
      else Ok request
  end.
End verifier.

(** * Timestamps round-trip *)

Lemma rfc3339_text t : rfc3339 t = local_text t +:+ "Z".
Proof.
  unfold rfc3339. rewrite isoformat_local, str_replace_skip; [done|].
  by apply lacks_local.
Qed.

Lemma parse_rfc3339_text `{IsoParser} t field :
  inverts_isoformat → datetime_ok t = true → parse_rfc3339 (rfc3339 t) field = Ok t.
Proof.
  intros Hp Ht. unfold parse_rfc3339.
  rewrite rfc3339_text, str_replace_skip by (by apply lacks_local).
  change (str_replace "Z" "+00:00" "Z") with "+00:00".
  by rewrite <-isoformat_local, Hp.
Qed.

(** * What verification establishes *)

Section facts.
Context `{Hashlib, Rfc8785, SignatureProvider, IsoParser}.

(** Everything [verify_request] establishes of a request [r] with signature text
    [sig64] at instant [now]. *)
Record authentic (registry : KeyRegistry) (now : Z) (pin : option string)
    (r : SignedActionRequest) (sig64 : string) : Prop := {
  au_version : protocol_version r = PROTOCOL_VERSION;
  au_hash : action_hash (r_action r) = Ok (r_action_hash r);
  au_pin : ∀ h, pin = Some h → r_policy_hash r = h;
  au_signed : ∃ k sig input,
    lookup_key registry (r_key_id r) = Some k ∧ k_agent_id k = r_agent_id r ∧
    (k_state k = ACTIVE ∨ k_state k = RETIRED) ∧ within_window k now = true ∧
    b64decode_strict sig64 = Some sig ∧ signing_input r = Ok input ∧
    provider_verify (public_key k) input sig = Ok true;
  au_fresh : ∃ expires_at timestamp,
    parse_rfc3339 (r_expires_at r) "expires_at" = Ok expires_at ∧
    parse_rfc3339 (r_timestamp r) "timestamp" = Ok timestamp ∧
    (now < expires_at)%Z ∧ (timestamp ≤ now + CLOCK_SKEW)%Z
}.

Lemma verify_with_key_ok reg kid msg sig now clock b :
  verify_with_key reg kid msg sig now clock = Ok b ↔
  b = true ∧ ∃ k, lookup_key reg kid = Some k ∧ (k_state k = ACTIVE ∨ k_state k = RETIRED) ∧
    within_window k (or_now now clock) = true ∧ provider_verify (public_key k) msg sig = Ok true.
Proof.
  unfold verify_with_key, require_key, lookup_key. destruct (dget kid (keys reg)) as [k|]; simpl.
  2: { split; [done|]. by intros (_ & k & ? & _). }
  split.
  - destruct (k_state k) eqn:Hk; simpl; try done;
      destruct (within_window _ _) eqn:Hw; simpl; try done;
      destruct (provider_verify _ _ _) as [[]|] eqn:Hv; try done;
      intros [= <-]; eauto 10.
  - intros (-> & k' & [= <-] & [Hk|Hk] & Hw & Hv); by rewrite Hk, Hw, Hv.
Qed.

Lemma verify_request_spec reg env now clock pin r :
  verify_request reg env now clock pin = Ok r ↔
  r = request env ∧ authentic reg (or_now now clock) pin r (signature_b64 env).
Proof.
  unfold verify_request. set (q := request env). set (t := or_now now clock). split.
  - case_decide as Hv; [done|]. intros (h & Hh & Hr)%rbind_ok.
    case_decide as Hah; [done|].
    destruct (match pin with Some _ => _ | None => _ end) eqn:Hpin; [done|].
    destruct (b64decode_strict _) as [sig|] eqn:Hb; [|done].
    apply rbind_ok in Hr as (k & Hk & Hr). case_decide as Hag; [done|].
    apply rbind_ok in Hr as (input & Hin & Hr). apply rbind_ok in Hr as (b & Hvk & Hr).
    apply rbind_ok in Hr as (te & Hte & Hr). apply rbind_ok in Hr as (ts & Hts & Hr).
    case_decide; [done|]. case_decide; [done|]. injection Hr as <-. split; [done|].
    apply verify_with_key_ok in Hvk as (_ & k' & Hk' & Hst & Hw & Hpv).
    assert (k' = k) as ->.
    { unfold require_key, lookup_key in *. rewrite Hk' in Hk. by injection Hk. }
    constructor; [done|congruence| | |].
    + intros h' ->. by apply negb_false_iff, bool_decide_eq_true in Hpin.
    + exists k, sig, input. by split_and!.
    + exists te, ts. split_and!; [done..|lia|lia].
  - intros [-> [Hv Hh Hpin (k & sig & input & Hk & Hag & Hst & Hw & Hb & Hin & Hpv)
                     (te & ts & Hte & Hts & Hlt & Hle)]].
    rewrite decide_False by (intros Hn; exact (Hn Hv)). rewrite Hh. simpl.
    rewrite decide_False by (intros Hn; exact (Hn eq_refl)).
    assert (match pin with Some h => negb (bool_decide (r_policy_hash q = h)) | None => false end
            = false) as ->.
    { destruct pin as [h|]; [|done]. by rewrite bool_decide_true by (by apply Hpin). }
    rewrite Hb. unfold require_key. pose proof Hk as Hk2. unfold lookup_key in Hk2.
    rewrite Hk2. simpl.
    rewrite decide_False by (intros Hn; exact (Hn Hag)). rewrite Hin. simpl.
    assert (verify_with_key reg (r_key_id q) input sig (Some t) clock = Ok true) as ->.
    { apply verify_with_key_ok. eauto 10. }
    simpl. rewrite Hte, Hts. simpl. rewrite decide_False by lia. by rewrite decide_False by lia.
Qed.
End facts.

Section properties.
Context `{Hashlib, Rfc8785, SignatureProvider, IsoParser}.

(** C28. Verification is exactly the six checks.  A request comes back from
    [verify_request] if and only if it is the one in the envelope and: its protocol
    version is ours; its action hash is the hash recomputed from its action; its
    policy hash is the pinned one; the key it names exists, is bound to the agent
    it claims, is active or retired (not prepared, not revoked) and inside its
    window, and its signature over the domain-separated canonical request verifies
    under it; and it is neither expired nor dated more than the skew ahead.  Two
    accepted requests with one action hash carry actions with the same canonical
    bytes, or SHA-256 collides. *)
Theorem verify_request_iff reg env now clock pin r :
  (verify_request reg env now clock pin = Ok r ↔
     r = request env ∧ authentic reg (or_now now clock) pin r (signature_b64 env)) ∧
  ∀ reg' env' now' clock' pin' r',
    verify_request reg env now clock pin = Ok r →
    verify_request reg' env' now' clock' pin' = Ok r' →
    r_action_hash r = r_action_hash r' →
    rfc8785_dumps (canonical_dict (r_action r)) = rfc8785_dumps (canonical_dict (r_action r'))
    ∨ sha_collision.
Proof.
  split; [apply verify_request_spec|]. intros * Hv Hv' Heq.
  apply verify_request_spec in Hv as [_ Hv], Hv' as [_ Hv'].
  apply (action_hash_binds _ _ (r_action_hash r)); [apply Hv|].
  rewrite Heq. apply Hv'.
Qed.

Lemma build_verifies reg agent runtime session dlg policy action ttl now clock nonce uuid
    s env s' now' clock' pin :
  provider_correct → inverts_isoformat → key_inv reg →
  let t := or_now now clock in
  datetime_ok t = true →
  build_and_sign reg agent runtime session dlg policy action ttl now clock nonce uuid s
    = (Ok env, s') →
  (t - CLOCK_SKEW ≤ now' < t + seconds ttl)%Z →
  (∀ k, lookup_key reg (r_key_id (request env)) = Some k → within_window k now' = true) →
  (∀ h, pin = Some h → h = policy) →
  verify_request reg env (Some now') clock' pin = Ok (request env) ∧
  (r_agent_id (request env), r_runtime_id (request env), r_session_id (request env),
   r_delegation_id (request env), r_policy_hash (request env), r_action (request env),
   r_nonce (request env)) = (agent, runtime, session, dlg, policy, action, nonce).
Proof.
  intros Hp Hiso Hinv t Ht Hb Hnow Hw Hpin. unfold build_and_sign in Hb. fold t in Hb.
  apply cbind_ok in Hb as (sq & s1 & _ & Hb).
  apply (f_equal fst) in Hb. cbn [clift fst] in Hb.
  apply rbind_ok in Hb as (k & Hk & Hb). apply rbind_ok in Hb as (ah & Hah & Hb).
  apply rbind_ok in Hb as (ex & Hex & Hb). apply rbind_ok in Hb as (input & Hin & Hb).
  apply rbind_ok in Hb as ([kid sig] & Hs & Hb). cbn [fst snd] in Hb.
  case_decide as Hkid; [|done]. injection Hb as <-. cbn in Hkid. cbn in Hw.
  unfold datetime_of in Hex. destruct (datetime_ok (t + seconds ttl)) eqn:Hexp; [|done].
  injection Hex as <-.
  destruct (signed_verifies _ _ _ _ _ _ _ Hp Hinv Hs)
    as (Hag & k' & Hk' & Hget & Hid & Hka & Hsg & _ & Hv).
  rewrite Hkid in Hget.
  split; [|done]. apply verify_request_spec. split; [done|]. constructor; try done.
  - intros h Hh. cbn. symmetry. by apply Hpin.
  - exists k', sig, input. cbn. destruct Hsg as [Hst _].
    split_and!; auto using b64_roundtrip.
  - exists (t + seconds ttl)%Z, t. cbn.
    split_and!; [by apply parse_rfc3339_text..|lia|lia].
Qed.

(** What the SDK builds verifies.  After any history of the key registry, the
    envelope [build_and_sign] returns verifies, with the same registry, at every
    instant from one skew before it was built until it expires, as long as the
    signing key is still inside its window and the pinned policy is the one it was
    built for; the verified request carries the caller's fields. *)
Theorem built_request_verifies ops agent runtime session dlg policy action ttl now clock nonce uuid
    s env s' now' clock' pin :
  provider_correct → inverts_isoformat →
  let reg := run key_step new_key_registry ops in
  let t := or_now now clock in
  datetime_ok t = true →
  build_and_sign reg agent runtime session dlg policy action ttl now clock nonce uuid s
    = (Ok env, s') →
  (t - CLOCK_SKEW ≤ now' < t + seconds ttl)%Z →
  (∀ k, lookup_key reg (r_key_id (request env)) = Some k → within_window k now' = true) →
  (∀ h, pin = Some h → h = policy) →
  verify_request reg env (Some now') clock' pin = Ok (request env) ∧
  (r_agent_id (request env), r_runtime_id (request env), r_session_id (request env),
   r_delegation_id (request env), r_policy_hash (request env), r_action (request env),
   r_nonce (request env)) = (agent, runtime, session, dlg, policy, action, nonce).
Proof. intros Hp Hiso reg t. by apply build_verifies, key_run_inv. Qed.

(** A killed agent is locked out of the control plane: after [revoke_agent] on
    a registered agent, and whatever happens to the registry later, no envelope that
    claims to come from that agent verifies, whichever key it names. *)
Theorem killed_agent_requests_rejected ops ops' why c env now clock pin :
  let a := r_agent_id (request env) in
  let r0 := run key_step new_key_registry ops in
  is_Some (agents r0 !! a) →
  is_ok (verify_request (run key_step (revoke_agent a why c r0).2 ops') env now clock pin) = false.
Proof.
  intros a r0 Ha. set (reg := run _ _ ops').
  assert (Hk : killed a reg).
  { apply killed_run; [|by apply revoke_agent_kills].
    apply (key_step_inv r0 (KRevokeAgent a why c)), key_run_inv. }
  destruct (verify_request reg env now clock pin) as [r|] eqn:Hv; [|done]. exfalso.
  apply verify_request_spec in Hv as [-> [_ _ _ (k & _ & _ & Hget & Hka & Hst & _) _]].
  destruct Hk as [_ Hk]. pose proof (Hk _ _ Hget Hka) as Hr.
  rewrite Hr in Hst. by destruct Hst.
Qed.
End properties.

(** * Witnesses *)

Import Instances.
#[local] Existing Instance toy_provider.

Definition iso_instance : IsoParser := {| fromisoformat := λ s, Aware <$> read_iso s |}.
#[local] Existing Instance iso_instance.

Lemma iso_instance_ok : inverts_isoformat.
Proof.
  intros t Ht. change (Aware <$> read_iso (isoformat t) = Some (Aware t)).
  by rewrite read_iso_isoformat.
Qed.

Definition ex_build : result exn SignedEnvelope * SequenceSource :=
  build_and_sign ex_keys "agt_1" "rt_1" "ses_1" "dlg_1" "sha256:policy" ex_action 30 (Some 20%Z) 0
    "00112233445566778899aabbccddeeff" "u1" ∅.
Definition ex_request_env : SignedEnvelope := Eval vm_compute in
  match ex_build.1 with
  | Ok e => e
  | Err _ => mkEnvelope (mkRequest "" "" "" "" "" "" "" ex_action "" "" "" 0 "" "") ""
  end.
Definition ex_sequences : SequenceSource := Eval vm_compute in ex_build.2.
Lemma ex_build_ok : ex_build = (Ok ex_request_env, ex_sequences).
Proof. vm_compute. reflexivity. Qed.

(** At a request of the agent, 25 seconds later. *)
Lemma built_request_verifies_witness :
  verify_request ex_keys ex_request_env (Some 25000000%Z) 0 (Some "sha256:policy")
  = Ok (request ex_request_env).
Proof.
  pose proof ex_build_ok as Hb. unfold ex_build in Hb. rewrite <-ex_keys_run in Hb.
  destruct (built_request_verifies ex_key_ops "agt_1" "rt_1" "ses_1" "dlg_1" "sha256:policy"
    ex_action 30 (Some 20%Z) 0 "00112233445566778899aabbccddeeff" "u1" ∅ ex_request_env
    ex_sequences 25000000%Z 0 (Some "sha256:policy") toy_provider_correct iso_instance_ok
    ltac:(vm_compute; reflexivity) Hb ltac:(vm_compute; split; congruence)) as [Hv _].
  - rewrite ex_keys_run. intros k Hk. vm_compute in Hk. injection Hk as <-. vm_compute. reflexivity.
  - intros h Hh. by injection Hh.
  - rewrite ex_keys_run in Hv. exact Hv.
Defined.

(** At the same request, after the agent is killed. *)
Lemma killed_agent_requests_rejected_witness :
  is_ok (verify_request
    (run key_step (revoke_agent "agt_1" "compromised" 30 (run key_step new_key_registry ex_key_ops)).2
       [KRegister "agt_1"]) ex_request_env (Some 40%Z) 0 None) = false.
Proof.
  assert (Ha : is_Some (agents (run key_step new_key_registry ex_key_ops) !! "agt_1"))
    by (rewrite ex_keys_run; vm_compute; eauto).
  exact (killed_agent_requests_rejected ex_key_ops [KRegister "agt_1"] "compromised" 30
    ex_request_env (Some 40%Z) 0 None Ha).
Defined.

(** C28 at the same request. *)
Lemma verify_request_iff_witness :
  authentic ex_keys 25000000 None (request ex_request_env) (signature_b64 ex_request_env).
Proof.
  destruct (verify_request_iff ex_keys ex_request_env (Some 25000000%Z) 0 None
    (request ex_request_env)) as [[H _] _].
  apply H. vm_compute. reflexivity.
Defined.
