(* ===== verification/Replay.v ===== *)
(** Replay and freshness guards: the in-process guard
    ([cvztte/control_plane/replay.py]) and the Redis-backed one
    ([cvztte/replay/redis_freshness.py] with its script [replay_atomic.lua]).

    Both implement one interface; what it promises its client, the control plane,
    is the class [FreshGuard]: an accepted sequence number, and every smaller one,
    is spent for that session for good. *)

From S2P Require Export Errors PyTime.
From Stdlib Require Import Sorting.Sorted.

(** [ReplayGuardProtocol.check_and_commit]; [E] is what one call meets outside the
    guard (the clock of the store and the state of the network, for Redis). *)
Class ReplayGuardProtocol (G E : Type) :=
  check_and_commit : E → string → string → Z → M G unit.

(** [spent g sid q]: no further request of session [sid] is accepted with the
    sequence number [q]. *)
Class FreshGuard (G E : Type) `{ReplayGuardProtocol G E} := {
  spent : G → string → Z → Prop;
  accepted_unspent e sid nonce q g g' :
    check_and_commit e sid nonce q g = (Ok (), g') → ¬ spent g sid q;
  accepted_spends e sid nonce q g g' :
    check_and_commit e sid nonce q g = (Ok (), g') → spent g' sid q;
  spent_below g sid q q' : spent g sid q → (q' ≤ q)%Z → spent g sid q';
  spent_forever e sid nonce q g sid' q' :
    spent g sid' q' → spent (check_and_commit e sid nonce q g).2 sid' q'
}.

(** * The in-process guard *)

Definition MIN_NONCE_HEX : nat := 32.

(** [InMemoryReplayGuard] *)
Record InMemoryReplayGuard : Type := mkMemGuard {
  nonces : gset string;
  max_sequence : gmap string Z
}.

(** [InMemoryReplayGuard.check_and_commit] *)
Definition memory_check_and_commit (session_id nonce : string) (sequence : Z)
    : M InMemoryReplayGuard unit :=
  if decide (py_len nonce < MIN_NONCE_HEX) then
    raise SCHEMA_INVALID "nonce below 128-bit minimum"
  else
  let! g := cget in
  if decide (nonce ∈ nonces g) then raise NONCE_REPLAY "nonce already used"
  else if match max_sequence g !! session_id with
          | Some last => bool_decide (sequence ≤ last)%Z
          | None => false
          end
  then raise SEQUENCE_INVALID "sequence not monotonic"
  else cput (mkMemGuard ({[nonce]} ∪ nonces g) (<[session_id := sequence]> (max_sequence g))).

#[export] Instance memory_guard : ReplayGuardProtocol InMemoryReplayGuard unit :=
  λ _, memory_check_and_commit.

(** * The Redis guard *)

(** The number a Lua [tonumber] makes of the decimal text of an integer: a double,
    rounded to nearest even, with the infinities standing at 2^1024. *)
Definition round53 (n : Z) : Z :=
  (let e := Z.max 0 (Z.log2 n - 52) in
   let q := n / 2 ^ e in
   let r := n mod 2 ^ e in
   (if (2 ^ e <? 2 * r) || ((2 * r =? 2 ^ e) && Z.odd q) then q + 1 else q) * 2 ^ e)%Z.
Definition lua_number (n : Z) : Z :=
  if decide (0 ≤ n)%Z then Z.min (2 ^ 1024) (round53 n)
  else (- Z.min (2 ^ 1024) (round53 (- n)))%Z.

(** The keyspace: sets of strings and numbers, each with an optional expiry. *)
Inductive redis_value : Type :=
| RSet (members : gset string)
| RNum (n : Z).
Notation Redis := (gmap string (redis_value * option Z)).

(** What a call finds: the store's clock, and whether the request or the reply is
    lost on the way. *)
Inductive network : Set := Reachable | RequestLost | ReplyLost.
Record redis_env : Set := mkEnv { redis_clock : Z; net : network }.

(** An expired key is absent. *)
Definition redis_live (clock : Z) (key : string) (s : Redis) : option redis_value :=
  match s !! key with
  | Some (v, Some e) => if decide (e < clock)%Z then None else Some v
  | Some (v, None) => Some v
  | None => None
  end.

(** [replay_atomic.lua], with the keys and arguments of the call: [None] is a
    command that fails on a key of another type. *)
Definition replay_atomic (clock : Z) (nonce_key seq_key nonce : string) (seq ttl : Z) (s : Redis)
    : option string * Redis :=
  match redis_live clock nonce_key s with
  | Some (RNum _) => (None, s)
  | members =>
      let members := match members with Some (RSet m) => m | _ => ∅ end in
      if decide (nonce ∈ members) then (Some "NONCE_REPLAY", s)
      else
      match redis_live clock seq_key s with
      | Some (RSet _) => (None, s)
      | last =>
          let last := match last with Some (RNum n) => n | _ => (-1)%Z end in
          if decide (lua_number seq ≤ last)%Z then (Some "SEQUENCE_INVALID", s)
          else
            let s1 :=
              if decide (ttl ≤ 0)%Z then delete nonce_key s
              else <[nonce_key := (RSet ({[nonce]} ∪ members), Some (clock + seconds ttl)%Z)]> s in
            (Some "OK", <[seq_key := (RNum (lua_number seq), None)]> s1)
      end
  end.

(** [ReplayGuard._keys] *)
Definition nonce_key (session_id : string) : string := "cvztte:sess:" +:+ session_id +:+ ":nonces".
Definition seq_key (session_id : string) : string := "cvztte:sess:" +:+ session_id +:+ ":seq".

Definition unavailable {A} : M Redis A :=
  raise SECURITY_DEPENDENCY_UNAVAILABLE "replay store unavailable".

(** [ReplayGuard.check_and_commit] *)
Definition redis_check_and_commit (ttl : Z) (env : redis_env) (session_id nonce : string)
    (sequence : Z) : M Redis unit :=
  if decide (py_len nonce < MIN_NONCE_HEX) then
    raise SCHEMA_INVALID "nonce below 128-bit minimum"
  else match net env with
  | RequestLost => unavailable
  | n =>
      λ s, match replay_atomic (redis_clock env) (nonce_key session_id) (seq_key session_id)
                   nonce sequence ttl s, n with
           | (Some decoded, s'), Reachable =>
               if decide (decoded = "OK") then (Ok (), s')
               else if decide (decoded = "NONCE_REPLAY") then
                 raise NONCE_REPLAY "nonce already used" s'
               else if decide (decoded = "SEQUENCE_INVALID") then
                 raise SEQUENCE_INVALID "sequence not monotonic" s'
               else raise SECURITY_DEPENDENCY_UNAVAILABLE "unexpected replay-guard result" s'
           | (_, s'), _ => unavailable s'
           end
  end.

(** The guard with the default nonce lifetime of 300 seconds, or any other. *)
Definition redis_guard (ttl : Z) : ReplayGuardProtocol Redis redis_env :=
  redis_check_and_commit ttl.

(** * The double a sequence number becomes *)

Lemma round53_bounds n :
  (0 < n)%Z → (2 ^ Z.log2 n ≤ round53 n ≤ 2 ^ (Z.log2 n + 1))%Z.
Proof.
  intros Hn. pose proof (Z.log2_spec n Hn) as [Hlo Hhi]. rewrite <-Z.add_1_r in Hhi.
  pose proof (Z.log2_nonneg n). unfold round53.
  destruct (Z.max_spec 0 (Z.log2 n - 52)) as [[Hlt ->]|[Hle ->]].
  - set (e := (Z.log2 n - 52)%Z) in *.
    assert (Hp : (0 < 2 ^ e)%Z) by (apply Z.pow_pos_nonneg; lia).
    assert (H52 : (2 ^ Z.log2 n = 2 ^ 52 * 2 ^ e)%Z).
    { rewrite <-Z.pow_add_r by lia. f_equal. lia. }
    assert (H53 : (2 ^ (Z.log2 n + 1) = 2 ^ 53 * 2 ^ e)%Z).
    { rewrite <-Z.pow_add_r by lia. f_equal. lia. }
    rewrite H52 in Hlo |- *. rewrite H53 in Hhi |- *.
    assert (Hq : (2 ^ 52 ≤ n / 2 ^ e < 2 ^ 53)%Z).
    { split; [apply Z.div_le_lower_bound|apply Z.div_lt_upper_bound]; lia. }
    destruct (_ || _); nia.
  - rewrite Z.pow_0_r, Z.div_1_r, Z.mod_1_r. simpl. lia.
Qed.

Lemma round53_mono a b : (0 ≤ a ≤ b)%Z → (round53 a ≤ round53 b)%Z.
Proof.
  intros [Ha Hab]. destruct (decide (a = 0%Z)) as [->|Ha0].
  { change (round53 0) with 0%Z. destruct (decide (b = 0%Z)) as [->|]; [done|].
    pose proof (round53_bounds b ltac:(lia)). pose proof (Z.pow_nonneg 2 (Z.log2 b)). lia. }
  pose proof (Z.log2_le_mono _ _ Hab) as Hl.
  destruct (Z_le_lt_eq_dec _ _ Hl) as [Hlt|Heq].
  - pose proof (round53_bounds a ltac:(lia)). pose proof (round53_bounds b ltac:(lia)).
    pose proof (Z.pow_le_mono_r 2 (Z.log2 a + 1) (Z.log2 b) ltac:(lia) ltac:(lia)). lia.
  - unfold round53. rewrite Heq. set (e := Z.max 0 (Z.log2 b - 52)).
    assert (Hp : (0 < 2 ^ e)%Z) by (apply Z.pow_pos_nonneg; lia).
    apply Z.mul_le_mono_nonneg_r; [lia|].
    pose proof (Z.div_mod a (2 ^ e) ltac:(lia)). pose proof (Z.div_mod b (2 ^ e) ltac:(lia)).
    pose proof (Z.mod_pos_bound a (2 ^ e) Hp). pose proof (Z.mod_pos_bound b (2 ^ e) Hp).
    pose proof (Z.div_le_mono a b (2 ^ e) Hp Hab) as Hq.
    destruct (Z_le_lt_eq_dec _ _ Hq) as [Hlt|Hqe].
    + destruct (_ || _), (_ || _); lia.
    + rewrite Hqe in *. assert (a mod 2 ^ e ≤ b mod 2 ^ e)%Z by lia.
      destruct (Z.ltb_spec (2 ^ e) (2 * (a mod 2 ^ e))), (Z.ltb_spec (2 ^ e) (2 * (b mod 2 ^ e))),
        (Z.eqb_spec (2 * (a mod 2 ^ e)) (2 ^ e)), (Z.eqb_spec (2 * (b mod 2 ^ e)) (2 ^ e)),
        (Z.odd (b / 2 ^ e)); simpl; lia.
Qed.

Lemma round53_nonneg n : (0 ≤ n)%Z → (0 ≤ round53 n)%Z.
Proof. intros Hn. change 0%Z with (round53 0). apply round53_mono. lia. Qed.

Lemma lua_number_mono a b : (a ≤ b)%Z → (lua_number a ≤ lua_number b)%Z.
Proof.
  intros Hab. unfold lua_number. repeat case_decide; try lia.
  - pose proof (round53_mono a b). lia.
  - pose proof (round53_nonneg (- a)). pose proof (round53_nonneg b).
    assert (0 < 2 ^ 1024)%Z by (apply Z.pow_pos_nonneg; lia). lia.
  - pose proof (round53_mono (- b) (- a)). lia.
Qed.

(** * The keys of a session *)

Lemma str_app_inj_r a b s : a +:+ s = b +:+ s → a = b.
Proof.
  assert (Hl : ∀ a b, String.length (a +:+ b) = String.length a + String.length b).
  { clear. intros a b. induction a as [|x a IH]; [done|].
    change (S (String.length (a +:+ b)) = S (String.length a + String.length b)). by rewrite IH. }
  revert b. induction a as [|x a IH]; intros [|y b] Heq; try done.
  - apply (f_equal String.length) in Heq. rewrite !Hl in Heq. simpl in Heq. lia.
  - apply (f_equal String.length) in Heq. rewrite !Hl in Heq. simpl in Heq. lia.
  - change (String x (a +:+ s) = String y (b +:+ s)) in Heq. injection Heq as -> Heq.
    by rewrite (IH b Heq).
Qed.

Lemma str_app_inj_l s a b : s +:+ a = s +:+ b → a = b.
Proof.
  induction s as [|x s IH]; [done|]. intros Heq.
  change (String x (s +:+ a) = String x (s +:+ b)) in Heq. injection Heq as Heq. auto.
Qed.

Lemma seq_key_inj s1 s2 : seq_key s1 = seq_key s2 → s1 = s2.
Proof. intros Heq. by apply str_app_inj_l, str_app_inj_r in Heq. Qed.

Fixpoint last_char (s : string) : option Ascii.ascii :=
  match s with
  | EmptyString => None
  | String c EmptyString => Some c
  | String _ s => last_char s
  end.

Lemma last_char_app a c s : last_char (a +:+ String c s) = last_char (String c s).
Proof.
  induction a as [|x a IH]; [done|].
  change (String x a +:+ String c s) with (String x (a +:+ String c s)).
  rewrite <-IH. by destruct a.
Qed.

Lemma nonce_key_ne s1 s2 : nonce_key s1 ≠ seq_key s2.
Proof.
  intros Heq. apply str_app_inj_l, (f_equal last_char) in Heq. by rewrite !last_char_app in Heq.
Qed.

(** * What the guards promise *)

Lemma memory_ok sid nonce q g g' :
  memory_check_and_commit sid nonce q g = (Ok (), g') ↔
  MIN_NONCE_HEX ≤ py_len nonce ∧ nonce ∉ nonces g ∧
  (∀ last, max_sequence g !! sid = Some last → (last < q)%Z) ∧
  g' = mkMemGuard ({[nonce]} ∪ nonces g) (<[sid := q]> (max_sequence g)).
Proof.
  unfold memory_check_and_commit. case_decide as Hl; [split; [done|lia]|].
  unfold cbind, cget. case_decide as Hn; [split; [done|naive_solver]|].
  destruct (max_sequence g !! sid) as [last|] eqn:Hs.
  - case_bool_decide as Hq.
    + split; [done|]. intros (_ & _ & Hx & _). specialize (Hx _ eq_refl). lia.
    + split; [intros [= <-]|intros (_ & _ & _ & ->); done].
      split_and!; [lia|done| |done]. intros ? [= <-]. lia.
  - split; [intros [= <-]|intros (_ & _ & _ & ->); done].
    split_and!; [lia|done|done|done].
Qed.

Lemma memory_err sid nonce q g e g' :
  memory_check_and_commit sid nonce q g = (Err e, g') → g' = g.
Proof.
  unfold memory_check_and_commit, cbind, cget. repeat case_match; try done; by intros [= _ <-].
Qed.

#[export, program] Instance memory_fresh : FreshGuard InMemoryReplayGuard unit :=
  {| spent g sid q := ∃ last, max_sequence g !! sid = Some last ∧ (q ≤ last)%Z |}.
Next Obligation.
  intros [] sid nonce q g g' (_ & _ & Hl & _)%memory_ok (last & Hs & Hq).
  specialize (Hl _ Hs). lia.
Qed.
Next Obligation.
  intros [] sid nonce q g g' (_ & _ & _ & ->)%memory_ok. simpl.
  exists q. by rewrite lookup_insert_eq.
Qed.
Next Obligation. intros g sid q q' (last & Hs & Hl) Hq. exists last. split; [done|lia]. Qed.
Next Obligation.
  intros [] sid nonce q g sid' q' (last & Hs & Hq).
  change (check_and_commit () sid nonce q g) with (memory_check_and_commit sid nonce q g).
  destruct (memory_check_and_commit sid nonce q g) as [[[]|e] g'] eqn:Hc.
  - apply memory_ok in Hc as (_ & _ & Hl & ->). simpl.
    destruct (decide (sid = sid')) as [->|Hne].
    + exists q. rewrite lookup_insert_eq. split; [done|]. specialize (Hl _ Hs). lia.
    + exists last. by rewrite lookup_insert_ne.
  - apply memory_err in Hc as ->. simpl. eauto.
Qed.

(** What the script does to the sequence key of a session. *)
Definition stored (s : Redis) (sid : string) : option Z :=
  match s !! seq_key sid with Some (RNum n, None) => Some n | _ => None end.

Lemma replay_atomic_spec clock sid nonce q ttl s o s' sid' n :
  replay_atomic clock (nonce_key sid) (seq_key sid) nonce q ttl s = (o, s') →
  stored s sid' = Some n →
  (stored s' sid' = Some n ∧ (sid' = sid → o ≠ Some "OK")) ∨
  (o = Some "OK" ∧ stored s' sid' = Some (if decide (sid' = sid) then lua_number q else n) ∧
   (sid' = sid → n < lua_number q)%Z).
Proof.
  unfold replay_atomic, stored. intros Hr Hn.
  destruct (s !! seq_key sid') as [[[|n0] [|]]|] eqn:Hs; try done. injection Hn as ->.
  destruct (redis_live clock (nonce_key sid) s) as [[m|]|];
    try (simplify_eq; left; rewrite Hs; done).
  all: case_decide; [simplify_eq; left; rewrite Hs; done|].
  all: destruct (redis_live clock (seq_key sid) s) as [[|last]|] eqn:Hlive;
    try (simplify_eq; left; rewrite Hs; done).
  all: case_decide as Hlt; [simplify_eq; left; rewrite Hs; done|].
  all: injection Hr as <- <-; right; split; [done|].
  all: destruct (decide (sid' = sid)) as [->|Hne];
    [rewrite lookup_insert_eq; split; [done|];
     unfold redis_live in Hlive; rewrite Hs in Hlive; simplify_eq; lia|].
  all: rewrite lookup_insert_ne by (intros ?%seq_key_inj; congruence).
  all: case_decide; [rewrite lookup_delete_ne by apply nonce_key_ne
                    |rewrite lookup_insert_ne by apply nonce_key_ne]; by rewrite Hs.
Qed.

Lemma replay_atomic_OK clock sid nonce q ttl s s' :
  replay_atomic clock (nonce_key sid) (seq_key sid) nonce q ttl s = (Some "OK", s') →
  stored s' sid = Some (lua_number q).
Proof.
  unfold replay_atomic, stored. intros Hr. repeat case_match; simplify_eq;
    by rewrite ?lookup_insert_eq in *; simplify_eq.
Qed.

Lemma redis_ok ttl env sid nonce q s s' :
  redis_check_and_commit ttl env sid nonce q s = (Ok (), s') ↔
  MIN_NONCE_HEX ≤ py_len nonce ∧ net env = Reachable ∧
  replay_atomic (redis_clock env) (nonce_key sid) (seq_key sid) nonce q ttl s = (Some "OK", s').
Proof.
  unfold redis_check_and_commit. case_decide as Hl; [split; [done|lia]|].
  destruct (net env) eqn:Hn; [|split; [done|naive_solver]|].
  - destruct (replay_atomic _ _ _ _ _ _ _) as [[d|] s1]; [|split; [done|naive_solver]].
    case_decide as Hd; [subst|].
    + split; [intros [= ->]; split_and!; [lia|done|done]|]. by intros (_ & _ & [= ->]).
    + split; [by repeat case_decide|]. intros (_ & _ & [= -> _]). done.
  - destruct (replay_atomic _ _ _ _ _ _ _) as [[d|] s1]; split; try done; naive_solver.
Qed.

(** Whatever the outcome, the store is as it was or as the script left it. *)
Lemma redis_effect ttl env sid nonce q s :
  (redis_check_and_commit ttl env sid nonce q s).2 = s ∨
  (redis_check_and_commit ttl env sid nonce q s).2 =
    (replay_atomic (redis_clock env) (nonce_key sid) (seq_key sid) nonce q ttl s).2.
Proof.
  unfold redis_check_and_commit. case_decide; [by left|].
  destruct (net env); [|by left|];
    destruct (replay_atomic _ _ _ _ _ _ _) as [[d|] s1]; right; simpl; repeat case_decide; done.
Qed.

#[program] Definition redis_fresh (ttl : Z) : @FreshGuard Redis redis_env (redis_guard ttl) :=
  {| spent s sid q := ∃ n, stored s sid = Some n ∧ (lua_number q ≤ n)%Z |}.
Next Obligation.
  intros ttl e sid nonce q s s' (_ & _ & Hr)%redis_ok (n & Hs & Hq).
  destruct (replay_atomic_spec _ _ _ _ _ _ _ _ _ _ Hr Hs) as [[_ Hne]|(_ & _ & Hlt)].
  - by apply Hne.
  - specialize (Hlt eq_refl). lia.
Qed.
Next Obligation.
  intros ttl e sid nonce q s s' (_ & _ & Hr)%redis_ok.
  exists (lua_number q). split; [by eapply replay_atomic_OK|done].
Qed.
Next Obligation.
  intros ttl s sid q q' (n & Hs & Hn) Hq. exists n. split; [done|].
  etrans; [by apply lua_number_mono|done].
Qed.
Next Obligation.
  intros ttl e sid nonce q s sid' q' (n & Hs & Hq).
  change (check_and_commit e sid nonce q s) with (redis_check_and_commit ttl e sid nonce q s).
  destruct (redis_effect ttl e sid nonce q s) as [->| ->]; [eauto|].
  destruct (replay_atomic _ _ _ _ _ _ _) as [o s'] eqn:Hr.
  destruct (replay_atomic_spec _ _ _ _ _ _ _ _ _ _ Hr Hs) as [[Hs' _]|(_ & Hs' & Hlt)].
  - simpl. eauto.
  - simpl. case_decide; [|eauto]. exists (lua_number q). split; [done|]. specialize (Hlt ltac:(done)). lia.
Qed.

(** * Histories *)

Section histories.
Context `{FreshGuard G E}.

(** What a guard accepts of a list of attempts, in any interleaving of sessions. *)
Fixpoint accepted (g : G) (l : list (E * string * string * Z)) : list (string * string * Z) :=
  match l with
  | [] => []
  | (e, sid, nonce, q) :: l =>
      match check_and_commit e sid nonce q g with
      | (Ok _, g') => (sid, nonce, q) :: accepted g' l
      | (Err _, g') => accepted g' l
      end
  end.

Definition sequences_of (sid : string) (l : list (string * string * Z)) : list Z :=
  omap (λ x, if decide (x.1.1 = sid) then Some x.2 else None) l.

Lemma accepted_above g l sid q :
  spent g sid q → Forall (λ q', q < q')%Z (sequences_of sid (accepted g l)).
Proof.
  revert g. induction l as [|[[[e s] nonce] q1] l IH]; intros g Hs; [constructor|].
  simpl. destruct (check_and_commit e s nonce q1 g) as [[[]|er] g'] eqn:Hc.
  - pose proof (spent_forever e s nonce q1 g sid q Hs) as Hf. rewrite Hc in Hf.
    csimpl. case_decide as Hsid; [|by apply IH]. subst. constructor; [|by apply IH].
    destruct (decide (q < q1)%Z) as [|Hge]; [done|]. exfalso.
    assert (¬ spent g sid q1) as Hn by (eapply accepted_unspent; exact Hc).
    apply Hn. eapply spent_below; [exact Hs|lia].
  - apply IH. pose proof (spent_forever e s nonce q1 g sid q Hs) as Hf. by rewrite Hc in Hf.
Qed.

Lemma accepted_sorted g l sid : StronglySorted Z.lt (sequences_of sid (accepted g l)).
Proof.
  revert g. induction l as [|[[[e s] nonce] q1] l IH]; intros g; [constructor|].
  simpl. destruct (check_and_commit e s nonce q1 g) as [[[]|er] g'] eqn:Hc; [|by apply IH].
  csimpl. case_decide as Hsid; [|by apply IH]. subst. constructor; [by apply IH|].
  apply accepted_above. by eapply accepted_spends.
Qed.
End histories.

Definition new_memory_guard : InMemoryReplayGuard := mkMemGuard ∅ ∅.

Lemma memory_nonces l g :
  (∀ n, n ∈ ((accepted g l).*1).*2 → n ∉ nonces g) ∧ NoDup ((accepted g l).*1).*2.
Proof.
  revert g. induction l as [|[[[[] sid] nonce] q] l IH]; intros g; [split; [set_solver|constructor]|].
  simpl. change (check_and_commit () sid nonce q g) with (memory_check_and_commit sid nonce q g).
  destruct (memory_check_and_commit sid nonce q g) as [[[]|e] g'] eqn:Hc.
  - apply memory_ok in Hc as (_ & Hn & _ & ->). csimpl. 
    destruct (IH (mkMemGuard ({[nonce]} ∪ nonces g) (<[sid := q]> (max_sequence g)))) as [Hout Hnd].
    simpl in Hout. split.
    + intros n [->|Hin]%elem_of_cons; [done|]. specialize (Hout n Hin). set_solver.
    + constructor; [|done]. intros Hin. specialize (Hout _ Hin). set_solver.
  - apply memory_err in Hc as ->. apply IH.
Qed.

(** C25. A request is accepted at most once, by either guard.  In any list of
    attempts over any interleaving of sessions, the sequence numbers accepted for
    one session are strictly increasing: for the in-process guard, and for the
    Redis guard whatever the nonce lifetime, the readings of the clock, the contents
    of the store it starts from and the requests and replies the network loses.
    The in-process guard never accepts a nonce twice. *)
Theorem accepted_once :
  (∀ l g sid, StronglySorted Z.lt (sequences_of sid (accepted (E := unit) g l))) ∧
  (∀ ttl l s sid,
     StronglySorted Z.lt (sequences_of sid (@accepted Redis redis_env (redis_guard ttl) s l))) ∧
  (∀ l, NoDup ((accepted (E := unit) new_memory_guard l).*1).*2).
Proof.
  split_and!.
  - intros l g sid. apply accepted_sorted.
  - intros ttl l s sid.
    exact (@accepted_sorted Redis redis_env (redis_guard ttl) (redis_fresh ttl) s l sid).
  - intros l. apply memory_nonces.
Qed.

(** The Redis script compares doubles: above 2^53 a larger number can be refused. *)
Example redis_rounds :
  let n := "00112233445566778899aabbccddeeff" in
  let s := (redis_check_and_commit 300 (mkEnv 0 Reachable) "s" n (2 ^ 53) ∅).2 in
  res_code (redis_check_and_commit 300 (mkEnv 0 Reachable) "s" ("x" +:+ n) (2 ^ 53 + 1) s).1
  = Some SEQUENCE_INVALID.
Proof. vm_compute. reflexivity. Qed.
