(* ===== verification/Approval.v ===== *)
(** The human-approval workflow ([cvztte/control_plane/approval.py]). *)

From S2P Require Export Canonical PyTime.

Definition DEFAULT_APPROVAL_TTL_SECONDS : Z := 900.

(** [ApprovalState] *)
Inductive ApprovalState : Set := A_PENDING | A_GRANTED | A_DENIED.

Definition ApprovalState_value (s : ApprovalState) : string :=
  match s with A_PENDING => "PENDING" | A_GRANTED => "GRANTED" | A_DENIED => "DENIED" end.

(** [rec.state.value.lower()] *)
Definition ApprovalState_lower (s : ApprovalState) : string :=
  match s with A_PENDING => "pending" | A_GRANTED => "granted" | A_DENIED => "denied" end.

#[export] Instance ApprovalState_eq_dec : EqDecision ApprovalState.
Proof. solve_decision. Defined.

(** [ApprovalRecord] *)
Record ApprovalRecord : Set := mkApproval {
  approval_id : string;
  a_decision_id : string;
  a_agent_id : string;
  a_action_hash : string;
  a_risk_level : Z;
  classification : string;
  requested_at : Z;
  a_expires_at : Z;
  a_state : ApprovalState;
  approver : option string;
  decided_at : option Z;
  a_reason : option string
}.

(** [ApprovalRecord.is_expired] *)
Definition is_expired (r : ApprovalRecord) (now : Z) : bool := bool_decide (a_expires_at r ≤ now)%Z.

(** [ApprovalRecord.public_view] *)
Definition approval_public_view (r : ApprovalRecord) : json :=
  JObj [ ("approval_id", JStr (approval_id r)); ("decision_id", JStr (a_decision_id r));
         ("agent_id", JStr (a_agent_id r)); ("action_hash", JStr (a_action_hash r));
         ("risk_level", JInt (a_risk_level r)); ("classification", JStr (classification r));
         ("state", JStr (ApprovalState_value (a_state r))); ("approver", jopt (approver r));
         ("requested_at", JStr (isoformat (requested_at r)));
         ("expires_at", JStr (isoformat (a_expires_at r)));
         ("decided_at", jopt (isoformat <$> decided_at r)) ].

(** [ApprovalStore] *)
Record ApprovalStore : Type := mkStore {
  ap_ttl : Z;
  by_id : gmap string ApprovalRecord;
  by_decision_id : gmap string string
}.

Definition new_approval_store (ttl_seconds : Z) : ApprovalStore := mkStore ttl_seconds ∅ ∅.

(** [ApprovalStore.request]; [uuid] is the draw of [uuid.uuid4().hex]. *)
Definition approval_request (decision_id agent_id action_hash : string) (risk_level : Z)
    (classification : string) (ttl_seconds : option Z) (now : option Z) (clock : Z) (uuid : string)
    : M ApprovalStore ApprovalRecord :=
  λ s,
    let now := or_now now clock in
    let ttl := default (ap_ttl s) ttl_seconds in
    let record :=
      mkApproval ("appr_" +:+ uuid) decision_id agent_id action_hash risk_level classification
        now (now + seconds ttl) A_PENDING None None None in
    (Ok record,
     mkStore (ap_ttl s) (<[approval_id record := record]> (by_id s))
       (<[decision_id := approval_id record]> (by_decision_id s))).

(** [ApprovalStore.get] *)
Definition approval_get (s : ApprovalStore) (approval_id : string) : res ApprovalRecord :=
  match by_id s !! approval_id with
  | Some r => Ok r
  | None => err APPROVAL_REQUIRED "unknown approval"
  end.

(** [ApprovalStore.by_decision] *)
Definition by_decision (s : ApprovalStore) (decision_id : string) : option ApprovalRecord :=
  match by_decision_id s !! decision_id with
  | Some approval_id => if decide (approval_id = "") then None else by_id s !! approval_id
  | None => None
  end.

(** [ApprovalStore._decide]; the record found is mutated where it is stored, under
    the approval id it was found by. *)
Definition approval_decide (decision_id : string) (state : ApprovalState) (approver : string)
    (reason : option string) (now : option Z) (clock : Z) : M ApprovalStore ApprovalRecord :=
  λ s,
    let now := or_now now clock in
    match by_decision s decision_id, by_decision_id s !! decision_id with
    | Some rec, Some id =>
        if decide (a_state rec ≠ A_PENDING) then
          raise APPROVAL_REQUIRED ("approval already " +:+ ApprovalState_lower (a_state rec)) s
        else if is_expired rec now then raise APPROVAL_EXPIRED "approval window elapsed" s
        else
          let rec' :=
            mkApproval (approval_id rec) (a_decision_id rec) (a_agent_id rec) (a_action_hash rec)
              (a_risk_level rec) (classification rec) (requested_at rec) (a_expires_at rec)
              state (Some approver) (Some now) reason in
          (Ok rec', mkStore (ap_ttl s) (<[id := rec']> (by_id s)) (by_decision_id s))
    | _, _ => raise APPROVAL_REQUIRED "no approval requested for decision" s
    end.

(** [ApprovalStore.grant] *)
Definition approval_grant (decision_id approver : string) (reason : option string)
    (now : option Z) (clock : Z) : M ApprovalStore ApprovalRecord :=
  approval_decide decision_id A_GRANTED approver reason now clock.

(** [ApprovalStore.deny] *)
Definition approval_deny (decision_id approver : string) (reason : option string)
    (now : option Z) (clock : Z) : M ApprovalStore ApprovalRecord :=
  approval_decide decision_id A_DENIED approver reason now clock.

(** [ApprovalStore.assert_granted] *)
Definition assert_granted (s : ApprovalStore) (decision_id : string) (now : option Z) (clock : Z)
    : res ApprovalRecord :=
  let now := or_now now clock in
  match by_decision s decision_id with
  | None => err APPROVAL_REQUIRED "human approval required"
  | Some rec =>
      match a_state rec with
      | A_PENDING => err APPROVAL_REQUIRED "human approval required"
      | A_DENIED => err APPROVAL_REQUIRED "approval was denied"
      | A_GRANTED =>
          if is_expired rec now then err APPROVAL_EXPIRED "approval expired before use"
          else Ok rec
      end
  end.

(** * Facts *)

Lemma assert_granted_ok s d now clock r :
  assert_granted s d now clock = Ok r ↔
  by_decision s d = Some r ∧ a_state r = A_GRANTED ∧ (or_now now clock < a_expires_at r)%Z.
Proof.
  unfold assert_granted, is_expired. destruct (by_decision s d) as [x|]; [|naive_solver].
  destruct (a_state x) eqn:Hx; simpl.
  - split; [done|]. intros ([= ->] & ? & _). congruence.
  - case_bool_decide; split; try done.
    + intros ([= ->] & _ & ?). lia.
    + intros [= ->]. split_and!; [done..|lia].
    + by intros ([= ->] & _).
  - split; [done|]. intros ([= ->] & ? & _). congruence.
Qed.

(** What a decision does, if it succeeds. *)
Definition decided (st : ApprovalState) (who : string) (why : option string) (t : Z)
    (r : ApprovalRecord) : ApprovalRecord :=
  mkApproval (approval_id r) (a_decision_id r) (a_agent_id r) (a_action_hash r)
    (a_risk_level r) (classification r) (requested_at r) (a_expires_at r)
    st (Some who) (Some t) why.

Lemma approval_decide_ok d st who why now clock s r s' :
  approval_decide d st who why now clock s = (Ok r, s') ↔
  ∃ r0, by_decision s d = Some r0 ∧ a_state r0 = A_PENDING ∧
    (or_now now clock < a_expires_at r0)%Z ∧ r = decided st who why (or_now now clock) r0 ∧
    s' = mkStore (ap_ttl s) (<[default "" (by_decision_id s !! d) := r]> (by_id s))
           (by_decision_id s).
Proof.
  unfold approval_decide. destruct (by_decision s d) as [r0|] eqn:Hd; [|naive_solver].
  assert (∃ id, by_decision_id s !! d = Some id) as [id Hid].
  { unfold by_decision in Hd. destruct (by_decision_id s !! d); eauto. done. }
  rewrite Hid. simpl. case_decide as Hs.
  { split; [done|]. intros (? & [= ->] & ? & _). congruence. }
  unfold is_expired. case_bool_decide as He.
  { split; [done|]. intros (? & [= ->] & _ & ? & _). lia. }
  split.
  - intros [= <- <-]. exists r0. split_and!; [done..|lia|done|done].
  - intros (? & [= ->] & _ & _ & -> & ->). done.
Qed.

Lemma approval_decide_err d st who why now clock s e s' :
  approval_decide d st who why now clock s = (Err e, s') → s' = s.
Proof. unfold approval_decide, raise, cthrow. repeat case_match; intros [=]; done. Qed.

(** * Histories *)

Inductive approval_op : Type :=
| ARequest (decision_id agent_id action_hash : string) (risk : Z) (cls : string)
    (ttl : option Z) (now : option Z) (clock : Z) (uuid : string)
| AGrant (decision_id approver : string) (reason : option string) (now : option Z) (clock : Z)
| ADeny (decision_id approver : string) (reason : option string) (now : option Z) (clock : Z).

Definition approval_step (s : ApprovalStore) (o : approval_op) : ApprovalStore :=
  match o with
  | ARequest d a h k c ttl now clock u => (approval_request d a h k c ttl now clock u s).2
  | AGrant d who why now clock => (approval_grant d who why now clock s).2
  | ADeny d who why now clock => (approval_deny d who why now clock s).2
  end.

(** Decision and approval identifiers are drawn fresh. *)
Definition approval_fresh (s : ApprovalStore) (o : approval_op) : Prop :=
  match o with
  | ARequest d _ _ _ _ _ _ _ u => by_decision_id s !! d = None ∧ by_id s !! ("appr_" +:+ u) = None
  | _ => True
  end.

(** The two tables agree. *)
Record store_wf (s : ApprovalStore) : Prop := {
  sw_link d id : by_decision_id s !! d = Some id →
    ∃ r, by_id s !! id = Some r ∧ a_decision_id r = d ∧ approval_id r = id ∧ id ≠ "";
}.

Lemma store_wf_get s d id :
  store_wf s → by_decision_id s !! d = Some id → by_decision s d = by_id s !! id.
Proof.
  intros Hwf Hd. unfold by_decision. rewrite Hd.
  destruct (sw_link _ Hwf _ _ Hd) as (r & _ & _ & _ & Hne). by rewrite decide_False.
Qed.

Lemma store_wf_step s o : approval_fresh s o → store_wf s → store_wf (approval_step s o).
Proof.
  assert (Hdec : ∀ d st who why now clock, store_wf s →
    store_wf (approval_decide d st who why now clock s).2).
  { intros d st who why now clock Hwf.
    destruct (approval_decide d st who why now clock s) as [[r|e] s'] eqn:He.
    2: { by apply approval_decide_err in He as ->. }
    apply approval_decide_ok in He as (r0 & Hr0 & _ & _ & -> & ->). simpl.
    unfold by_decision in Hr0. destruct (by_decision_id s !! d) as [id|] eqn:Hid; [|done].
    simpl. constructor. simpl. intros d' id' Hd'.
    destruct (sw_link _ Hwf _ _ Hd') as (r & Hr & Hrd & Hri & Hne).
    destruct (decide (id' = id)) as [->|]; [|rewrite lookup_insert_ne by done; eauto].
    rewrite decide_False in Hr0 by done. rewrite Hr in Hr0. simplify_eq.
    rewrite lookup_insert_eq. eexists. split; [done|]. done. }
  intros Hf Hwf. destruct o; [|by apply Hdec..].
  destruct Hf as [Hfd Hfi]. constructor. simpl. intros d' id' Hd'.
  destruct (decide (d' = decision_id)) as [->|Hne].
  - rewrite lookup_insert_eq in Hd'. injection Hd' as <-. rewrite lookup_insert_eq. eauto.
  - rewrite lookup_insert_ne in Hd' by done.
    destruct (sw_link _ Hwf _ _ Hd') as (r & Hr & Hrest).
    rewrite lookup_insert_ne by congruence. eauto.
Qed.

Lemma store_wf_new ttl : store_wf (new_approval_store ttl).
Proof. constructor. simpl. intros d id Hd. by rewrite lookup_empty in Hd. Qed.

(** How the record of a decision changes in one step: not at all, or a pending
    record is decided before it expires. *)
Lemma approval_step_record s o d r :
  store_wf s → approval_fresh s o → by_decision s d = Some r →
  by_decision (approval_step s o) d = Some r ∨
  a_state r = A_PENDING ∧ ∃ who why now clock,
    (or_now now clock < a_expires_at r)%Z ∧
    ((o = AGrant d who why now clock ∧
      by_decision (approval_step s o) d = Some (decided A_GRANTED who why (or_now now clock) r)) ∨
     (o = ADeny d who why now clock ∧
      by_decision (approval_step s o) d = Some (decided A_DENIED who why (or_now now clock) r))).
Proof.
  intros Hwf Hf Hr.
  assert (Hid : ∃ id, by_decision_id s !! d = Some id).
  { unfold by_decision in Hr. destruct (by_decision_id s !! d); eauto. done. }
  destruct Hid as [id Hid].
  assert (Hdec : ∀ d' st who why now clock,
    by_decision (approval_decide d' st who why now clock s).2 d = Some r ∨
    d' = d ∧ a_state r = A_PENDING ∧ (or_now now clock < a_expires_at r)%Z ∧
    by_decision (approval_decide d' st who why now clock s).2 d
      = Some (decided st who why (or_now now clock) r)).
  { intros d' st who why now clock.
    destruct (approval_decide d' st who why now clock s) as [[x|e] s'] eqn:He.
    2: { apply approval_decide_err in He as ->. by left. }
    apply approval_decide_ok in He as (r0 & Hr0 & Hp & Hlt & -> & ->). simpl.
    pose proof Hr0 as Hid'. unfold by_decision in Hid'.
    destruct (by_decision_id s !! d') as [id'|] eqn:Hd'; [|done]. clear Hid'. simpl.
    pose proof (sw_link _ Hwf _ _ Hid) as (r1 & Hr1 & Hd1 & Hi1 & Hne).
    rewrite (store_wf_get _ _ _ Hwf Hid) in Hr. assert (r1 = r) as -> by congruence.
    rewrite (store_wf_get _ _ _ Hwf Hd') in Hr0.
    pose proof (sw_link _ Hwf _ _ Hd') as (r2 & Hr2 & Hd2 & Hi2 & _).
    assert (r2 = r0) as -> by congruence.
    unfold by_decision. simpl. rewrite Hid, decide_False by done.
    destruct (decide (id' = id)) as [Heq|].
    - right. subst id'. assert (r0 = r) as -> by congruence.
      split_and!; [congruence|done|done|]. by rewrite Hi1, lookup_insert_eq.
    - left. by rewrite lookup_insert_ne. }
  destruct o as [d' ? ? ? ? ? ? ? u|d' who why now clock|d' who why now clock].
  - left. destruct Hf as [Hfd Hfi]. unfold by_decision. simpl.
    rewrite (store_wf_get _ _ _ Hwf Hid) in Hr.
    rewrite lookup_insert_ne, Hid by congruence.
    destruct (sw_link _ Hwf _ _ Hid) as (? & _ & _ & _ & Hne). rewrite decide_False by done.
    by rewrite lookup_insert_ne by congruence.
  - destruct (Hdec d' A_GRANTED who why now clock) as [|(-> & ? & ? & ?)]; [by left|].
    right. split; [done|]. exists who, why, now, clock. eauto.
  - destruct (Hdec d' A_DENIED who why now clock) as [|(-> & ? & ? & ?)]; [by left|].
    right. split; [done|]. exists who, why, now, clock. eauto.
Qed.

Lemma approval_step_new s o d r :
  store_wf s → approval_fresh s o → by_decision s d = None →
  by_decision (approval_step s o) d = Some r → a_state r = A_PENDING.
Proof.
  intros Hwf Hf Hn Hr.
  assert (Hid : by_decision_id s !! d = None).
  { destruct (by_decision_id s !! d) as [id|] eqn:Hid; [|done].
    rewrite (store_wf_get _ _ _ Hwf Hid) in Hn.
    destruct (sw_link _ Hwf _ _ Hid) as (? & ? & _). congruence. }
  assert (Hdec : ∀ d' st who why now clock,
    by_decision (approval_decide d' st who why now clock s).2 d = None).
  { intros d' st who why now clock. unfold by_decision.
    destruct (approval_decide d' st who why now clock s) as [[x|e] s'] eqn:He.
    - apply approval_decide_ok in He as (_ & _ & _ & _ & _ & ->). simpl. by rewrite Hid.
    - apply approval_decide_err in He as ->. simpl. by rewrite Hid. }
  destruct o as [d' ? ? ? ? ? ? ? u|d' who why now clock|d' who why now clock].
  - unfold by_decision in Hr. simpl in Hr. destruct (decide (d = d')) as [->|].
    + rewrite lookup_insert_eq in Hr. rewrite decide_False in Hr by done.
      rewrite lookup_insert_eq in Hr. by injection Hr as <-.
    + by rewrite lookup_insert_ne, Hid in Hr.
  - simpl in Hr. unfold approval_grant in Hr. by rewrite Hdec in Hr.
  - simpl in Hr. unfold approval_deny in Hr. by rewrite Hdec in Hr.
Qed.

(** A grant of decision [d] by [who] at time [t]. *)
Definition grants (d who : string) (t : Z) (o : approval_op) : Prop :=
  ∃ why now clock, o = AGrant d who why now clock ∧ t = or_now now clock.

Lemma approval_run_granted ops s d r :
  guarded approval_step approval_fresh s ops → store_wf s →
  by_decision (run approval_step s ops) d = Some r → a_state r = A_GRANTED →
  by_decision s d = Some r ∨
  ∃ who t, Exists (grants d who t) ops ∧ approver r = Some who ∧ decided_at r = Some t ∧
    (t < a_expires_at r)%Z.
Proof.
  revert s. induction ops as [|o ops IH]; intros s Hg Hwf Hr Hst; [by left|].
  destruct Hg as [Hf Hg]. simpl in Hr.
  destruct (IH _ Hg (store_wf_step _ _ Hf Hwf) Hr Hst) as [Hs|(who & t & Hex & Hrest)].
  2: { right. exists who, t. split; [by constructor 2|done]. }
  destruct (by_decision s d) as [r0|] eqn:H0.
  2: { pose proof (approval_step_new _ _ _ _ Hwf Hf H0 Hs). congruence. }
  destruct (approval_step_record _ _ _ _ Hwf Hf H0) as [Hsame|(Hp & who & why & now & clock & Hlt & Hc)].
  { rewrite Hsame in Hs. by left. }
  right. destruct Hc as [[-> Hc]|[-> Hc]]; rewrite Hc in Hs; injection Hs as <-; [|done].
  exists who, (or_now now clock). split; [|done]. constructor. by exists why, now, clock.
Qed.

Lemma approval_run_kept (P : approval_op → Prop) ops s d r :
  guarded approval_step approval_fresh s ops → store_wf s → by_decision s d = Some r →
  (a_state r = A_PENDING → ∀ o who why now clock,
     P o → o = AGrant d who why now clock ∨ o = ADeny d who why now clock →
     (a_expires_at r ≤ or_now now clock)%Z) →
  Forall P ops → by_decision (run approval_step s ops) d = Some r.
Proof.
  intros Hg Hwf Hr HP Hall. revert s Hg Hwf Hr.
  induction Hall as [|o ops Ho _ IH]; intros s Hg Hwf Hr; [done|].
  destruct Hg as [Hf Hg]. simpl. apply IH; [done|by apply store_wf_step|].
  destruct (approval_step_record _ _ _ _ Hwf Hf Hr) as [Hsame|(Hp & who & why & now & clock & Hlt & Hc)];
    [done|]. exfalso.
  assert (a_expires_at r ≤ or_now now clock)%Z; [|lia].
  eapply (HP Hp o who why); [done|]. destruct Hc as [[-> _]|[-> _]]; eauto.
Qed.

(** Approvals never auto-grant.  After any history of a store that draws its
    identifiers fresh, [assert_granted] returns a record exactly when the record of
    that decision is granted and unexpired; and then a grant of that very decision
    is in the history, by the approver the record names, before it expired. *)
Theorem granted_only_by_approver ttl ops d now clock r :
  guarded approval_step approval_fresh (new_approval_store ttl) ops →
  let s := run approval_step (new_approval_store ttl) ops in
  (assert_granted s d now clock = Ok r ↔
     by_decision s d = Some r ∧ a_state r = A_GRANTED ∧ (or_now now clock < a_expires_at r)%Z) ∧
  (assert_granted s d now clock = Ok r →
     ∃ who t, Exists (grants d who t) ops ∧ approver r = Some who ∧ (t < a_expires_at r)%Z).
Proof.
  intros Hg s. split; [apply assert_granted_ok|].
  intros (Hr & Hst & _)%assert_granted_ok.
  destruct (approval_run_granted _ _ _ _ Hg (store_wf_new ttl) Hr Hst)
    as [Hn|(who & t & Hex & Ha & _ & Hlt)]; [|eauto].
  unfold by_decision in Hn. simpl in Hn. by rewrite lookup_empty in Hn.
Qed.

(** A decided approval is final and a lapsed one stays lapsed.  Whatever
    happens to the store later: a granted or denied record of a decision is never
    changed again; and a pending record that nobody decides before it expires is
    never changed either, so it never becomes usable. *)
Theorem approval_is_final ttl ops ops' d r :
  guarded approval_step approval_fresh (new_approval_store ttl) (ops ++ ops') →
  let s := run approval_step (new_approval_store ttl) ops in
  by_decision s d = Some r →
  let s' := run approval_step s ops' in
  (a_state r ≠ A_PENDING → by_decision s' d = Some r) ∧
  (a_state r = A_PENDING →
   Forall (λ o, match o with
                | AGrant _ _ _ now clock | ADeny _ _ _ now clock => a_expires_at r ≤ or_now now clock
                | ARequest _ _ _ _ _ _ _ _ _ => True
                end)%Z ops' →
   by_decision s' d = Some r ∧ ∀ now clock, is_ok (assert_granted s' d now clock) = false).
Proof.
  intros [Hg Hg']%guarded_app s Hr s'.
  assert (Hwf : store_wf s).
  { eapply run_invariant_guarded; [apply store_wf_step|exact Hg|apply store_wf_new]. }
  split.
  - intros Hst. apply (approval_run_kept (λ _, True)); try done. by apply Forall_true.
  - intros Hst Hall.
    assert (Hk : by_decision s' d = Some r).
    { eapply approval_run_kept; [done..| |exact Hall].
      intros _ o who why now clock Ho [->| ->]; exact Ho. }
    split; [done|]. intros now clock. unfold assert_granted. by rewrite Hk, Hst.
Qed.

(** * Witnesses *)

Definition ex_approvals : list approval_op :=
  [ARequest "dec_1" "agt_1" "sha256:a" 4 "SECRET" None (Some 0%Z) 0 "u1";
   ARequest "dec_2" "agt_1" "sha256:b" 4 "SECRET" (Some 60%Z) (Some 0%Z) 0 "u2";
   AGrant "dec_1" "alice" None (Some 1000000%Z) 0].
Definition ex_late : list approval_op :=
  [ADeny "dec_1" "mallory" None (Some 2000000%Z) 0;
   AGrant "dec_2" "alice" None (Some 60000000%Z) 0].
Definition ex_granted : ApprovalRecord :=
  mkApproval "appr_u1" "dec_1" "agt_1" "sha256:a" 4 "SECRET" 0 900000000 A_GRANTED
    (Some "alice") (Some 1000000%Z) None.

Lemma ex_approvals_guarded :
  guarded approval_step approval_fresh (new_approval_store 900) (ex_approvals ++ ex_late).
Proof. vm_compute. repeat split. Qed.

(** At a decision granted by alice. *)
Lemma granted_only_by_approver_witness :
  ∃ who t, Exists (grants "dec_1" who t) ex_approvals ∧ approver ex_granted = Some who ∧
           (t < a_expires_at ex_granted)%Z.
Proof.
  pose proof ex_approvals_guarded as [Hg _]%guarded_app.
  destruct (granted_only_by_approver 900 ex_approvals "dec_1" (Some 5000000%Z) 0 ex_granted Hg)
    as [_ Hx].
  apply Hx. vm_compute. reflexivity.
Defined.

(** At the same decision, which a later denial does not change. *)
Lemma approval_is_final_witness :
  by_decision (run approval_step (run approval_step (new_approval_store 900) ex_approvals) ex_late)
    "dec_1" = Some ex_granted.
Proof.
  assert (Hr : by_decision (run approval_step (new_approval_store 900) ex_approvals) "dec_1"
               = Some ex_granted) by (vm_compute; reflexivity).
  destruct (approval_is_final 900 ex_approvals ex_late "dec_1" ex_granted
    ex_approvals_guarded Hr) as [Hx _].
  apply Hx. discriminate.
Defined.

(** The request for the second decision lapsed before its grant came. *)
Example ex_lapsed :
  res_code (assert_granted
    (run approval_step (run approval_step (new_approval_store 900) ex_approvals) ex_late)
    "dec_2" (Some 60000000%Z) 0) = Some APPROVAL_REQUIRED.
Proof. vm_compute. reflexivity. Qed.
