(* ===== verification/Policy.v ===== *)
(** Policy: the OPA input, the authorization rules themselves
    ([policy/rego/cvztte/authz.rego]), the client that runs OPA and fails closed, and
    the registry of hash-pinned bundles ([cvztte/policy]).

    The OPA process is an interface from the input document to what it answers; the
    rules of [authz.rego] instantiate it. *)

From S2P Require Export Delegation.

(** * Model ([policy/model.py]) *)

(** [RiskTier] *)
Inductive RiskTier : Set := L0 | L1 | L2 | L3 | L4.
Definition RiskTier_value (t : RiskTier) : Z :=
  match t with L0 => 0 | L1 => 1 | L2 => 2 | L3 => 3 | L4 => 4 end.

(** [PolicyDecision] *)
Record PolicyDecision : Set := mkPolicyDecision {
  allow : bool;
  reason_code : string;
  risk_level : Z;
  require_gnark_authz : bool;
  require_behavior_check : bool;
  require_ezkl : bool;
  require_human_approval : bool
}.

(** * The input document ([policy/opa_input.py]) *)

(** [Grant] *)
Record Grant : Type := mkGrant {
  g_capabilities : gset string;
  g_resource_scopes : gset string;
  g_clearance : DataClassification;
  allow_external_network : bool;
  network_allowlist : gset string;
  shell_permitted : bool;
  secret_access_permitted : bool;
  max_db_rows : Z;
  max_external_bytes : Z
}.

(** [sorted(s)] of a set of strings, as a JSON array. *)
Definition sorted_json (s : gset string) : json := JArr (JStr <$> sorted_strings (elements s)).

(** [Grant.to_input] *)
Definition to_input (g : Grant) : json :=
  JObj [ ("capabilities", sorted_json (g_capabilities g));
         ("resource_scopes", sorted_json (g_resource_scopes g));
         ("clearance", JStr (DataClassification_value (g_clearance g)));
         ("allow_external_network", JBool (allow_external_network g));
         ("network_allowlist", sorted_json (network_allowlist g));
         ("shell_permitted", JBool (shell_permitted g));
         ("secret_access_permitted", JBool (secret_access_permitted g));
         ("max_db_rows", JInt (max_db_rows g));
         ("max_external_bytes", JInt (max_external_bytes g)) ].

(** [grant_from_delegation] *)
Definition grant_from_delegation (d : Delegation) (network_allowlist : option (gset string))
    (max_db_rows max_external_bytes : Z) : Grant :=
  let caps := capabilities d in
  mkGrant caps (resource_scopes d) (clearance d)
    (bool_decide ("net:external" ∈ caps)) (default ∅ network_allowlist)
    (bool_decide ("shell:exec" ∈ caps)) (bool_decide ("secret:read" ∈ caps))
    max_db_rows max_external_bytes.

(** [x or y] on an optional string. *)
Definition str_or (o : option string) (s : string) : string :=
  match o with Some x => if decide (x = "") then s else x | None => s end.

(** [build_authz_input] *)
Definition build_authz_input (a : AgentAction) (g : Grant) (destination_domain : option string)
    (row_count byte_count : option Z) : json :=
  JObj
    [ ("action", JObj
        ([ ("action_type", JStr (ActionType_value (action_type a)));
           ("operation", JStr (str_or (operation a) ""));
           ("resource", JStr (str_or (resource a) (target a)));
           ("data_classification", JStr (DataClassification_value (data_classification a))) ]
         ++ match destination_domain with Some d => [("destination_domain", JStr d)] | None => [] end
         ++ match row_count with Some n => [("row_count", JInt n)] | None => [] end
         ++ match byte_count with Some n => [("byte_count", JInt n)] | None => [] end));
      ("grant", to_input g) ].

(** * The rules ([authz.rego])

    A Rego expression over an undefined reference is undefined, which makes the rule
    body that contains it fail and its negation succeed; references are [option]s.
    The documents [build_authz_input] makes hold only strings, integers, booleans and
    arrays of strings, and the references are read at those types. *)

Definition ref (i : json) (k1 k2 : string) : option json :=
  match i with
  | JObj kvs => match dget k1 kvs with Some (JObj kvs') => dget k2 kvs' | _ => None end
  | _ => None
  end.
Definition ref_str (i : json) (k1 k2 : string) : option string :=
  match ref i k1 k2 with Some (JStr s) => Some s | _ => None end.
Definition ref_int (i : json) (k1 k2 : string) : option Z :=
  match ref i k1 k2 with Some (JInt n) => Some n | _ => None end.
(** The strings of an array. *)
Definition ref_strs (i : json) (k1 k2 : string) : list string :=
  match ref i k1 k2 with
  | Some (JArr l) => omap (λ v, match v with JStr s => Some s | _ => None end) l
  | _ => []
  end.
(** A reference used as a condition holds when it is defined and not [false]. *)
Definition ref_true (i : json) (k1 k2 : string) : bool :=
  match ref i k1 k2 with Some (JBool false) | None => false | Some _ => true end.

Definition member (x : option string) (l : list string) : bool :=
  match x with Some s => bool_decide (s ∈ l) | None => false end.
Definition gt_opt (x y : option Z) : bool :=
  match x, y with Some a, Some b => bool_decide (b < a)%Z | _, _ => false end.
Definition ge_opt (x : option Z) (n : Z) : bool :=
  match x with Some a => bool_decide (n ≤ a)%Z | None => false end.

Definition class_rank (s : string) : option Z :=
  dget s [("PUBLIC", 0); ("INTERNAL", 1); ("CONFIDENTIAL", 2); ("SECRET", 3)]%Z.

Definition static_cap : odict string string :=
  [ ("FILE_READ", "fs:read");
    ("MEMORY_READ", "memory:read");
    ("FILE_WRITE", "fs:write");
    ("FILE_DELETE", "fs:write");
    ("MEMORY_WRITE", "memory:write");
    ("NETWORK_REQUEST", "net:external");
    ("API_REQUEST", "net:external");
    ("EXTERNAL_MESSAGE", "net:external");
    ("AGENT_MESSAGE", "agent:message");
    ("USER_OUTPUT", "output:user");
    ("TOOL_CALL", "tool:call");
    ("MCP_CALL", "tool:call");
    ("CLOUD_CONTROL_ACTION", "cloud:control");
    ("PROCESS_EXEC", "shell:exec");
    ("SHELL_EXEC", "shell:exec");
    ("CODE_EXECUTION", "shell:exec");
    ("SECRET_ACCESS", "secret:read");
    ("FHE_ENCRYPT", "fhe:encrypt");
    ("FHE_COMPUTE", "fhe:compute");
    ("FHE_DECRYPT_REQUEST", "fhe:decrypt");
    ("FHE_PARTIAL_DECRYPT", "fhe:decrypt");
    ("FHE_COMBINE_DECRYPT", "fhe:decrypt");
    ("FHE_REENCRYPT", "fhe:compute");
    ("FHE_KEY_ROTATE", "fhe:admin");
    ("FHE_CONTEXT_CREATE", "fhe:admin") ].

Section rules.
Variable input : json.

Definition act : option string := ref_str input "action" "action_type".
Definition act_is (s : string) : bool := bool_decide (act = Some s).

Definition required_capability : string :=
  if act_is "DB_OPERATION" && bool_decide (ref_str input "action" "operation" = Some "read")
  then "db:read"
  else if act_is "DB_OPERATION" then "db:write"
  else match act with
       | Some t => match dget t static_cap with Some c => c | None => "unknown:capability" end
       | None => "unknown:capability"
       end.

Definition action_class : option Z :=
  match ref_str input "action" "data_classification" with Some c => class_rank c | None => None end.
Definition clearance_rank : option Z :=
  match ref_str input "grant" "clearance" with Some c => class_rank c | None => None end.

Definition is_network : bool := member act ["NETWORK_REQUEST"; "API_REQUEST"; "EXTERNAL_MESSAGE"].
Definition is_shell : bool := member act ["PROCESS_EXEC"; "SHELL_EXEC"; "CODE_EXECUTION"].
Definition is_secret : bool := act_is "SECRET_ACCESS".
Definition is_decrypt : bool :=
  member act ["FHE_DECRYPT_REQUEST"; "FHE_PARTIAL_DECRYPT"; "FHE_COMBINE_DECRYPT"].
Definition is_write : bool := member act ["FILE_WRITE"; "FILE_DELETE"; "MEMORY_WRITE"].
Definition is_db_write : bool :=
  act_is "DB_OPERATION" &&
  match ref_str input "action" "operation" with
  | Some o => negb (bool_decide (o = "read"))
  | None => false
  end.

Definition scope_covered : bool :=
  match ref_str input "action" "resource" with
  | Some r => existsb (λ s, str_startswith r s) (ref_strs input "grant" "resource_scopes")
  | None => false
  end.

(** The [violation] set. *)
Definition violation : list string :=
  (if bool_decide (required_capability ∈ ref_strs input "grant" "capabilities") then []
   else ["CAPABILITY_MISSING"]) ++
  (if scope_covered then [] else ["SCOPE_NOT_COVERED"]) ++
  (if gt_opt action_class clearance_rank then ["CLEARANCE_INSUFFICIENT"] else []) ++
  (if is_network && negb (ref_true input "grant" "allow_external_network")
   then ["EXTERNAL_NETWORK_FORBIDDEN"] else []) ++
  (if is_network && negb (member (ref_str input "action" "destination_domain")
                                 (ref_strs input "grant" "network_allowlist"))
   then ["DOMAIN_NOT_ALLOWLISTED"] else []) ++
  (if is_shell && negb (ref_true input "grant" "shell_permitted") then ["SHELL_FORBIDDEN"] else []) ++
  (if is_secret && negb (ref_true input "grant" "secret_access_permitted")
   then ["SECRET_ACCESS_FORBIDDEN"] else []) ++
  (if gt_opt (ref_int input "action" "row_count") (ref_int input "grant" "max_db_rows")
   then ["DB_ROW_LIMIT_EXCEEDED"] else []) ++
  (if gt_opt (ref_int input "action" "byte_count") (ref_int input "grant" "max_external_bytes")
   then ["EXTERNAL_BYTE_LIMIT_EXCEEDED"] else []).

Definition rego_allow : bool := bool_decide (violation = []).
Definition rego_reason : string :=
  if rego_allow then "ALLOW" else default "" (head (sorted_strings violation)).

(** The [risk_candidates] set and its maximum. *)
Definition risk_candidates : list Z :=
  ([0] ++
   (if ge_opt action_class 1 then [1] else []) ++
   (if ge_opt action_class 2 then [2] else []) ++
   (if member act ["FILE_READ"; "DB_OPERATION"; "MEMORY_READ"] then [2] else []) ++
   (if is_write then [3] else []) ++
   (if is_db_write then [3] else []) ++
   (if is_network then [3] else []) ++
   (if is_shell then [4] else []) ++
   (if is_secret then [4] else []) ++
   (if is_decrypt then [4] else []))%Z.
Definition rego_risk : Z := foldr Z.max 0%Z risk_candidates.

(** The [decision] document. *)
Definition authz_decision : PolicyDecision :=
  mkPolicyDecision rego_allow rego_reason rego_risk
    (bool_decide (3 ≤ rego_risk)%Z) (bool_decide (2 ≤ rego_risk)%Z)
    (bool_decide (3 ≤ rego_risk)%Z) (bool_decide (4 ≤ rego_risk)%Z).
End rules.

Definition decision_json (d : PolicyDecision) : json :=
  JObj [ ("allow", JBool (allow d)); ("reason_code", JStr (reason_code d));
         ("risk_level", JInt (risk_level d));
         ("require_gnark_authz", JBool (require_gnark_authz d));
         ("require_behavior_check", JBool (require_behavior_check d));
         ("require_ezkl", JBool (require_ezkl d));
         ("require_human_approval", JBool (require_human_approval d)) ].

(** * The client ([policy/opa_client.py]) *)

(** What [subprocess.run] of [opa eval] on a document gives: it cannot be started or
    times out, or it exits with a code and an output, here as [json.loads] reads it
    ([None] is its [ValueError]). *)
Inductive opa_answer : Set :=
| OpaNotRun
| OpaExited (returncode : Z) (stdout : option json).

Class OPA := { opa_eval : json → opa_answer }.

(** [PolicyDecision.model_validate]; [None] is the validation error. *)
Class PolicySchema := { validate_decision : json → option PolicyDecision }.

(** What the schema says: the risk level is bounded, and a document with the
    declared fields at their declared types is read as it is. *)
Definition schema_bounded `{PolicySchema} : Prop :=
  ∀ v d, validate_decision v = Some d → (0 ≤ risk_level d ≤ 4)%Z.
Definition schema_exact `{PolicySchema} : Prop :=
  ∀ d, (0 ≤ risk_level d ≤ 4)%Z → validate_decision (decision_json d) = Some d.

(** [_resolve_opa] *)
Definition resolve_opa (which : option string) : res string :=
  match which with
  | Some found => Ok found
  | None => err OPA_UNAVAILABLE "opa binary not found"
  end.

(** [OPAClient.__init__]: the bundle must exist and the binary be given or found. *)
Definition new_opa_client (bundle_exists : bool) (opa_bin which : option string) : res string :=
  if negb bundle_exists then err OPA_UNAVAILABLE "policy bundle path missing"
  else match opa_bin with
       | Some b => if decide (b = "") then resolve_opa which else Ok b
       | None => resolve_opa which
       end.

(** [parsed["result"][0]["expressions"][0]["value"]]; [None] is the [KeyError],
    [IndexError] or [TypeError] (for a string, whose first character no key indexes,
    it is the [TypeError] of the lookup that follows). *)
Definition item_key (k : string) (v : json) : option json :=
  match v with JObj kvs => dget k kvs | _ => None end.
Definition item_0 (v : json) : option json :=
  match v with
  | JArr (x :: _) => Some x
  | _ => None
  end.
Definition decision_value (parsed : json) : option json :=
  r ← item_key "result" parsed; r ← item_0 r;
  e ← item_key "expressions" r; e ← item_0 e; item_key "value" e.

Section client.
Context `{OPA, PolicySchema}.

(** [OPAClient.evaluate] *)
Definition opa_evaluate (input_doc : json) : res PolicyDecision :=
  match opa_eval input_doc with
  | OpaNotRun => err OPA_UNAVAILABLE "opa evaluation failed"
  | OpaExited rc stdout =>
      if decide (rc ≠ 0%Z) then err OPA_UNAVAILABLE "opa returned an error"
      else match stdout ≫= decision_value with
           | None => err OPA_UNAVAILABLE "opa produced no decision"
           | Some value =>
               match validate_decision value with
               | Some d => Ok d
               | None => err OPA_UNAVAILABLE "opa decision failed schema"
               end
           end
  end.

(** [OPAClient.authorize] *)
Definition opa_authorize (input_doc : json) : res PolicyDecision :=
  let? decision := opa_evaluate input_doc in
  if negb (allow decision) then err OPA_DENY "policy denied action" else Ok decision.
End client.

(** OPA evaluating [data.cvztte.authz.decision] of the bundle. *)
Definition authz_engine : OPA :=
  {| opa_eval := λ doc, OpaExited 0 (Some (JObj
       [("result", JArr [JObj [("expressions", JArr [JObj
          [("value", decision_json (authz_decision doc));
           ("text", JStr "data.cvztte.authz.decision")]])]])])) |}.

(** * Bundles ([policy/bundle.py]) *)

(** The parts of a relative path, in whose order [sorted] puts [Path]s. *)
Fixpoint path_parts (acc : string) (s : string) : list string :=
  match s with
  | EmptyString => [str_rev acc]
  | String c s =>
      if decide (c = Ascii.ascii_of_nat 47) then str_rev acc :: path_parts "" s
      else path_parts (String c acc) s
  end.
Fixpoint parts_leb (p q : list string) : bool :=
  match p, q with
  | [], _ => true
  | _ :: _, [] => false
  | x :: p, y :: q => if decide (x = y) then parts_leb p q else String.leb x y
  end.
Fixpoint insert_file (f : string * string) (l : list (string * string)) : list (string * string) :=
  match l with
  | [] => [f]
  | f' :: l' =>
      if parts_leb (path_parts "" f.1) (path_parts "" f'.1) then f :: l else f' :: insert_file f l'
  end.
Definition sorted_files (l : list (string * string)) : list (string * string) :=
  foldr insert_file [] l.

(** [PolicyBundle] *)
Record PolicyBundle : Set := mkBundle { b_version : string; b_path : string; b_policy_hash : string }.

(** [PolicyBundleRegistry] *)
Record PolicyBundleRegistry : Type := mkBundles {
  bundles : gmap string PolicyBundle;
  active_hash : option string
}.
Definition new_bundles : PolicyBundleRegistry := mkBundles ∅ None.

Section bundle.
Context `{Hashlib, Rfc8785}.

Definition bundle_manifest (files : list (string * string)) (version : string) : json :=
  JObj [ ("version", JStr version);
         ("files", JArr ((λ f, JObj [("path", JStr f.1); ("sha256", JStr (hex (sha256 f.2)))])
                           <$> sorted_files files)) ].

(** [compute_bundle_hash]; [files] are the regular files [rglob("*.rego")] finds, as
    paths relative to the bundle with their bytes. *)
Definition compute_bundle_hash (files : list (string * string)) (version : string) : res string :=
  match files with
  | [] => err OPA_UNAVAILABLE "policy bundle has no rego files"
  | _ => commit D_POLICY (bundle_manifest files version)
  end.

(** [PolicyBundleRegistry.register] *)
Definition register_bundle (bundle_dir : string) (files : list (string * string)) (version : string)
    (activate : bool) : M PolicyBundleRegistry PolicyBundle :=
  let! policy_hash := clift (compute_bundle_hash files version) in
  λ r,
    let bundle := mkBundle version bundle_dir policy_hash in
    (Ok bundle,
     mkBundles (<[policy_hash := bundle]> (bundles r))
       (if activate || bool_decide (active_hash r = None) then Some policy_hash else active_hash r)).

(** [PolicyBundleRegistry.active] *)
Definition active_bundle (r : PolicyBundleRegistry) : res PolicyBundle :=
  match active_hash r with
  | None => err OPA_UNAVAILABLE "no active policy bundle"
  | Some h =>
      match bundles r !! h with
      | Some b => Ok b
      | None => Err (PyExc "KeyError" h)
      end
  end.

(** [PolicyBundleRegistry.activate] *)
Definition activate_bundle (policy_hash : string) : M PolicyBundleRegistry PolicyBundle :=
  λ r, match bundles r !! policy_hash with
       | None => raise POLICY_HASH_MISMATCH "unknown policy bundle" r
       | Some b => (Ok b, mkBundles (bundles r) (Some policy_hash))
       end.

(** [PolicyBundleRegistry.require_pinned] *)
Definition require_pinned (r : PolicyBundleRegistry) (policy_hash : string) : res PolicyBundle :=
  let? active := active_bundle r in
  if decide (policy_hash ≠ b_policy_hash active) then
    err POLICY_HASH_MISMATCH "request policy_hash does not match active bundle"
  else Ok active.

Inductive bundle_op : Type :=
| BRegister (dir : string) (files : list (string * string)) (version : string) (activate : bool)
| BActivate (policy_hash : string).

Definition bundle_step (r : PolicyBundleRegistry) (o : bundle_op) : PolicyBundleRegistry :=
  match o with
  | BRegister d f v a => (register_bundle d f v a r).2
  | BActivate h => (activate_bundle h r).2
  end.

(** Every bundle is filed under the hash of files that were read when it was
    registered, and the active hash is one of them. *)
Record bundles_wf (ops : list bundle_op) (r : PolicyBundleRegistry) : Prop := {
  bw_hash h b : bundles r !! h = Some b → b_policy_hash b = h ∧
    ∃ dir files version act, BRegister dir files version act ∈ ops ∧
      compute_bundle_hash files version = Ok h;
  bw_active h : active_hash r = Some h → is_Some (bundles r !! h)
}.

Lemma bundles_wf_step ops r o : bundles_wf ops r → bundles_wf (ops ++ [o]) (bundle_step r o).
Proof.
  intros [Hh Ha].
  assert (Hmon : ∀ h b, bundles r !! h = Some b → b_policy_hash b = h ∧
    ∃ dir files version act, BRegister dir files version act ∈ ops ++ [o] ∧
      compute_bundle_hash files version = Ok h).
  { intros h b Hb. destruct (Hh _ _ Hb) as (? & d & f & v & a & Hin & ?).
    split; [done|]. exists d, f, v, a. split; [set_solver|done]. }
  destruct o as [d f v a|h]; simpl.
  - unfold register_bundle, cbind, clift.
    destruct (compute_bundle_hash f v) as [h|] eqn:Hc; [|by split]. split; simpl.
    + intros h' b. destruct (decide (h = h')) as [<-|]; [|rewrite lookup_insert_ne by done; auto].
      rewrite lookup_insert_eq. intros [= <-]. split; [done|].
      exists d, f, v, a. split; [set_solver|done].
    + intros h' Hh'. destruct (decide (h = h')) as [<-|]; [rewrite lookup_insert_eq; eauto|].
      rewrite lookup_insert_ne by done. apply Ha.
      destruct (a || _); [congruence|done].
  - unfold activate_bundle. destruct (bundles r !! h) as [b|] eqn:Hb; split; simpl; auto.
    intros h' [= <-]. eauto.
Qed.

Lemma bundles_wf_run ops : bundles_wf ops (run bundle_step new_bundles ops).
Proof.
  induction ops as [|o ops IH] using rev_ind.
  - split; [intros h b Hb; simpl in Hb; by rewrite lookup_empty in Hb|done].
  - rewrite run_app. by apply bundles_wf_step.
Qed.

(** The policy pin.  After any history of the bundle registry, [require_pinned]
    accepts exactly the active hash, which is the commitment computed over the
    version and the files of some registered bundle; and two bundles with one hash
    have manifests (version, paths and file digests) with the same canonical bytes,
    or SHA-256 collides. *)
Theorem policy_pin_exact ops h b :
  let r := run bundle_step new_bundles ops in
  (require_pinned r h = Ok b ↔ active_hash r = Some h ∧ bundles r !! h = Some b) ∧
  (require_pinned r h = Ok b → b_policy_hash b = h ∧
     ∃ dir files version act, BRegister dir files version act ∈ ops ∧
       compute_bundle_hash files version = Ok h ∧
       ∀ files' version', compute_bundle_hash files' version' = Ok h →
         rfc8785_dumps (bundle_manifest files version)
         = rfc8785_dumps (bundle_manifest files' version') ∨ sha_collision).
Proof.
  intros r. pose proof (bundles_wf_run ops) as [Hh Ha]. fold r in Hh, Ha.
  assert (Hiff : require_pinned r h = Ok b ↔ active_hash r = Some h ∧ bundles r !! h = Some b).
  { unfold require_pinned, active_bundle. destruct (active_hash r) as [h'|] eqn:Hact; simpl.
    2: { split; [done|by intros [? _]]. }
    destruct (Ha _ eq_refl) as [b' Hb']. rewrite Hb'. simpl.
    destruct (Hh _ _ Hb') as [Hb'h _].
    case_decide as Hd; split; try done; [|intros [= <-]; split; congruence|]; intros [? ?];
      congruence. }
  split; [done|]. intros [Hact Hb]%Hiff.
  destruct (Hh _ _ Hb) as (Hbh & d & f & v & a & Hin & Hc). split; [done|].
  exists d, f, v, a. split_and!; [done..|]. intros f' v' Hc'.
  unfold compute_bundle_hash in Hc, Hc'. destruct f; [done|]. destruct f'; [done|].
  apply commit_ok in Hc as (x & Hx & ->), Hc' as (y & Hy & Heq).
  apply domain_hash_hex_inj in Heq as [[_ ->]|?]; [left; congruence|by right].
Qed.
End bundle.

(** * What the rules mean *)

(** The capability an action needs. *)
Definition capability_for (a : AgentAction) : string :=
  match action_type a with
  | DB_OPERATION => if decide (operation a = Some "read") then "db:read" else "db:write"
  | FILE_READ => "fs:read"
  | FILE_WRITE | FILE_DELETE => "fs:write"
  | MEMORY_READ => "memory:read"
  | MEMORY_WRITE => "memory:write"
  | NETWORK_REQUEST | API_REQUEST | EXTERNAL_MESSAGE => "net:external"
  | AGENT_MESSAGE => "agent:message"
  | USER_OUTPUT => "output:user"
  | TOOL_CALL | MCP_CALL => "tool:call"
  | CLOUD_CONTROL_ACTION => "cloud:control"
  | PROCESS_EXEC | SHELL_EXEC | CODE_EXECUTION => "shell:exec"
  | SECRET_ACCESS => "secret:read"
  | FHE_ENCRYPT => "fhe:encrypt"
  | FHE_COMPUTE | FHE_REENCRYPT => "fhe:compute"
  | FHE_DECRYPT_REQUEST | FHE_PARTIAL_DECRYPT | FHE_COMBINE_DECRYPT => "fhe:decrypt"
  | FHE_KEY_ROTATE | FHE_CONTEXT_CREATE => "fhe:admin"
  end.

Definition networked (a : AgentAction) : Prop := capability_for a = "net:external".
Definition runs_code (a : AgentAction) : Prop := capability_for a = "shell:exec".
Definition reads_secret (a : AgentAction) : Prop := capability_for a = "secret:read".
Definition decrypts (a : AgentAction) : Prop := capability_for a = "fhe:decrypt".

(** The action stays inside the envelope of capabilities, scopes and clearance. *)
Record in_envelope (a : AgentAction) (caps scopes : gset string) (clr : DataClassification) : Prop := {
  ie_cap : capability_for a ∈ caps;
  ie_scope : ∃ s, s ∈ scopes ∧ str_startswith (str_or (resource a) (target a)) s = true;
  ie_class : (clearance_order (data_classification a) ≤ clearance_order clr)%Z
}.

(** And meets the gates and limits of the grant. *)
Record permitted (a : AgentAction) (g : Grant) (dest : option string) (rows bytes : option Z) : Prop := {
  pm_envelope : in_envelope a (g_capabilities g) (g_resource_scopes g) (g_clearance g);
  pm_net : networked a → allow_external_network g = true ∧
    ∃ d, dest = Some d ∧ d ∈ network_allowlist g;
  pm_shell : runs_code a → shell_permitted g = true;
  pm_secret : reads_secret a → secret_access_permitted g = true;
  pm_rows : ∀ n, rows = Some n → (n ≤ max_db_rows g)%Z;
  pm_bytes : ∀ n, bytes = Some n → (n ≤ max_external_bytes g)%Z
}.

Lemma sorted_json_strs s :
  match sorted_json s with
  | JArr l => omap (λ v, match v with JStr s => Some s | _ => None end) l
  | _ => []
  end = sorted_strings (elements s).
Proof. unfold sorted_json. induction (sorted_strings (elements s)); csimpl; congruence. Qed.

Lemma elem_sorted x (s : gset string) : x ∈ sorted_strings (elements s) ↔ x ∈ s.
Proof. by rewrite sorted_strings_perm, elem_of_elements. Qed.

Lemma none_if {A} (b : bool) (x : A) : (if b then [x] else []) = [] ↔ b = false.
Proof. by destruct b. Qed.
Lemma none_unless {A} (b : bool) (x : A) : (if b then [] else [x]) = [] ↔ b = true.
Proof. by destruct b. Qed.

Lemma gate_off (P : Prop) `{!Decision P} (b : bool) :
  bool_decide P && negb b = false ↔ (P → b = true).
Proof. case_bool_decide; destruct b; naive_solver. Qed.

Lemma within_limit (o : option Z) (m : Z) :
  gt_opt o (Some m) = false ↔ ∀ n, o = Some n → (n ≤ m)%Z.
Proof.
  destruct o as [n|]; simpl; [|naive_solver]. rewrite bool_decide_eq_false.
  split; [intros ? ? [= ->]; lia|]. intros Hn. specialize (Hn _ eq_refl). lia.
Qed.

Section doc.
Variables (a : AgentAction) (g : Grant) (dest : option string) (rows bytes : option Z).
Local Notation doc := (build_authz_input a g dest rows bytes).

Lemma doc_act : act doc = Some (ActionType_value (action_type a)).
Proof. reflexivity. Qed.
Lemma doc_operation : ref_str doc "action" "operation" = Some (str_or (operation a) "").
Proof. reflexivity. Qed.
Lemma doc_caps : ref_strs doc "grant" "capabilities" = sorted_strings (elements (g_capabilities g)).
Proof. exact (sorted_json_strs (g_capabilities g)). Qed.
Lemma doc_scopes :
  ref_strs doc "grant" "resource_scopes" = sorted_strings (elements (g_resource_scopes g)).
Proof. exact (sorted_json_strs (g_resource_scopes g)). Qed.
Lemma doc_allowlist :
  ref_strs doc "grant" "network_allowlist" = sorted_strings (elements (network_allowlist g)).
Proof. exact (sorted_json_strs (network_allowlist g)). Qed.
Lemma doc_dest : ref_str doc "action" "destination_domain" = dest.
Proof. by destruct dest, rows, bytes. Qed.
Lemma doc_rows : ref_int doc "action" "row_count" = rows.
Proof. by destruct dest, rows, bytes. Qed.
Lemma doc_bytes : ref_int doc "action" "byte_count" = bytes.
Proof. by destruct dest, rows, bytes. Qed.
Lemma doc_class : action_class doc = Some (clearance_order (data_classification a)).
Proof.
  unfold action_class. change (ref_str doc "action" "data_classification")
    with (Some (DataClassification_value (data_classification a))).
  by destruct (data_classification a).
Qed.
Lemma doc_clearance : clearance_rank doc = Some (clearance_order (g_clearance g)).
Proof.
  unfold clearance_rank. change (ref_str doc "grant" "clearance")
    with (Some (DataClassification_value (g_clearance g))).
  by destruct (g_clearance g).
Qed.

Lemma doc_required : required_capability doc = capability_for a.
Proof.
  unfold required_capability, act_is. rewrite doc_act, doc_operation. unfold capability_for.
  destruct (action_type a); try reflexivity. simpl.
  unfold str_or. destruct (operation a) as [o|]; simpl; [|done].
  repeat (case_bool_decide || case_decide); naive_solver.
Qed.

Lemma doc_flags :
  is_network doc = bool_decide (networked a) ∧ is_shell doc = bool_decide (runs_code a) ∧
  is_secret doc = bool_decide (reads_secret a) ∧ is_decrypt doc = bool_decide (decrypts a).
Proof.
  unfold is_network, is_shell, is_secret, is_decrypt, act_is, networked, runs_code, reads_secret,
    decrypts. rewrite doc_act. unfold capability_for.
  destruct (action_type a); try (vm_compute; done). case_decide; vm_compute; done.
Qed.

Lemma doc_scope_covered :
  scope_covered doc = true ↔
  ∃ s, s ∈ g_resource_scopes g ∧ str_startswith (str_or (resource a) (target a)) s = true.
Proof.
  unfold scope_covered. rewrite doc_scopes.
  change (ref_str doc "action" "resource") with (Some (str_or (resource a) (target a))).
  rewrite existsb_exists. split; intros (s & Hs & Hp); exists s; (split; [|done]).
  - apply elem_sorted. by apply list_elem_of_In.
  - apply list_elem_of_In. by apply elem_sorted.
Qed.

(** The rules allow exactly the permitted actions. *)
Lemma rego_allow_iff : rego_allow doc = true ↔ permitted a g dest rows bytes.
Proof.
  unfold rego_allow. rewrite bool_decide_eq_true. unfold violation.
  destruct doc_flags as (-> & -> & -> & _).
  rewrite doc_required, doc_caps, doc_class, doc_clearance, doc_dest, doc_allowlist, doc_rows,
    doc_bytes.
  change (ref_int doc "grant" "max_db_rows") with (Some (max_db_rows g)).
  change (ref_int doc "grant" "max_external_bytes") with (Some (max_external_bytes g)).
  change (ref_true doc "grant" "allow_external_network") with
    (if allow_external_network g then true else false).
  change (ref_true doc "grant" "shell_permitted") with (if shell_permitted g then true else false).
  change (ref_true doc "grant" "secret_access_permitted") with
    (if secret_access_permitted g then true else false).
  rewrite !app_nil, !none_if, !none_unless, doc_scope_covered, bool_decide_eq_true, elem_sorted,
    !gate_off, !within_limit.
  assert (Hnet : member dest (sorted_strings (elements (network_allowlist g))) = true ↔
    ∃ d, dest = Some d ∧ d ∈ network_allowlist g).
  { destruct dest as [d|]; simpl; [|naive_solver].
    rewrite bool_decide_eq_true, elem_sorted. naive_solver. }
  rewrite Hnet.
  assert (Hid : ∀ b : bool, (if b then true else false) = b) by (by intros []). rewrite !Hid.
  split.
  - intros (Hc & Hs & Hcl & Hn & Hd & Hsh & Hse & Hr & Hb). constructor; auto.
    constructor; [done|done|by apply Hcl].
  - intros [[Hc Hs Hcl] Hn Hsh Hse Hr Hb]. split_and!; auto; [by intros n [= <-]|..]; intros Hx;
      by destruct (Hn Hx).
Qed.

(** The deterministic floor of the risk tier. *)
Lemma rego_risk_bounds : (0 ≤ rego_risk doc ≤ 4)%Z.
Proof.
  unfold rego_risk, risk_candidates. rewrite doc_class.
  repeat match goal with |- context [if ?b then _ else _] => destruct b end; simpl; lia.
Qed.

Lemma rego_approval :
  require_human_approval (authz_decision doc) = true ↔ runs_code a ∨ reads_secret a ∨ decrypts a.
Proof.
  change (require_human_approval (authz_decision doc)) with (bool_decide (4 ≤ rego_risk doc)%Z).
  rewrite bool_decide_eq_true. unfold rego_risk, risk_candidates.
  destruct doc_flags as (_ & -> & -> & ->).
  repeat case_bool_decide; try (split; [by eauto|intros _]);
    repeat match goal with |- context [if ?b then _ else _] => destruct b end; simpl; try lia;
    split; try lia; naive_solver.
Qed.
End doc.

Section properties.
Context `{PolicySchema}.

Lemma opa_authorize_ok `{OPA} doc d :
  opa_authorize doc = Ok d ↔
  ∃ parsed v, opa_eval doc = OpaExited 0 (Some parsed) ∧ decision_value parsed = Some v ∧
    validate_decision v = Some d ∧ allow d = true.
Proof.
  unfold opa_authorize, opa_evaluate.
  destruct (opa_eval doc) as [|rc out]; [split; [done|by intros (? & ? & ? & _)]|].
  case_decide as Hrc; [split; [done|intros (? & ? & [= ? _] & _); congruence]|].
  assert (rc = 0%Z) as -> by lia.
  destruct out as [parsed|]; simpl; [|split; [done|by intros (? & ? & ? & _)]].
  destruct (decision_value parsed) as [v|] eqn:Hv; simpl;
    [|split; [done|intros (? & ? & [= <-] & ? & _); congruence]].
  destruct (validate_decision v) as [d'|] eqn:Hd; simpl;
    [|split; [done|intros (? & ? & [= <-] & ? & ? & _); congruence]].
  destruct (allow d') eqn:Ha; simpl; split.
  - intros [= <-]. by exists parsed, v.
  - intros (? & ? & [= <-] & ? & ? & _). congruence.
  - done.
  - intros (? & ? & [= <-] & ? & ? & ?). congruence.
Qed.

(** The OPA client fails closed.  Whatever the process does, [authorize] returns
    a decision only when it ran, exited with code 0, and its output holds, at the
    expected place, a document that passes the schema and says [allow]; in every
    other case it raises [OPA_DENY] or [OPA_UNAVAILABLE], the former only for a
    well-formed denial. *)
Theorem opa_fails_closed `{OPA} doc :
  (∀ d, opa_authorize doc = Ok d ↔
    ∃ parsed v, opa_eval doc = OpaExited 0 (Some parsed) ∧ decision_value parsed = Some v ∧
      validate_decision v = Some d ∧ allow d = true) ∧
  (is_ok (opa_authorize doc) = false →
    res_code (opa_authorize doc) = Some OPA_UNAVAILABLE ∨
    res_code (opa_authorize doc) = Some OPA_DENY ∧
      ∃ parsed v d, opa_eval doc = OpaExited 0 (Some parsed) ∧ decision_value parsed = Some v ∧
        validate_decision v = Some d ∧ allow d = false).
Proof.
  split; [intros d; apply opa_authorize_ok|].
  unfold opa_authorize, opa_evaluate. destruct (opa_eval doc) as [|rc out]; [by left|].
  case_decide as Hrc; [by left|]. assert (rc = 0%Z) as -> by lia.
  destruct out as [parsed|]; simpl; [|by left].
  destruct (decision_value parsed) as [v|] eqn:Hv; simpl; [|by left].
  destruct (validate_decision v) as [d'|] eqn:Hd; simpl; [|by left].
  destruct (allow d') eqn:Ha; simpl; [done|]. intros _. right. split; [done|]. by exists parsed, v, d'.
Qed.

(** C14. What policy allows is inside the delegation, all the way to its root.  Take
    any delegation of a registry built by any history, the grant derived from it and
    the rules of the bundle.  [authorize] returns a decision exactly when the action
    is permitted by the grant; the decision's tier is between 0 and 4 and it asks for
    human approval exactly for code execution, secret access and decryption; and the
    capability the action needs, the scope that covers its resource, its
    classification, and "net:external", "shell:exec" or "secret:read" where it needs
    them, are all within what every ancestor of the delegation holds. *)
Theorem allowed_within_delegation auths ops r k d allowlist rows_max bytes_max a dest rows bytes :
  schema_exact → reachable auths ops r → dget k (delegations r) = Some d →
  let g := grant_from_delegation d allowlist rows_max bytes_max in
  let doc := build_authz_input a g dest rows bytes in
  (is_ok (opa_authorize (H := authz_engine) doc) = true ↔ permitted a g dest rows bytes) ∧
  ∀ dec, opa_authorize (H := authz_engine) doc = Ok dec →
    (0 ≤ risk_level dec ≤ 4)%Z ∧
    (require_human_approval dec = true ↔ runs_code a ∨ reads_secret a ∨ decrypts a) ∧
    ∀ anc, desc (delegations r) k anc →
      ∃ ad, dget anc (delegations r) = Some ad ∧
        in_envelope a (capabilities ad) (resource_scopes ad) (clearance ad) ∧
        (networked a → "net:external" ∈ capabilities ad) ∧
        (runs_code a → "shell:exec" ∈ capabilities ad) ∧
        (reads_secret a → "secret:read" ∈ capabilities ad).
Proof.
  intros Hschema Hwf%reachable_wf Hd g doc.
  pose proof (Hschema (authz_decision doc) (rego_risk_bounds a g dest rows bytes)) as Hval.
  assert (Hauth : ∀ dec, opa_authorize (H := authz_engine) doc = Ok dec ↔
    dec = authz_decision doc ∧ permitted a g dest rows bytes).
  { intros dec. rewrite opa_authorize_ok, <-rego_allow_iff. fold doc.
    change (rego_allow doc) with (allow (authz_decision doc)). split.
    - intros (p & v & [= <-] & [= <-] & Hv & Ha). rewrite Hval in Hv. by injection Hv as <-.
    - intros [-> Ha]. eexists _, _. by split_and!. }
  split.
  - destruct (opa_authorize doc) as [dec|x] eqn:Hr; simpl.
    + destruct (proj1 (Hauth dec) eq_refl) as [_ Hp]. done.
    + split; [done|]. intros Hp. pose proof (proj2 (Hauth _) (conj eq_refl Hp)). congruence.
  - intros dec [-> [Henv Hnet Hsh Hse _ _]]%Hauth.
    split_and!; [apply rego_risk_bounds|apply rego_risk_bounds|apply rego_approval..|].
    intros anc Hanc. destruct (desc_envelope _ _ _ _ Hwf Hanc Hd) as (ad & Had & Hle).
    exists ad. destruct Henv as [Hc (s & Hs & Hp) Hcl]. simpl in *.
    pose proof (ev_caps _ _ Hle) as Hcaps. pose proof (ev_scopes _ _ Hle) as Hsc.
    pose proof (ev_clr _ _ Hle) as Hclr.
    split_and!; [done|constructor; [set_solver|exists s; split; [set_solver|done]|lia]|..].
    + intros Hn. destruct (Hnet Hn) as [Hb%bool_decide_eq_true _]. set_solver.
    + intros Hn. pose proof (Hsh Hn) as Hb%bool_decide_eq_true. set_solver.
    + intros Hn. pose proof (Hse Hn) as Hb%bool_decide_eq_true. set_solver.
Qed.
End properties.

(** * Witnesses *)

(** A schema that reads documents exactly as declared. *)
Definition strict_bool (k : string) (kvs : odict string json) : option bool :=
  match dget k kvs with Some (JBool b) => Some b | _ => None end.
Definition strict_schema : PolicySchema :=
  {| validate_decision v :=
       match v with
       | JObj kvs =>
           match dget "reason_code" kvs, dget "risk_level" kvs with
           | Some (JStr r), Some (JInt n) =>
               if bool_decide (0 ≤ n ≤ 4)%Z then
                 al ← strict_bool "allow" kvs; gn ← strict_bool "require_gnark_authz" kvs;
                 be ← strict_bool "require_behavior_check" kvs; ez ← strict_bool "require_ezkl" kvs;
                 hu ← strict_bool "require_human_approval" kvs;
                 Some (mkPolicyDecision al r n gn be ez hu)
               else None
           | _, _ => None
           end
       | _ => None
       end |}.

Lemma strict_schema_exact : schema_exact (H := strict_schema).
Proof.
  intros [al r n gn be ez hu] Hn. simpl in *. by rewrite bool_decide_true by lia.
Qed.

Definition pol_ops : list deleg_op :=
  [DIssueRoot "auth" "alice" {["fs:read"; "shell:exec"]} {["/data"]} SECRET 0 100 2 "r";
   DIssueChild "dlg_r" "bob" {["fs:read"]} {["/data"]} INTERNAL 10 50 20 "c"].
Definition pol_registry := run deleg_step (new_registry ex_auths) pol_ops.
Definition pol_child := mkDelegation "dlg_c" "bob" {["fs:read"]} {["/data"]} INTERNAL
  10 50 2 1 (Some "dlg_r") "alice" false None.
Definition pol_action : AgentAction :=
  mkAction 1 FILE_READ "/data/report.txt" None None [] INTERNAL None.
Lemma pol_reachable : reachable ex_auths pol_ops pol_registry.
Proof. split; [|reflexivity]. repeat split; vm_compute; reflexivity. Qed.
Lemma pol_child_get : dget "dlg_c" (delegations pol_registry) = Some pol_child.
Proof. vm_compute. reflexivity. Qed.
Lemma pol_child_desc : desc (delegations pol_registry) "dlg_c" "dlg_r".
Proof.
  eapply desc_step; [apply pol_child_get|reflexivity|].
  eapply desc_refl. vm_compute. reflexivity.
Qed.

(** C14 at a file read by the second agent of a chain. *)
Lemma allowed_within_delegation_witness :
  ∃ ad, dget "dlg_r" (delegations pol_registry) = Some ad ∧
    in_envelope pol_action (capabilities ad) (resource_scopes ad) (clearance ad).
Proof.
  destruct (allowed_within_delegation (H := strict_schema) ex_auths pol_ops pol_registry "dlg_c"
    pol_child None 0 0 pol_action None None None strict_schema_exact pol_reachable pol_child_get)
    as [_ Hd].
  assert (Ha : ∃ dec, opa_authorize (H := authz_engine) (H0 := strict_schema)
    (build_authz_input pol_action (grant_from_delegation pol_child None 0 0) None None None) = Ok dec)
    by (eexists; vm_compute; reflexivity).
  destruct Ha as [dec Ha]. destruct (Hd dec Ha) as (_ & _ & Hanc).
  destruct (Hanc "dlg_r" pol_child_desc) as (ad & Had & He & _).
  exists ad. exact (conj Had He).
Defined.

Definition broken_opa : OPA := {| opa_eval := λ _, OpaExited 1 None |}.

(** At an engine that exits with an error. *)
Lemma opa_fails_closed_witness :
  res_code (opa_authorize (H := broken_opa) (H0 := strict_schema) JNull) = Some OPA_UNAVAILABLE.
Proof.
  pose proof (opa_fails_closed (H := strict_schema) (H0 := broken_opa) JNull) as [_ Hx].
  assert (Hf : is_ok (opa_authorize (H := broken_opa) (H0 := strict_schema) JNull) = false)
    by (vm_compute; reflexivity).
  destruct (Hx Hf) as [Hc|(_ & p & v & d & Hn & _)]; [exact Hc|].
  change (OpaExited 1 None = OpaExited 0 (Some p)) in Hn. congruence.
Defined.

(** The same read outside the scope, and a shell command, are denied. *)
Example pol_denials :
  (λ a, res_code (opa_authorize (H := authz_engine) (H0 := strict_schema)
     (build_authz_input a (grant_from_delegation pol_child None 0 0) None None None))) <$>
  [mkAction 1 FILE_READ "/etc/passwd" None None [] INTERNAL None;
   mkAction 1 SHELL_EXEC "/data/run.sh" None None [] INTERNAL None;
   mkAction 1 FILE_READ "/data/report.txt" None None [] SECRET None]
  = [Some OPA_DENY; Some OPA_DENY; Some OPA_DENY].
Proof. vm_compute. reflexivity. Qed.
(** The scope is a string prefix: it also covers a sibling whose name it begins. *)
Example pol_prefix :
  is_ok (opa_authorize (H := authz_engine) (H0 := strict_schema)
     (build_authz_input (mkAction 1 FILE_READ "/database/passwords" None None [] INTERNAL None)
        (grant_from_delegation pol_child None 0 0) None None None)) = true.
Proof. vm_compute. reflexivity. Qed.
