(* ===== verification/ControlPlane.v ===== *)
(** The control plane ([cvztte/control_plane/plane.py]): the pipeline that composes
    request verification, the replay guard, sessions, containment, policy, approval
    and the Decision Token authority, and the mediated execution behind it.

    The plane runs against the interfaces of its parts: the signature provider, the
    OPA process, the replay guard and the receipt sink. *)

From S2P Require Export Validator Request Replay Approval Policy Containment.

(** [_CONTAINMENT_BLOCK_CODES] *)
Definition containment_block_code (s : ContainmentState) : ErrorCode :=
  match s with
  | RESTRICTED => CONTAINMENT_RESTRICTED
  | QUARANTINED => CONTAINMENT_QUARANTINED
  | TERMINATED => CONTAINMENT_TERMINATED
  | _ => CONTAINMENT_RESTRICTED
  end.

(** [containment_subject] *)
Definition containment_subject (b : AdapterBinding) : string :=
  b_agent_id b +:+ "|" +:+ b_runtime_id b +:+ "|" +:+ b_session_id b.

(** [DecisionStatus] *)
Inductive DecisionStatus : Set := DS_ALLOW | DS_DENY | DS_PENDING_APPROVAL.
Definition DecisionStatus_value (s : DecisionStatus) : string :=
  match s with
  | DS_ALLOW => "ALLOW" | DS_DENY => "DENY" | DS_PENDING_APPROVAL => "PENDING_APPROVAL"
  end.
#[export] Instance DecisionStatus_eq_dec : EqDecision DecisionStatus.
Proof. solve_decision. Defined.

(** [EvaluationResult] *)
Record EvaluationResult : Set := mkEvaluation {
  status : DecisionStatus;
  e_decision_id : string;
  e_agent_id : string;
  e_action_hash : string;
  e_audience : string;
  e_risk_level : Z;
  e_containment_state : ContainmentState;
  e_reason_code : string;
  e_approval_id : option string;
  e_token : option SignedDecisionToken
}.

(** [EvaluationResult.public_view] *)
Definition evaluation_public_view (r : EvaluationResult) : list (string * json) :=
  [ ("status", JStr (DecisionStatus_value (status r)));
    ("decision_id", JStr (e_decision_id r)); ("agent_id", JStr (e_agent_id r));
    ("action_hash", JStr (e_action_hash r)); ("audience", JStr (e_audience r));
    ("risk_level", JInt (e_risk_level r));
    ("containment_state", JStr (ContainmentState_value (e_containment_state r)));
    ("reason_code", JStr (e_reason_code r)); ("approval_id", jopt (e_approval_id r));
    ("token_issued", JBool (bool_decide (e_token r ≠ None))) ].

(** [_PendingMint] *)
Record PendingMint : Set := mkPending {
  pm_action : AgentAction;
  pm_binding : AdapterBinding;
  pm_audience : string;
  pm_policy_hash : string;
  pm_risk_level : Z;
  pm_containment_state : ContainmentState;
  pm_checks : TokenChecks
}.

(** [_DecisionEntry] *)
Record DecisionEntry : Set := mkEntry {
  de_result : EvaluationResult;
  de_pending : option PendingMint;
  de_created_at : Z
}.

(** [ExecuteOutcome] *)
Record ExecuteOutcome : Set := mkExecuteOutcome {
  eo_evaluation : EvaluationResult;
  eo_outcome : option MediationOutcome
}.

(** What [ControlPlane.__init__] fixes. *)
Record PlaneConfig : Set := mkConfig {
  authority : DecisionTokenAuthority;
  plane_policy_hash : string;
  require_approval_from_tier : RiskTier
}.

(** The identifiers drawn during one call: the decision, the approval, and those of
    the token. *)
Record plane_draws : Set := mkPlaneDraws {
  pd_decision : string;
  pd_approval : string;
  pd_token : draws
}.

Section plane.
Context `{Hashlib, Rfc8785, Pydantic, SignatureProvider, IsoParser, OPA, PolicySchema}.
Context {G E K W : Type} `{ReplayGuardProtocol G E} `{ReceiptSink K}.

(** [ControlPlane]: its parts and its table of decisions.  The enforcement side
    shares two objects with the plane: the presented-token store, which lives in the
    validator of [enforcement], and the [EpochSource], which lives in the
    containment engine and is what the validator reads ([shared_epochs]). *)
Record ControlPlane : Type := mkPlane {
  key_registry : KeyRegistry;
  session_store : SessionStore;
  approvals : ApprovalStore;
  replay_guard : option G;
  containment : ContainmentEngine;
  enforcement : enforcement_state DecisionTokenValidator K W;
  decisions : gmap string DecisionEntry
}.

Definition set_sessions (x : SessionStore) (s : ControlPlane) : ControlPlane :=
  mkPlane (key_registry s) x (approvals s) (replay_guard s) (containment s) (enforcement s)
    (decisions s).
Definition set_approvals (x : ApprovalStore) (s : ControlPlane) : ControlPlane :=
  mkPlane (key_registry s) (session_store s) x (replay_guard s) (containment s) (enforcement s)
    (decisions s).
Definition set_replay (x : option G) (s : ControlPlane) : ControlPlane :=
  mkPlane (key_registry s) (session_store s) (approvals s) x (containment s) (enforcement s)
    (decisions s).
Definition set_containment (x : ContainmentEngine) (s : ControlPlane) : ControlPlane :=
  mkPlane (key_registry s) (session_store s) (approvals s) (replay_guard s) x (enforcement s)
    (decisions s).
Definition set_enforcement (x : enforcement_state DecisionTokenValidator K W) (s : ControlPlane)
    : ControlPlane :=
  mkPlane (key_registry s) (session_store s) (approvals s) (replay_guard s) (containment s) x
    (decisions s).
Definition set_decisions (x : gmap string DecisionEntry) (s : ControlPlane) : ControlPlane :=
  mkPlane (key_registry s) (session_store s) (approvals s) (replay_guard s) (containment s)
    (enforcement s) x.

Definition on_approvals {A} (m : M ApprovalStore A) : M ControlPlane A :=
  czoom approvals set_approvals m.
Definition on_containment {A} (m : M ContainmentEngine A) : M ControlPlane A :=
  czoom containment set_containment m.

(** [self._decisions[decision_id] = entry] *)
Definition store_entry (decision_id : string) (e : DecisionEntry) : M ControlPlane unit :=
  cmodify (λ s, set_decisions (<[decision_id := e]> (decisions s)) s).

(** [self._store.present(signed)] *)
Definition present_token (signed : SignedDecisionToken) : M ControlPlane unit :=
  cmodify (λ s,
    let es := enforcement s in
    set_enforcement (mkES (present signed (validator es)).2 (sink es) (world es)) s).

(** [self._replay.check_and_commit(...)], if a guard is wired. *)
Definition commit_freshness (env : E) (r : SignedActionRequest) : M ControlPlane unit :=
  λ s, match replay_guard s with
       | None => (Ok (), s)
       | Some g =>
           let '(x, g') := check_and_commit env (r_session_id r) (r_nonce r) (r_sequence r) g in
           (x, set_replay (Some g') s)
       end.

(** [ControlPlane.create_session] *)
Definition create_session (agent_id runtime_id : string) (ttl_seconds : option Z)
    (now : option Z) (clock : Z) (uuid : string) : M ControlPlane Session :=
  let! s := cget in
  let! _ := clift (require_agent (key_registry s) agent_id) in
  czoom session_store set_sessions
    (session_create agent_id runtime_id (default DEFAULT_SESSION_TTL_SECONDS ttl_seconds)
       now clock uuid).

(** The containment gate of [evaluate] and [approve]. *)
Definition containment_gate (b : AdapterBinding) (msg : string) : M ControlPlane ContainmentState :=
  let! s := cget in
  let subject := containment_subject b in
  let state := engine_state (containment s) subject in
  if engine_blocks (containment s) subject then raise (containment_block_code state) msg
  else cret state.

(** [ControlPlane._mint] *)
Definition mint (cfg : PlaneConfig) (decision_id : string) (action : AgentAction)
    (binding : AdapterBinding) (aud policy_hash : string) (risk_level : Z)
    (cs : ContainmentState) (reason_code : string) (checks : TokenChecks) (now clock : Z)
    (dr : draws) : M ControlPlane EvaluationResult :=
  let! s := cget in
  let! signed := clift (issue (authority cfg) action binding aud policy_hash
    (epoch_source (containment s)) TD_ALLOW risk_level cs (Some checks) (Some decision_id) 1 None
    (Some now) clock dr) in
  let! _ := present_token signed in
  let! ah := clift (action_hash action) in
  cret (mkEvaluation DS_ALLOW decision_id (b_agent_id binding) ah aud risk_level cs reason_code
          None (Some signed)).

(** [request.delegation_id or None] *)
Definition binding_of (r : SignedActionRequest) : AdapterBinding :=
  mkBinding (r_agent_id r) (r_runtime_id r) (r_session_id r)
    (if decide (r_delegation_id r = "") then None else Some (r_delegation_id r)).

(** [self._policy_hash or None] *)
Definition policy_pin (cfg : PlaneConfig) : option string :=
  if decide (plane_policy_hash cfg = "") then None else Some (plane_policy_hash cfg).

Definition evaluation_checks : TokenChecks := mkChecks true true false false "UNKNOWN" false.

(** Step 6 of [evaluate]: park the decision. *)
Definition park (decision_id : string) (request : SignedActionRequest) (aud : string)
    (decision : PolicyDecision) (cs : ContainmentState) (now clock : Z) (uuid : string)
    : M ControlPlane EvaluationResult :=
  let action := r_action request in
  let! ah := clift (action_hash action) in
  let! _ := on_approvals (approval_request decision_id (r_agent_id request) ah
    (risk_level decision) (DataClassification_value (data_classification action)) None
    (Some now) clock uuid) in
  let! s := cget in
  let appr := by_decision (approvals s) decision_id in
  let result := mkEvaluation DS_PENDING_APPROVAL decision_id (r_agent_id request) ah aud
    (risk_level decision) cs (code_value APPROVAL_REQUIRED) (approval_id <$> appr) None in
  let! _ := store_entry decision_id (mkEntry result
    (Some (mkPending action (binding_of request) aud (r_policy_hash request)
             (risk_level decision) cs evaluation_checks)) clock) in
  cret result.

(** [ControlPlane.evaluate] *)
Definition plane_evaluate (cfg : PlaneConfig) (envelope : SignedEnvelope) (grant : Grant)
    (aud : string) (destination_domain : option string) (row_count byte_count : option Z)
    (now : option Z) (clock : Z) (env : E) (dr : plane_draws) : M ControlPlane EvaluationResult :=
  let now := or_now now clock in
  let! s := cget in
  let! request := clift (verify_request (key_registry s) envelope (Some now) clock (policy_pin cfg)) in
  let action := r_action request in
  let binding := binding_of request in
  let! _ := commit_freshness env request in
  let! _ := clift (session_validate (session_store s) (r_session_id request) (r_agent_id request)
                     (r_runtime_id request) (Some now) clock) in
  let! cs := containment_gate binding "subject is contained; new consequential tokens are blocked" in
  let! decision := clift (opa_authorize
    (build_authz_input action grant destination_domain row_count byte_count)) in
  let decision_id := "dec_" +:+ pd_decision dr in
  if require_human_approval decision
     || bool_decide (RiskTier_value (require_approval_from_tier cfg) ≤ risk_level decision)%Z
  then park decision_id request aud decision cs now clock (pd_approval dr)
  else
    let! result := mint cfg decision_id action binding aud (r_policy_hash request)
      (risk_level decision) cs (reason_code decision) evaluation_checks now clock (pd_token dr) in
    let! _ := store_entry decision_id (mkEntry result None clock) in
    cret result.

(** [result.model_copy(update={"approval_id": ...})] *)
Definition with_approval (r : EvaluationResult) (id : string) : EvaluationResult :=
  mkEvaluation (status r) (e_decision_id r) (e_agent_id r) (e_action_hash r) (e_audience r)
    (e_risk_level r) (e_containment_state r) (e_reason_code r) (Some id) (e_token r).

(** [ControlPlane.approve] *)
Definition plane_approve (cfg : PlaneConfig) (decision_id approver : string) (now : option Z)
    (clock : Z) (dr : draws) : M ControlPlane EvaluationResult :=
  let now := or_now now clock in
  let! s := cget in
  match decisions s !! decision_id with
  | None => raise APPROVAL_REQUIRED "unknown decision"
  | Some entry =>
      match de_pending entry with
      | None => raise APPROVAL_REQUIRED "decision does not require approval"
      | Some p =>
          let! _ := on_approvals (approval_grant decision_id approver None (Some now) clock) in
          let! s := cget in
          let! approval := clift (assert_granted (approvals s) decision_id (Some now) clock) in
          let! cs := containment_gate (pm_binding p)
                       "subject became contained; approval cannot mint" in
          let! result := mint cfg decision_id (pm_action p) (pm_binding p) (pm_audience p)
            (pm_policy_hash p) (pm_risk_level p) cs "APPROVED" (pm_checks p) now clock dr in
          let result := with_approval result (approval_id approval) in
          let! _ := store_entry decision_id (mkEntry result None clock) in
          cret result
      end
  end.

(** [ControlPlane.deny_approval]; the view has every field of the record's public
    view. *)
Definition deny_approval (decision_id approver : string) (reason : option string)
    (now : option Z) (clock : Z) : M ControlPlane json :=
  let! rec := on_approvals (approval_deny decision_id approver reason now clock) in
  cret (approval_public_view rec).

(** [ControlPlane.get_decision] *)
Definition get_decision (s : ControlPlane) (decision_id : string) : res EvaluationResult :=
  match decisions s !! decision_id with
  | Some e => Ok (de_result e)
  | None => err DECISION_TOKEN_INVALID "unknown decision"
  end.

(** The enforcement side as a broker's validator sees it: epochs come from the
    shared source. *)
Definition shared_epochs (s : ControlPlane) : enforcement_state DecisionTokenValidator K W :=
  let es := enforcement s in
  mkES (set_epochs (epoch_source (containment s)) (validator es)) (sink es) (world es).

Definition on_enforcement {A} (m : M (enforcement_state DecisionTokenValidator K W) A)
    : M ControlPlane A :=
  λ s, let '(r, es) := m (shared_epochs s) in (r, set_enforcement es s).

(** [ControlPlane.evaluate_execute]; [mediated_at] is the clock during mediation. *)
Definition evaluate_execute {Req} (cfg : PlaneConfig) (envelope : SignedEnvelope) (grant : Grant)
    (broker : EnforcementBroker Req W) (broker_request : Req) (destination_domain : option string)
    (row_count byte_count : option Z) (now : option Z) (clock : Z) (env : E) (dr : plane_draws)
    (mediated_at : Z) : M ControlPlane ExecuteOutcome :=
  let! evaluation := plane_evaluate cfg envelope grant (audience broker) destination_domain
    row_count byte_count now clock env dr in
  if decide (status evaluation ≠ DS_ALLOW) then cret (mkExecuteOutcome evaluation None)
  else
    let! outcome := on_enforcement (mediate broker broker_request
      (binding_of (request envelope)) mediated_at) in
    cret (mkExecuteOutcome evaluation (Some outcome)).

(** [ContainmentTransition.model_dump(mode="json")] *)
Definition transition_json (t : ContainmentTransition) : json :=
  JObj [ ("subject", JStr (tr_subject t)); ("agent_id", JStr (tr_agent_id t));
         ("runtime_id", jopt (tr_runtime_id t));
         ("old_state", JStr (ContainmentState_value (old_state t)));
         ("new_state", JStr (ContainmentState_value (new_state t)));
         ("reason_codes", JArr (JStr <$> tr_reason_codes t));
         ("evidence_hash", JStr (tr_evidence_hash t));
         ("capability_epoch", JInt (tr_capability_epoch t)); ("at", JStr (tr_at t)) ].

(** [ControlPlane.containment_status] *)
Definition containment_status (s : ControlPlane) (subject : string) : json :=
  let e := containment s in
  JObj [ ("subject", JStr subject);
         ("state", JStr (ContainmentState_value (engine_state e subject)));
         ("blocks_new_consequential_tokens", JBool (engine_blocks e subject));
         ("transitions", JArr (transition_json <$> engine_transitions e subject));
         ("epochs", epochs_json (epoch_source e)) ].

(** [ControlPlane.quarantine] *)
Definition quarantine (subject agent_id : string) (runtime_id : option string)
    (reason_codes : list string) (target : ContainmentState) (now : option Z) (clock : Z)
    : M ControlPlane json :=
  let! transition := on_containment
    (kill_switch subject agent_id target reason_codes runtime_id now clock) in
  cret (transition_json transition).

(** [ControlPlane.reset_containment] *)
Definition reset_containment (subject agent_id : string) (method : RecoveryMethod)
    (approver runtime_id : option string) (now : option Z) (clock : Z) : M ControlPlane json :=
  let! transition := on_containment
    (recover subject agent_id method approver runtime_id now clock) in
  cret (transition_json transition).
End plane.

(** * One call of the plane *)

Section facts.
Context `{Hashlib, Rfc8785, Pydantic, SignatureProvider, IsoParser, OPA, PolicySchema}.
Context {G E K W : Type} `{ReplayGuardProtocol G E} `{ReceiptSink K}.
Abbreviation plane := (ControlPlane (G := G) (K := K) (W := W)).

(** Opening a session changes the sessions only. *)
Lemma create_session_frame agent runtime ttl now clock uuid (s : plane) :
  ∃ x, (create_session agent runtime ttl now clock uuid s).2 = set_sessions x s.
Proof.
  unfold create_session, cbind, cget, clift, czoom. destruct (require_agent _ _).
  - destruct (session_create _ _ _ _ _ _ _) as [r x]. by exists x.
  - exists (session_store s). by destruct s.
Qed.

Definition presented (signed : SignedDecisionToken) (s : plane) : plane :=
  (present_token signed s).2.

Definition needs_approval (cfg : PlaneConfig) (d : PolicyDecision) : bool :=
  require_human_approval d
  || bool_decide (RiskTier_value (require_approval_from_tier cfg) ≤ risk_level d)%Z.

(** At most the replay guard has changed, by one freshness check. *)
Definition replay_only (s s' : plane) : Prop :=
  ∃ g, s' = set_replay g s ∧
    (g = replay_guard s ∨ ∃ env r, g = replay_guard (commit_freshness env r s).2).

Lemma replay_only_refl s : replay_only s s.
Proof. exists (replay_guard s). split; [by destruct s|by left]. Qed.

Lemma commit_freshness_only env r s x s' : commit_freshness env r s = (x, s') → replay_only s s'.
Proof.
  intros Hc. exists (replay_guard s'). split.
  - unfold commit_freshness in Hc. destruct (replay_guard s) as [g|] eqn:Hg.
    + destruct (check_and_commit _ _ _ _ _) as [y g']. by injection Hc as _ <-.
    + injection Hc as _ <-. rewrite Hg, <-Hg. by destruct s.
  - right. exists env, r. by rewrite Hc.
Qed.

(** The token [mint] issues in state [s]. *)
Definition minted (cfg : PlaneConfig) (did : string) (a : AgentAction) (b : AdapterBinding)
    (aud ph : string) (rl : Z) (cs : ContainmentState) (ck : TokenChecks) (now clock : Z)
    (dr : draws) (s : plane) (signed : SignedDecisionToken) : Prop :=
  issue (authority cfg) a b aud ph (epoch_source (containment s)) TD_ALLOW rl cs (Some ck)
    (Some did) 1 None (Some now) clock dr = Ok signed.

Lemma minted_hash cfg did a b aud ph rl cs ck now clock dr s signed :
  minted cfg did a b aud ph rl cs ck now clock dr s signed →
  action_hash a = Ok (t_action_hash (token signed)).
Proof. intros (_ & _ & Ha & _)%issue_ok. exact Ha. Qed.

Definition allow_result (did : string) (b : AdapterBinding) (aud : string) (rl : Z)
    (cs : ContainmentState) (rc : string) (signed : SignedDecisionToken) : EvaluationResult :=
  mkEvaluation DS_ALLOW did (b_agent_id b) (t_action_hash (token signed)) aud rl cs rc None
    (Some signed).

Lemma mint_cases cfg did a b aud ph rl cs rc ck now clock dr s r s' :
  mint cfg did a b aud ph rl cs rc ck now clock dr s = (r, s') →
  (∃ x, r = Err x ∧ s' = s) ∨
  ∃ signed, minted cfg did a b aud ph rl cs ck now clock dr s signed ∧
    r = Ok (allow_result did b aud rl cs rc signed) ∧ s' = presented signed s.
Proof.
  unfold mint, cbind, cget, clift. destruct (issue _ _ _ _ _ _ _ _ _ _ _ _ _ _ _ _) as [signed|x] eqn:Hi.
  - pose proof (minted_hash cfg did a b aud ph rl cs ck now clock dr s signed Hi) as Ha.
    unfold present_token, cmodify. rewrite Ha. intros [= <- <-]. right. exists signed. by split_and!.
  - intros [= <- <-]. left. eauto.
Qed.

(** What [evaluate] has established when it comes to the approval question. *)
Record gates (cfg : PlaneConfig) (envelope : SignedEnvelope) (grant : Grant)
    (dest : option string) (rows bytes : option Z) (now clock : Z) (env : E) (s s1 : plane)
    (cs : ContainmentState) (dec : PolicyDecision) : Prop := {
  gt_authentic : verify_request (key_registry s) envelope (Some now) clock (policy_pin cfg)
                 = Ok (request envelope);
  gt_fresh : commit_freshness env (request envelope) s = (Ok (), s1);
  gt_session : is_ok (session_validate (session_store s) (r_session_id (request envelope))
    (r_agent_id (request envelope)) (r_runtime_id (request envelope)) (Some now) clock) = true;
  gt_state : cs = engine_state (containment s) (containment_subject (binding_of (request envelope)));
  gt_contained : blocks_new_consequential_tokens cs = false;
  gt_policy : opa_authorize (build_authz_input (r_action (request envelope)) grant dest rows bytes)
              = Ok dec
}.

Lemma evaluate_cases cfg envelope grant aud dest rows bytes now clock env dr s r s' :
  plane_evaluate cfg envelope grant aud dest rows bytes now clock env dr s = (r, s') →
  let t := or_now now clock in
  let did := "dec_" +:+ pd_decision dr in
  let q := request envelope in
  (∃ x, r = Err x ∧ replay_only s s') ∨
  ∃ s1 cs dec ah,
    gates cfg envelope grant dest rows bytes t clock env s s1 cs dec ∧ replay_only s s1 ∧
    action_hash (r_action q) = Ok ah ∧
    ((needs_approval cfg dec = true ∧ ∃ res,
       r = Ok res ∧ status res = DS_PENDING_APPROVAL ∧ e_decision_id res = did ∧ e_token res = None ∧
       s' = set_decisions
         (<[did := mkEntry res (Some (mkPending (r_action q) (binding_of q) aud (r_policy_hash q)
              (risk_level dec) cs evaluation_checks)) clock]> (decisions s))
         (set_approvals (approval_request did (r_agent_id q) ah (risk_level dec)
              (DataClassification_value (data_classification (r_action q))) None (Some t) clock
              (pd_approval dr) (approvals s)).2 s1)) ∨
     (needs_approval cfg dec = false ∧ ∃ signed,
       minted cfg did (r_action q) (binding_of q) aud (r_policy_hash q) (risk_level dec) cs
         evaluation_checks t clock (pd_token dr) s signed ∧
       r = Ok (allow_result did (binding_of q) aud (risk_level dec) cs (reason_code dec) signed) ∧
       s' = set_decisions
         (<[did := mkEntry (allow_result did (binding_of q) aud (risk_level dec) cs
                             (reason_code dec) signed) None clock]> (decisions s))
         (presented signed s1))).
Proof.
  intros He t did q. unfold plane_evaluate in He. fold t in He.
  unfold cbind at 1, cget at 1 in He. unfold cbind at 1, clift at 1 in He.
  destruct (verify_request _ _ _ _ _) as [rq|x] eqn:Hv.
  2: { injection He as <- <-. left. eauto using replay_only_refl. }
  pose proof Hv as Hv'. apply verify_request_spec in Hv' as [-> Hau]. fold q in He, Hv.
  unfold cbind at 1 in He. destruct (commit_freshness env q s) as [[[]|x] s1] eqn:Hc.
  2: { injection He as <- <-. left. eauto using commit_freshness_only. }
  pose proof (commit_freshness_only _ _ _ _ _ Hc) as Hro.
  unfold cbind at 1, clift at 1 in He.
  destruct (session_validate _ _ _ _ _ _) as [sess|x] eqn:Hs.
  2: { injection He as <- <-. left. eauto. }
  unfold cbind at 1, containment_gate in He. unfold cbind at 1, cget in He.
  assert (Hsame : containment s1 = containment s ∧ key_registry s1 = key_registry s ∧
    decisions s1 = decisions s ∧ approvals s1 = approvals s).
  { destruct Hro as (g & -> & _). done. }
  destruct Hsame as (Hcont & Hkeys & Hdec & Happ).
  destruct (engine_blocks _ _) eqn:Hb.
  { injection He as <- <-. left. eauto. }
  unfold cret at 1 in He. unfold cbind at 1, clift at 1 in He.
  set (cs := engine_state (containment s1) (containment_subject (binding_of q))) in *.
  destruct (opa_authorize _) as [dec|x] eqn:Ho.
  2: { injection He as <- <-. left. eauto. }
  assert (Hg : gates cfg envelope grant dest rows bytes t clock env s s1 cs dec).
  { constructor; fold q; try done.
    - by rewrite Hs.
    - unfold cs. by rewrite Hcont. }
  fold (needs_approval cfg dec) in He. destruct (needs_approval cfg dec) eqn:Hn.
  - right. exists s1, cs, dec, (r_action_hash q). split_and!; [done|done|apply Hau|]. left. split; [done|].
    unfold park in He. unfold cbind at 1, clift in He.
    pose proof (au_hash _ _ _ _ _ Hau) as Hah. fold q in Hah. rewrite Hah in He.
    unfold cbind, on_approvals, czoom, cget in He.
    unfold approval_request in He. cbn zeta in He. unfold store_entry, cmodify, cret in He.
    injection He as <- <-. eexists. split; [done|]. split; [done|]. split; [done|]. split; [done|].
    destruct Hro as (g & -> & _). done.
  - unfold cbind in He.
    destruct (mint _ _ _ _ _ _ _ _ _ _ _ _ _ s1) as [[res|x] s2] eqn:Hm;
      destruct (mint_cases _ _ _ _ _ _ _ _ _ _ _ _ _ _ _ _ Hm) as [(y & Hr & ->)|(signed & Hi & Hr & ->)];
      simplify_eq.
    2: { left. eauto. }
    right. exists s1, cs, dec, (r_action_hash q). split_and!; [done|done|apply Hau|]. right. split; [done|].
    exists signed. unfold store_entry, cmodify, cret in He. injection He as <- <-.
    unfold minted in *. rewrite Hcont in Hi. split_and!; [done|done|].
    destruct Hro as (g & -> & _). done.
Qed.

Lemma set_approvals_same (s : plane) : set_approvals (approvals s) s = s.
Proof. by destruct s. Qed.

Lemma approve_cases cfg did who now clock dr s r s' :
  plane_approve cfg did who now clock dr s = (r, s') →
  let t := or_now now clock in
  let ap := (approval_grant did who None (Some t) clock (approvals s)).2 in
  (∃ x, r = Err x ∧ (s' = s ∨ s' = set_approvals ap s)) ∨
  ∃ entry p rec signed cs,
    decisions s !! did = Some entry ∧ de_pending entry = Some p ∧
    approval_grant did who None (Some t) clock (approvals s) = (Ok rec, ap) ∧
    assert_granted ap did (Some t) clock = Ok rec ∧
    cs = engine_state (containment s) (containment_subject (pm_binding p)) ∧
    blocks_new_consequential_tokens cs = false ∧
    minted cfg did (pm_action p) (pm_binding p) (pm_audience p) (pm_policy_hash p)
      (pm_risk_level p) cs (pm_checks p) t clock dr s signed ∧
    let res := with_approval (allow_result did (pm_binding p) (pm_audience p) (pm_risk_level p) cs
                                "APPROVED" signed) (approval_id rec) in
    r = Ok res ∧
    s' = set_decisions (<[did := mkEntry res None clock]> (decisions s))
           (presented signed (set_approvals ap s)).
Proof.
  intros Ha t ap. unfold plane_approve in Ha. fold t in Ha. unfold cbind at 1, cget at 1 in Ha.
  destruct (decisions s !! did) as [entry|] eqn:Hd; [|injection Ha as <- <-; left; eauto].
  destruct (de_pending entry) as [p|] eqn:Hp; [|injection Ha as <- <-; left; eauto].
  unfold cbind at 1, on_approvals, czoom in Ha. unfold ap.
  destruct (approval_grant did who None (Some t) clock (approvals s)) as [[rec|x] ap'] eqn:Hg.
  2: { injection Ha as <- <-. left. eauto. }
  cbn [snd] in *.
  unfold cbind at 1, cget at 1 in Ha. unfold cbind at 1, clift at 1 in Ha.
  change (approvals (set_approvals ap' s)) with ap' in Ha.
  assert (Has : assert_granted ap' did (Some t) clock = Ok rec).
  { apply assert_granted_ok.
    apply approval_decide_ok in Hg as (r0 & Hr0 & Hpe & Hlt & -> & ->).
    split; [|by split]. unfold by_decision in *. cbn [by_decision_id by_id].
    destruct (by_decision_id (approvals s) !! did) as [aid|]; [|done].
    destruct (decide (aid = "")); [done|]. apply lookup_insert_eq. }
  rewrite Has in Ha.
  unfold cbind at 1, containment_gate in Ha. unfold cbind at 1, cget in Ha.
  change (containment (set_approvals ap' s)) with (containment s) in Ha.
  destruct (engine_blocks _ _) eqn:Hb.
  { injection Ha as <- <-. left. eauto. }
  unfold cret at 1 in Ha. unfold cbind in Ha.
  destruct (mint _ _ _ _ _ _ _ _ _ _ _ _ _ _) as [[res|x] s2] eqn:Hm;
    destruct (mint_cases _ _ _ _ _ _ _ _ _ _ _ _ _ _ _ _ Hm) as [(y & Hr & ->)|(signed & Hi & Hr & ->)];
    simplify_eq.
  2: { left. eauto. }
  right. unfold store_entry, cmodify, cret in Ha. injection Ha as <- <-.
  eexists entry, p, rec, signed, _. split_and!; try done.
Qed.
End facts.
