(* ===== verification/PlaneHistory.v ===== *)
(** Histories of the control plane: every sequence of evaluations, executions, approvals,
    denials, quarantines, recoveries, key operations and direct mediations, and what holds
    of all of them.  A handler is one step here.  The code holds no lock across a handler,
    so this is the plane as it behaves when calls do not overlap; [PlaneThreads] takes the
    handlers apart. *)

From S2P Require Export ControlPlane.

Section history.
Context `{Hashlib, Rfc8785, Pydantic, SignatureProvider, IsoParser, OPA, PolicySchema}.
Context {G E K W : Type} `{ReplayGuardProtocol G E} `{ReceiptSink K}.
Variable cfg : PlaneConfig.
Abbreviation plane := (ControlPlane (G := G) (K := K) (W := W)).

Inductive plane_op : Type :=
| PKeys (o : key_op)
| PCreateSession (agent runtime : string) (ttl now : option Z) (clock : Z) (uuid : string)
| PRevokeSession (sid : string)
| PEvaluate (envelope : SignedEnvelope) (grant : Grant) (aud : string) (dest : option string)
    (rows bytes now : option Z) (clock : Z) (env : E) (dr : plane_draws)
| PExecute {Req : Type} (envelope : SignedEnvelope) (grant : Grant)
    (broker : EnforcementBroker Req W) (req : Req) (dest : option string)
    (rows bytes now : option Z) (clock : Z) (env : E) (dr : plane_draws) (mediated_at : Z)
| PMediate {Req : Type} (broker : EnforcementBroker Req W) (req : Req) (binding : AdapterBinding)
    (now : Z)
| PApprove (did approver : string) (now : option Z) (clock : Z) (dr : draws)
| PDeny (did approver : string) (reason : option string) (now : option Z) (clock : Z)
| PQuarantine (subject agent : string) (rt : option string) (codes : list string)
    (target : ContainmentState) (now : option Z) (clock : Z)
| PReset (subject agent : string) (m : RecoveryMethod) (approver rt : option string)
    (now : option Z) (clock : Z)
| PAssess (subject agent : string) (features : odict string json) (rt : option string)
    (codes : option (list string)) (now : option Z) (clock : Z).

Definition set_keys_of (x : KeyRegistry) (s : plane) : plane :=
  mkPlane x (session_store s) (approvals s) (replay_guard s) (containment s) (enforcement s)
    (decisions s).

Definition plane_step (s : plane) (o : plane_op) : plane :=
  match o with
  | PKeys o => set_keys_of (key_step (key_registry s) o) s
  | PCreateSession a r ttl now clock u => (create_session a r ttl now clock u s).2
  | PRevokeSession sid => set_sessions (session_revoke sid (session_store s)).2 s
  | PEvaluate e g aud d ro by_ now clock env dr =>
      (plane_evaluate cfg e g aud d ro by_ now clock env dr s).2
  | PExecute e g b rq d ro by_ now clock env dr t =>
      (evaluate_execute cfg e g b rq d ro by_ now clock env dr t s).2
  | PMediate b rq bd now => (on_enforcement (mediate b rq bd now) s).2
  | PApprove d who now clock dr => (plane_approve cfg d who now clock dr s).2
  | PDeny d who why now clock => (deny_approval d who why now clock s).2
  | PQuarantine sb a rt c t now clock => (quarantine sb a rt c t now clock s).2
  | PReset sb a m ap rt now clock => (reset_containment sb a m ap rt now clock s).2
  | PAssess sb a f rt c now clock => (on_containment (evaluate sb a f rt c now clock) s).2
  end.

(** * One step *)

(** The engine operation a step performs, if any. *)
Definition op_engine (o : plane_op) : option engine_op :=
  match o with
  | PQuarantine sb a rt c t now clock => Some (EKill sb a t c rt (or_now now clock))
  | PReset sb a m ap rt now clock => Some (ERecover sb a m ap rt (or_now now clock))
  | PAssess sb a f rt c now clock => Some (EEvaluate sb a f rt c (or_now now clock))
  | _ => None
  end.

(** The tokens brokers can find. *)
Definition store (s : plane) : gmap (string * string) SignedDecisionToken :=
  v_store (validator (enforcement s)).

Definition token_subject (t : SignedDecisionToken) : string :=
  containment_subject (mkBinding (t_agent_id (token t)) (t_runtime_id (token t))
                         (t_session_id (token t)) None).

Record mints (s s' : plane) (did : string) (b : AdapterBinding) (risk : Z)
    (signed : SignedDecisionToken) : Prop := {
  mt_store : store s' =
    <[(t_audience (token signed), t_action_hash (token signed)) := signed]> (store s);
  mt_request : did ≠ "" → t_request_id (token signed) = did;
  mt_epochs : epochs (token signed) = epoch_source (containment s);
  mt_subject : token_subject signed = containment_subject b;
  mt_open : engine_blocks (containment s) (containment_subject b) = false;
  mt_risk : t_risk_level (token signed) = risk;
  mt_entry : ∃ res c, decisions s' = <[did := mkEntry res None c]> (decisions s) ∧
    e_token res = Some signed
}.

(** What a step does to the presented tokens, the decisions and the approvals. *)
Inductive step_effect (s s' : plane) (o : plane_op) : Prop :=
| SE_none :
    store s' = store s → decisions s' = decisions s → approvals s' = approvals s →
    step_effect s s' o
| SE_decide (ao : approval_op) :
    store s' = store s → decisions s' = decisions s →
    approvals s' = approval_step (approvals s) ao →
    match ao with ARequest _ _ _ _ _ _ _ _ _ => False | _ => True end →
    step_effect s s' o
| SE_park (did uuid : string) (ao : approval_op) (res : EvaluationResult) (p : PendingMint) (c : Z) :
    store s' = store s →
    decisions s' = <[did := mkEntry res (Some p) c]> (decisions s) → e_token res = None →
    approvals s' = approval_step (approvals s) ao →
    (∃ a h k cl now clock, ao = ARequest did a h k cl None now clock uuid) →
    did ≠ "" → (∃ dr, did = "dec_" +:+ pd_decision dr ∧ uuid = pd_approval dr ∧
       match o with PEvaluate _ _ _ _ _ _ _ _ _ d | PExecute _ _ _ _ _ _ _ _ _ _ d _ => d = dr | _ => False end) →
    step_effect s s' o
| SE_mint (did : string) (b : AdapterBinding) (risk : Z) (signed : SignedDecisionToken) :
    mints s s' did b risk signed → approvals s' = approvals s →
    (risk < RiskTier_value (require_approval_from_tier cfg))%Z →
    did ≠ "" → (∃ dr, did = "dec_" +:+ pd_decision dr ∧
       match o with PEvaluate _ _ _ _ _ _ _ _ _ d | PExecute _ _ _ _ _ _ _ _ _ _ d _ => d = dr | _ => False end) →
    step_effect s s' o
| SE_approve (did who : string) (now : option Z) (clock : Z) (dr : draws) (entry : DecisionEntry)
    (p : PendingMint) (rec : ApprovalRecord) (signed : SignedDecisionToken) :
    o = PApprove did who now clock dr →
    decisions s !! did = Some entry → de_pending entry = Some p →
    mints s s' did (pm_binding p) (pm_risk_level p) signed →
    approvals s' = approval_step (approvals s) (AGrant did who None (Some (or_now now clock)) clock) →
    by_decision (approvals s') did = Some rec → a_state rec = A_GRANTED → approver rec = Some who →
    step_effect s s' o.

Lemma issue_fields auth a b aud ph eps dec rl cs cks rid uses ttl now clock dr s :
  issue auth a b aud ph eps dec rl cs cks rid uses ttl now clock dr = Ok s →
  t_request_id (token s) = request_id_or rid (dr_request dr) ∧ t_risk_level (token s) = rl.
Proof.
  unfold issue. repeat (case_decide; [done|]).
  rewrite rbind_ok. intros (ah & _ & [m [_ [= <-]]]%rbind_ok). done.
Qed.

Lemma minted_mints did a b aud ph rl cs ck now clock dr (s s1 s' : plane) signed res c :
  minted cfg did a b aud ph rl cs ck now clock dr s signed →
  engine_blocks (containment s) (containment_subject b) = false →
  store s1 = store s → decisions s1 = decisions s → e_token res = Some signed →
  s' = set_decisions (<[did := mkEntry res None c]> (decisions s)) (presented signed s1) →
  mints s s' did b rl signed.
Proof.
  intros Hm Hb Hst Hd Hres ->. destruct (issue_fields _ _ _ _ _ _ _ _ _ _ _ _ _ _ _ _ _ Hm) as [Hrq Hrl].
  apply issue_ok in Hm as (_ & _ & Hah & _ & _ & _ & _ & _ & Hag & Hrt & Hss & Haud & Hep & _).
  constructor; try done.
  - unfold store in *. simpl. by rewrite Hst.
  - intros Hne. rewrite Hrq. unfold request_id_or. by rewrite decide_False.
  - unfold token_subject, containment_subject. simpl. by rewrite Hag, Hrt, Hss.
  - by exists res, c.
Qed.

Lemma dec_id_nonempty u : "dec_" +:+ u ≠ "".
Proof. done. Qed.

Lemma mediate_store {Req} (b : EnforcementBroker Req W) rq bd now s :
  v_store (validator (mediate b rq bd now (shared_epochs s)).2) = store s.
Proof.
  destruct (mediate_validator b rq bd now (shared_epochs s)) as [[_ Hv]|(sg & a & h & _ & Hv & _)];
    cbn [fabric_step] in Hv; by rewrite Hv.
Qed.

Lemma on_enforcement_frame {Req} (b : EnforcementBroker Req W) rq bd now s r s' :
  on_enforcement (mediate b rq bd now) s = (r, s') →
  store s' = store s ∧ decisions s' = decisions s ∧ approvals s' = approvals s ∧
  containment s' = containment s ∧ replay_guard s' = replay_guard s ∧
  s' = set_enforcement (mediate b rq bd now (shared_epochs s)).2 s.
Proof.
  unfold on_enforcement. destruct (mediate b rq bd now (shared_epochs s)) as [x es] eqn:Hm.
  intros [= <- <-]. split_and!; try done.
  pose proof (mediate_store b rq bd now s) as Hs. by rewrite Hm in Hs.
Qed.

Lemma evaluate_effect envelope grant aud dest rows bytes now clock env dr s r s' o :
  plane_evaluate cfg envelope grant aud dest rows bytes now clock env dr s = (r, s') →
  match o with PEvaluate _ _ _ _ _ _ _ _ _ d | PExecute _ _ _ _ _ _ _ _ _ _ d _ => d = dr | _ => False end →
  step_effect s s' o ∧ containment s' = containment s.
Proof.
  intros He Ho. destruct (evaluate_cases _ _ _ _ _ _ _ _ _ _ _ _ _ _ He)
    as [(x & _ & g & -> & _)|(s1 & cs & dec & ah & Hg & (g & -> & _) & Hah & [(Hn & res & _ & _ & _ & Htok & ->)|(Hn & signed & Hm & _ & ->)])].
  - split; [by constructor|done].
  - split; [|done]. eapply (SE_park _ _ _ ("dec_" +:+ pd_decision dr) (pd_approval dr)
      (ARequest _ _ _ _ _ None _ _ _)); [done|reflexivity|done|reflexivity|by eauto 10|done|by exists dr].
  - split; [|done]. eapply SE_mint; [eapply minted_mints; [exact Hm| | | | |reflexivity]|done| |done|by exists dr].
    + unfold engine_blocks. rewrite <-(gt_state _ _ _ _ _ _ _ _ _ _ _ _ _ Hg).
      apply (gt_contained _ _ _ _ _ _ _ _ _ _ _ _ _ Hg).
    + done.
    + done.
    + done.
    + apply orb_false_elim in Hn as [_ Hn%bool_decide_eq_false]. lia.
Qed.

Lemma step_effect_cong s s1 s2 o :
  store s2 = store s1 → decisions s2 = decisions s1 → approvals s2 = approvals s1 →
  step_effect s s1 o → step_effect s s2 o.
Proof.
  intros Hs Hd Ha [???|ao ????|did u ao res p c ???????|did b risk sg [] ????
                  |did who now clock dr e p rec sg ??? [] ????].
  - apply SE_none; congruence.
  - apply (SE_decide _ _ _ ao); congruence || done.
  - apply (SE_park _ _ _ did u ao res p c); congruence || done.
  - apply (SE_mint _ _ _ did b risk sg); try congruence || done.
    constructor; rewrite ?Hs, ?Hd; done.
  - apply (SE_approve _ _ _ did who now clock dr e p rec sg); try congruence || done.
    constructor; rewrite ?Hs, ?Hd; done.
Qed.

Lemma approve_effect did who now clock dr s r s' :
  plane_approve cfg did who now clock dr s = (r, s') →
  step_effect s s' (PApprove did who now clock dr) ∧ containment s' = containment s.
Proof.
  intros Ha. destruct (approve_cases _ _ _ _ _ _ _ _ _ Ha)
    as [(x & _ & [->| ->])|(e & p & rec & signed & cs & He & Hp & Hg & Has & Hcs & Hb & Hm & _ & ->)].
  - split; [by constructor|done].
  - split; [|done]. by apply (SE_decide _ _ _ (AGrant did who None (Some (or_now now clock)) clock)).
  - split; [|done]. apply assert_granted_ok in Has as (Hby & Hgr & _).
    eapply (SE_approve _ _ _ did who now clock dr e p rec signed); try done.
    + eapply minted_mints; [exact Hm| | | | |reflexivity]; try done.
      unfold engine_blocks. by rewrite <-Hcs.
    + by apply approval_decide_ok in Hg as (r0 & _ & _ & _ & -> & _).
Qed.

Lemma step_effects s o : step_effect s (plane_step s o) o.
Proof.
  destruct o as [o|a rt ttl now clock u|sid|env g aud d ro by_ now clock e dr
    |Req env g b rq d ro by_ now clock e dr t|Req b rq bd now|did who now clock dr
    |did who why now clock|sb a rt c t now clock|sb a m ap rt now clock|sb a f rt c now clock];
    cbn [plane_step]; try (by apply SE_none).
  - destruct (create_session_frame a rt ttl now clock u s) as [x ->]. by apply SE_none.
  - destruct (plane_evaluate _ _ _ _ _ _ _ _ _ _ _ s) as [r s'] eqn:He. by eapply evaluate_effect.
  - unfold evaluate_execute, cbind.
    destruct (plane_evaluate cfg env g (audience b) d ro by_ now clock e dr s) as [[ev|x] s'] eqn:He;
      pose proof (evaluate_effect _ _ _ _ _ _ _ _ _ _ _ _ _ (PExecute env g b rq d ro by_ now clock e dr t) He eq_refl) as [Hse _];
      [|done].
    case_decide; [done|].
    destruct (on_enforcement (mediate b rq (binding_of (request env)) t) s') as [[o|x] s2] eqn:Hm;
      apply on_enforcement_frame in Hm as (Hs & Hd & Ha & _); simpl;
      by eapply step_effect_cong.
  - destruct (on_enforcement _ s) as [x s2] eqn:Hm.
    apply on_enforcement_frame in Hm as (Hs & Hd & Ha & _). by apply SE_none.
  - destruct (plane_approve _ _ _ _ _ _ s) as [r s'] eqn:Ha. by eapply approve_effect.
  - unfold deny_approval, cbind, on_approvals, czoom.
    destruct (approval_deny _ _ _ _ _ _) as [[x|x] ap] eqn:Hd;
      (apply (SE_decide _ _ _ (ADeny did who why now clock)); [done|done| |done]; simpl; by rewrite Hd).
  - unfold quarantine, cbind, on_containment, czoom. destruct (kill_switch _ _ _ _ _ _ _ _) as [[] ?];
      by apply SE_none.
  - unfold reset_containment, cbind, on_containment, czoom. destruct (recover _ _ _ _ _ _ _ _) as [[] ?];
      by apply SE_none.
  - unfold on_containment, czoom. destruct (evaluate _ _ _ _ _ _ _ _) as [? ?]; by apply SE_none.
Qed.

Lemma step_containment s o :
  containment (plane_step s o) =
    match op_engine o with
    | Some eo => engine_step (containment s) eo
    | None => containment s
    end.
Proof.
  destruct o as [o|a rt ttl now clock u|sid|env g aud d ro by_ now clock e dr
    |Req env g b rq d ro by_ now clock e dr t|Req b rq bd now|did who now clock dr
    |did who why now clock|sb a rt c t now clock|sb a m ap rt now clock|sb a f rt c now clock];
    cbn [plane_step op_engine engine_step]; try done.
  - by destruct (create_session_frame a rt ttl now clock u s) as [x ->].
  - destruct (plane_evaluate _ _ _ _ _ _ _ _ _ _ _ s) as [r s'] eqn:He.
    by apply (evaluate_effect _ _ _ _ _ _ _ _ _ _ _ _ _ (PEvaluate env g aud d ro by_ now clock e dr) He).
  - unfold evaluate_execute, cbind.
    destruct (plane_evaluate cfg env g (audience b) d ro by_ now clock e dr s) as [[ev|x] s'] eqn:He;
      pose proof (evaluate_effect _ _ _ _ _ _ _ _ _ _ _ _ _ (PExecute env g b rq d ro by_ now clock e dr t) He eq_refl) as [_ Hc];
      [|done].
    case_decide; [done|].
    destruct (on_enforcement (mediate b rq (binding_of (request env)) t) s') as [[o|x] s2] eqn:Hm;
      apply on_enforcement_frame in Hm as (_ & _ & _ & Hc' & _); simpl; congruence.
  - destruct (on_enforcement _ s) as [x s2] eqn:Hm.
    by apply on_enforcement_frame in Hm as (_ & _ & _ & Hc' & _).
  - destruct (plane_approve _ _ _ _ _ _ s) as [r s'] eqn:Ha. by apply (approve_effect _ _ _ _ _ _ _ _ Ha).
  - unfold deny_approval, cbind, on_approvals, czoom. by destruct (approval_deny _ _ _ _ _ _) as [[] ?].
  - unfold quarantine, cbind, on_containment, czoom.
    change (kill_switch sb a t c rt now clock (containment s))
      with (kill_switch sb a t c rt (Some (or_now now clock)) (or_now now clock) (containment s)).
    by destruct (kill_switch _ _ _ _ _ _ _ _) as [[] ?].
  - unfold reset_containment, cbind, on_containment, czoom.
    change (recover sb a m ap rt now clock (containment s))
      with (recover sb a m ap rt (Some (or_now now clock)) (or_now now clock) (containment s)).
    by destruct (recover _ _ _ _ _ _ _ _) as [[] ?].
  - unfold on_containment, czoom.
    change (evaluate sb a f rt c now clock (containment s))
      with (evaluate sb a f rt c (Some (or_now now clock)) (or_now now clock) (containment s)).
    by destruct (evaluate _ _ _ _ _ _ _ _) as [? ?].
Qed.

(** * What every history preserves *)

(** The identifiers an evaluation draws are not in use. *)
Definition plane_fresh (s : plane) (o : plane_op) : Prop :=
  match o with
  | PEvaluate _ _ _ _ _ _ _ _ _ d | PExecute _ _ _ _ _ _ _ _ _ _ d _ =>
      decisions s !! ("dec_" +:+ pd_decision d) = None ∧
      by_id (approvals s) !! ("appr_" +:+ pd_approval d) = None
  | _ => True
  end.

(** The approval of decision [d] was granted by somebody. *)
Definition approved (s : plane) (d : string) : Prop :=
  ∃ rec who, by_decision (approvals s) d = Some rec ∧ a_state rec = A_GRANTED ∧
    approver rec = Some who.

(** Nobody was ever asked to approve decision [d]. *)
Definition unasked (s : plane) (d : string) : Prop := by_decision (approvals s) d = None.

(** The token stands for the decision [t_request_id]; either its tier is below the
    threshold and no approval was asked for, or the approval was granted. *)
Definition accounted (s : plane) (t : SignedDecisionToken) : Prop :=
  ∃ e, decisions s !! t_request_id (token t) = Some e ∧ de_pending e = None ∧
    e_token (de_result e) = Some t ∧
    (unasked s (t_request_id (token t)) ∧
       (t_risk_level (token t) < RiskTier_value (require_approval_from_tier cfg))%Z ∨
     approved s (t_request_id (token t))).

(** The approvals of known decisions only move forward. *)
Definition approvals_kept (s s' : plane) : Prop :=
  ∀ x, is_Some (decisions s !! x) →
    (approved s x → approved s' x) ∧ (unasked s x → unasked s' x).

Record plane_inv (s : plane) : Prop := {
  iv_wf : store_wf (approvals s);
  iv_id : decisions s !! "" = None;
  iv_known d : is_Some (by_decision_id (approvals s) !! d) → is_Some (decisions s !! d);
  iv_pending d e p : decisions s !! d = Some e → de_pending e = Some p →
    e_token (de_result e) = None ∧ is_Some (by_decision (approvals s) d);
  iv_token k t : store s !! k = Some t → accounted s t;
  iv_epoch k t : store s !! k = Some t →
    (capability_epoch (epochs (token t)) ≤ capability_epoch (epoch_source (containment s)))%Z
}.

Lemma capability_epoch_step s o :
  (capability_epoch (epoch_source (containment s))
   ≤ capability_epoch (epoch_source (containment (plane_step s o))))%Z.
Proof.
  rewrite step_containment. destruct (op_engine o) as [eo|]; [|lia]. apply (epoch_step (containment s) eo).
Qed.

Lemma by_decision_requested s d a h k c ttl now clock u :
  store_wf s → by_decision_id s !! d = None → by_id s !! ("appr_" +:+ u) = None →
  is_Some (by_decision (approval_step s (ARequest d a h k c ttl now clock u)) d).
Proof.
  intros Hwf Hd Hi. unfold by_decision. simpl. rewrite lookup_insert_eq.
  rewrite decide_False by done. rewrite lookup_insert_eq. eauto.
Qed.

(** A record of a decision survives a step, apart from being decided. *)
Lemma approval_kept s ao d :
  store_wf s → approval_fresh s ao →
  (is_Some (by_decision s d) → is_Some (by_decision (approval_step s ao) d)) ∧
  (∀ rec, by_decision s d = Some rec → a_state rec = A_GRANTED →
     by_decision (approval_step s ao) d = Some rec).
Proof.
  intros Hwf Hf. split.
  - intros [r Hr]. destruct (approval_step_record _ _ _ _ Hwf Hf Hr) as [->|(_ & ? & ? & ? & ? & _ & [[_ ->]|[_ ->]])]; eauto.
  - intros r Hr Hg. destruct (approval_step_record _ _ _ _ Hwf Hf Hr) as [->|(? & _)]; [done|congruence].
Qed.

Lemma approval_ids s ao d :
  is_Some (by_decision_id (approval_step s ao) !! d) →
  is_Some (by_decision_id s !! d) ∨
  ∃ a h k c ttl now clock u, ao = ARequest d a h k c ttl now clock u.
Proof.
  assert (Hd : ∀ d' st who why now clock,
    by_decision_id (approval_decide d' st who why now clock s).2 = by_decision_id s).
  { intros. destruct (approval_decide _ _ _ _ _ _ s) as [[r|x] s'] eqn:He.
    - by apply approval_decide_ok in He as (_ & _ & _ & _ & _ & ->).
    - by apply approval_decide_err in He as ->. }
  destruct ao as [d' a h k c ttl now clock u|d' who why now clock|d' who why now clock]; simpl.
  - destruct (decide (d' = d)) as [->|Hne]; [eauto 12|]. rewrite lookup_insert_ne by done. by left.
  - unfold approval_grant. rewrite Hd. by left.
  - unfold approval_deny. rewrite Hd. by left.
Qed.

Lemma approval_fresh_grant s d who why now clock : approval_fresh s (AGrant d who why now clock).
Proof. done. Qed.

Lemma unasked_step s ao x :
  store_wf s → approval_fresh s ao →
  (∀ d a h k c ttl now clock u, ao = ARequest d a h k c ttl now clock u → d ≠ x) →
  by_decision s x = None → by_decision (approval_step s ao) x = None.
Proof.
  intros Hwf Hf Hne Hx. apply eq_None_not_Some. intros [r Hr].
  assert (Hid : is_Some (by_decision_id (approval_step s ao) !! x)).
  { unfold by_decision in Hr. destruct (by_decision_id (approval_step s ao) !! x); eauto. done. }
  apply approval_ids in Hid as [[id Hid]|(? & ? & ? & ? & ? & ? & ? & ? & ->)];
    [|by eapply Hne].
  destruct (sw_link _ Hwf _ _ Hid) as (r0 & Hr0 & _).
  rewrite (store_wf_get _ _ _ Hwf Hid) in Hx. congruence.
Qed.

Lemma approvals_kept_step s s' ao :
  store_wf (approvals s) → approval_fresh (approvals s) ao →
  (∀ d a h k c ttl now clock u, ao = ARequest d a h k c ttl now clock u → decisions s !! d = None) →
  approvals s' = approval_step (approvals s) ao → approvals_kept s s'.
Proof.
  intros Hwf Hf Hn Ha x [e He]. split.
  - intros (rec & who & Hr & Hg & Hw). exists rec, who. rewrite Ha.
    split; [|done]. by apply approval_kept.
  - unfold unasked. rewrite Ha. apply unasked_step; [done..|].
    intros d a h k c ttl now clock u Hao ->. apply Hn in Hao. congruence.
Qed.

Lemma approvals_kept_same s s' : approvals s' = approvals s → approvals_kept s s'.
Proof. intros Ha x _. unfold approved, unasked. by rewrite Ha. Qed.

(** Decisions other than the one written keep their entries and accounts. *)
Lemma accounted_other s s' d e t :
  decisions s' = <[d := e]> (decisions s) → d ≠ t_request_id (token t) →
  approvals_kept s s' → accounted s t → accounted s' t.
Proof.
  intros Hd Hne Hap (e0 & He & Hp & Ht & Hor). exists e0.
  destruct (Hap (t_request_id (token t))) as [Hx Hy]; [eauto|].
  rewrite Hd, lookup_insert_ne by done. split_and!; [done..|]. destruct Hor as [[??]|?]; auto.
Qed.

Lemma accounted_same s s' t :
  decisions s' = decisions s → approvals_kept s s' → accounted s t → accounted s' t.
Proof.
  intros Hd Hap (e & He & Hp & Ht & Hor). exists e.
  destruct (Hap (t_request_id (token t))) as [Hx Hy]; [eauto|].
  rewrite Hd. split_and!; [done..|]. destruct Hor as [[??]|?]; auto.
Qed.

(** Minting for decision [did] when no token stands for it yet. *)
Lemma mint_accounts s s' did b risk signed :
  plane_inv s → mints s s' did b risk signed → did ≠ "" →
  (∀ k t, store s !! k = Some t → t_request_id (token t) ≠ did) →
  approvals_kept s s' →
  unasked s' did ∧ (risk < RiskTier_value (require_approval_from_tier cfg))%Z ∨ approved s' did →
  ∀ k t, store s' !! k = Some t → accounted s' t.
Proof.
  intros Hi [Hst Hrq _ _ _ Hrk (res & c & Hd & Hres)] Hne Hfresh Hap Hor k t Hk.
  rewrite Hst in Hk. apply lookup_insert_Some in Hk as [[_ <-]|[_ Hk]].
  - exists (mkEntry res None c). rewrite (Hrq Hne), Hd, lookup_insert_eq, Hrk. by split_and!.
  - eapply accounted_other; [exact Hd| |exact Hap|by eapply iv_token].
    intros Heq. by apply (Hfresh _ _ Hk).
Qed.

Lemma mint_epochs s s' did b risk signed o :
  plane_inv s → mints s s' did b risk signed →
  (capability_epoch (epoch_source (containment s))
   ≤ capability_epoch (epoch_source (containment (plane_step s o))))%Z →
  ∀ k t, store s' !! k = Some t →
  (capability_epoch (epochs (token t))
   ≤ capability_epoch (epoch_source (containment (plane_step s o))))%Z.
Proof.
  intros Hi [Hst _ Hep _ _ _ _] Hle k t Hk. rewrite Hst in Hk.
  apply lookup_insert_Some in Hk as [[_ <-]|[_ Hk]]; [by rewrite Hep|].
  etrans; [by eapply iv_epoch|done].
Qed.

Lemma token_not_pending s k t d e p :
  plane_inv s → store s !! k = Some t → decisions s !! d = Some e → de_pending e = Some p →
  t_request_id (token t) ≠ d.
Proof.
  intros Hi Hk Hd Hp <-. destruct (iv_token _ Hi _ _ Hk) as (e' & He' & Hp' & _). congruence.
Qed.

Lemma plane_inv_step s o : plane_fresh s o → plane_inv s → plane_inv (plane_step s o).
Proof.
  intros Hf Hi. pose proof (capability_epoch_step s o) as Hcap.
  assert (Hf' : ∀ dr, match o with PEvaluate _ _ _ _ _ _ _ _ _ d | PExecute _ _ _ _ _ _ _ _ _ _ d _ => d = dr | _ => False end →
    decisions s !! ("dec_" +:+ pd_decision dr) = None ∧
    by_id (approvals s) !! ("appr_" +:+ pd_approval dr) = None).
  { intros dr Ho. destruct o; try done; simpl in Hf; by subst. }
  assert (Hep : store (plane_step s o) = store s → ∀ k t, store (plane_step s o) !! k = Some t →
    (capability_epoch (epochs (token t))
     ≤ capability_epoch (epoch_source (containment (plane_step s o))))%Z).
  { intros Hs k t Hk. rewrite Hs in Hk. etrans; [by eapply iv_epoch|done]. }
  destruct (step_effects s o)
    as [Hs Hd Ha|ao Hs Hd Ha Hao|did u ao res p c Hs Hd Hres Ha (ag & ah & rk & cl & nw & ck & ->) Hne (dr & -> & -> & Hdr)
       |did b risk sg Hm Ha Hrisk Hne (dr & -> & Hdr)
       |did who now clock dr e p rec sg -> He Hp Hm Ha Hby Hgr Hwho].
  - constructor; rewrite ?Ha, ?Hd; [apply Hi..| |by apply Hep].
    intros k t Hk. rewrite Hs in Hk. eapply accounted_same; [exact Hd| |by eapply iv_token].
    by apply approvals_kept_same.
  - assert (Hfa : approval_fresh (approvals s) ao) by (by destruct ao).
    constructor; rewrite ?Hd; [| | | | |by apply Hep].
    + rewrite Ha. apply store_wf_step; [done|apply Hi].
    + apply Hi.
    + intros d Hk. rewrite Ha in Hk. apply approval_ids in Hk as [Hk|Hk]; [by apply Hi|].
      destruct Hk as (? & ? & ? & ? & ? & ? & ? & ? & ->). done.
    + intros d e p He Hp. destruct (iv_pending _ Hi _ _ _ He Hp) as [? Hby]. split; [done|].
      rewrite Ha. apply approval_kept; [apply Hi|done|done].
    + intros k t Hk. rewrite Hs in Hk. eapply accounted_same; [exact Hd| |by eapply iv_token].
      apply (approvals_kept_step _ _ ao); [apply Hi|done| |done]. by intros ????????? ->.
  - destruct (Hf' _ Hdr) as [Hfd Hfa].
    assert (Hfi : by_decision_id (approvals s) !! ("dec_" +:+ pd_decision dr) = None).
    { apply eq_None_not_Some. intros Hk%(iv_known _ Hi). rewrite Hfd in Hk. by destruct Hk. }
    assert (Hfr : approval_fresh (approvals s)
      (ARequest ("dec_" +:+ pd_decision dr) ag ah rk cl None nw ck (pd_approval dr))) by done.
    constructor; [| | | | |by apply Hep].
    + rewrite Ha. apply store_wf_step; [done|apply Hi].
    + rewrite Hd, lookup_insert_ne by done. apply Hi.
    + intros d Hk. rewrite Ha in Hk. rewrite Hd.
      destruct (decide (("dec_" +:+ pd_decision dr) = d)) as [->|Hne']; [rewrite lookup_insert_eq; eauto|].
      rewrite lookup_insert_ne by done. apply Hi.
      apply approval_ids in Hk as [Hk|(? & ? & ? & ? & ? & ? & ? & ? & [=])]; [done|congruence].
    + intros d e p' He Hp. rewrite Hd in He. rewrite Ha.
      apply lookup_insert_Some in He as [[<- <-]|[Hne' He]].
      * split; [exact Hres|]. apply by_decision_requested; [apply Hi|done|done].
      * destruct (iv_pending _ Hi _ _ _ He Hp) as [? Hby]. split; [done|].
        apply approval_kept; [apply Hi|done|done].
    + intros k t Hk. rewrite Hs in Hk. eapply accounted_other; [exact Hd| | |by eapply iv_token].
      * intros Heq. destruct (iv_token _ Hi _ _ Hk) as (e0 & He0 & _). congruence.
      * eapply approvals_kept_step; [apply Hi|exact Hfr| |done].
        intros ????????? [= <- _ _ _ _ _ _ _ _]. done.
  - destruct (Hf' _ Hdr) as [Hfd _]. pose proof Hm as [_ _ _ _ _ _ (res & c & Hd & Hres)].
    pose proof (approvals_kept_same _ _ Ha) as Hap.
    constructor; rewrite ?Ha.
    + apply Hi.
    + rewrite Hd, lookup_insert_ne by done. apply Hi.
    + intros d Hk%(iv_known _ Hi). rewrite Hd.
      destruct (decide (("dec_" +:+ pd_decision dr) = d)) as [->|]; [rewrite lookup_insert_eq; eauto|].
      by rewrite lookup_insert_ne.
    + intros d e p He Hp. rewrite Hd in He.
      apply lookup_insert_Some in He as [[_ <-]|[_ He]]; [done|]. by eapply iv_pending.
    + eapply mint_accounts; eauto.
      2: { left. split; [|done]. unfold unasked. rewrite Ha. apply eq_None_not_Some.
           intros [r Hr]. assert (is_Some (decisions s !! ("dec_" +:+ pd_decision dr))) as [? Hx].
           { apply (iv_known _ Hi). unfold by_decision in Hr.
             destruct (by_decision_id (approvals s) !! ("dec_" +:+ pd_decision dr)); eauto. done. }
           congruence. }
      intros k t Hk Heq. destruct (iv_token _ Hi _ _ Hk) as (e0 & He0 & _). congruence.
    + by eapply mint_epochs.
  - pose proof Hm as [_ _ _ _ _ _ (res & c & Hd & Hres)].
    assert (Hne : did ≠ "") by (intros ->; rewrite (iv_id _ Hi) in He; done).
    assert (Hap : approvals_kept s (plane_step s (PApprove did who now clock dr))).
    { eapply approvals_kept_step; [apply Hi| | |exact Ha]; done. }
    constructor.
    + rewrite Ha. apply store_wf_step; [done|apply Hi].
    + rewrite Hd, lookup_insert_ne by done. apply Hi.
    + intros d Hk. rewrite Ha in Hk. rewrite Hd.
      destruct (decide (did = d)) as [->|]; [rewrite lookup_insert_eq; eauto|].
      rewrite lookup_insert_ne by done. apply Hi.
      by apply approval_ids in Hk as [Hk|(? & ? & ? & ? & ? & ? & ? & ? & [=])].
    + intros d e' p' He' Hp'. rewrite Hd in He'.
      apply lookup_insert_Some in He' as [[_ <-]|[_ He']]; [done|].
      destruct (iv_pending _ Hi _ _ _ He' Hp') as [? Hby']. split; [done|].
      rewrite Ha. apply approval_kept; [apply Hi|done|done].
    + eapply mint_accounts; eauto.
      * intros k t Hk. by eapply token_not_pending.
      * right. by exists rec, who.
    + by eapply mint_epochs.
Qed.

Definition fresh_plane (s : plane) : Prop :=
  decisions s = ∅ ∧ store s = ∅ ∧ ∃ ttl, approvals s = new_approval_store ttl.

Lemma plane_inv_fresh s : fresh_plane s → plane_inv s.
Proof.
  intros (Hd & Hs & ttl & Ha). constructor; rewrite ?Hd, ?Hs, ?Ha.
  - apply store_wf_new.
  - apply lookup_empty.
  - intros d. simpl. rewrite lookup_empty. by intros [].
  - intros d e p. by rewrite lookup_empty.
  - intros k t. by rewrite lookup_empty.
  - intros k t. by rewrite lookup_empty.
Qed.

Lemma plane_inv_run s ops :
  guarded plane_step plane_fresh s ops → plane_inv s → plane_inv (run plane_step s ops).
Proof. intros Hg. apply run_invariant_guarded with (ok := plane_fresh); [|done]. apply plane_inv_step. Qed.

(** * The life of a decision, abstractly *)

(** A decision is parked, or it stands with the token minted for it. *)
Inductive phase : Set := Parked | Allowed (signed : SignedDecisionToken).

Definition phase_of (e : DecisionEntry) : phase :=
  match e_token (de_result e) with Some t => Allowed t | None => Parked end.

Definition phases (s : plane) : gmap string phase := phase_of <$> decisions s.

(** A new decision is parked, or allowed if its tier is below the threshold; a parked
    one is allowed by an approver; nothing else ever happens to a decision. *)
Inductive lifecycle_step : gmap string phase → gmap string phase → Prop :=
| LC_stutter m : lifecycle_step m m
| LC_park m d : m !! d = None → lifecycle_step m (<[d := Parked]> m)
| LC_allow m d t :
    m !! d = None → t_request_id (token t) = d →
    (t_risk_level (token t) < RiskTier_value (require_approval_from_tier cfg))%Z →
    lifecycle_step m (<[d := Allowed t]> m)
| LC_approve m d t :
    m !! d = Some Parked → t_request_id (token t) = d → lifecycle_step m (<[d := Allowed t]> m).

Lemma phases_insert s s' d e :
  decisions s' = <[d := e]> (decisions s) → phases s' = <[d := phase_of e]> (phases s).
Proof. unfold phases. intros ->. apply fmap_insert. Qed.

Lemma phases_None s d : decisions s !! d = None → phases s !! d = None.
Proof. unfold phases. rewrite lookup_fmap. by intros ->. Qed.

Lemma lifecycle_simulated s o :
  plane_inv s → plane_fresh s o → lifecycle_step (phases s) (phases (plane_step s o)).
Proof.
  intros Hi Hf.
  assert (Hnone : ∀ dr, match o with PEvaluate _ _ _ _ _ _ _ _ _ d | PExecute _ _ _ _ _ _ _ _ _ _ d _ => d = dr | _ => False end →
    decisions s !! ("dec_" +:+ pd_decision dr) = None).
  { intros dr Ho. destruct o; try done; simpl in Hf; subst; apply Hf. }
  destruct (step_effects s o)
    as [_ Hd _|_ _ Hd _ _|did u ao res p c _ Hd Hres _ _ _ (dr & -> & _ & Hdr)
       |did b risk sg Hm _ Hrisk Hne (dr & -> & Hdr)
       |did who now clock dr e p rec sg _ He Hp Hm _ _ _ _].
  - unfold phases. rewrite Hd. constructor.
  - unfold phases. rewrite Hd. constructor.
  - rewrite (phases_insert _ _ _ _ Hd). unfold phase_of at 1. simpl. rewrite Hres.
    apply LC_park, phases_None, Hnone, Hdr.
  - destruct Hm as [_ Hrq _ _ _ Hrk (res & c & Hd & Hres)].
    rewrite (phases_insert _ _ _ _ Hd). unfold phase_of at 1. simpl. rewrite Hres.
    apply LC_allow; [apply phases_None, Hnone, Hdr|by apply Hrq|by rewrite Hrk].
  - destruct Hm as [_ Hrq _ _ _ _ (res & c & Hd & Hres)].
    rewrite (phases_insert _ _ _ _ Hd). unfold phase_of at 1. simpl. rewrite Hres.
    apply LC_approve.
    + unfold phases. rewrite lookup_fmap, He. simpl. unfold phase_of.
      by destruct (iv_pending _ Hi _ _ _ He Hp) as [-> _].
    + apply Hrq. intros ->. by rewrite (iv_id _ Hi) in He.
Qed.

(** A decision that is allowed stays allowed with the same token. *)
Lemma lifecycle_final m m' d t :
  rtc lifecycle_step m m' → m !! d = Some (Allowed t) → m' !! d = Some (Allowed t).
Proof.
  induction 1 as [|m m1 m2 Hs _ IH]; [done|]. intros Hd. apply IH.
  destruct Hs as [m|m d0 Hn|m d0 t0 Hn _ _|m d0 t0 Hp _]; [done|..];
    (destruct (decide (d0 = d)) as [->|]; [congruence|by rewrite lookup_insert_ne]).
Qed.

Lemma lifecycle_run s ops :
  plane_inv s → guarded plane_step plane_fresh s ops →
  rtc lifecycle_step (phases s) (phases (run plane_step s ops)).
Proof.
  revert s. induction ops as [|o ops IH]; intros s Hi Hg; [constructor|].
  destruct Hg as [Hf Hg]. eapply rtc_l; [by apply lifecycle_simulated|].
  apply IH; [by apply plane_inv_step|done].
Qed.
End history.
