(* ===== verification/PlaneProps.v ===== *)
(** What the control plane guarantees over its histories: the life of a decision,
    the effect of a quarantine, freshness of requests, and the soundness of a single
    evaluation and execution. *)

From S2P Require Export PlaneHistory.
From S2P Require Import Concrete.

Section cut_off.
Context `{Hashlib, Rfc8785, Pydantic, SignatureProvider, IsoParser, OPA, PolicySchema}.
Context {G E K W : Type} `{ReplayGuardProtocol G E} `{ReceiptSink K}.
Variable cfg : PlaneConfig.
Abbreviation plane := (ControlPlane (G := G) (K := K) (W := W)).
Abbreviation step := (plane_step (G := G) (E := E) (K := K) (W := W) cfg).

(** [subject] is blocked, and every token it was given is stale. *)
Record cut (subject : string) (s0 : ContainmentState) (s : plane) : Prop := {
  ct_state : severity s0 ≤ severity (engine_state (containment s) subject);
  ct_stale k t : store s !! k = Some t → token_subject t = subject →
    (capability_epoch (epochs (token t)) < capability_epoch (epoch_source (containment s)))%Z
}.

(** The step is not a recovery that the demands of [s0] admit. *)
Definition no_recovery (subject : string) (s0 : ContainmentState) (o : plane_op (E := E) (W := W)) : Prop :=
  match op_engine o with Some eo => insufficient subject s0 eo | None => True end.

Lemma blocked_severity e subject s0 :
  severity QUARANTINED ≤ severity s0 → severity s0 ≤ severity (engine_state e subject) →
  engine_blocks e subject = true.
Proof.
  intros Hq Hs. unfold engine_blocks, blocks_new_consequential_tokens.
  apply bool_decide_eq_true. lia.
Qed.

Lemma cut_step subject s0 s o :
  severity QUARANTINED ≤ severity s0 → no_recovery subject s0 o → cut subject s0 s →
  cut subject s0 (step s o).
Proof.
  intros Hq Ho [Hst Hstale]. pose proof (capability_epoch_step cfg s o) as Hcap.
  assert (Hkeep : store (step s o) = store s → ∀ k t, store (step s o) !! k = Some t →
    token_subject t = subject →
    (capability_epoch (epochs (token t)) < capability_epoch (epoch_source (containment (step s o))))%Z).
  { intros -> k t Hk Hsub. pose proof (Hstale _ _ Hk Hsub). lia. }
  assert (Hmint : ∀ did b risk sg, mints s (step s o) did b risk sg → ∀ k t,
    store (step s o) !! k = Some t → token_subject t = subject →
    (capability_epoch (epochs (token t)) < capability_epoch (epoch_source (containment (step s o))))%Z).
  { intros did b risk sg [Hs _ _ Hsub Hopen _ _] k t Hk Ht. rewrite Hs in Hk.
    apply lookup_insert_Some in Hk as [[_ <-]|[_ Hk]].
    - rewrite Ht in Hsub. rewrite <-Hsub, (blocked_severity _ _ s0) in Hopen by done. done.
    - pose proof (Hstale _ _ Hk Ht). lia. }
  split.
  - rewrite step_containment. unfold no_recovery in Ho. destruct (op_engine o) as [eo|]; [|done].
    apply ratchet_step; [|done|done]. intros ->. vm_compute in Hq. lia.
  - destruct (step_effects cfg s o) as [Hs|? Hs|? ? ? ? ? ? Hs|? ? ? ? Hm|? ? ? ? ? ? ? ? ? _ _ _ Hm]; eauto.
Qed.

Lemma cut_run subject s0 ops s :
  severity QUARANTINED ≤ severity s0 → Forall (no_recovery subject s0) ops → cut subject s0 s →
  cut subject s0 (run step s ops).
Proof.
  intros Hq Hops. revert s. induction Hops as [|o ops Ho _ IH]; intros s Hc; [done|].
  apply IH. by apply cut_step.
Qed.

(** A cut-off subject gets no decision, no approval and no execution. *)
Lemma cut_evaluate subject s0 s envelope grant aud dest rows bytes now clock env dr :
  severity QUARANTINED ≤ severity s0 → cut subject s0 s →
  containment_subject (binding_of (request envelope)) = subject →
  is_ok (plane_evaluate cfg envelope grant aud dest rows bytes now clock env dr s).1 = false.
Proof.
  intros Hq [Hst _] Hsub.
  destruct (plane_evaluate _ _ _ _ _ _ _ _ _ _ _ s) as [r s'] eqn:He.
  destruct (evaluate_cases _ _ _ _ _ _ _ _ _ _ _ _ _ _ He) as [(x & -> & _)|(s1 & cs & dec & ah & Hg & _)];
    [done|]. exfalso.
  pose proof (gt_contained _ _ _ _ _ _ _ _ _ _ _ _ _ Hg) as Hc.
  rewrite (gt_state _ _ _ _ _ _ _ _ _ _ _ _ _ Hg), Hsub in Hc.
  pose proof (blocked_severity _ _ _ Hq Hst) as Hb. unfold engine_blocks in Hb. congruence.
Qed.

Lemma cut_approve subject s0 s did who now clock dr :
  severity QUARANTINED ≤ severity s0 → cut subject s0 s →
  (∀ e p, decisions s !! did = Some e → de_pending e = Some p →
     containment_subject (pm_binding p) = subject) →
  is_ok (plane_approve cfg did who now clock dr s).1 = false.
Proof.
  intros Hq [Hst _] Hsub. destruct (plane_approve _ _ _ _ _ _ s) as [r s'] eqn:Ha.
  destruct (approve_cases _ _ _ _ _ _ _ _ _ Ha)
    as [(x & -> & _)|(e & p & rec & sg & cs & He & Hp & _ & _ & -> & Hb & _)]; [done|]. exfalso.
  rewrite (Hsub _ _ He Hp) in Hb.
  pose proof (blocked_severity _ _ _ Hq Hst) as Hb'. unfold engine_blocks in Hb'. congruence.
Qed.

Lemma cut_token subject s0 s action h binding aud t :
  cut subject s0 s → containment_subject binding = subject →
  is_ok (token_authorize action h binding aud t (validator (shared_epochs s))).1 = false.
Proof.
  intros [_ Hstale] Hsub. destruct (token_authorize _ _ _ _ _ _) as [[d|x] v'] eqn:Ha; [|done].
  exfalso. apply authorize_ok in Ha as (signed & Haz & _ & _).
  pose proof (az_presented _ _ _ _ _ _ _ Haz) as Hk. pose proof (az_epochs _ _ _ _ _ _ _ Haz) as Hep.
  change (v_store (validator (shared_epochs s))) with (store s) in Hk.
  change (v_epochs (validator (shared_epochs s))) with (epoch_source (containment s)) in Hep.
  assert (Hts : token_subject signed = subject).
  { unfold token_subject. rewrite <-Hsub. unfold containment_subject. simpl.
    by rewrite (az_agent _ _ _ _ _ _ _ Haz), (az_runtime _ _ _ _ _ _ _ Haz),
      (az_session _ _ _ _ _ _ _ Haz). }
  pose proof (Hstale _ _ Hk Hts). rewrite Hep in *. lia.
Qed.

Lemma quarantine_cuts s subject agent rt codes target now clock :
  plane_inv cfg s →
  let '(r, s1) := quarantine subject agent rt codes target now clock s in
  is_ok r = true →
  severity QUARANTINED ≤ severity (engine_state (containment s1) subject) ∧
  cut subject (engine_state (containment s1) subject) s1.
Proof.
  intros Hi. unfold quarantine, cbind, on_containment, czoom.
  destruct (kill_switch _ _ _ _ _ _ _ _) as [[tr|x] e'] eqn:Hk; [|done]. intros _.
  destruct (kill_switch_spec _ _ _ _ _ _ _ _ _ _ Hk) as [(x & [=] & _)|(Ht & tr' & _ & Hm & Hn)].
  assert (Hsev : severity QUARANTINED ≤ severity (engine_state e' subject)).
  { rewrite (mv_new _ _ _ _ Hm), Hn.
    pose proof (more_severe_ge (engine_state (containment s) subject) target) as [_ Hge].
    destruct Ht as [-> | ->]; [done|]. etrans; [|exact Hge]. vm_compute. lia. }
  split; [exact Hsev|]. constructor; [done|]. intros k t Hst _.
  change (store (set_containment e' s)) with (store s) in Hst.
  change (containment (set_containment e' s)) with e'. rewrite (mv_epoch _ _ _ _ Hm). simpl.
  pose proof (iv_epoch _ _ Hi _ _ Hst). lia.
Qed.

(** A quarantine cuts a subject off, between calls that do not overlap ([PlaneThreads] has
    them overlap).  Take any history of a fresh plane, then a
    kill switch on a subject that succeeds, then any further history in which nobody
    recovers the subject by a method (and with an approver) its state demands.  From
    then on no evaluation for that agent, runtime and session succeeds, no parked
    decision of it can be approved, and no token, neither one minted before nor any
    other in the presented-token store, authorizes an action for it. *)
Theorem quarantine_holds s0 ops ops' subject agent rt codes target now clock :
  fresh_plane s0 → guarded step (plane_fresh (E := E)) s0 ops →
  let s := run step s0 ops in
  let '(r, s1) := quarantine subject agent rt codes target now clock s in
  is_ok r = true →
  Forall (no_recovery subject (engine_state (containment s1) subject)) ops' →
  let s2 := run step s1 ops' in
  (∀ envelope grant aud dest rows bytes now clock env dr,
     containment_subject (binding_of (request envelope)) = subject →
     is_ok (plane_evaluate cfg envelope grant aud dest rows bytes now clock env dr s2).1 = false) ∧
  (∀ did who now clock dr,
     (∀ e p, decisions s2 !! did = Some e → de_pending e = Some p →
        containment_subject (pm_binding p) = subject) →
     is_ok (plane_approve cfg did who now clock dr s2).1 = false) ∧
  (∀ action h binding aud t, containment_subject binding = subject →
     is_ok (token_authorize action h binding aud t (validator (shared_epochs s2))).1 = false).
Proof.
  intros Hf Hg s.
  pose proof (plane_inv_run cfg s0 ops Hg (plane_inv_fresh cfg s0 Hf)) as Hi. fold s in Hi.
  pose proof (quarantine_cuts s subject agent rt codes target now clock Hi) as Hc.
  destruct (quarantine _ _ _ _ _ _ _ s) as [r s1]. intros Hr Hops s2.
  destruct (Hc Hr) as [Hq Hcut]. pose proof (cut_run _ _ _ _ Hq Hops Hcut) as Hcut2. fold s2 in Hcut2.
  split_and!; intros; [by eapply cut_evaluate|by eapply cut_approve|by eapply cut_token].
Qed.
End cut_off.

Section freshness.
Context `{Hashlib, Rfc8785, Pydantic, SignatureProvider, IsoParser, OPA, PolicySchema}.
Context {G E K W : Type} `{FreshGuard G E} `{ReceiptSink K}.
Variable cfg : PlaneConfig.
Abbreviation plane := (ControlPlane (G := G) (K := K) (W := W)).
Abbreviation step := (plane_step (G := G) (E := E) (K := K) (W := W) cfg).

(** The guard of the plane has spent sequence number [q] of session [sid]. *)
Definition plane_spent (sid : string) (q : Z) (s : plane) : Prop :=
  ∃ g, replay_guard s = Some g ∧ spent g sid q.

Lemma freshness_spent sid q env r (s : plane) :
  plane_spent sid q s → plane_spent sid q (commit_freshness env r s).2.
Proof.
  intros (g & Hg & Hs). unfold commit_freshness. rewrite Hg.
  pose proof (spent_forever env (r_session_id r) (r_nonce r) (r_sequence r) g sid q Hs) as Hf.
  destruct (check_and_commit _ _ _ _ _) as [x g']. by exists g'.
Qed.

Lemma replay_only_spent sid q (s s' : plane) :
  replay_only s s' → plane_spent sid q s → plane_spent sid q s'.
Proof.
  intros (g & -> & [-> |(env & r & ->)]) Hs; [by destruct s|].
  exact (freshness_spent _ _ env r _ Hs).
Qed.

Lemma evaluate_guard envelope grant aud dest rows bytes now clock env dr (s : plane) r s' :
  plane_evaluate cfg envelope grant aud dest rows bytes now clock env dr s = (r, s') →
  ∃ s1, replay_only s s1 ∧ replay_guard s' = replay_guard s1 ∧
    (is_ok r = true → commit_freshness env (request envelope) s = (Ok (), s1)).
Proof.
  intros He. destruct (evaluate_cases _ _ _ _ _ _ _ _ _ _ _ _ _ _ He)
    as [(x & -> & Hro)|(s1 & cs & dec & ah & Hg & Hro & _ & [(_ & res & _ & _ & _ & _ & ->)|(_ & sg & _ & _ & ->)])].
  - by exists s'.
  - exists s1. split_and!; [done|done|]. intros _. apply (gt_fresh _ _ _ _ _ _ _ _ _ _ _ _ _ Hg).
  - exists s1. split_and!; [done|done|]. intros _. apply (gt_fresh _ _ _ _ _ _ _ _ _ _ _ _ _ Hg).
Qed.

Lemma spent_step sid q (s : plane) o : plane_spent sid q s → plane_spent sid q (step s o).
Proof.
  intros Hs.
  assert (Hev : ∀ envelope grant aud dest rows bytes now clock env dr,
    plane_spent sid q (plane_evaluate cfg envelope grant aud dest rows bytes now clock env dr s).2).
  { intros. destruct (plane_evaluate _ _ _ _ _ _ _ _ _ _ _ s) as [r s'] eqn:He.
    destruct (evaluate_guard _ _ _ _ _ _ _ _ _ _ _ _ _ He) as (s1 & Hro & Hg & _). simpl.
    unfold plane_spent. rewrite Hg. by apply (replay_only_spent _ _ s). }
  destruct o as [o|a rt ttl now clock u|sid'|env g aud d ro by_ now clock e dr
    |Req env g b rq d ro by_ now clock e dr t|Req b rq bd now|did who now clock dr
    |did who why now clock|sb a rt c t now clock|sb a m ap rt now clock|sb a f rt c now clock];
    cbn [plane_step]; try done.
  - by destruct (create_session_frame a rt ttl now clock u s) as [x ->].
  - unfold evaluate_execute, cbind. specialize (Hev env g (audience b) d ro by_ now clock e dr).
    destruct (plane_evaluate cfg env g (audience b) d ro by_ now clock e dr s) as [[ev|x] s'];
      [|done]. case_decide; [done|].
    destruct (on_enforcement (mediate b rq (binding_of (request env)) t) s') as [[o|x] s2] eqn:Hm;
      apply on_enforcement_frame in Hm as (_ & _ & _ & _ & Hrg & _);
      unfold plane_spent in *; simpl in *; by rewrite Hrg.
  - destruct (on_enforcement _ s) as [x s2] eqn:Hm.
    apply on_enforcement_frame in Hm as (_ & _ & _ & _ & Hrg & _).
    unfold plane_spent in *. simpl. by rewrite Hrg.
  - destruct (plane_approve _ _ _ _ _ _ s) as [r s'] eqn:Ha.
    destruct (approve_cases _ _ _ _ _ _ _ _ _ Ha)
      as [(x & _ & [->| ->])|(? & ? & ? & ? & ? & _ & _ & _ & _ & _ & _ & _ & _ & ->)]; done.
  - unfold deny_approval, cbind, on_approvals, czoom. by destruct (approval_deny _ _ _ _ _ _) as [[] ?].
  - unfold quarantine, cbind, on_containment, czoom. by destruct (kill_switch _ _ _ _ _ _ _ _) as [[] ?].
  - unfold reset_containment, cbind, on_containment, czoom. by destruct (recover _ _ _ _ _ _ _ _) as [[] ?].
  - unfold on_containment, czoom. by destruct (evaluate _ _ _ _ _ _ _ _) as [? ?].
Qed.

(** C11. A request is evaluated at most once.  With any freshness guard wired (both
    guards of the code are instances), once an evaluation has succeeded, with either
    outcome, no envelope of the same session with that sequence number or a smaller
    one is evaluated successfully again, whatever happens to the plane in between
    and whatever its nonce. *)
Theorem request_evaluated_once envelope grant aud dest rows bytes now clock env dr (s : plane) ops
    envelope' grant' aud' dest' rows' bytes' now' clock' env' dr' :
  is_Some (replay_guard s) →
  let '(r, s1) := plane_evaluate cfg envelope grant aud dest rows bytes now clock env dr s in
  is_ok r = true →
  r_session_id (request envelope') = r_session_id (request envelope) →
  (r_sequence (request envelope') ≤ r_sequence (request envelope))%Z →
  is_ok (plane_evaluate cfg envelope' grant' aud' dest' rows' bytes' now' clock' env' dr'
           (run step s1 ops)).1 = false.
Proof.
  intros [g Hg]. destruct (plane_evaluate cfg envelope _ _ _ _ _ _ _ _ _ s) as [r s1] eqn:He.
  intros Hr Hsid Hq. destruct (evaluate_guard _ _ _ _ _ _ _ _ _ _ _ _ _ He) as (s0 & _ & Hg0 & Hc).
  specialize (Hc Hr).
  assert (Hs1 : plane_spent (r_session_id (request envelope)) (r_sequence (request envelope')) s1).
  { unfold commit_freshness in Hc. rewrite Hg in Hc.
    destruct (check_and_commit _ _ _ _ _) as [x g'] eqn:Hcc. injection Hc as -> <-.
    exists g'. split; [by rewrite Hg0|]. eapply spent_below; [|exact Hq].
    by eapply accepted_spends. }
  assert (Hrun : plane_spent (r_session_id (request envelope)) (r_sequence (request envelope'))
                   (run step s1 ops)).
  { apply run_invariant; [intros; by apply spent_step|done]. }
  destruct (plane_evaluate cfg envelope' _ _ _ _ _ _ _ _ _ _) as [r' s2] eqn:He'. simpl.
  destruct (is_ok r') eqn:Hr'; [|done]. exfalso.
  destruct (evaluate_guard _ _ _ _ _ _ _ _ _ _ _ _ _ He') as (s3 & _ & _ & Hc'). specialize (Hc' Hr').
  destruct Hrun as (g2 & Hg2 & Hsp). unfold commit_freshness in Hc'. rewrite Hg2 in Hc'.
  destruct (check_and_commit _ _ _ _ _) as [x g''] eqn:Hcc. injection Hc' as -> _.
  rewrite <-Hsid in Hsp. by apply (accepted_unspent _ _ _ _ _ _ Hcc).
Qed.
End freshness.

Section soundness.
Context `{Hashlib, Rfc8785, Pydantic, SignatureProvider, IsoParser, OPA, PolicySchema}.
Context {G E K W : Type} `{ReplayGuardProtocol G E} `{ReceiptSink K}.
Variable cfg : PlaneConfig.
Abbreviation plane := (ControlPlane (G := G) (K := K) (W := W)).
Abbreviation step := (plane_step (G := G) (E := E) (K := K) (W := W) cfg).

(** C6. No high-risk token without a human.  After any history of a fresh plane that
    draws its decision and approval identifiers fresh, every token in the
    presented-token store belongs to exactly the decision it names, which is not
    parked and records that very token; and either its risk tier is below the
    threshold and no approval was ever asked for, or the approval of that decision
    was granted, by a named approver.  A decision whose approval is pending, denied
    or lapsed has no token. *)
Theorem high_risk_needs_approval s0 ops :
  fresh_plane s0 → guarded step (plane_fresh (E := E)) s0 ops →
  let s := run step s0 ops in
  (∀ k t, store s !! k = Some t → accounted cfg s t) ∧
  (∀ d rec, by_decision (approvals s) d = Some rec → a_state rec ≠ A_GRANTED →
     ∀ k t, store s !! k = Some t → t_request_id (token t) ≠ d).
Proof.
  intros Hf Hg s. pose proof (plane_inv_run cfg s0 ops Hg (plane_inv_fresh cfg s0 Hf)) as Hi. fold s in Hi.
  split; [apply Hi|]. intros d rec Hr Hst k t Hk <-.
  destruct (iv_token _ _ Hi _ _ Hk) as (e & _ & _ & _ & [[Hu _]|(rec' & who & Hr' & Hg' & _)]);
    unfold unasked in *; congruence.
Qed.

(** C10. Decisions follow their life cycle.  Seen as a map from decision identifiers
    to phases, the plane refines the abstract machine in which a decision is created
    parked, or allowed with a token below the risk threshold, a parked decision is
    allowed by an approval, and nothing else happens; so an allowed decision keeps
    its one token for ever. *)
Theorem plane_refines_lifecycle s0 ops ops' d t :
  fresh_plane s0 → guarded step (plane_fresh (E := E)) s0 (ops ++ ops') →
  let s := run step s0 ops in
  rtc (lifecycle_step cfg) ∅ (phases s) ∧
  (phases s !! d = Some (Allowed t) → phases (run step s ops') !! d = Some (Allowed t)).
Proof.
  intros Hf [Hg Hg']%guarded_app s. pose proof (plane_inv_fresh cfg s0 Hf) as Hi0.
  pose proof (plane_inv_run cfg s0 ops Hg Hi0) as Hi. split.
  - pose proof (lifecycle_run cfg s0 ops Hi0 Hg) as Hr. destruct Hf as [Hd _].
    unfold phases at 1 in Hr. by rewrite Hd, fmap_empty in Hr.
  - intros Hp. eapply lifecycle_final; [|exact Hp]. by apply lifecycle_run.
Qed.

(** The token an evaluation mints for request [q] under decision [dec]. *)
Record token_for (s : plane) (q : SignedActionRequest) (aud did : string) (dec : PolicyDecision)
    (now : Z) (signed : SignedDecisionToken) : Prop := {
  tf_mac : verify_mac (dta_key (authority cfg)) (token signed) (mac signed) = Ok true;
  tf_request : t_request_id (token signed) = did;
  tf_action : t_action_hash (token signed) = r_action_hash q;
  tf_target : target_constraint (token signed) = target (r_action q) ∧
    operation_constraint (token signed) = operation (r_action q) ∧
    t_payload_hash (token signed) = payload_hash_of (r_action q);
  tf_identity : (t_agent_id (token signed), t_runtime_id (token signed), t_session_id (token signed))
    = (r_agent_id q, r_runtime_id q, r_session_id q);
  tf_audience : t_audience (token signed) = aud;
  tf_decision : t_decision (token signed) = TD_ALLOW ∧ max_uses (token signed) = 1%Z ∧
    t_risk_level (token signed) = risk_level dec;
  tf_epochs : epochs (token signed) = epoch_source (containment s);
  tf_window : t_not_before (token signed) = now ∧
    t_expires_at (token signed) = (now + seconds (default_ttl (authority cfg)))%Z
}.

Lemma minted_token_for s q aud did dec cs now clock dr signed :
  action_hash (r_action q) = Ok (r_action_hash q) → did ≠ "" →
  minted cfg did (r_action q) (binding_of q) aud (r_policy_hash q) (risk_level dec) cs
    evaluation_checks now clock dr s signed →
  token_for s q aud did dec now signed.
Proof.
  intros Hah Hne Hm. pose proof (issue_fields _ _ _ _ _ _ _ _ _ _ _ _ _ _ _ _ _ Hm) as [Hrq Hrl].
  apply issue_ok in Hm as (_ & Hmac & Hah' & _ & _ & Ht & Ho & Hp & Hag & Hrt & Hss & Hau & Hep & Hd
    & Hu & _ & Hnb & _ & Hex).
  constructor; try done.
  - by apply verify_mac_true.
  - rewrite Hrq. unfold request_id_or. by rewrite decide_False.
  - rewrite Hah in Hah'. by injection Hah'.
  - simpl in *. congruence.
Qed.

(** C4. An evaluation does exactly what its checks say.  If it fails, nothing but the
    replay guard has changed: no token, no decision, no approval, no effect.  If it
    returns, then the request is authentic and unexpired under the pinned policy, the
    replay guard accepted it, its session is active and bound to its agent and
    runtime, its subject is not contained and policy allowed its action; and either
    the decision needs approval, is parked and no token exists for it, or it does
    not, and one single-use token bound to that request, audience, tier and the
    current epochs has been presented. *)
Theorem evaluate_outcomes envelope grant aud dest rows bytes now clock env dr (s : plane) r s' :
  plane_evaluate cfg envelope grant aud dest rows bytes now clock env dr s = (r, s') →
  let t := or_now now clock in
  let q := request envelope in
  let did := "dec_" +:+ pd_decision dr in
  containment s' = containment s ∧ world (enforcement s') = world (enforcement s) ∧
  match r with
  | Err _ => store s' = store s ∧ decisions s' = decisions s ∧ approvals s' = approvals s
  | Ok res =>
      e_decision_id res = did ∧ decisions s' !! did ≠ None ∧
      authentic (key_registry s) t (policy_pin cfg) q (signature_b64 envelope) ∧
      (commit_freshness env q s).1 = Ok () ∧
      (∃ sess, session_store s !! r_session_id q = Some sess ∧ s_agent_id sess = r_agent_id q ∧
         s_runtime_id sess = r_runtime_id q ∧ s_revoked sess = false ∧ (t < s_expires_at sess)%Z) ∧
      engine_blocks (containment s) (containment_subject (binding_of q)) = false ∧
      ∃ dec, opa_authorize (build_authz_input (r_action q) grant dest rows bytes) = Ok dec ∧
        ((needs_approval cfg dec = true ∧ status res = DS_PENDING_APPROVAL ∧ e_token res = None ∧
          store s' = store s) ∨
         (needs_approval cfg dec = false ∧ status res = DS_ALLOW ∧ approvals s' = approvals s ∧
          ∃ signed, e_token res = Some signed ∧ token_for s q aud did dec t signed ∧
            store s' = <[(aud, r_action_hash q) := signed]> (store s)))
  end.
Proof.
  intros He t q did.
  destruct (evaluate_cases _ _ _ _ _ _ _ _ _ _ _ _ _ _ He)
    as [(x & -> & g & -> & _)|(s1 & cs & dec & ah & Hg & (g & -> & Hg') & Hah & Hcase)]; [done|].
  destruct Hg as [Hau Hfr Hse Hcs Hct Hpo]. apply verify_request_spec in Hau as [_ Hau].
  fold t q in Hau, Hfr, Hse, Hcs, Hpo, Hah, Hcase. fold did in Hcase.
  assert (Hsess : ∃ sess, session_store s !! r_session_id q = Some sess ∧
    s_agent_id sess = r_agent_id q ∧ s_runtime_id sess = r_runtime_id q ∧
    s_revoked sess = false ∧ (t < s_expires_at sess)%Z).
  { destruct (session_validate _ _ _ _ _ _) as [sess|] eqn:Hv; [|done].
    exists sess. by apply session_validate_ok in Hv. }
  assert (Hb : engine_blocks (containment s) (containment_subject (binding_of q)) = false).
  { unfold engine_blocks. by rewrite <-Hcs. }
  destruct Hcase as [(Hn & res & -> & Hst & Hid & Htok & ->)|(Hn & signed & Hm & -> & ->)].
  - split; [done|]. split; [done|]. split_and!; try done.
    + simpl. by rewrite lookup_insert_eq.
    + by rewrite Hfr.
    + exists dec. split; [done|]. by left.
  - pose proof (minted_token_for s q aud did dec cs t clock (pd_token dr) signed
                  (au_hash _ _ _ _ _ Hau) (dec_id_nonempty _) Hm) as Htf.
    split; [done|]. split; [done|]. split_and!; try done.
    + simpl. by rewrite lookup_insert_eq.
    + by rewrite Hfr.
    + exists dec. split; [done|]. right. split_and!; try done. exists signed. split_and!; try done.
      unfold store. simpl. by rewrite (tf_audience _ _ _ _ _ _ _ Htf), (tf_action _ _ _ _ _ _ _ Htf).
Qed.
End soundness.

Section service.
Context `{Hashlib, Rfc8785, Pydantic, SignatureProvider, IsoParser, OPA, PolicySchema}.
Context {G E K W : Type} `{ReplayGuardProtocol G E} `{ReceiptSink K}.
Variable cfg : PlaneConfig.
Abbreviation plane := (ControlPlane (G := G) (K := K) (W := W)).

Lemma evaluate_world envelope grant aud dest rows bytes now clock env dr (s : plane) r s' :
  plane_evaluate cfg envelope grant aud dest rows bytes now clock env dr s = (r, s') →
  world (enforcement s') = world (enforcement s).
Proof.
  intros He. by destruct (evaluate_cases _ _ _ _ _ _ _ _ _ _ _ _ _ _ He)
    as [(x & _ & g & -> & _)|(s1 & cs & dec & ah & _ & (g & -> & _) & _ &
         [(_ & res & _ & _ & _ & _ & ->)|(_ & sg & _ & _ & ->)])].
Qed.

(** C3. Nothing executes without an evaluation.  If [evaluate_execute] changes the
    world behind the broker, or returns a mediation outcome, then the evaluation
    returned ALLOW; the broker observed an action, and in the store left by that
    evaluation there is a token for the broker's audience and the hash of what was
    observed, which passes every check of the validator (its MAC, the identity of
    the request, the current epochs, the time window, the target, the uses left) at
    the instant of execution; and the world changed by that effect alone. *)
Theorem execution_needs_evaluation {Req} envelope grant (broker : EnforcementBroker Req W) rq dest
    rows bytes now clock env dr t (s : plane) r s' :
  evaluate_execute cfg envelope grant broker rq dest rows bytes now clock env dr t s = (r, s') →
  world (enforcement s') ≠ world (enforcement s) ∨ (∃ o, r = Ok o ∧ eo_outcome o ≠ None) →
  ∃ res s1 a h signed,
    plane_evaluate cfg envelope grant (audience broker) dest rows bytes now clock env dr s
      = (Ok res, s1) ∧ status res = DS_ALLOW ∧
    observe broker rq (binding_of (request envelope)) = Ok a ∧ action_hash a = Ok h ∧
    store s1 !! (audience broker, h) = Some signed ∧
    authorizes (validator (shared_epochs s1)) signed a h (binding_of (request envelope))
      (audience broker) t ∧
    world (enforcement s') = (execute broker a (decision_of (token signed)) rq
                                (world (enforcement s))).2.
Proof.
  unfold evaluate_execute, cbind. intros He Hw.
  destruct (plane_evaluate cfg envelope grant (audience broker) dest rows bytes now clock env dr s)
    as [[res|x] s1] eqn:Hev; pose proof (evaluate_world _ _ _ _ _ _ _ _ _ _ _ _ _ Hev) as Hw1.
  2: { injection He as <- <-. exfalso. destruct Hw as [Hw|(o & [=] & _)]. congruence. }
  case_decide as Hst.
  { injection He as <- <-. exfalso. destruct Hw as [Hw|(o & [= <-] & Hn)]; [congruence|done]. }
  destruct (on_enforcement (mediate broker rq (binding_of (request envelope)) t) s1) as [x s2] eqn:Hm.
  assert (Hmed : ∃ y es, mediate broker rq (binding_of (request envelope)) t (shared_epochs s1) = (y, es) ∧
    x = y ∧ s2 = set_enforcement es s1).
  { unfold on_enforcement in Hm. destruct (mediate _ _ _ _ _) as [y es]. injection Hm as <- <-.
    by exists y, es. }
  destruct Hmed as (y & es & Hmed & -> & ->).
  assert (Hs2 : s' = set_enforcement es s1) by (destruct y; by injection He).
  subst s'. change (world (enforcement (set_enforcement es s1))) with (world es) in *.
  destruct (mediate_cases _ _ _ _ _ _ _ Hmed) as [[Hno Hsame]|(a & d & v' & [Hob (h & Hh & Haz & _) Hal] & _ & Hw' & _)].
  { exfalso. change (world (shared_epochs s1)) with (world (enforcement s1)) in Hsame.
    destruct Hw as [Hw|(o & Ho & Hn)]; [congruence|]. destruct y; [done|]. simplify_eq. }
  apply authorize_ok in Haz as (signed & Haz & -> & _).
  exists res, s1, a, h, signed. split_and!; try done.
  - apply (az_presented _ _ _ _ _ _ _ Haz).
  - rewrite Hw'. change (world (shared_epochs s1)) with (world (enforcement s1)). by rewrite Hw1.
Qed.

Lemma evaluate_allow envelope grant aud dest rows bytes now clock env dr (s s1 : plane) dec signed cs :
  let t := or_now now clock in
  let q := request envelope in
  let did := "dec_" +:+ pd_decision dr in
  gates cfg envelope grant dest rows bytes t clock env s s1 cs dec →
  needs_approval cfg dec = false →
  minted cfg did (r_action q) (binding_of q) aud (r_policy_hash q) (risk_level dec) cs
    evaluation_checks t clock (pd_token dr) s signed →
  let res := allow_result did (binding_of q) aud (risk_level dec) cs (reason_code dec) signed in
  plane_evaluate cfg envelope grant aud dest rows bytes now clock env dr s =
    (Ok res, set_decisions (<[did := mkEntry res None clock]> (decisions s)) (presented signed s1)).
Proof.
  intros t q did [Hau Hfr Hse Hcs Hct Hpo] Hn Hm res. fold q in Hau, Hfr, Hse, Hcs, Hpo.
  pose proof (commit_freshness_only _ _ _ _ _ Hfr) as (g & -> & _).
  unfold plane_evaluate. fold t. unfold cbind at 1, cget at 1. unfold cbind at 1, clift at 1.
  rewrite Hau. unfold cbind at 1. rewrite Hfr. unfold cbind at 1, clift at 1.
  cbn [set_replay session_store].
  destruct (session_validate _ _ _ _ _ _) as [sess|x]; [|done].
  unfold cbind at 1, containment_gate. unfold cbind at 1, cget.
  change (containment (set_replay g s)) with (containment s).
  unfold engine_blocks. rewrite <-Hcs, Hct. unfold cret at 1. unfold cbind at 1, clift at 1.
  rewrite Hpo. fold (needs_approval cfg dec). rewrite Hn. unfold cbind at 1.
  unfold mint. unfold cbind at 1, cget. unfold cbind at 1, clift at 1.
  change (containment (set_replay g s)) with (containment s). fold did. unfold minted in Hm. rewrite Hm.
  unfold cbind at 1, present_token, cmodify. unfold cbind at 1, clift at 1.
  rewrite (minted_hash _ _ _ _ _ _ _ _ _ _ _ _ _ _ Hm). unfold cret at 1.
  unfold cbind, store_entry, cmodify, cret. done.
Qed.

(** A freshly minted token that has not been used authorizes its action. *)
Lemma fresh_token_authorizes (s : plane) q aud did dec cs now clock dr signed b v t :
  minted cfg did (r_action q) (binding_of q) aud (r_policy_hash q) (risk_level dec) cs
    evaluation_checks now clock dr s signed →
  v_store v !! (aud, t_action_hash (token signed)) = Some signed →
  v_key v = dta_key (authority cfg) → v_epochs v = epoch_source (containment s) →
  v_uses v !! dr_nonce dr = None → b = binding_of q →
  (now ≤ t < now + seconds (default_ttl (authority cfg)))%Z →
  authorizes v signed (r_action q) (t_action_hash (token signed)) b aud t.
Proof.
  intros Hm Hst Hk He Hu -> Ht.
  apply issue_ok in Hm as (_ & Hmac & _ & Hv & Hty & Htg & Ho & Hp & Hag & Hrt & Hss & Hau & Hep & _
    & Hus & Hn & Hnb & _ & Hex).
  constructor; try done.
  - rewrite Hk. by apply verify_mac_true.
  - simpl in Hnb, Hex. lia.
  - by rewrite He.
  - by right.
  - rewrite Hn, Hu, Hus. done.
Qed.

(** The token of an honest request, with the evaluation that mints it. *)
Lemma honest_request_allowed ops (s s1 : plane) agent runtime session dlg policy action ttl
    built clock0 nonce uuid sq envelope sq' grant aud dest rows bytes now clock env dr dec cs signed :
  provider_correct → inverts_isoformat →
  key_registry s = run key_step new_key_registry ops → datetime_ok built = true →
  build_and_sign (key_registry s) agent runtime session dlg policy action ttl (Some built) clock0
    nonce uuid sq = (Ok envelope, sq') →
  (built - CLOCK_SKEW ≤ now < built + seconds ttl)%Z →
  (∀ k, lookup_key (key_registry s) (r_key_id (request envelope)) = Some k → within_window k now = true) →
  (plane_policy_hash cfg = "" ∨ plane_policy_hash cfg = policy) →
  commit_freshness env (request envelope) s = (Ok (), s1) →
  is_ok (session_validate (session_store s) session agent runtime (Some now) clock) = true →
  cs = engine_state (containment s) (containment_subject (binding_of (request envelope))) →
  blocks_new_consequential_tokens cs = false →
  opa_authorize (build_authz_input action grant dest rows bytes) = Ok dec →
  needs_approval cfg dec = false →
  minted cfg ("dec_" +:+ pd_decision dr) action (binding_of (request envelope)) aud policy
    (risk_level dec) cs evaluation_checks now clock (pd_token dr) s signed →
  v_key (validator (enforcement s)) = dta_key (authority cfg) →
  v_uses (validator (enforcement s)) !! dr_nonce (pd_token dr) = None →
  ∃ s', plane_evaluate cfg envelope grant aud dest rows bytes (Some now) clock env dr s =
      (Ok (allow_result ("dec_" +:+ pd_decision dr) (binding_of (request envelope)) aud (risk_level dec) cs
             (reason_code dec) signed), s') ∧
    enforcement s' = mkES (present signed (validator (enforcement s))).2 (sink (enforcement s)) (world (enforcement s)) ∧
    action_hash action = Ok (r_action_hash (request envelope)) ∧
    r_action_hash (request envelope) = t_action_hash (token signed) ∧
    ∀ t, (now ≤ t < now + seconds (default_ttl (authority cfg)))%Z →
      authorizes (validator (shared_epochs s')) signed action (r_action_hash (request envelope))
        (binding_of (request envelope)) aud t.
Proof.
  intros Hp Hiso Hreg Hok Hb Hnow Hw Hpin Hfr Hse Hcs Hct Hpo Hn Hm Hkey Hnonce.
  assert (Hinv : key_inv (key_registry s)) by (rewrite Hreg; apply key_run_inv).
  destruct (build_verifies _ _ _ _ _ _ _ _ (Some built) clock0 _ _ _ _ _ now clock (policy_pin cfg)
    Hp Hiso Hinv Hok Hb Hnow Hw) as [Hv Hfields].
  { unfold policy_pin. intros h Hh. case_decide; [done|]. injection Hh as <-. by destruct Hpin. }
  injection Hfields as Hag Hrt Hss _ Hph Hac _.
  set (q := request envelope) in *.
  assert (Hg : gates cfg envelope grant dest rows bytes now clock env s s1 cs dec).
  { constructor; fold q; try done.
    - by rewrite Hss, Hag, Hrt.
    - by rewrite Hac. }
  pose proof (commit_freshness_only _ _ _ _ _ Hfr) as (g & Hs1 & _).
  rewrite <-Hac, <-Hph in Hm.
  pose proof (evaluate_allow envelope grant aud dest rows bytes (Some now) clock env dr s s1 dec signed cs
    Hg Hn Hm) as He.
  apply verify_request_spec in Hv as [_ Hau].
  pose proof (minted_hash _ _ _ _ _ _ _ _ _ _ _ _ _ _ Hm) as Hh.
  pose proof Hh as Hhash. rewrite (au_hash _ _ _ _ _ Hau) in Hh. injection Hh as Hh.
  rewrite <-Hac, Hh. eexists. split; [exact He|]. subst s1. split; [done|]. split; [exact Hhash|]. split; [done|].
  intros t Ht.
  apply (fresh_token_authorizes s q aud ("dec_" +:+ pd_decision dr) dec cs now clock (pd_token dr) signed); try done.
  apply issue_ok in Hm as (_ & _ & _ & _ & _ & _ & _ & _ & _ & _ & _ & Haud & _). simpl.
  rewrite Haud. by rewrite lookup_insert_eq.
Qed.

(** An honest request is served.  Take any history of the key registry, an agent
    that signs a request with the SDK, and a plane over that registry with any
    contents.  If the request arrives before it expires and while the signing key is
    in its window, names the pinned policy and an active session of that agent and
    runtime, its freshness is accepted, its subject is not contained, policy allows
    the action at a tier that needs no approval, and the authority can issue (its key
    being the validator's, and the token nonce new), then the evaluation returns
    ALLOW, and until the token expires the validator grants that very action. *)
Theorem honest_request_served ops (s s1 : plane) agent runtime session dlg policy action ttl
    built clock0 nonce uuid sq envelope sq' grant aud dest rows bytes now clock env dr dec cs signed :
  provider_correct → inverts_isoformat →
  key_registry s = run key_step new_key_registry ops → datetime_ok built = true →
  build_and_sign (key_registry s) agent runtime session dlg policy action ttl (Some built) clock0
    nonce uuid sq = (Ok envelope, sq') →
  (built - CLOCK_SKEW ≤ now < built + seconds ttl)%Z →
  (∀ k, lookup_key (key_registry s) (r_key_id (request envelope)) = Some k → within_window k now = true) →
  (plane_policy_hash cfg = "" ∨ plane_policy_hash cfg = policy) →
  commit_freshness env (request envelope) s = (Ok (), s1) →
  is_ok (session_validate (session_store s) session agent runtime (Some now) clock) = true →
  cs = engine_state (containment s) (containment_subject (binding_of (request envelope))) →
  blocks_new_consequential_tokens cs = false →
  opa_authorize (build_authz_input action grant dest rows bytes) = Ok dec →
  needs_approval cfg dec = false →
  minted cfg ("dec_" +:+ pd_decision dr) action (binding_of (request envelope)) aud policy
    (risk_level dec) cs evaluation_checks now clock (pd_token dr) s signed →
  v_key (validator (enforcement s)) = dta_key (authority cfg) →
  v_uses (validator (enforcement s)) !! dr_nonce (pd_token dr) = None →
  ∃ res s', plane_evaluate cfg envelope grant aud dest rows bytes (Some now) clock env dr s = (Ok res, s') ∧
    status res = DS_ALLOW ∧
    ∀ t, (now ≤ t < now + seconds (default_ttl (authority cfg)))%Z →
      (token_authorize action (r_action_hash (request envelope)) (binding_of (request envelope)) aud t
         (validator (shared_epochs s'))).1 = Ok (decision_of (token signed)).
Proof.
  intros. edestruct honest_request_allowed as (s' & He & _ & _ & _ & Haz); try eassumption.
  eexists _, s'. split; [exact He|]. split; [done|]. intros t Ht.
  rewrite (proj2 (authorize_ok _ _ _ _ _ _ (decision_of (token signed)) (use_recorded signed (validator (shared_epochs s')))));
    [done|by exists signed; split; [apply Haz|]].
Qed.
End service.


(** * Witnesses: a plane over the in-process guard, with a broker that logs its targets *)

Import Instances.
#[local] Existing Instances toy_provider iso_instance authz_engine strict_schema.

Definition ex_cfg : PlaneConfig := mkConfig ex_dta "sha256:policy" L3.
Definition ex_cautious : PlaneConfig := mkConfig ex_dta "sha256:policy" L0.
Definition ex_grant : Grant := grant_from_delegation pol_child None 0 0.
Abbreviation ex_plane := (ControlPlane (G := InMemoryReplayGuard) (K := list ExecutionReceipt) (W := list string)).
Definition ex_plane0 : ex_plane :=
  mkPlane ex_keys ∅ (new_approval_store 300) (Some (mkMemGuard ∅ ∅)) (new_engine None None 60)
    (mkES (mkValidator ex_key default_epochs ∅ ∅) [] []) ∅.
Definition ex_pd : plane_draws := mkPlaneDraws "d1" "p1" (mkDraws "t1" "q1" "n1").
Definition ex_session_op : plane_op (E := unit) (W := list string) :=
  PCreateSession "agt_1" "rt_1" None (Some 10%Z) 0 "1".
Definition ex_evaluate_op : plane_op (E := unit) (W := list string) :=
  PEvaluate ex_request_env ex_grant "file" None None None (Some 25000000%Z) 0 () ex_pd.
Definition ex_approve_op : plane_op (E := unit) (W := list string) :=
  PApprove "dec_d1" "carol" (Some 26000000%Z) 0 (mkDraws "t2" "q2" "n2").
Definition ex_ready : ex_plane := plane_step ex_cfg ex_plane0 ex_session_op.
Definition ex_pending : ex_plane :=
  run (plane_step ex_cautious) ex_plane0 [ex_session_op; ex_evaluate_op; ex_approve_op].

Lemma ex_fresh : fresh_plane ex_plane0.
Proof. split_and!; [reflexivity|reflexivity|]. by exists 300%Z. Qed.

Lemma ex_guarded cfg : guarded (plane_step cfg) (plane_fresh (E := unit)) ex_plane0
  [ex_session_op; ex_evaluate_op].
Proof. split; [done|]. split; [|done]. vm_compute. done. Qed.

(** Approved by a human, the parked decision has a token; until then it has none. *)
Example ex_approved :
  (t_request_id ∘ token) <$> (map_to_list (store ex_pending)).*2 = ["dec_d1"] ∧
  store (run (plane_step ex_cautious) ex_plane0 [ex_session_op; ex_evaluate_op]) = ∅.
Proof. split; vm_compute; reflexivity. Qed.

Definition ex_subject : string := "agt_1|rt_1|ses_1".
Definition ex_quarantine (s : ex_plane) :=
  quarantine ex_subject "agt_1" (Some "rt_1") ["OPERATOR"] QUARANTINED (Some 30000000%Z) 0 s.
Definition ex_after_quarantine : list (plane_op (E := unit) (W := list string)) :=
  [PReset ex_subject "agt_1" ADMIN_APPROVAL None None (Some 31000000%Z) 0; ex_session_op].

(** At an agent with a live token, quarantined and then left uncleared. *)
Lemma quarantine_holds_witness :
  is_ok (plane_evaluate ex_cfg ex_request_env ex_grant "file" None None None (Some 32000000%Z) 0 () ex_pd
    (run (plane_step ex_cfg)
       (ex_quarantine (run (plane_step ex_cfg) ex_plane0 [ex_session_op; ex_evaluate_op])).2
       ex_after_quarantine)).1 = false.
Proof.
  pose proof (quarantine_holds ex_cfg ex_plane0 [ex_session_op; ex_evaluate_op] ex_after_quarantine
    ex_subject "agt_1" (Some "rt_1") ["OPERATOR"] QUARANTINED (Some 30000000%Z) 0 ex_fresh
    (ex_guarded ex_cfg)) as Hcut.
  cbv zeta in Hcut. fold (ex_quarantine (run (plane_step ex_cfg) ex_plane0 [ex_session_op; ex_evaluate_op])) in Hcut.
  set (q := ex_quarantine _) in *.
  assert (Hr : is_ok q.1 = true) by (vm_compute; reflexivity).
  assert (Hst : engine_state (containment q.2) ex_subject = QUARANTINED) by (vm_compute; reflexivity).
  clearbody q. destruct q as [r s1]. cbn [fst snd] in *.
  destruct (Hcut Hr) as [He _].
  - rewrite Hst. repeat constructor; vm_compute; intuition congruence.
  - apply He. reflexivity.
Defined.

(** C11 at the same request, sent twice. *)
Lemma request_evaluated_once_witness :
  is_ok (plane_evaluate ex_cfg ex_request_env ex_grant "net" None None None (Some 26000000%Z) 0 () ex_pd
    (run (plane_step ex_cfg) (plane_step ex_cfg ex_ready ex_evaluate_op) [ex_session_op])).1 = false.
Proof.
  pose proof (request_evaluated_once ex_cfg ex_request_env ex_grant "file" None None None
    (Some 25000000%Z) 0 () ex_pd ex_ready [ex_session_op] ex_request_env ex_grant "net" None None None
    (Some 26000000%Z) 0 () ex_pd ltac:(eexists; reflexivity)) as Honce.
  cbn [plane_step ex_evaluate_op].
  set (q := plane_evaluate _ _ _ "file" _ _ _ _ _ _ _ _) in *.
  assert (Hr : is_ok q.1 = true) by (vm_compute; reflexivity).
  clearbody q. destruct q as [r s1]. cbn [fst snd] in *.
  exact (Honce Hr eq_refl (Z.le_refl _)).
Defined.

(** C6 at the approved decision. *)
Lemma high_risk_needs_approval_witness :
  Forall (λ kt, accounted ex_cautious ex_pending kt.2) (map_to_list (store ex_pending)).
Proof.
  destruct (high_risk_needs_approval ex_cautious ex_plane0 [ex_session_op; ex_evaluate_op; ex_approve_op]
    ex_fresh) as [Hacc _].
  { split; [exact I|]. split; [vm_compute; exact (conj eq_refl eq_refl)|]. exact (conj I I). }
  apply Forall_forall. intros [k t] Hk%elem_of_map_to_list. exact (Hacc k t Hk).
Defined.

(** C10 at the same history. *)
Lemma plane_refines_lifecycle_witness :
  rtc (lifecycle_step ex_cautious) ∅ (phases ex_pending).
Proof.
  destruct (plane_refines_lifecycle ex_cautious ex_plane0 [ex_session_op; ex_evaluate_op; ex_approve_op]
    [] "dec_d1" ex_signed ex_fresh) as [Hr _].
  { split; [exact I|]. split; [vm_compute; exact (conj eq_refl eq_refl)|]. exact (conj I I). }
  exact Hr.
Defined.

Definition ex_evaluation : EvaluationResult := Eval vm_compute in
  match (plane_evaluate ex_cfg ex_request_env ex_grant "file" None None None (Some 25000000%Z) 0 ()
           ex_pd ex_ready).1 with
  | Ok r => r
  | Err _ => mkEvaluation DS_DENY "" "" "" "" 0 NORMAL "" None None
  end.
Definition ex_minted : SignedDecisionToken := Eval vm_compute in default ex_signed (e_token ex_evaluation).
Lemma ex_evaluation_ok :
  (plane_evaluate ex_cfg ex_request_env ex_grant "file" None None None (Some 25000000%Z) 0 () ex_pd
     ex_ready).1 = Ok ex_evaluation.
Proof. vm_compute. reflexivity. Qed.

(** C4 at the same request. *)
Lemma evaluate_outcomes_witness :
  authentic ex_keys 25000000 (Some "sha256:policy") (request ex_request_env) (signature_b64 ex_request_env).
Proof.
  pose proof ex_evaluation_ok as Hr.
  destruct (plane_evaluate ex_cfg ex_request_env ex_grant "file" None None None (Some 25000000%Z) 0 ()
    ex_pd ex_ready) as [r s'] eqn:He.
  cbn [fst] in Hr.
  pose proof (evaluate_outcomes ex_cfg ex_request_env ex_grant "file" None None None (Some 25000000%Z) 0 ()
    ex_pd ex_ready r s' He) as (_ & _ & Hok).
  rewrite Hr in Hok. destruct Hok as (_ & _ & Ha & _).
  exact Ha.
Defined.

(** C3 at the execution of the file read. *)
Lemma execution_needs_evaluation_witness :
  ∃ res : EvaluationResult, status res = DS_ALLOW ∧ e_token res = Some ex_minted.
Proof.
  set (o := evaluate_execute ex_cfg ex_request_env ex_grant ex_broker "/data/report.txt" None None None
    (Some 25000000%Z) 0 () ex_pd 25000010 ex_ready).
  assert (Hw : world (enforcement o.2) = ["/data/report.txt"]) by (vm_compute; reflexivity).
  destruct o as [r s'] eqn:Ho. cbn [snd] in Hw.
  destruct (execution_needs_evaluation ex_cfg ex_request_env ex_grant ex_broker "/data/report.txt" None None
    None (Some 25000000%Z) 0 () ex_pd 25000010 ex_ready r s' Ho) as (res & s1 & a & h & sg & He & Hst & _).
  - left. rewrite Hw. vm_compute. discriminate.
  - exists res. split; [exact Hst|]. pose proof ex_evaluation_ok as Hr.
    change (audience ex_broker) with "file" in He. rewrite He in Hr. cbn [fst] in Hr.
    injection Hr as ->. vm_compute. reflexivity.
Defined.

(** At the same request. *)
Lemma honest_request_served_witness :
  ∃ res s', plane_evaluate ex_cfg ex_request_env ex_grant "file" None None None (Some 25000000%Z) 0 ()
      ex_pd ex_ready = (Ok res, s') ∧ status res = DS_ALLOW ∧
    (token_authorize ex_action (r_action_hash (request ex_request_env)) (binding_of (request ex_request_env))
       "file" 26000000 (validator (shared_epochs s'))).1 = Ok (decision_of (token ex_minted)).
Proof.
  destruct (honest_request_served ex_cfg ex_key_ops ex_ready
    (commit_freshness () (request ex_request_env) ex_ready).2
    "agt_1" "rt_1" "ses_1" "dlg_1" "sha256:policy" ex_action 30 20 0 "00112233445566778899aabbccddeeff"
    "u1" ∅ ex_request_env ex_sequences ex_grant "file" None None None 25000000 0 () ex_pd
    (mkPolicyDecision true "ALLOW" 2 false true false false) NORMAL ex_minted
    toy_provider_correct iso_instance_ok) as (res & s' & He & Hst & Ht).
  - change (key_registry ex_ready) with ex_keys. symmetry. exact ex_keys_run.
  - vm_compute. reflexivity.
  - exact ex_build_ok.
  - vm_compute. split; congruence.
  - change (key_registry ex_ready) with ex_keys. intros k Hk. vm_compute in Hk. injection Hk as <-. vm_compute. reflexivity.
  - right. reflexivity.
  - vm_compute. reflexivity.
  - vm_compute. reflexivity.
  - vm_compute. reflexivity.
  - reflexivity.
  - vm_compute. reflexivity.
  - vm_compute. reflexivity.
  - vm_compute. reflexivity.
  - vm_compute. reflexivity.
  - vm_compute. reflexivity.
  - exists res, s'. split; [exact He|]. split; [exact Hst|]. apply Ht. vm_compute. split; congruence.
Defined.
