(* ===== verification/PlaneThreads.v ===== *)
(** The calls of the control plane as threads ([cvztte/control_plane/plane.py] served by the
    threads of an HTTP server): [evaluate], [evaluate_execute], [approve] and the operations
    of the containment engine one shared access at a time, in every interleaving.

    [ControlPlane] has each handler as one function of the state, which is what it computes
    when no other call runs; the code holds no lock from the containment gate of a call to
    the minting of its token, nor from the epoch bump of a transition to the write of the
    state it leads to.  Here those are separate steps. *)

From S2P Require Export PlaneProps.
From S2P Require Import Concrete.

Section threads.
Context `{Hashlib, Rfc8785, Pydantic, SignatureProvider, IsoParser, OPA, PolicySchema}.
Context {G E K W : Type} `{ReplayGuardProtocol G E} `{ReceiptSink K}.
Variable cfg : PlaneConfig.
Abbreviation plane := (ControlPlane (G := G) (K := K) (W := W)).

(** * The points of a call *)

(** What an evaluation is for: its own result, or the mediation behind
    [evaluate_execute]. *)
Inductive continuation : Type :=
| Return
| Execute {Req : Type} (broker : EnforcementBroker Req W) (broker_request : Req) (mediated_at : Z).

(** The arguments of [evaluate] and of [approve]. *)
Record evaluate_call : Type := mkEvaluate {
  c_envelope : SignedEnvelope;
  c_grant : Grant;
  c_audience : string;
  c_destination : option string;
  c_rows : option Z;
  c_bytes : option Z;
  c_now : option Z;
  c_clock : Z;
  c_env : E;
  c_draws : plane_draws;
  c_then : continuation
}.
Record approve_call : Type := mkApprove {
  a_decision : string;
  a_approver : string;
  a_now : option Z;
  a_clock : Z;
  a_draws : draws
}.
(** The arguments of [_mint]; the approval, if the token comes from one. *)
Record mint_call : Type := mkMint {
  m_decision : string;
  m_action : AgentAction;
  m_binding : AdapterBinding;
  m_audience : string;
  m_policy_hash : string;
  m_risk : Z;
  m_reason : string;
  m_checks : TokenChecks;
  m_now : Z;
  m_clock : Z;
  m_draws : draws;
  m_approval : option string;
  m_then : continuation
}.

(** Handlers that touch one table of the plane, in one step. *)
Inductive single_op : Type :=
| SKeys (o : key_op)
| SCreateSession (agent runtime : string) (ttl now : option Z) (clock : Z) (uuid : string)
| SRevokeSession (sid : string)
| SMediate {Req : Type} (broker : EnforcementBroker Req W) (req : Req) (binding : AdapterBinding) (now : Z)
| SDeny (did approver : string) (reason : option string) (now : option Z) (clock : Z).

Definition single_plane_op (o : single_op) : plane_op (E := E) (W := W) :=
  match o with
  | SKeys o => PKeys o
  | SCreateSession a r ttl now clock u => PCreateSession a r ttl now clock u
  | SRevokeSession sid => PRevokeSession sid
  | SMediate b rq bd now => PMediate b rq bd now
  | SDeny d who why now clock => PDeny d who why now clock
  end.

(** What a call ends with. *)
Inductive outcome : Type :=
| OEvaluation (r : res EvaluationResult)
| OExecution (r : res ExecuteOutcome)
| OTransition (r : res (option ContainmentTransition))
| OSingle.

(** Where a call is.  [TState] is at [containment.state(subject)], [TGate] at
    [blocks_new_consequential_tokens(subject)], [TMint] at [current_epochs()], [TPresent] at
    [store.present], [TStore] at the table of decisions; [TLocked] is a transition at the
    lock of its subject, [TWrite] one that has bumped the epoch. *)
Inductive thread : Type :=
| TVerify (c : evaluate_call)
| TFresh (c : evaluate_call)
| TSession (c : evaluate_call)
| TState (c : evaluate_call)
| TGate (c : evaluate_call) (cs : ContainmentState)
| TPolicy (c : evaluate_call) (cs : ContainmentState)
| TPark (c : evaluate_call) (cs : ContainmentState) (dec : PolicyDecision)
| TParked (c : evaluate_call) (cs : ContainmentState) (dec : PolicyDecision) (ah : string)
| TApprove (a : approve_call)
| TGrant (a : approve_call) (p : PendingMint)
| TAssert (a : approve_call) (p : PendingMint)
| TApprovedState (a : approve_call) (p : PendingMint) (rec : ApprovalRecord)
| TApprovedGate (a : approve_call) (p : PendingMint) (rec : ApprovalRecord) (cs : ContainmentState)
| TMint (m : mint_call) (cs : ContainmentState)
| TPresent (m : mint_call) (cs : ContainmentState) (signed : SignedDecisionToken)
| TStore (did : string) (entry : DecisionEntry) (binding : AdapterBinding) (k : continuation)
| TMediate {Req : Type} (broker : EnforcementBroker Req W) (req : Req) (binding : AdapterBinding)
    (at_ : Z) (ev : EvaluationResult)
| TContain (o : engine_op)
| TLocked (o : engine_op)
| TWrite (o : engine_op) (tr : ContainmentTransition)
| TSingle (o : single_op)
| TDone (r : outcome).

(** * One step *)

(** Run [m]; on an exception the call ends with it. *)
Definition then_ {A} (fail : exn → thread) (m : M plane A) (k : A → thread) (s : plane) : thread * plane :=
  let '(r, s') := m s in (match r with Ok a => k a | Err x => fail x end, s').
Definition evaluation_failed (c : evaluate_call) (x : exn) : thread :=
  TDone (match c_then c with Return => OEvaluation (Err x) | Execute _ _ _ => OExecution (Err x) end).
Definition minting_failed (k : continuation) (x : exn) : thread :=
  TDone (match k with Return => OEvaluation (Err x) | Execute _ _ _ => OExecution (Err x) end).
Definition approval_failed (x : exn) : thread := TDone (OEvaluation (Err x)).

(** The evaluation [ev] is stored: the call returns it, or goes on to mediate an ALLOW. *)
Definition resume (k : continuation) (binding : AdapterBinding) (ev : EvaluationResult) : thread :=
  match k with
  | Return => TDone (OEvaluation (Ok ev))
  | Execute b rq t => if decide (status ev ≠ DS_ALLOW) then TDone (OExecution (Ok (mkExecuteOutcome ev None)))
                      else TMediate b rq binding t ev
  end.

Definition c_request (c : evaluate_call) : SignedActionRequest := request (c_envelope c).
Definition c_subject (c : evaluate_call) : string := containment_subject (binding_of (c_request c)).
Definition c_time (c : evaluate_call) : Z := or_now (c_now c) (c_clock c).
Definition a_time (a : approve_call) : Z := or_now (a_now a) (a_clock a).
Definition m_subject (m : mint_call) : string := containment_subject (m_binding m).
Definition c_did (c : evaluate_call) : string := "dec_" +:+ pd_decision (c_draws c).

(** [blocks_new_consequential_tokens(subject)]; [cs] is the state read before. *)
Definition gate (subject msg : string) (cs : ContainmentState) : M plane unit :=
  let! s := cget in
  if engine_blocks (containment s) subject then raise (containment_block_code cs) msg else cret tt.

(** After the policy: the evaluation parks or mints. *)
Definition decided (c : evaluate_call) (cs : ContainmentState) (dec : PolicyDecision) : thread :=
  if needs_approval cfg dec then TPark c cs dec
  else TMint (mkMint (c_did c) (r_action (c_request c)) (binding_of (c_request c)) (c_audience c)
                (r_policy_hash (c_request c)) (risk_level dec) (reason_code dec) evaluation_checks
                (c_time c) (c_clock c) (pd_token (c_draws c)) None (c_then c)) cs.

Definition mint_approved (a : approve_call) (p : PendingMint) (rec : ApprovalRecord) : mint_call :=
  mkMint (a_decision a) (pm_action p) (pm_binding p) (pm_audience p) (pm_policy_hash p) (pm_risk_level p)
    "APPROVED" (pm_checks p) (a_time a) (a_clock a) (a_draws a) (Some (approval_id rec)) Return.

(** The operation under the lock of its subject. *)
Definition engine_call (o : engine_op) : M ContainmentEngine (option ContainmentTransition) :=
  match o with
  | EEvaluate s a f rt c now => evaluate s a f rt c (Some now) now
  | EKill s a t c rt now => let! tr := kill_switch s a t c rt (Some now) now in cret (Some tr)
  | ERecover s a m ap rt now => let! tr := recover s a m ap rt (Some now) now in cret (Some tr)
  end.
Definition op_now (o : engine_op) : Z :=
  match o with EEvaluate _ _ _ _ _ now | EKill _ _ _ _ _ now | ERecover _ _ _ _ _ now => now end.
Definition op_agent (o : engine_op) : string :=
  match o with EEvaluate _ a _ _ _ _ | EKill _ a _ _ _ _ | ERecover _ a _ _ _ _ => a end.
Definition op_runtime (o : engine_op) : option string :=
  match o with EEvaluate _ _ _ rt _ _ | EKill _ _ _ _ rt _ | ERecover _ _ _ _ rt _ => rt end.
(** The operation on the entry that [_subject] returned: nothing of its identity is left to
    set. *)
Definition entered (o : engine_op) : engine_op :=
  match o with
  | EEvaluate s _ f _ c now => EEvaluate s "" f None c now
  | EKill s _ t c _ now => EKill s "" t c None now
  | ERecover s _ m ap _ now => ERecover s "" m ap None now
  end.
(** A kill switch checks its target before it looks at the subject. *)
Definition registers (o : engine_op) : bool :=
  match o with EKill _ _ t _ _ _ => bool_decide (t = QUARANTINED ∨ t = TERMINATED) | _ => true end.
Definition register (o : engine_op) : M ContainmentEngine unit :=
  if registers o then let! _ := subject_entry (op_subject o) (op_agent o) (op_runtime o) in cret tt
  else cret tt.
(** [st.state = new_state; st.last_transition_at = now; st.transitions.append(record)] *)
Definition write_transition (o : engine_op) (tr : ContainmentTransition) (e : ContainmentEngine)
    : ContainmentEngine :=
  let st := default (mkSubject NORMAL (op_agent o) (op_runtime o) None []) (subjects e !! op_subject o) in
  set_subjects e (<[op_subject o := mkSubject (new_state tr) (sb_agent_id st) (sb_runtime_id st)
                                      (Some (op_now o)) (sb_transitions st ++ [tr])]> (subjects e)).

(** [_mint] after the token is presented: the result, to be stored. *)
Definition minted_entry (m : mint_call) (cs : ContainmentState) (signed : SignedDecisionToken) (ah : string)
    : EvaluationResult :=
  mkEvaluation DS_ALLOW (m_decision m) (b_agent_id (m_binding m)) ah (m_audience m) (m_risk m) cs (m_reason m)
    (m_approval m) (Some signed).

(** One shared access of a call. *)
Definition advance (t : thread) (s : plane) : thread * plane :=
  match t with
  | TVerify c =>
      then_ (evaluation_failed c)
        (clift (verify_request (key_registry s) (c_envelope c) (Some (c_time c)) (c_clock c) (policy_pin cfg)))
        (λ _, TFresh c) s
  | TFresh c => then_ (evaluation_failed c) (commit_freshness (c_env c) (c_request c)) (λ _, TSession c) s
  | TSession c =>
      then_ (evaluation_failed c)
        (clift (session_validate (session_store s) (r_session_id (c_request c)) (r_agent_id (c_request c))
                  (r_runtime_id (c_request c)) (Some (c_time c)) (c_clock c))) (λ _, TState c) s
  | TState c => (TGate c (engine_state (containment s) (c_subject c)), s)
  | TGate c cs =>
      then_ (evaluation_failed c)
        (gate (c_subject c) "subject is contained; new consequential tokens are blocked" cs)
        (λ _, TPolicy c cs) s
  | TPolicy c cs =>
      then_ (evaluation_failed c)
        (clift (opa_authorize (build_authz_input (r_action (c_request c)) (c_grant c) (c_destination c)
                                 (c_rows c) (c_bytes c)))) (decided c cs) s
  | TPark c cs dec =>
      let q := c_request c in
      then_ (evaluation_failed c)
        (let! ah := clift (action_hash (r_action q)) in
         let! _ := on_approvals (approval_request (c_did c) (r_agent_id q) ah (risk_level dec)
           (DataClassification_value (data_classification (r_action q))) None (Some (c_time c)) (c_clock c)
           (pd_approval (c_draws c))) in cret ah) (TParked c cs dec) s
  | TParked c cs dec ah =>
      let q := c_request c in
      let result := mkEvaluation DS_PENDING_APPROVAL (c_did c) (r_agent_id q) ah (c_audience c)
        (risk_level dec) cs (code_value APPROVAL_REQUIRED)
        (approval_id <$> by_decision (approvals s) (c_did c)) None in
      (TStore (c_did c) (mkEntry result
         (Some (mkPending (r_action q) (binding_of q) (c_audience c) (r_policy_hash q) (risk_level dec) cs
                  evaluation_checks)) (c_clock c)) (binding_of q) (c_then c), s)
  | TApprove a =>
      match decisions s !! a_decision a with
      | None => (approval_failed (Cvztte (new_error APPROVAL_REQUIRED "unknown decision")), s)
      | Some entry =>
          match de_pending entry with
          | None => (approval_failed (Cvztte (new_error APPROVAL_REQUIRED "decision does not require approval")), s)
          | Some p => (TGrant a p, s)
          end
      end
  | TGrant a p =>
      then_ approval_failed
        (on_approvals (approval_grant (a_decision a) (a_approver a) None (Some (a_time a)) (a_clock a)))
        (λ _, TAssert a p) s
  | TAssert a p =>
      then_ approval_failed (clift (assert_granted (approvals s) (a_decision a) (Some (a_time a)) (a_clock a)))
        (TApprovedState a p) s
  | TApprovedState a p rec =>
      (TApprovedGate a p rec (engine_state (containment s) (containment_subject (pm_binding p))), s)
  | TApprovedGate a p rec cs =>
      then_ approval_failed
        (gate (containment_subject (pm_binding p)) "subject became contained; approval cannot mint" cs)
        (λ _, TMint (mint_approved a p rec) cs) s
  | TMint m cs =>
      then_ (minting_failed (m_then m))
        (clift (issue (authority cfg) (m_action m) (m_binding m) (m_audience m) (m_policy_hash m)
                  (epoch_source (containment s)) TD_ALLOW (m_risk m) cs (Some (m_checks m))
                  (Some (m_decision m)) 1 None (Some (m_now m)) (m_clock m) (m_draws m))) (TPresent m cs) s
  | TPresent m cs signed =>
      then_ (minting_failed (m_then m)) (let! _ := present_token signed in clift (action_hash (m_action m)))
        (λ ah, TStore (m_decision m) (mkEntry (minted_entry m cs signed ah) None (m_clock m)) (m_binding m) (m_then m)) s
  | TStore did entry binding k =>
      (resume k binding (de_result entry), (store_entry did entry s).2)
  | TMediate b rq binding t ev =>
      let '(r, s') := on_enforcement (mediate b rq binding t) s in
      (TDone (OExecution (match r with Ok o => Ok (mkExecuteOutcome ev (Some o)) | Err x => Err x end)), s')
  | TContain o => (TLocked o, (on_containment (register o) s).2)
  | TLocked o =>
      match engine_call (entered o) (containment s) with
      | (Ok (Some tr), e) => (TWrite o tr, set_containment (set_epoch_source (containment s) (epoch_source e)) s)
      | (r, _) => (TDone (OTransition r), s)
      end
  | TWrite o tr => (TDone (OTransition (Ok (Some tr))), set_containment (write_transition o tr (containment s)) s)
  | TSingle o => (TDone OSingle, plane_step cfg s (single_plane_op o))
  | TDone r => (TDone r, s)
  end.

(** * The machine *)

(** The plane, the holder of each subject's lock, and the calls. *)
Record machine : Type := mkMachine {
  mc_plane : plane;
  mc_locks : gmap string nat;
  mc_threads : list thread
}.
Inductive call : Type :=
| KEvaluate (c : evaluate_call)
| KApprove (a : approve_call)
| KContain (o : engine_op)
| KSingle (o : single_op).
Definition start (k : call) : thread :=
  match k with
  | KEvaluate c => TVerify c | KApprove a => TApprove a | KContain o => TContain o | KSingle o => TSingle o
  end.
(** A call comes in, or call [i] makes its next access. *)
Inductive event : Type := Call (k : call) | Step (i : nat).

(** The locks after thread [i] went from [t] to [t']. *)
Definition relock (i : nat) (t t' : thread) (l : gmap string nat) : gmap string nat :=
  match t, t' with
  | TLocked o, TWrite _ _ => <[op_subject o := i]> l
  | TWrite o _, _ => delete (op_subject o) l
  | _, _ => l
  end.
(** A transition waits while another holds the lock of its subject. *)
Definition waits (t : thread) (l : gmap string nat) : bool :=
  match t with TLocked o => bool_decide (is_Some (l !! op_subject o)) | _ => false end.
Definition machine_step (m : machine) (ev : event) : machine :=
  match ev with
  | Call k => mkMachine (mc_plane m) (mc_locks m) (mc_threads m ++ [start k])
  | Step i =>
      match mc_threads m !! i with
      | None => m
      | Some t =>
          if waits t (mc_locks m) then m
          else let '(t', s') := advance t (mc_plane m) in
               mkMachine s' (relock i t t' (mc_locks m)) (<[i := t']> (mc_threads m))
      end
  end.

(** The machine at each moment of an endless sequence of events. *)
Fixpoint at_time (m : machine) (ev : nat → event) (n : nat) : machine :=
  match n with 0 => m | S n => machine_step (at_time m ev n) (ev n) end.
Definition idle (s : plane) : machine := mkMachine s ∅ [].
(** A call alone: its steps one after the other. *)
Fixpoint alone (fuel : nat) (t : thread) (s : plane) : thread * plane :=
  match fuel with 0 => (t, s) | S fuel => let '(t', s') := advance t s in alone fuel t' s' end.

(** * A call alone does what its handler does *)

Lemma alone_done fuel r s : alone fuel (TDone r) s = (TDone r, s).
Proof. by induction fuel. Qed.
(** The call ended before its last step. *)
Ltac ended := unfold evaluation_failed, approval_failed, minting_failed; by rewrite alone_done.
Lemma alone_S fuel t s : alone (S fuel) t s = let '(t', s') := advance t s in alone fuel t' s'.
Proof. done. Qed.
Lemma alone_add n k t s : alone (n + k) t s = let '(t', s') := alone n t s in alone k t' s'.
Proof.
  revert t s. induction n as [|n IH]; intros t s; [done|]. cbn [alone Nat.add].
  destruct (advance t s) as [t' s']. apply IH.
Qed.

Definition plane_evaluate_of (c : evaluate_call) : M plane EvaluationResult :=
  plane_evaluate cfg (c_envelope c) (c_grant c) (c_audience c) (c_destination c) (c_rows c) (c_bytes c)
    (c_now c) (c_clock c) (c_env c) (c_draws c).

(** The end of an evaluation that came to the result [ev]. *)
Definition evaluated (c : evaluate_call) (r : res EvaluationResult) : thread :=
  match r with Ok ev => resume (c_then c) (binding_of (c_request c)) ev | Err x => evaluation_failed c x end.

(** From the policy on, given the state the gate found. *)
Lemma decided_alone c cs dec s :
  alone 3 (decided c cs dec) s =
  let '(r, s') :=
    (if needs_approval cfg dec then
       park (c_did c) (c_request c) (c_audience c) dec cs (c_time c) (c_clock c) (pd_approval (c_draws c))
     else
       let! result := mint cfg (c_did c) (r_action (c_request c)) (binding_of (c_request c)) (c_audience c)
         (r_policy_hash (c_request c)) (risk_level dec) cs (reason_code dec) evaluation_checks (c_time c)
         (c_clock c) (pd_token (c_draws c)) in
       let! _ := store_entry (c_did c) (mkEntry result None (c_clock c)) in
       cret result) s in (evaluated c r, s').
Proof.
  unfold decided. destruct (needs_approval cfg dec).
  - rewrite alone_S. cbn [advance]. unfold then_, park, cbind, clift.
    destruct (action_hash (r_action (c_request c))) as [ah|x]; [|ended].
    unfold on_approvals, czoom, cget, cret, approval_request. cbn zeta beta iota. reflexivity.
  - rewrite alone_S. cbn [advance]. unfold then_, mint, cbind, clift, cget.
    cbn [m_action m_binding m_audience m_policy_hash m_risk m_checks m_decision m_now m_clock m_draws m_then].
    destruct (issue _ _ _ _ _ _ _ _ _ _ _ _ _ _ _ _) as [signed|x]; [|ended].
    rewrite alone_S. cbn [advance]. unfold then_, cbind, clift, present_token, cmodify.
    cbn [m_action m_decision m_then m_binding m_clock].
    destruct (action_hash _) as [ah|x]; [|ended]. reflexivity.
Qed.

(** An evaluation that no other call interleaves with computes [plane_evaluate]. *)
Theorem evaluate_alone c s :
  alone 9 (TVerify c) s = let '(r, s') := plane_evaluate_of c s in (evaluated c r, s').
Proof.
  unfold plane_evaluate_of, plane_evaluate. fold (c_time c).
  unfold cbind at 1, cget at 1. unfold cbind at 1, clift at 1.
  rewrite alone_S. cbn [advance]. unfold then_, clift.
  destruct (verify_request _ _ _ _ _) as [q|x] eqn:Hv; [|ended].
  apply verify_request_spec in Hv as [-> _]. fold (c_request c).
  rewrite alone_S. cbn [advance]. unfold then_. unfold cbind at 1.
  destruct (commit_freshness (c_env c) (c_request c) s) as [[[]|x] s1] eqn:Hc;
    [|ended].
  pose proof (commit_freshness_only _ _ _ _ _ Hc) as (g & -> & _). rewrite alone_S. cbn [advance].
  unfold then_. unfold cbind at 1, clift. change (session_store (set_replay g s)) with (session_store s).
  destruct (session_validate _ _ _ _ _ _) as [ses|x]; [|ended].
  rewrite alone_S. cbn [advance]. rewrite alone_S. cbn [advance]. unfold then_, gate, containment_gate.
  unfold cbind, cget, c_subject, raise, cthrow, cret.
  destruct (engine_blocks _ _); [ended|].
  rewrite alone_S. cbn [advance]. unfold then_, clift.
  destruct (opa_authorize _) as [dec|x]; [|ended].
  apply decided_alone.
Qed.

(** And so with [evaluate_execute]. *)
Theorem evaluate_execute_alone {Req} c (broker : EnforcementBroker Req W) (rq : Req) t s :
  c_then c = Execute broker rq t → c_audience c = audience broker →
  alone 10 (TVerify c) s =
  let '(r, s') := evaluate_execute cfg (c_envelope c) (c_grant c) broker rq (c_destination c) (c_rows c)
    (c_bytes c) (c_now c) (c_clock c) (c_env c) (c_draws c) t s in (TDone (OExecution r), s').
Proof.
  intros Hk Ha. change 10 with (9 + 1). rewrite alone_add, evaluate_alone.
  unfold plane_evaluate_of, evaluate_execute. unfold cbind at 1. rewrite Ha.
  destruct (plane_evaluate _ _ _ _ _ _ _ _ _ _ _ s) as [[ev|x] s1]; unfold evaluated, evaluation_failed, resume;
    rewrite Hk; [|done].
  case_decide; [done|]. cbn [alone advance]. unfold cbind. fold (c_request c).
  by destruct (on_enforcement _ s1) as [[o|x] s2].
Qed.

(** An approval alone computes [plane_approve]. *)
Theorem approve_alone a s :
  alone 8 (TApprove a) s =
  let '(r, s') := plane_approve cfg (a_decision a) (a_approver a) (a_now a) (a_clock a) (a_draws a) s in
  (TDone (OEvaluation r), s').
Proof.
  unfold plane_approve. fold (a_time a). unfold cbind at 1, cget at 1. rewrite alone_S. cbn [advance].
  destruct (decisions s !! a_decision a) as [entry|]; [|ended].
  destruct (de_pending entry) as [p|]; [|ended].
  rewrite alone_S. cbn [advance]. unfold then_. unfold cbind at 1.
  destruct (on_approvals _ s) as [[rec0|x] s1]; [|ended].
  rewrite alone_S. cbn [advance]. unfold then_, clift. unfold cbind at 1, cget at 1. unfold cbind at 1.
  destruct (assert_granted _ _ _ _) as [rec|x]; [|ended].
  rewrite alone_S. cbn [advance]. rewrite alone_S. cbn [advance]. unfold then_, gate, containment_gate.
  unfold cbind, cget, raise, cthrow, cret.
  destruct (engine_blocks _ _); [ended|].
  rewrite alone_S. cbn [advance]. unfold then_, mint, clift, cbind, cget, mint_approved.
  cbn [m_action m_binding m_audience m_policy_hash m_risk m_checks m_decision m_now m_clock m_draws m_then].
  destruct (issue _ _ _ _ _ _ _ _ _ _ _ _ _ _ _ _) as [signed|x]; [|ended].
  rewrite alone_S. cbn [advance]. unfold then_, cbind, clift, present_token, cmodify. cbn [m_action m_then].
  destruct (action_hash _) as [ah|x]; [reflexivity|ended].
Qed.

(** ** Transitions *)

Lemma subject_entry_known s st e :
  subjects e !! s = Some st → subject_entry s "" None e = (Ok st, e).
Proof.
  intros Hst. unfold subject_entry. rewrite Hst. rewrite decide_True by done. destruct st. simpl.
  unfold set_subjects. rewrite insert_id by done. by destruct e.
Qed.

Lemma commit_transition_write o st new codes ev e r e' :
  subjects e !! op_subject o = Some st →
  commit_transition st (op_subject o) new codes ev (op_now o) e = (r, e') →
  (∃ x, r = Err x ∧ e' = e) ∨
  ∃ tr, r = Ok tr ∧ new_state tr = new ∧ epoch_source e' = bump_capability (epoch_source e) ∧
    e' = write_transition o tr (set_epoch_source e (epoch_source e')).
Proof.
  intros Hst. unfold commit_transition, cbind, clift, bump_capability_epoch, cmodify, cret.
  destruct (commit _ _) as [h|x]; intros [= <- <-]; [right|left; eauto].
  eexists. split_and!; try reflexivity. unfold write_transition. simpl. by rewrite Hst.
Qed.

(** An operation on an entry that exists changes nothing, or bumps the epoch and writes the
    entry: the two steps of a thread. *)
Lemma engine_call_steps o st e r e' :
  subjects e !! op_subject o = Some st → engine_call (entered o) e = (r, e') →
  match r with
  | Ok (Some tr) => epoch_source e' = bump_capability (epoch_source e) ∧
      e' = write_transition o tr (set_epoch_source e (epoch_source e'))
  | _ => e' = e
  end.
Proof.
  intros Hst. pose proof (subject_entry_known _ _ _ Hst) as Hse.
  destruct o as [s a f rt c now|s a t c rt now|s a m ap rt now]; cbn [entered engine_call op_subject] in *.
  - unfold evaluate, cbind at 1. rewrite Hse. unfold cbind, cget, clift.
    destruct (assess _ _) as [w|x]; [|by intros [= <- <-]].
    case_decide; [by intros [= <- <-]|]. destruct (commit_transition _ _ _ _ _ _ _) as [x e1] eqn:Hc.
    apply (commit_transition_write (EEvaluate s a f rt c now)) in Hc as [(y & -> & ->)|(tr & -> & _ & Hb & He)];
      [by intros [= <- <-]|by intros [= <- <-]|done].
  - unfold kill_switch, cbind at 1. case_decide; [by intros [= <- <-]|]. unfold cbind at 1. rewrite Hse.
    destruct (commit_transition _ _ _ _ _ _ _) as [x e1] eqn:Hc.
    apply (commit_transition_write (EKill s a t c rt now)) in Hc as [(y & -> & ->)|(tr & -> & _ & Hb & He)];
      [by intros [= <- <-]|by intros [= <- <-]|done].
  - unfold recover, cbind at 1. unfold cbind at 1. rewrite Hse. unfold cbind at 1, cget.
    repeat (case_decide; [by intros [= <- <-]|]).
    destruct (commit_transition _ _ _ _ _ _ _) as [x e1] eqn:Hc.
    apply (commit_transition_write (ERecover s a m ap rt now)) in Hc as [(y & -> & ->)|(tr & -> & _ & Hb & He)];
      [by intros [= <- <-]|by intros [= <- <-]|done].
Qed.

(** The entry a call registers makes the rest of it the same. *)
Lemma engine_call_registered o e e1 :
  register o e = (Ok tt, e1) →
  engine_call (entered o) e1 = engine_call o e ∧ (registers o = true → is_Some (subjects e1 !! op_subject o)) ∧
  (registers o = false → e1 = e ∧ ∃ x, engine_call o e = (Err x, e)).
Proof.
  unfold register. destruct (registers o) eqn:Hr.
  - unfold cbind. destruct (subject_entry_spec (op_subject o) (op_agent o) (op_runtime o) e)
      as (st & e' & Hse & _ & Hst & _). rewrite Hse. intros [= <-].
    split; [|split; [by eexists|done]]. pose proof (subject_entry_known _ _ _ Hst) as Hse'.
    destruct o; cbn [entered engine_call op_subject op_agent op_runtime] in *;
      unfold evaluate, kill_switch, recover, cbind; repeat case_decide; cbv beta; try done; rewrite ?Hse, ?Hse'; try done.
    apply bool_decide_eq_true in Hr. naive_solver.
  - intros [= <-]. destruct o as [| s a t c rt now|]; try done. cbn [registers] in Hr.
    apply bool_decide_eq_false in Hr. cbn [entered engine_call]. unfold kill_switch, cbind.
    rewrite !decide_True by tauto. split_and!; try done. intros _. split; [done|by eexists].
Qed.

(** A transition alone computes the operation of the engine. *)
Theorem transition_alone o s :
  alone 3 (TContain o) s =
  let '(r, e) := engine_call o (containment s) in (TDone (OTransition r), set_containment e s).
Proof.
  rewrite alone_S. cbn [advance]. unfold on_containment, czoom.
  destruct (register o (containment s)) as [r1 e1] eqn:Hreg.
  assert (r1 = Ok tt) as ->.
  { revert Hreg. unfold register, cbind, subject_entry. destruct (registers o); by intros [= <- _]. }
  destruct (engine_call_registered _ _ _ Hreg) as (Hsame & Hin & Hout). cbn [snd].
  rewrite alone_S. cbn [advance]. change (containment (set_containment e1 s)) with e1. rewrite Hsame.
  destruct (registers o).
  - destruct (Hin eq_refl) as [st Hst]. destruct (engine_call o (containment s)) as [r e] eqn:Hc.
    pose proof (engine_call_steps o st e1 r e Hst Hsame) as Hs.
    destruct r as [[tr|]|x]; [|by rewrite Hs..]. destruct Hs as [_ He]. cbn [alone advance].
    f_equal. symmetry. by rewrite He at 1.
  - destruct (Hout eq_refl) as (-> & x & ->). done.
Qed.

(** * One access of a call *)

(** The subject a call is at the containment gate for, and the one it is past the gate for
    without having read the epochs of its token. *)
Definition gate_subject (t : thread) : option string :=
  match t with
  | TGate c _ => Some (c_subject c)
  | TApprovedGate _ p _ _ => Some (containment_subject (pm_binding p))
  | _ => None
  end.
Definition minting (t : thread) : option string :=
  match t with TPolicy c _ => Some (c_subject c) | TMint m _ => Some (m_subject m) | _ => None end.
Definition refused (t : thread) : bool :=
  match t with TDone (OEvaluation r) => negb (is_ok r) | TDone (OExecution r) => negb (is_ok r) | _ => false end.

(** What an access does to the presented tokens and to the engine. *)
Inductive access (t : thread) (s : plane) (t' : thread) (s' : plane) : Prop :=
| AC_other : store s' = store s → containment s' = containment s → access t s t' s'
| AC_present m cs signed : t = TPresent m cs signed →
    store s' = <[(t_audience (token signed), t_action_hash (token signed)) := signed]> (store s) →
    containment s' = containment s → access t s t' s'
| AC_enter o : t = TContain o → store s' = store s → quiet (containment s) (containment s') → access t s t' s'
| AC_bump o tr e : t = TLocked o → t' = TWrite o tr → store s' = store s →
    engine_call (entered o) (containment s) = (Ok (Some tr), e) →
    containment s' = set_epoch_source (containment s) (epoch_source e) → access t s t' s'
| AC_write o tr : t = TWrite o tr → store s' = store s →
    containment s' = write_transition o tr (containment s) → access t s t' s'.

Lemma then_inv {A} fail (m : M plane A) k s t s' :
  then_ fail m k s = (t, s') →
  ∃ r, m s = (r, s') ∧ t = match r with Ok a => k a | Err x => fail x end.
Proof. unfold then_. destruct (m s) as [r s1]. intros [= <- <-]. by exists r. Qed.
Lemma clift_inv {A} (m : res A) (s : plane) r s' : clift m s = (r, s') → r = m ∧ s' = s.
Proof. by intros [= <- <-]. Qed.
Lemma on_approvals_inv {A} (m : M ApprovalStore A) (s : plane) r s' :
  on_approvals m s = (r, s') → store s' = store s ∧ containment s' = containment s.
Proof. unfold on_approvals, czoom. destruct (m _). by intros [= _ <-]. Qed.
Lemma gate_inv u msg cs (s : plane) r s' :
  gate u msg cs s = (r, s') → s' = s ∧ is_ok r = negb (engine_blocks (containment s) u).
Proof. unfold gate, cbind, cget. destruct (engine_blocks _ u); by intros [= <- <-]. Qed.

Lemma single_access o (s : plane) :
  store (plane_step cfg s (single_plane_op o)) = store s ∧
  containment (plane_step cfg s (single_plane_op o)) = containment s.
Proof.
  split.
  - destruct (step_effects cfg s (single_plane_op o)) as [?|?|?? ??? ?|? ? ? ? _ _ _ _ (dr & _ & Hm)|? ? ? ? ? ? ? ? ? Hm];
      try done; destruct o; done.
  - rewrite step_containment. by destruct o.
Qed.

Lemma register_quiet o e : quiet e (register o e).2.
Proof.
  unfold register, cbind. destruct (registers o); [|by split_and!].
  destruct (subject_entry_spec (op_subject o) (op_agent o) (op_runtime o) e) as (st & e' & -> & Hq & _). done.
Qed.

(** Split a [then_] into the run of its access and the next point. *)
Ltac next_point Hx := apply then_inv in Hx as (r & Hx & ->).

Lemma advance_access t s t' s' : advance t s = (t', s') → access t s t' s'.
Proof.
  destruct t; cbn [advance]; intros Ht; try next_point Ht;
    try (apply clift_inv in Ht as [_ ->]; by apply AC_other);
    try (injection Ht as <- <-; by apply AC_other).
  - apply commit_freshness_only in Ht as (g & -> & _). by apply AC_other.
  - apply gate_inv in Ht as [-> _]. by apply AC_other.
  - unfold cbind at 1, clift in Ht. destruct (action_hash _) as [ah|x]; [|injection Ht as _ <-; by apply AC_other].
    unfold cbind in Ht. destruct (on_approvals _ s) as [[?|?] s1] eqn:Ha; apply on_approvals_inv in Ha as [? ?];
      injection Ht as _ <-; by apply AC_other.
  - destruct (decisions s !! _) as [entry|]; [destruct (de_pending entry)|]; injection Ht as <- <-; by apply AC_other.
  - apply on_approvals_inv in Ht as [? ?]. by apply AC_other.
  - apply gate_inv in Ht as [-> _]. by apply AC_other.
  - unfold cbind, present_token, cmodify, clift in Ht. injection Ht as _ <-. by eapply AC_present.
  - destruct (on_enforcement _ s) as [x s1] eqn:Hm. apply on_enforcement_frame in Hm as (? & _ & _ & ? & _).
    injection Ht as <- <-. by apply AC_other.
  - injection Ht as <- <-. pose proof (register_quiet o (containment s)). unfold on_containment, czoom.
    destruct (register o (containment s)). by eapply AC_enter.
  - destruct (engine_call (entered o) (containment s)) as [[[tr|]|x] e] eqn:He; injection Ht as <- <-;
      [by eapply AC_bump|by apply AC_other..].
  - injection Ht as <- <-. by eapply AC_write.
  - injection Ht as <- <-. destruct (single_access o s). by apply AC_other.
Qed.

(** Only a gate that found its subject uncontained leads to the minting of a token. *)
Lemma advance_minting t s t' s' u :
  advance t s = (t', s') → minting t' = Some u →
  minting t = Some u ∨ gate_subject t = Some u ∧ engine_blocks (containment s) u = false.
Proof.
  destruct t; cbn [advance]; intros Ht Hm; try next_point Ht;
    try (destruct r; discriminate Hm); try (injection Ht as <- <-; discriminate Hm).
  - apply gate_inv in Ht as [_ Hr]. destruct r; [|by destruct (c_then c)]. right.
    injection Hm as <-. split; [done|]. cbn in Hr. by destruct (engine_blocks _ _).
  - destruct r as [dec|x]; [|by destruct (c_then c)]. unfold decided in Hm.
    destruct (needs_approval cfg dec); [done|]. left. exact Hm.
  - by destruct (decisions s !! _) as [entry|]; [destruct (de_pending entry)|]; injection Ht as <- <-.
  - apply gate_inv in Ht as [_ Hr]. destruct r; [|done]. right.
    injection Hm as <-. split; [done|]. cbn in Hr. by destruct (engine_blocks _ _).
  - injection Ht as <- <-. destruct k; [done|]. unfold resume in Hm. by case_decide.
  - destruct (on_enforcement _ s). injection Ht as <- <-. done.
  - by destruct (engine_call (entered o) (containment s)) as [[[tr|]|x] e]; injection Ht as <- <-.
Qed.

(** A token to be presented was just issued, under the epochs of that moment. *)
Lemma advance_present t s m cs signed s' :
  advance t s = (TPresent m cs signed, s') →
  minting t = Some (token_subject signed) ∧ epochs (token signed) = epoch_source (containment s).
Proof.
  destruct t; cbn [advance]; intros Ht; try (apply then_inv in Ht as (r & Ht & Hr));
    try (destruct r; discriminate Hr); try discriminate Ht.
  - destruct r as [dec|x]; [|discriminate Hr]. unfold decided in Hr. by destruct (needs_approval cfg dec).
  - by destruct (decisions s !! _) as [entry|]; [destruct (de_pending entry)|].
  - apply clift_inv in Ht as [-> _]. destruct (issue _ _ _ _ _ _ _ _ _ _ _ _ _ _ _ _) as [sg|x] eqn:Hi;
      [|discriminate Hr]. injection Hr as <- <- <-.
    apply issue_ok in Hi as (_ & _ & _ & _ & _ & _ & _ & _ & Hag & Hrt & Hss & _ & Hep & _).
    split; [|done]. cbn. unfold token_subject, m_subject, containment_subject. simpl. by rewrite Hag, Hrt, Hss.
  - destruct k; [done|]. unfold resume in Ht. by case_decide.
  - by destruct (on_enforcement _ s).
  - by destruct (engine_call (entered o) (containment s)) as [[[tr|]|x] e].
Qed.

(** A transition to be written was just decided under the lock. *)
Lemma advance_write t s o tr s' :
  advance t s = (TWrite o tr, s') →
  t = TLocked o ∧ ∃ e, engine_call (entered o) (containment s) = (Ok (Some tr), e).
Proof.
  destruct t; cbn [advance]; intros Ht; try (apply then_inv in Ht as (r & Ht & Hr));
    try (destruct r; discriminate Hr); try discriminate Ht.
  - destruct r as [dec|x]; [|discriminate Hr]. unfold decided in Hr. by destruct (needs_approval cfg dec).
  - by destruct (decisions s !! _) as [entry|]; [destruct (de_pending entry)|].
  - destruct k; [done|]. unfold resume in Ht. by case_decide.
  - by destruct (on_enforcement _ s).
  - destruct (engine_call (entered o0) (containment s)) as [[[tr'|]|x] e] eqn:He; try done.
    injection Ht as <- <- <-. split; [done|by eexists].
Qed.

(** At the gate of a contained subject the call ends, refused. *)
Lemma advance_gate t s u :
  gate_subject t = Some u → engine_blocks (containment s) u = true → refused (advance t s).1 = true.
Proof.
  destruct t; try done; intros [= <-] Hb; cbn [advance]; unfold then_, gate, cbind, cget;
    rewrite Hb; cbn; [by destruct (c_then c)|done].
Qed.

(** ** Transitions of the engine *)

Definition capability (e : ContainmentEngine) : Z := capability_epoch (epoch_source e).

Lemma engine_call_engine_step o e : (engine_call o e).2 = engine_step e o.
Proof.
  destruct o; cbn [engine_call engine_step]; [done|unfold cbind; by destruct (kill_switch _ _ _ _ _ _ _ _) as [[] ?]|].
  unfold cbind. by destruct (recover _ _ _ _ _ _ _ _) as [[] ?].
Qed.

Lemma engine_call_moved o e tr e' :
  engine_call o e = (Ok (Some tr), e') → moved e (op_subject o) tr e'.
Proof.
  destruct o as [s a f rt c now|s a t c rt now|s a m ap rt now]; cbn [engine_call op_subject]; intros Hc.
  - apply evaluate_spec in Hc as [(x & [=] & _)|(w & _ & [([=] & _)|(tr' & [= <-] & Hm & _)])]. exact Hm.
  - apply cbind_ok in Hc as (t' & e1 & Hk & [= <- <-]).
    apply kill_switch_spec in Hk as [(x & [=] & _)|(_ & t2 & [= <-] & Hm & _)]. exact Hm.
  - apply cbind_ok in Hc as (t' & e1 & Hk & [= <- <-]).
    apply recover_spec in Hk as [(x & [=] & _)|(_ & t2 & [= <-] & Hm & _)]. exact Hm.
Qed.

Lemma insufficient_entered u s0 o : insufficient u s0 (entered o) ↔ insufficient u s0 o.
Proof. by destruct o. Qed.
Lemma entered_subject o : op_subject (entered o) = op_subject o.
Proof. by destruct o. Qed.

(** A transition decided in a state as severe as [s0] leads to one as severe. *)
Lemma decided_severe o e tr e' u s0 :
  s0 ≠ NORMAL → op_subject o = u → severity s0 ≤ severity (engine_state e u) → insufficient u s0 o →
  engine_call (entered o) e = (Ok (Some tr), e') → severity s0 ≤ severity (new_state tr).
Proof.
  intros Hs0 Ho Hle Hi Hc. apply insufficient_entered in Hi.
  pose proof (ratchet_step e (entered o) u s0 Hs0 Hle Hi) as Hr.
  rewrite <-engine_call_engine_step, Hc in Hr. apply engine_call_moved in Hc.
  rewrite <-(mv_new _ _ _ _ Hc), entered_subject, Ho. exact Hr.
Qed.
Lemma kill_severe s a t c rt now e tr e' :
  engine_call (entered (EKill s a t c rt now)) e = (Ok (Some tr), e') →
  severity QUARANTINED ≤ severity (new_state tr).
Proof.
  cbn [entered engine_call]. intros (t' & e1 & Hk & [= <- <-])%cbind_ok.
  apply kill_switch_spec in Hk as [(x & [=] & _)|(Ht & t2 & [= <-] & _ & ->)].
  pose proof (more_severe_ge (engine_state e s) t) as [_ Hge]. etrans; [|exact Hge].
  destruct Ht as [-> | ->]; vm_compute; lia.
Qed.

Lemma write_transition_state o tr e u :
  engine_state (write_transition o tr e) u = if decide (u = op_subject o) then new_state tr else engine_state e u.
Proof.
  unfold write_transition, engine_state. simpl. case_decide as Hu.
  - by rewrite Hu, lookup_insert_eq.
  - by rewrite lookup_insert_ne.
Qed.

(** * Runs of the machine *)

Section runs.
Variables (s0 : plane) (ev : nat → event).
Abbreviation c := (at_time (idle s0) ev).
Abbreviation engine_at n := (containment (mc_plane (c n))).
Abbreviation call_at n i := (mc_threads (c n) !! i).

(** At moment [n] call [i] goes from [t] to [t']. *)
Record moves (n i : nat) (t t' : thread) : Prop := {
  mo_event : ev n = Step i;
  mo_from : call_at n i = Some t;
  mo_free : waits t (mc_locks (c n)) = false;
  mo_step : advance t (mc_plane (c n)) = (t', mc_plane (c (S n)));
  mo_calls : mc_threads (c (S n)) = <[i := t']> (mc_threads (c n));
  mo_locks : mc_locks (c (S n)) = relock i t t' (mc_locks (c n))
}.
(** Or nothing but the arrival of a call happens. *)
Definition rests (n : nat) : Prop :=
  mc_plane (c (S n)) = mc_plane (c n) ∧ mc_locks (c (S n)) = mc_locks (c n) ∧
  ∀ i t, call_at (S n) i = Some t → call_at n i = Some t ∨ ∃ k, t = start k.

Lemma moment n : (∃ i t t', moves n i t t') ∨ rests n.
Proof.
  destruct (ev n) as [k|i] eqn:He.
  - right. unfold rests. cbn [at_time]. rewrite He. cbn [machine_step mc_plane mc_locks mc_threads].
    split_and!; try done. intros i t [Hi|[_ Hi]]%lookup_app_Some; [by left|right].
    apply list_lookup_singleton_Some in Hi as [_ <-]. by eexists.
  - destruct (call_at n i) as [t|] eqn:Ht.
    2: { right. unfold rests. cbn [at_time]. rewrite He. cbn [machine_step]. rewrite Ht. eauto. }
    destruct (waits t (mc_locks (c n))) eqn:Hw.
    { right. unfold rests. cbn [at_time]. rewrite He. cbn [machine_step]. rewrite Ht, Hw. eauto. }
    left. destruct (advance t (mc_plane (c n))) as [t' s'] eqn:Ha. exists i, t, t'.
    constructor; try done; cbn [at_time]; rewrite He; cbn [machine_step]; by rewrite Ht, Hw, Ha.
Qed.

(** The calls after a step: the one that moved, and the others as they were. *)
Lemma moves_calls n i t t' j x :
  moves n i t t' → call_at (S n) j = Some x → j = i ∧ x = t' ∨ j ≠ i ∧ call_at n j = Some x.
Proof.
  intros Hm. rewrite (mo_calls _ _ _ _ Hm). destruct (decide (j = i)) as [->|Hne].
  - rewrite list_lookup_insert_eq by (eapply lookup_lt_Some, (mo_from _ _ _ _ Hm)). intros [= <-]. by left.
  - rewrite list_lookup_insert_ne by done. by right.
Qed.
Lemma moves_access n i t t' : moves n i t t' → access t (mc_plane (c n)) t' (mc_plane (c (S n))).
Proof. intros Hm. eapply advance_access, mo_step, Hm. Qed.

(** ** The epoch only grows *)

Lemma bump_grows o e tr e' :
  engine_call o e = (Ok (Some tr), e') → capability e' = (capability e + 1)%Z.
Proof. intros Hc%engine_call_moved. unfold capability. by rewrite (mv_epoch _ _ _ _ Hc). Qed.

Lemma capability_next n : (capability (engine_at n) ≤ capability (engine_at (S n)))%Z.
Proof.
  destruct (moment n) as [(i & t & t' & Hm)|(-> & _)]; [|lia].
  destruct (moves_access _ _ _ _ Hm) as [_ ->|? ? ? _ _ ->|? _ _ (_ & _ & Hq)|? ? e _ _ _ He ->|? ? _ _ ->];
    unfold capability; try (rewrite Hq; lia); cbn [epoch_source set_epoch_source set_subjects write_transition]; try lia.
  apply bump_grows in He. unfold capability in He. lia.
Qed.
Lemma capability_mono n m : n ≤ m → (capability (engine_at n) ≤ capability (engine_at m))%Z.
Proof. induction 1 as [|m Hle IH]; [lia|]. pose proof (capability_next m). lia. Qed.

Lemma bump_strict n i o tr :
  moves n i (TLocked o) (TWrite o tr) → (capability (engine_at n) < capability (engine_at (S n)))%Z.
Proof.
  intros Hm. destruct (advance_write _ _ _ _ _ (mo_step _ _ _ _ Hm)) as [_ [e He]].
  pose proof (mo_step _ _ _ _ Hm) as Hs. cbn [advance] in Hs. rewrite He in Hs. apply (f_equal snd) in Hs. cbn [snd] in Hs.
  rewrite <-Hs. apply bump_grows in He. unfold capability in *. simpl. lia.
Qed.

(** ** Where a token comes from *)

(** Call [i] passes the gate for [u] at moment [g], and from then until [e] is on its way to a
    token. *)
Definition passes (g i : nat) (u : string) : Prop :=
  ev g = Step i ∧ engine_blocks (engine_at g) u = false ∧
  ∃ t, call_at g i = Some t ∧ gate_subject t = Some u.
Definition minting_at (n i : nat) (u : string) : Prop := ∃ t, call_at n i = Some t ∧ minting t = Some u.
Definition past_gate (g e i : nat) (u : string) : Prop :=
  g < e ∧ passes g i u ∧ ∀ x, g < x ≤ e → minting_at x i u.

Lemma past_gate_next g n i u : past_gate g n i u → minting_at (S n) i u → past_gate g (S n) i u.
Proof.
  intros (Hg & Hp & Hx) Hm. split_and!; [lia|done|]. intros x Hr.
  destruct (decide (x = S n)) as [->|Hne]; [done|]. apply Hx. lia.
Qed.

Lemma minting_past_gate n i u : minting_at n i u → ∃ g, past_gate g n i u.
Proof.
  induction n as [|n IH]; [by intros (t & Ht & _)|]. intros (t & Ht & Hu).
  assert (Hlast : minting_at (S n) i u) by (by exists t).
  destruct (moment n) as [(j & x & x' & Hm)|(_ & _ & Hr)].
  - destruct (moves_calls _ _ _ _ _ _ Hm Ht) as [[-> ->]|[_ Hi]].
    + destruct (advance_minting _ _ _ _ _ (mo_step _ _ _ _ Hm) Hu) as [Hx|[Hx Hb]].
      * destruct IH as [g Hg]; [exists x; split; [apply (mo_from _ _ _ _ Hm)|done]|].
        exists g. by apply past_gate_next.
      * exists n. split_and!; [lia| |intros y Hy; by replace y with (S n) by lia].
        split_and!; [apply (mo_event _ _ _ _ Hm)|done|]. exists x. split; [apply (mo_from _ _ _ _ Hm)|done].
    + destruct IH as [g Hg]; [by exists t|]. exists g. by apply past_gate_next.
  - destruct (Hr _ _ Ht) as [Hi|[k ->]]; [|by destruct k].
    destruct IH as [g Hg]; [by exists t|]. exists g. by apply past_gate_next.
Qed.

(** The token was issued before the run, or by a call past the gate, under the epochs of the
    moment it read them. *)
Definition known (n : nat) (signed : SignedDecisionToken) : Prop :=
  (capability_epoch (epochs (token signed)) ≤ capability (containment s0))%Z ∨
  ∃ i g e, e < n ∧ past_gate g e i (token_subject signed) ∧
    epochs (token signed) = epoch_source (engine_at e).
Lemma known_next n signed : known n signed → known (S n) signed.
Proof. intros [Hk|(i & g & e & Hl & Hk)]; [by left|]. right. exists i, g, e. split; [lia|done]. Qed.

Definition tokens_past (s : plane) : Prop := ∀ k signed, store s !! k = Some signed →
  (capability_epoch (epochs (token signed)) ≤ capability (containment s))%Z.

Lemma tokens_known n :
  tokens_past s0 →
  (∀ k signed, store (mc_plane (c n)) !! k = Some signed → known n signed) ∧
  (∀ i m cs signed, call_at n i = Some (TPresent m cs signed) → known n signed).
Proof.
  intros Hpast. induction n as [|n [IHs IHt]]; [split; [|done]; intros k sg Hk; left; by eapply Hpast|].
  destruct (moment n) as [(i & t & t' & Hm)|(Hp & _ & Hr)].
  - split.
    + intros k sg Hk. apply known_next.
      destruct (moves_access _ _ _ _ Hm) as [Hs _|m cs sg' Ht Hs _|? _ Hs _|? ? ? _ _ Hs _ _|? ? _ Hs _];
        rewrite Hs in Hk; eauto.
      apply lookup_insert_Some in Hk as [[_ <-]|[_ Hk]]; [|eauto].
      eapply IHt. rewrite <-Ht. apply (mo_from _ _ _ _ Hm).
    + intros j m cs sg Hj. destruct (moves_calls _ _ _ _ _ _ Hm Hj) as [[-> <-]|[_ Hj']].
      * destruct (advance_present _ _ _ _ _ _ (mo_step _ _ _ _ Hm)) as [Hmi He].
        destruct (minting_past_gate n i (token_subject sg)) as [g Hg];
          [exists t; split; [apply (mo_from _ _ _ _ Hm)|done]|].
        right. exists i, g, n. by split_and!; [lia|..].
      * apply known_next. eauto.
  - split.
    + intros k sg Hk. rewrite Hp in Hk. apply known_next. eauto.
    + intros j m cs sg Hj. apply known_next. destruct (Hr _ _ Hj) as [Hj'|[k Hk]]; [eauto|by destruct k].
Qed.

(** ** One transition of a subject at a time *)

Lemma lock_held n i o tr : call_at n i = Some (TWrite o tr) → mc_locks (c n) !! op_subject o = Some i.
Proof.
  revert i o tr. induction n as [|n IH]; intros i o tr Hi; [done|].
  destruct (moment n) as [(j & t & t' & Hm)|(_ & Hl & Hr)].
  2: { rewrite Hl. destruct (Hr _ _ Hi) as [Hi'|[k Hk]]; [eauto|by destruct k]. }
  rewrite (mo_locks _ _ _ _ Hm). destruct (moves_calls _ _ _ _ _ _ Hm Hi) as [[-> <-]|[Hne Hi']].
  - destruct (advance_write _ _ _ _ _ (mo_step _ _ _ _ Hm)) as [-> _]. cbn. by rewrite lookup_insert_eq.
  - pose proof IH as IH0. specialize (IH _ _ _ Hi'). pose proof (mo_from _ _ _ _ Hm) as Hfrom.
    pose proof (mo_free _ _ _ _ Hm) as Hfree.
    destruct t; try done; cbn in *.
    + destruct t'; try done. apply bool_decide_eq_false in Hfree. rewrite lookup_insert_ne; [done|].
      intros Heq. apply Hfree. rewrite Heq. by eexists.
    + rewrite lookup_delete_ne; [done|]. intros Heq.
      assert (mc_locks (c n) !! op_subject o0 = Some j) as Hj by (eapply IH0; exact Hfrom). congruence.
Qed.

Lemma kill_written_severe n i s a t cd rt now tr :
  call_at n i = Some (TWrite (EKill s a t cd rt now) tr) → severity QUARANTINED ≤ severity (new_state tr).
Proof.
  revert i. induction n as [|n IH]; intros i Hi; [done|].
  destruct (moment n) as [(j & x & x' & Hm)|(_ & _ & Hr)].
  - destruct (moves_calls _ _ _ _ _ _ Hm Hi) as [[-> <-]|[_ Hi']]; [|eauto].
    destruct (advance_write _ _ _ _ _ (mo_step _ _ _ _ Hm)) as [_ [e He]]. by eapply kill_severe.
  - destruct (Hr _ _ Hi) as [Hi'|[k Hk]]; [eauto|by destruct k].
Qed.

(** ** A subject cut off *)

(** [u] is at least as contained as [st], and no transition under way makes it less so. *)
Definition cut_at (u : string) (st : ContainmentState) (n : nat) : Prop :=
  severity st ≤ severity (engine_state (engine_at n) u) ∧
  ∀ i o tr, call_at n i = Some (TWrite o tr) → op_subject o = u → severity st ≤ severity (new_state tr).

Lemma cut_next u st n :
  st ≠ NORMAL →
  (∀ i o, ev n = Step i → call_at n i = Some (TLocked o) → op_subject o = u → insufficient u st o) →
  cut_at u st n → cut_at u st (S n).
Proof.
  intros Hst Hno [Hs Hw]. destruct (moment n) as [(i & t & t' & Hm)|(Hp & _ & Hr)].
  - pose proof (mo_from _ _ _ _ Hm) as Hfrom. split.
    + destruct (moves_access _ _ _ _ Hm) as [_ ->|? ? ? _ _ ->|? _ _ (Hq & _)|? ? e _ _ _ _ ->|o tr Ht _ ->];
        try done; [by rewrite Hq|].
      rewrite write_transition_state. case_decide as Hu; [|done]. rewrite Ht in Hfrom.
      by eapply Hw.
    + intros j o tr Hj Ho. destruct (moves_calls _ _ _ _ _ _ Hm Hj) as [[-> <-]|[_ Hj']]; [|eauto].
      destruct (advance_write _ _ _ _ _ (mo_step _ _ _ _ Hm)) as [-> [e He]].
      eapply decided_severe; try done. eapply Hno; [apply (mo_event _ _ _ _ Hm)|done..].
  - split; [by rewrite Hp|]. intros j o tr Hj Ho.
    destruct (Hr _ _ Hj) as [Hj'|[k Hk]]; [eauto|by destruct k].
Qed.

Lemma cut_later u st n m :
  st ≠ NORMAL → n ≤ m →
  (∀ x i o, n ≤ x → ev x = Step i → call_at x i = Some (TLocked o) → op_subject o = u → insufficient u st o) →
  cut_at u st n → cut_at u st m.
Proof.
  intros Hst Hle Hno Hc. induction Hle as [|m Hle IH]; [done|]. apply cut_next; [done| |done]. eauto.
Qed.

(** The write of a transition puts its state in force, with no other under way. *)
Lemma cut_written j i o tr t' :
  moves j i (TWrite o tr) t' →
  engine_state (engine_at (S j)) (op_subject o) = new_state tr ∧ cut_at (op_subject o) (new_state tr) (S j).
Proof.
  intros Hm. pose proof (mo_step _ _ _ _ Hm) as Hs. apply (f_equal snd) in Hs. cbn [advance snd] in Hs.
  assert (He : engine_state (engine_at (S j)) (op_subject o) = new_state tr).
  { rewrite <-Hs. cbn [containment set_containment]. by rewrite write_transition_state, decide_True. }
  split; [done|]. split; [by rewrite He|]. intros i' o' tr' Hi' Ho'. exfalso.
  pose proof (lock_held _ _ _ _ Hi') as Hl. rewrite (mo_locks _ _ _ _ Hm), Ho' in Hl. cbn in Hl.
  by rewrite lookup_delete_eq in Hl.
Qed.
(** If no call passes the gate for [u] from [j] on, a token of [u] that has the epochs of a
    moment after the bump at [b] comes from a call in flight between the two. *)
Lemma racing_token u b i o tr j m n k signed :
  tokens_past s0 → moves b i (TLocked o) (TWrite o tr) → b < j → b < n →
  (∀ g i', passes g i' u → g < j) →
  store (mc_plane (c m)) !! k = Some signed → token_subject signed = u →
  epochs (token signed) = epoch_source (engine_at n) →
  ∃ i' x, b < x ≤ j ∧ minting_at x i' u.
Proof.
  intros Hpast Hbump Hbj Hbn Hshut Hk Hts Hep.
  pose proof (bump_strict _ _ _ _ Hbump) as Hb. pose proof (capability_mono (S b) n ltac:(lia)) as Hn.
  destruct (proj1 (tokens_known m Hpast) _ _ Hk) as [Hold|(i' & g & e & _ & (Hge & Hp & Hmin) & He)].
  - exfalso. pose proof (capability_mono 0 b ltac:(lia)) as H0b. rewrite Hep in Hold.
    unfold capability in *. cbn [at_time idle mc_plane] in H0b. lia.
  - rewrite Hts in Hp, Hmin. rewrite Hep in He. pose proof (Hshut _ _ Hp).
    assert (b < e).
    { apply Nat.nle_gt. intros Hle. pose proof (capability_mono e b Hle). unfold capability in *.
      rewrite He in *. lia. }
    exists i', (S (Nat.max g b)). split; [lia|]. apply Hmin. lia.
Qed.
End runs.

(** C7. A quarantine cuts a subject off, in every interleaving of the calls, up to a race that
    the statement names.  Take any sequence of calls and of their accesses, and in it a kill
    switch of the subject that bumps the epoch at moment [b] and writes the state at [j],
    after which nobody recovers the subject by a method (and with an approver) its state
    demands.  Then (1) every evaluation and every approval of that subject that comes to the
    containment gate after [j] is refused there; and (2) if at any later moment a validator
    grants an action to the subject, by any token that was ever presented, then some call of
    the subject was past its gate and had not read the epochs of its token yet at a moment
    after [b] and up to [j].  So when no such call is in flight while the kill switch runs,
    no token works again, neither those minted before nor any other. *)
Theorem quarantine_cuts_off (s0 : plane) (ev : nat → event) u agent target codes rt now tr b j i t' :
  let c := at_time (idle s0) ev in
  let kill := EKill u agent target codes rt now in
  tokens_past s0 →
  moves s0 ev b i (TLocked kill) (TWrite kill tr) → b < j →
  moves s0 ev j i (TWrite kill tr) t' →
  (∀ x i' o, j < x → ev x = Step i' → mc_threads (c x) !! i' = Some (TLocked o) → op_subject o = u →
     insufficient u (engine_state (containment (mc_plane (c (S j)))) u) o) →
  (∀ x i' t, j < x → ev x = Step i' → mc_threads (c x) !! i' = Some t → gate_subject t = Some u →
     ∃ t', mc_threads (c (S x)) !! i' = Some t' ∧ refused t' = true) ∧
  (∀ m n v action h binding aud time, j < n → v_store v = store (mc_plane (c m)) →
     v_epochs v = epoch_source (containment (mc_plane (c n))) → containment_subject binding = u →
     is_ok (token_authorize action h binding aud time v).1 = true →
     ∃ i' x t, b < x ≤ j ∧ mc_threads (c x) !! i' = Some t ∧ minting t = Some u).
Proof.
  intros c kill Hpast Hbump Hbj Hwrite Hno.
  destruct (cut_written _ _ _ _ _ _ _ Hwrite) as [Hst Hcut0].
  change (op_subject kill) with u in Hst, Hcut0.
  unfold c in Hno. rewrite Hst in Hno.
  assert (Hq : severity QUARANTINED ≤ severity (new_state tr)).
  { eapply kill_written_severe, (mo_from _ _ _ _ _ _ Hwrite). }
  assert (Hcut : ∀ x, j < x → engine_blocks (containment (mc_plane (c x))) u = true).
  { intros x Hx. destruct (cut_later s0 ev u (new_state tr) (S j) x) as [Hs _]; try done.
    - intros Hn. rewrite Hn in Hq. vm_compute in Hq. lia.
    - by eapply blocked_severity. }
  split.
  - intros x i' t Hx Hev Ht Hu. pose proof (advance_gate t (mc_plane (c x)) u Hu (Hcut x Hx)) as Href.
    destruct (advance t (mc_plane (c x))) as [t2 s2] eqn:Ha. exists t2. split; [|exact Href].
    assert (Hw : waits t (mc_locks (c x)) = false) by (by destruct t). unfold c in *. cbn [at_time].
    rewrite Hev. cbn [machine_step]. rewrite Ht, Hw, Ha. cbn. apply list_lookup_insert_eq. by eapply lookup_lt_Some.
  - intros m n v action h binding aud time Hn Hvs Hve Hsub Hok.
    destruct (token_authorize _ _ _ _ _ v) as [[d|x] v'] eqn:Haz; [|done].
    apply authorize_ok in Haz as (signed & Haz & _ & _).
    pose proof (az_presented _ _ _ _ _ _ _ Haz) as Hk. pose proof (az_epochs _ _ _ _ _ _ _ Haz) as Hep.
    rewrite Hvs in Hk. rewrite Hve in Hep.
    assert (Hts : token_subject signed = u).
    { unfold token_subject. rewrite <-Hsub. unfold containment_subject. simpl.
      by rewrite (az_agent _ _ _ _ _ _ _ Haz), (az_runtime _ _ _ _ _ _ _ Haz), (az_session _ _ _ _ _ _ _ Haz). }
    destruct (racing_token s0 ev u b i kill tr j m n (aud, h) signed Hpast Hbump Hbj) as (i' & x & Hx & t & Ht);
      try done; [lia| |by exists i', x, t].
    intros g i' (Hev & Hopen & t & Ht & Hgs). destruct (Nat.lt_trichotomy g j) as [?|[->|Hgt]]; [done|exfalso..].
    + rewrite (mo_event _ _ _ _ _ _ Hwrite) in Hev. injection Hev as <-.
      pose proof (mo_from _ _ _ _ _ _ Hwrite) as Hf. rewrite Ht in Hf. by injection Hf as ->.
    + pose proof (Hcut g Hgt). unfold c in *. congruence.
Qed.
End threads.

(** * Runs of an evaluation and a kill switch *)

Import ShortInstances.
#[local] Existing Instances toy_provider iso_instance authz_engine strict_schema.

Definition ex_thread_keys : KeyRegistry := Eval vm_compute in run key_step new_key_registry ex_key_ops.
Definition ex_thread_envelope : SignedEnvelope := Eval vm_compute in
  match (build_and_sign ex_thread_keys "agt_1" "rt_1" "ses_1" "dlg_1" "sha256:policy" ex_action 30
           (Some 20%Z) 0 "00112233445566778899aabbccddeeff" "u1" ∅).1 with
  | Ok e => e
  | Err _ => mkEnvelope (mkRequest "" "" "" "" "" "" "" ex_action "" "" "" 0 "" "") ""
  end.
Definition ex_thread_plane : ex_plane := Eval vm_compute in
  plane_step ex_cfg (mkPlane ex_thread_keys ∅ (new_approval_store 300) (Some (mkMemGuard ∅ ∅))
    (new_engine None None 60) (mkES (mkValidator ex_key default_epochs ∅ ∅) [] []) ∅) ex_session_op.
Definition ex_evaluate_call : evaluate_call (E := unit) (W := list string) :=
  mkEvaluate ex_thread_envelope ex_grant "file" None None None (Some 25000000%Z) 0 () ex_pd Return.
Definition ex_kill : engine_op :=
  EKill ex_subject "agt_1" QUARANTINED ["OPERATOR"] (Some "rt_1") 26000000.

Abbreviation ex_event := (event (E := unit) (W := list string)).
(** The events of a list, and then only the arrival of other calls. *)
Definition ex_schedule (l : list ex_event) (n : nat) : ex_event :=
  nth n l (Call (KSingle (SRevokeSession "none"))).
Definition ex_arrivals : list ex_event := [Call (KEvaluate ex_evaluate_call); Call (KContain ex_kill)].
(** The evaluation to its end, and then the kill switch. *)
Definition ex_one_by_one : list ex_event :=
  ex_arrivals ++ replicate 9 (Step 0) ++ replicate 3 (Step 1).
(** The kill switch while the evaluation waits for the policy; and the evaluation while the
    kill switch is between its bump and its write. *)
Definition ex_in_flight : list ex_event :=
  ex_arrivals ++ replicate 5 (Step 0) ++ replicate 3 (Step 1) ++ replicate 4 (Step 0).
Definition ex_late_write : list ex_event :=
  ex_arrivals ++ replicate 2 (Step 1) ++ replicate 9 (Step 0) ++ [Step 1].

Definition ex_machine (l : list ex_event) := at_time ex_cfg (idle ex_thread_plane) (ex_schedule l) (length l).
(** Whether the token that was presented authorizes its action a second later. *)
Definition ex_works (l : list ex_event) : bool :=
  let p := mc_plane (ex_machine l) in
  let v := validator (shared_epochs p) in
  match action_hash ex_action with
  | Ok h => is_ok (token_authorize ex_action h (binding_of (request ex_thread_envelope)) "file" 27000000 v).1
  | Err _ => false
  end.
Definition ex_contained (l : list ex_event) : ContainmentState :=
  engine_state (containment (mc_plane (ex_machine l))) ex_subject.

(** One by one, the quarantine holds.  An evaluation that was past its gate is given a token
    under the new epoch, and so is one that runs between the bump of the epoch and the write
    of the state: the quarantine is in force, and the token works. *)
Example in_flight_token_survives :
  (ex_contained ex_one_by_one, ex_works ex_one_by_one) = (QUARANTINED, false) ∧
  (ex_contained ex_in_flight, ex_works ex_in_flight) = (QUARANTINED, true) ∧
  (ex_contained ex_late_write, ex_works ex_late_write) = (QUARANTINED, true).
Proof. vm_compute. split_and!; reflexivity. Qed.

Lemma shared_store (p : ex_plane) : v_store (validator (shared_epochs p)) = store p.
Proof. reflexivity. Qed.
Lemma shared_epoch (p : ex_plane) : v_epochs (validator (shared_epochs p)) = epoch_source (containment p).
Proof. reflexivity. Qed.
Lemma ex_subject_bound : containment_subject (binding_of (request ex_thread_envelope)) = ex_subject.
Proof. vm_compute. reflexivity. Qed.

Definition ex_transition : ContainmentTransition := Eval vm_compute in
  match mc_threads (at_time ex_cfg (idle ex_thread_plane) (ex_schedule ex_one_by_one) 13) !! 1 with
  | Some (TWrite _ tr) => tr
  | _ => mkTransition "" "" None NORMAL NORMAL [] "" 0 ""
  end.

(** C7 at the evaluation and the kill switch one by one. *)
Lemma quarantine_cuts_off_witness :
  ex_works ex_one_by_one = false.
Proof.
  set (ev := ex_schedule ex_one_by_one). set (c := at_time ex_cfg (idle ex_thread_plane) ev).
  assert (Hb : moves ex_cfg ex_thread_plane ev 12 1 (TLocked ex_kill) (TWrite ex_kill ex_transition))
    by (constructor; vm_compute; reflexivity).
  assert (Hw : moves ex_cfg ex_thread_plane ev 13 1 (TWrite ex_kill ex_transition)
    (TDone (OTransition (Ok (Some ex_transition))))) by (constructor; vm_compute; reflexivity).
  assert (Hpast : tokens_past ex_thread_plane) by (intros k sg Hk; vm_compute in Hk; discriminate Hk).
  destruct (quarantine_cuts_off ex_cfg ex_thread_plane ev ex_subject "agt_1" QUARANTINED ["OPERATOR"]
    (Some "rt_1") 26000000 ex_transition 12 13 1 _ Hpast Hb ltac:(lia) Hw) as [_ Hauth].
  { intros x i o Hx He. exfalso. unfold ev, ex_schedule in He. rewrite nth_overflow in He by (vm_compute; lia).
    discriminate He. }
  assert (Hact : action_hash ex_action = Ok (match action_hash ex_action with Ok h => h | Err _ => "" end))
    by (vm_compute; reflexivity).
  assert (Hl : length ex_one_by_one = 14) by reflexivity.
  unfold ex_works, ex_machine. rewrite Hact, Hl. fold ev c.
  set (h := match action_hash ex_action with Ok h => h | Err _ => "" end). clearbody h.
  set (p := mc_plane (c 14)). destruct (is_ok _) eqn:Hok; [exfalso|reflexivity].
  destruct (Hauth 14 14 (validator (shared_epochs p)) ex_action h (binding_of (request ex_thread_envelope))
    "file" 27000000%Z (Nat.lt_succ_diag_r 13) (shared_store p) (shared_epoch p) ex_subject_bound Hok)
    as (i & x & t & Hx & Ht & Hm).
  assert (x = 13) as -> by lia. clear Hok. revert Ht Hm.
  destruct i as [|[|i]]; vm_compute; intros [= <-]; discriminate.
Defined.
