(* ===== verification/AuditLog.v ===== *)
(** The audit subsystem ([cvztte/audit]): the hash-chained log, its signed
    checkpoints and the receipt sink that feeds it. *)

From S2P Require Export Validator Identity.
From S2P Require Import Concrete.

(** [AuditStage] *)
Inductive AuditStage : Set :=
| PROPOSED | AUTHORIZED | TOKEN_ISSUED | ACTUAL_ACTION_OBSERVED | AS_EXECUTED
| AS_DENIED | AS_FAILED | RECEIPT | ADMIN.
Definition AuditStage_value (s : AuditStage) : string :=
  match s with
  | PROPOSED => "PROPOSED" | AUTHORIZED => "AUTHORIZED" | TOKEN_ISSUED => "TOKEN_ISSUED"
  | ACTUAL_ACTION_OBSERVED => "ACTUAL_ACTION_OBSERVED" | AS_EXECUTED => "EXECUTED"
  | AS_DENIED => "DENIED" | AS_FAILED => "FAILED" | RECEIPT => "RECEIPT" | ADMIN => "ADMIN"
  end.

(** [AuditEvent] *)
Record AuditEvent : Set := mkEvent {
  ev_seq : Z;
  ev_stage : AuditStage;
  ev_at : string;
  ev_prev_hash : string;
  ev_payload : odict string json
}.

(** [AuditEvent._body] *)
Definition event_body (e : AuditEvent) : list (string * json) :=
  [ ("seq", JInt (ev_seq e)); ("stage", JStr (AuditStage_value (ev_stage e)));
    ("at", JStr (ev_at e)); ("prev_hash", JStr (ev_prev_hash e));
    ("payload", JObj (ev_payload e)) ].

(** [AuditCheckpoint] *)
Record AuditCheckpoint : Set := mkCheckpoint {
  checkpoint_version : Z;
  covers_through_seq : Z;
  cp_head_hash : string;
  cp_at : string;
  signer_fingerprint : string;
  cp_signature_b64 : string
}.

(** [HashChainedAuditLog]: its list of events. *)
Abbreviation HashChainedAuditLog := (list AuditEvent).

Section log.
Context `{Hashlib, Rfc8785}.

(** [AuditEvent.event_hash] *)
Definition event_hash (e : AuditEvent) : res string := commit D_AUDIT_EVENT (JObj (event_body e)).

(** [_GENESIS] *)
Definition genesis_body : list (string * json) := [("genesis", JBool true)].
Definition GENESIS : res string := commit D_AUDIT_EVENT (JObj genesis_body).

(** [HashChainedAuditLog.head_hash] *)
Definition head_hash (l : HashChainedAuditLog) : res string :=
  match last l with Some e => event_hash e | None => GENESIS end.

(** [HashChainedAuditLog.append] *)
Definition log_append (stage : AuditStage) (payload : odict string json) (clock : Z)
    : M HashChainedAuditLog AuditEvent :=
  let! l := cget in
  let! prev := clift (head_hash l) in
  let event := mkEvent (Z.of_nat (length l)) stage (iso_ms clock) prev payload in
  let! _ := cput (l ++ [event]) in
  cret event.

(** The loop of [HashChainedAuditLog.verify]. *)
Fixpoint verify_from (i : Z) (prev : string) (l : list AuditEvent) : res bool :=
  match l with
  | [] => Ok true
  | e :: l =>
      if decide (ev_seq e ≠ i ∨ ev_prev_hash e ≠ prev) then Ok false
      else let? h := event_hash e in verify_from (i + 1) h l
  end.

(** [HashChainedAuditLog.verify] *)
Definition log_verify (l : HashChainedAuditLog) : res bool :=
  let? g := GENESIS in verify_from 0 g l.

Definition checkpoint_body (covers : Z) (head : string) : json :=
  JObj [ ("covers_through_seq", JInt covers); ("head_hash", JStr head) ].

(** [HashChainedAuditLog.checkpoint] *)
Definition checkpoint `{SignatureProvider} (handle : PrivateKeyHandle) (key : PublicKey) (clock : Z)
    (l : HashChainedAuditLog) : res AuditCheckpoint :=
  let? ok := log_verify l in
  if negb ok then err AUDIT_CHAIN_BROKEN "refusing to checkpoint a broken chain"
  else
    let covers := (Z.of_nat (length l) - 1)%Z in
    let? head := head_hash l in
    let? message := commit D_AUDIT_CHECKPOINT (checkpoint_body covers head) in
    let? signature := provider_sign handle message in
    let? fp := spki_fingerprint (pem key) in
    Ok (mkCheckpoint 1 covers head (iso_ms clock) fp (b64encode signature)).

(** [HashChainedAuditLog.verify_checkpoint]; [b64decode] raises [ValueError] on text
    that is not ASCII. *)
Definition verify_checkpoint `{SignatureProvider} (key : PublicKey) (c : AuditCheckpoint) : res bool :=
  let? message := commit D_AUDIT_CHECKPOINT
                    (checkpoint_body (covers_through_seq c) (cp_head_hash c)) in
  if negb (is_ascii (cp_signature_b64 c)) then Ok false
  else
    match b64decode (cp_signature_b64 c) with
    | None => Ok false
    | Some signature => provider_verify key message signature
    end.

(** [AuditReceiptSink]: the log it writes to and the instant of the next event. *)
Record AuditReceiptSink : Set := mkAuditSink { sk_log : HashChainedAuditLog; sk_clock : Z }.

(** [AuditReceiptSink.emit] *)
Definition audit_emit (r : ExecutionReceipt) : M AuditReceiptSink unit :=
  let! s := cget in
  let! h := clift (receipt_hash r) in
  let payload := dset "receipt_hash" (JStr h) (receipt_json r) in
  let! _ := czoom sk_log (λ l s, mkAuditSink l (sk_clock s))
              (log_append RECEIPT payload (sk_clock s)) in
  cret tt.

#[export] Instance audit_sink : ReceiptSink AuditReceiptSink := {| emit := audit_emit |}.
End log.

(** [json.loads] of a canonical text gives the value back, up to the order of the
    members and the spelling of numbers; this is the part of it that the chain needs:
    string members of an object can be read off its canonical text. *)
Definition rfc8785_faithful `{Rfc8785} : Prop :=
  ∀ kvs kvs' b k s, rfc8785_dumps (JObj kvs) = Some b → rfc8785_dumps (JObj kvs') = Some b →
    dget k kvs = Some (JStr s) → dget k kvs' = Some (JStr s).

(** * The chain *)

Section chain.
Context `{Hashlib, Rfc8785}.
Implicit Types l : HashChainedAuditLog.

(** One call of [append]. *)
Definition log_op : Type := AuditStage * odict string json * Z.
Definition log_step l (o : log_op) : HashChainedAuditLog := (log_append o.1.1 o.1.2 o.2 l).2.

Lemma verify_from_snoc i p l e :
  verify_from i p l = Ok true →
  verify_from i p (l ++ [e]) =
    (let? h := match last l with Some e0 => event_hash e0 | None => Ok p end in
     if decide (ev_seq e ≠ i + Z.of_nat (length l) ∨ ev_prev_hash e ≠ h)%Z then Ok false
     else let? _ := event_hash e in Ok true).
Proof.
  revert i p. induction l as [|x l IH]; intros i p Hv.
  - simpl. rewrite Z.add_0_r. case_decide; [done|]. by destruct (event_hash e).
  - cbn [verify_from app] in *. case_decide as Hx; [done|].
    destruct (event_hash x) as [h|] eqn:Hh; [|done]. cbn [rbind] in *. rewrite IH by done.
    rewrite last_cons. destruct (last l); cbn [default]; rewrite ?Hh; cbn [rbind length];
      by replace (i + 1 + Z.of_nat (length l))%Z with (i + Z.of_nat (S (length l)))%Z by lia.
Qed.

Lemma verify_from_prefix i p l l' : verify_from i p (l ++ l') = Ok true → verify_from i p l = Ok true.
Proof.
  revert i p. induction l as [|x l IH]; intros i p; [done|]. cbn [verify_from app].
  case_decide; [done|]. destruct (event_hash x); [|done]. apply IH.
Qed.

(** Dropping the latest events leaves a log that verifies. *)
Lemma truncation_verifies l l' : log_verify (l ++ l') = Ok true → log_verify l = Ok true.
Proof. unfold log_verify. destruct GENESIS; [|done]. apply verify_from_prefix. Qed.

Lemma log_verify_snoc l e :
  log_verify (l ++ [e]) = Ok true ↔
  log_verify l = Ok true ∧ head_hash l = Ok (ev_prev_hash e) ∧
  ev_seq e = Z.of_nat (length l) ∧ is_ok (event_hash e) = true.
Proof.
  split.
  - intros Hv. pose proof (truncation_verifies _ _ Hv) as Hl. split; [done|].
    unfold log_verify, head_hash in *. destruct GENESIS as [g|] eqn:Hg; [|done]. cbn [rbind] in *.
    rewrite verify_from_snoc in Hv by done. apply rbind_ok in Hv as (h & Hh & Hv).
    case_decide as Hd; [done|]. apply Decidable.not_or in Hd as [Hs%dec_stable Hp%dec_stable].
    subst h. split_and!; [by destruct (last l)|lia|by destruct (event_hash e)].
  - intros (Hl & Hh & Hs & He). unfold log_verify, head_hash in *.
    destruct GENESIS as [g|] eqn:Hg; [|done]. cbn [rbind] in *. rewrite verify_from_snoc by done.
    assert (match last l with Some e0 => event_hash e0 | None => Ok g end = Ok (ev_prev_hash e)) as ->
      by by destruct (last l).
    cbn [rbind]. rewrite decide_False by (intros [?|?]; [lia|done]). by destruct (event_hash e).
Qed.

(** What every history of appends maintains: the chain is never found broken, and it
    verifies as long as its last event can be hashed. *)
Definition linked l : Prop :=
  log_verify l ≠ Ok false ∧ (is_ok (head_hash l) = true → log_verify l = Ok true).

Lemma linked_nil : linked [].
Proof. unfold linked, log_verify, head_hash. simpl. by destruct GENESIS. Qed.

Lemma log_append_cases stage payload clock l :
  (∃ x, head_hash l = Err x ∧ log_append stage payload clock l = (Err x, l)) ∨
  ∃ h, let e := mkEvent (Z.of_nat (length l)) stage (iso_ms clock) h payload in
    head_hash l = Ok h ∧ log_append stage payload clock l = (Ok e, l ++ [e]).
Proof.
  unfold log_append, cbind, cget, clift, cput, cret. destruct (head_hash l) as [h|x] eqn:Hh.
  - right. by exists h.
  - left. by exists x.
Qed.

Lemma linked_append stage payload clock l :
  linked l → linked (log_append stage payload clock l).2.
Proof.
  intros [Hn Hl]. destruct (log_append_cases stage payload clock l) as [(x & _ & ->)|(h & Hh & ->)];
    [done|]. cbn [snd]. rewrite Hh in Hl. specialize (Hl eq_refl).
  set (e := mkEvent _ _ _ _ _).
  assert (Hv : is_ok (event_hash e) = true → log_verify (l ++ [e]) = Ok true)
    by (intros He; by apply log_verify_snoc).
  split.
  - destruct (event_hash e) as [h'|x] eqn:He; [by rewrite Hv|].
    unfold log_verify, head_hash in *. destruct GENESIS as [g|] eqn:Hg; [|done]. cbn [rbind] in *.
    rewrite verify_from_snoc by done.
    assert (match last l with Some e0 => event_hash e0 | None => Ok g end = Ok h) as ->
      by by destruct (last l).
    cbn [rbind]. rewrite decide_False by (intros [?|?]; [simpl in *; lia|done]). by rewrite He.
  - unfold head_hash. rewrite last_snoc. apply Hv.
Qed.

Lemma linked_run l ops : linked l → linked (run log_step l ops).
Proof. apply run_invariant. intros. by apply linked_append. Qed.

Lemma append_extends stage payload clock l : l `prefix_of` (log_append stage payload clock l).2.
Proof.
  destruct (log_append_cases stage payload clock l) as [(x & _ & ->)|(h & _ & ->)]; [done|].
  by apply prefix_app_r.
Qed.

Lemma run_extends l ops : l `prefix_of` run log_step l ops.
Proof. apply (run_relation log_step (prefix (A := AuditEvent))). intros. apply append_extends. Qed.

(** The canonical texts of two events are equal. *)
Definition same_text (e e' : AuditEvent) : Prop :=
  rfc8785_dumps (JObj (event_body e)) = rfc8785_dumps (JObj (event_body e')).

Lemma event_hash_inj e e' h :
  event_hash e = Ok h → event_hash e' = Ok h →
  sha_collision ∨ same_text e e' ∧ is_Some (rfc8785_dumps (JObj (event_body e))).
Proof.
  intros (b & Hb & ->)%commit_ok (b' & Hb' & Heq)%commit_ok.
  apply domain_hash_hex_inj in Heq as [[_ ->]|?]; [right|by left].
  split; [|done]. unfold same_text. congruence.
Qed.

Lemma event_not_genesis e h :
  rfc8785_faithful → event_hash e = Ok h → GENESIS = Ok h → sha_collision.
Proof.
  intros Hf (b & Hb & ->)%commit_ok (b' & Hb' & Heq)%commit_ok.
  apply domain_hash_hex_inj in Heq as [[_ ->]|?]; [|done].
  pose proof (Hf _ _ _ "prev_hash" (ev_prev_hash e) Hb Hb' eq_refl). done.
Qed.

(** Two logs that verify and have the same head are the same log. *)
Lemma head_determines l l' h :
  rfc8785_faithful → log_verify l = Ok true → log_verify l' = Ok true →
  head_hash l = Ok h → head_hash l' = Ok h → sha_collision ∨ Forall2 same_text l l'.
Proof.
  intros Hf. revert l' h. induction l as [|e l IH] using rev_ind; intros l' h Hv Hv' Hh Hh'.
  - destruct l' as [|e' l' _] using rev_ind; [by right|]. left.
    unfold head_hash in Hh'. rewrite last_snoc in Hh'. by eapply event_not_genesis.
  - destruct l' as [|e' l' _] using rev_ind.
    { left. unfold head_hash in Hh. rewrite last_snoc in Hh. by eapply event_not_genesis. }
    apply log_verify_snoc in Hv as (Hv & Hl & _), Hv' as (Hv' & Hl' & _).
    unfold head_hash in Hh, Hh'. rewrite last_snoc in Hh, Hh'.
    destruct (event_hash_inj _ _ _ Hh Hh') as [?|[Ht [b Hb]]]; [by left|].
    assert (Hp : ev_prev_hash e' = ev_prev_hash e).
    { pose proof (Hf (event_body e) (event_body e') b "prev_hash" (ev_prev_hash e) Hb
        ltac:(by rewrite <-Ht) eq_refl) as Hp. by injection Hp. }
    rewrite Hp in Hl'. destruct (IH _ _ Hv Hv' Hl Hl') as [?|Hall]; [by left|].
    right. apply Forall2_app; [done|]. by repeat constructor.
Qed.
End chain.

(** * Properties *)

Section properties.
Context `{Hashlib, Rfc8785}.

(** C20. The audit log is append-only and tamper-evident.  However it is appended to,
    earlier events stay in place, and [verify] never reports the chain broken; it
    returns true as soon as the last event can be hashed.  And the head hash pins the
    history: any log that [verify] accepts and that has the same head consists of the
    same events, or exhibits a collision of SHA-256. *)
Theorem audit_log_tamper_evident ops ops' l' h :
  rfc8785_faithful →
  let l := run log_step [] ops in
  (l `prefix_of` run log_step l ops' ∧ log_verify l ≠ Ok false ∧
   (is_ok (head_hash l) = true → log_verify l = Ok true)) ∧
  (head_hash l = Ok h → log_verify l' = Ok true → head_hash l' = Ok h →
   sha_collision ∨ Forall2 same_text l' l).
Proof.
  intros Hf l. pose proof (linked_run [] ops linked_nil) as [Hn Hl]. fold l in Hn, Hl.
  split; [split_and!; [apply run_extends|done|done]|].
  intros Hh Hv' Hh'. apply (head_determines l' l h); try done. apply Hl. by rewrite Hh.
Qed.

(** A checkpoint pins the log.  What [checkpoint] signs with a generated key
    verifies under its public key, covers every event so far, and every log that
    verifies and has the head it names is, event for event, the log that was signed,
    or SHA-256 collides. *)
Theorem checkpoint_pins_log `{SignatureProvider} ops entropy handle key clock c :
  provider_correct → rfc8785_faithful →
  provider_generate_key entropy = Ok (handle, key) →
  let l := run log_step [] ops in
  checkpoint handle key clock l = Ok c →
  verify_checkpoint key c = Ok true ∧
  covers_through_seq c = (Z.of_nat (length l) - 1)%Z ∧
  ∀ l', log_verify l' = Ok true → head_hash l' = Ok (cp_head_hash c) →
    sha_collision ∨ Forall2 same_text l' l.
Proof.
  intros Hp Hf Hg l Hc. unfold checkpoint in Hc. apply rbind_ok in Hc as (ok & Hv & Hc).
  destruct ok; [|done]. simpl negb in Hc. cbv iota zeta in Hc.
  apply rbind_ok in Hc as (head & Hh & Hc). apply rbind_ok in Hc as (msg & Hm & Hc).
  apply rbind_ok in Hc as (sig & Hs & Hc). apply rbind_ok in Hc as (fp & _ & [= <-]).
  split_and!.
  - unfold verify_checkpoint. cbn [covers_through_seq cp_head_hash cp_signature_b64]. rewrite Hm.
    cbn [rbind]. rewrite b64encode_ascii, b64_lenient_roundtrip. simpl. by eapply Hp.
  - done.
  - intros l' Hv' Hh'. by eapply head_determines.
Qed.

End properties.

(** * Receipts of a fabric in the log *)

Section fabric.
Context `{Hashlib, Rfc8785, Pydantic}.

Lemma respects_catch {E S A} (R : S → S → Prop) `{!PreOrder R} (m : comp E S A) h :
  respects R m → (∀ e, respects R (h e)) → respects R (ccatch m h).
Proof.
  intros Hm Hh s. unfold ccatch. specialize (Hm s). destruct (m s) as [[a|e] s1]; [done|].
  simpl in *. etrans; [exact Hm|apply Hh].
Qed.

#[export] Instance sink_preorder {V K W} (R : K → K → Prop) `{!PreOrder R} :
  PreOrder (λ s s' : enforcement_state V K W, R (sink s) (sink s')).
Proof. split; [intros s; reflexivity|intros x y z; apply transitivity]. Qed.

Ltac respects_steps R :=
  repeat first [ match goal with Hem : ∀ _ _ _ _ _, respects R _ |- _ => apply Hem end
               | apply (respects_bind R); [|intros ?] | apply (respects_catch R); [|intros ?]
               | apply (respects_lift R) | apply (respects_ret R) | apply (respects_throw R) ].

(** A relation on the sink that every receipt respects is respected by a mediation. *)
Lemma mediate_respects {V K Req W : Type} `{DecisionValidator V, ReceiptSink K} (R : K → K → Prop)
    `{!PreOrder R} (b : EnforcementBroker Req W) rq bd now :
  (∀ r, respects R (emit r)) →
  respects (λ s s', R (sink s) (sink s')) (mediate (V := V) (K := K) b rq bd now).
Proof.
  intros He. set (R' := λ s s' : enforcement_state V K W, R (sink s) (sink s')).
  assert (PreOrder R') by apply (sink_preorder R).
  assert (Hem : ∀ a d o e rh, respects R' (emit_receipt (V := V) b a d o e rh now)).
  { intros. unfold emit_receipt. respects_steps R'. intros s. unfold zoom_sink, czoom.
    match goal with |- context [emit ?r ?k] => pose proof (He r k) as Hx; by destruct (emit r k) end. }
  unfold mediate. respects_steps R'.
  - intros s. unfold zoom_validator, czoom. destruct (authorize _ _ _ _ _ _). unfold R'. reflexivity.
  - unfold authorization_failed. case_match; respects_steps R'.
  - case_decide; respects_steps R'.
    + intros s. unfold zoom_world, czoom. destruct (execute _ _ _ _ _). unfold R'. reflexivity.
    + unfold execution_failed. case_match; respects_steps R'.
Qed.

(** What a step may do to an audit sink. *)
Definition sink_grows (k k' : AuditReceiptSink) : Prop :=
  sk_log k `prefix_of` sk_log k' ∧ (linked (sk_log k) → linked (sk_log k')).

#[export] Instance sink_grows_preorder : PreOrder sink_grows.
Proof.
  split; [by split|]. intros x y z [Hxy Hl] [Hyz Hl']. split; [by etrans|auto].
Qed.

Lemma audit_emit_grows r : respects sink_grows (audit_emit r).
Proof.
  intros s. unfold audit_emit, cbind, cget, clift, czoom.
  destruct (receipt_hash r) as [h|x]; [|by split].
  set (payload := dset _ _ _).
  pose proof (append_extends RECEIPT payload (sk_clock s) (sk_log s)) as Hp.
  pose proof (linked_append RECEIPT payload (sk_clock s) (sk_log s)) as Hl.
  destruct (log_append _ _ _ _) as [[] l]; by split.
Qed.

(** A fabric whose brokers write to the audit log; the clock of the log moves on its
    own. *)
Inductive audited_op {W : Type} : Type :=
| AFabric (o : fabric_op (W := W))
| ATick (clock : Z).
Definition audited_step {W} (s : enforcement_state DecisionTokenValidator AuditReceiptSink W)
    (o : audited_op (W := W)) :=
  match o with
  | AFabric o => fabric_step s o
  | ATick t => mkES (validator s) (mkAuditSink (sk_log (sink s)) t) (world s)
  end.

(** Receipts land in a sound log.  Whatever a fabric of brokers mediates, whatever
    tokens are presented to it and epochs advanced, the audit log its receipts go to
    keeps every earlier event in place, and if it was soundly chained it stays so. *)
Theorem receipts_soundly_chained {W} (s : enforcement_state DecisionTokenValidator AuditReceiptSink W) ops :
  let s' := run audited_step s ops in
  sk_log (sink s) `prefix_of` sk_log (sink s') ∧ (linked (sk_log (sink s)) → linked (sk_log (sink s'))).
Proof.
  apply (run_relation audited_step (λ s s', sink_grows (sink s) (sink s'))).
  intros s0 [o|t]; [|by split]. destruct o; cbn [audited_step fabric_step]; try reflexivity.
  apply (mediate_respects sink_grows). apply audit_emit_grows.
Qed.
End fabric.

(** * Witnesses: an injective printer *)

(** A printer whose text determines the value: constructors are letters, and strings
    and lists are closed by a full stop. *)
Definition spell_bool (b : bool) : string := if b then "1" else "0".
Fixpoint spell_pos (p : positive) : string :=
  match p with
  | xH => "."
  | xO p => "0" +:+ spell_pos p
  | xI p => "1" +:+ spell_pos p
  end.
Definition spell_int (z : Z) : string :=
  match z with
  | Z0 => "z"
  | Zpos p => "p" +:+ spell_pos p
  | Zneg p => "n" +:+ spell_pos p
  end.
Fixpoint spell_str (s : string) : string :=
  match s with
  | EmptyString => "."
  | String c s => "c" +:+ String c (spell_str s)
  end.
Fixpoint spell (v : json) : string :=
  match v with
  | JNull => "N"
  | JBool b => "B" +:+ spell_bool b
  | JInt z => "I" +:+ spell_int z
  | JFloat _ => "F"
  | JStr s => "S" +:+ spell_str s
  | JArr l => "A" +:+ (fix go l := match l with
                       | [] => "."
                       | x :: l => ":" +:+ spell x +:+ go l
                       end) l
  | JObj kvs => "O" +:+ (fix go l := match l with
                         | [] => "."
                         | (k, x) :: l => ":" +:+ spell_str k +:+ spell x +:+ go l
                         end) kvs
  end.
Definition spell_members (kvs : list (string * json)) : string :=
  foldr (λ kv r, ":" +:+ spell_str kv.1 +:+ spell kv.2 +:+ r) "." kvs.

Lemma spell_pos_read p q r r' : spell_pos p +:+ r = spell_pos q +:+ r' → p = q ∧ r = r'.
Proof.
  revert q. induction p as [p IH|p IH|]; intros [q|q|] Heq; cbn in Heq; try done.
  - injection Heq as Heq. by destruct (IH q Heq) as [-> ->].
  - injection Heq as Heq. by destruct (IH q Heq) as [-> ->].
  - injection Heq as Heq. by split.
Qed.
Lemma spell_str_read s s' r r' : spell_str s +:+ r = spell_str s' +:+ r' → s = s' ∧ r = r'.
Proof.
  revert s'. induction s as [|c s IH]; intros [|c' s'] Heq; cbn in Heq; try done.
  - injection Heq as Heq. by split.
  - injection Heq as -> Heq. by destruct (IH s' Heq) as [-> ->].
Qed.
Lemma spell_int_read z z' r r' : spell_int z +:+ r = spell_int z' +:+ r' → r = r'.
Proof.
  destruct z, z'; intros Heq; cbn in Heq; try done; injection Heq as Heq; try done;
    by apply spell_pos_read in Heq as [_ ->].
Qed.
Lemma spell_obj kvs : spell (JObj kvs) = "O" +:+ spell_members kvs.
Proof. simpl. f_equal. induction kvs as [|[k x] kvs IH]; [done|]. simpl. by rewrite IH. Qed.

(** What follows a spelled value, and the strings in it, can be read off. *)
Definition readable (v : json) : Prop :=
  ∀ w r r', spell v +:+ r = spell w +:+ r' → r = r' ∧ ∀ s, v = JStr s → w = JStr s.

Lemma members_readable kvs : Forall (λ kv, readable kv.2) kvs → ∀ kvs' r r',
  spell_members kvs +:+ r = spell_members kvs' +:+ r' →
  r = r' ∧ ∀ k s, dget k kvs = Some (JStr s) → dget k kvs' = Some (JStr s).
Proof.
  induction 1 as [|[k v] kvs Hv _ IH]; intros [|[k' v'] kvs'] r r' Heq; cbn in Heq; try done.
  - injection Heq as Heq. by split.
  - injection Heq as Heq. rewrite !str_app_assoc in Heq. apply spell_str_read in Heq as [-> Heq].
    apply Hv in Heq as [Heq Hs]. destruct (IH _ _ _ Heq) as [-> Hd]. split; [done|].
    intros k s. simpl. case_decide; [|apply Hd]. intros [= ->]. by rewrite (Hs s eq_refl).
Qed.

Lemma spell_readable v : readable v.
Proof.
  induction v as [|b|z|f|s|l IH|kvs IH] using json_rect'; intros [|b'|z'|f'|s'|l'|kvs'] r r' Heq;
    try done; try (by injection Heq as Heq; split).
  - destruct b, b'; try done; injection Heq as Heq; by split.
  - injection Heq as Heq. split; [|done]. by eapply spell_int_read.
  - injection Heq as Heq. apply spell_str_read in Heq as [-> ->]. split; [done|]. by intros ? [= ->].
  - split; [|done]. injection Heq as Heq. revert l' Heq.
    induction IH as [|x l Hx _ IHl]; intros [|x' l'] Heq; cbn in Heq; try done.
    + by injection Heq as Heq.
    + injection Heq as Heq. rewrite !str_app_assoc in Heq. apply Hx in Heq as [Heq _]. by apply (IHl l').
  - rewrite !spell_obj in Heq. injection Heq as Heq.
    destruct (members_readable kvs IH kvs' r r' Heq) as [-> _]. done.
Qed.

Definition spelled : Rfc8785 := {| rfc8785_dumps := λ v, Some (spell v) |}.
Lemma spelled_faithful : rfc8785_faithful (H := spelled).
Proof.
  intros kvs kvs' b k s Hb Hb' Hk.
  assert (Heq : spell (JObj kvs) = spell (JObj kvs'))
    by (apply (inj Some); exact (eq_trans Hb (eq_sym Hb'))).
  rewrite !spell_obj in Heq. injection Heq as Heq.
  change (spell_members kvs = spell_members kvs') in Heq.
  apply (members_readable kvs (proj2 (Forall_forall _ _) (λ x _, spell_readable x.2)) kvs' "" ""); [|done].
  by rewrite Heq.
Qed.

Import Instances.
#[local] Existing Instances toy_provider.

Definition ex_events : list log_op :=
  [(AUTHORIZED, [("agent", JStr "agt_1")], 1000%Z); (RECEIPT, [("n", JInt 3)], 2000%Z)].
Definition ex_log : list AuditEvent := Eval vm_compute in run (log_step (H0 := spelled)) [] ex_events.
Lemma ex_log_run : run (log_step (H0 := spelled)) [] ex_events = ex_log.
Proof. vm_compute. reflexivity. Qed.

(** An edit of an event that has a successor is found; dropping the last is not. *)
Example ex_tampering :
  log_verify (H0 := spelled) (match ex_log with
    | e :: l => mkEvent (ev_seq e) ADMIN (ev_at e) (ev_prev_hash e) (ev_payload e) :: l
    | [] => [] end) = Ok false ∧
  log_verify (H0 := spelled) (take 1 ex_log) = Ok true.
Proof. split; vm_compute; reflexivity. Qed.

(** C20 at a log of two events. *)
Lemma audit_log_tamper_evident_witness :
  log_verify (H0 := spelled) ex_log = Ok true ∧
  (sha_collision ∨ Forall2 (same_text (H0 := spelled)) ex_log ex_log).
Proof.
  assert (Hh : is_ok (head_hash (H0 := spelled) ex_log) = true) by (vm_compute; reflexivity).
  destruct (head_hash (H0 := spelled) ex_log) as [h|] eqn:Hd; [|discriminate Hh].
  destruct (audit_log_tamper_evident (H0 := spelled) ex_events [] ex_log h spelled_faithful)
    as [(_ & _ & Hv) Ht].
  rewrite ex_log_run in Hv, Ht. rewrite Hd in Hv.
  split; [exact (Hv eq_refl)|exact (Ht Hd (Hv eq_refl) Hd)].
Defined.

Definition ex_audit_keys : PrivateKeyHandle * PublicKey :=
  (mkHandle ML_DSA_65 "seed", mkPublicKey ML_DSA_65 (pem_of "seed")).
Definition ex_checkpoint : AuditCheckpoint := Eval vm_compute in
  match checkpoint (H0 := spelled) ex_audit_keys.1 ex_audit_keys.2 3000 ex_log with
  | Ok c => c
  | Err _ => mkCheckpoint 0 0 "" "" "" ""
  end.

(** At the same log. *)
Lemma checkpoint_pins_log_witness :
  verify_checkpoint (H0 := spelled) ex_audit_keys.2 ex_checkpoint = Ok true.
Proof.
  destruct (checkpoint_pins_log (H0 := spelled) ex_events "seed" ex_audit_keys.1 ex_audit_keys.2 3000
    ex_checkpoint toy_provider_correct spelled_faithful) as [Hv _].
  - reflexivity.
  - rewrite ex_log_run. vm_compute. reflexivity.
  - exact Hv.
Defined.
