(* ===== verification/Lineage.v ===== *)
(** The provenance graph of confidential computations ([cvztte/lineage]): nodes and
    edges, their recording from events, the trace of a node and the hash of the
    graph. *)

From S2P Require Export AuditLog.
From S2P Require Import Concrete.
From stdpp Require Import pretty sorting.

(** [LineageNodeType] *)
Inductive LineageNodeType : Set :=
| DATASET | CIPHERTEXT | PROGRAM | RESULT | DECRYPT_REQUEST | RELEASED_RESULT.
Definition LineageNodeType_value (t : LineageNodeType) : string :=
  match t with
  | DATASET => "DATASET" | CIPHERTEXT => "CIPHERTEXT" | PROGRAM => "PROGRAM"
  | RESULT => "RESULT" | DECRYPT_REQUEST => "DECRYPT_REQUEST"
  | RELEASED_RESULT => "RELEASED_RESULT"
  end.
#[export] Instance LineageNodeType_eq_dec : EqDecision LineageNodeType.
Proof. solve_decision. Defined.

(** [LineageRelation] *)
Inductive LineageRelation : Set := ENCRYPTS | COMPUTED_BY | PRODUCES | DECRYPT_OF | RELEASES.
Definition LineageRelation_value (r : LineageRelation) : string :=
  match r with
  | ENCRYPTS => "ENCRYPTS" | COMPUTED_BY => "COMPUTED_BY" | PRODUCES => "PRODUCES"
  | DECRYPT_OF => "DECRYPT_OF" | RELEASES => "RELEASES"
  end.

(** [LineageNode] *)
Record LineageNode : Set := mkNode {
  node_type : LineageNodeType;
  node_ref : string;
  ref_hash : option string;
  attributes : odict string string
}.

(** [LineageEdge] *)
Record LineageEdge : Set := mkEdge { src : string; dst : string; relation : LineageRelation }.

(** [LineageGraph] *)
Record LineageGraph : Type := mkGraph {
  nodes : gmap string LineageNode;
  edges : list LineageEdge;
  edge_set : gset (string * string * string)
}.
Definition new_graph : LineageGraph := mkGraph ∅ [] ∅.

Section graph.
Context `{Hashlib, Rfc8785}.

Definition id_body (t : LineageNodeType) (ref : string) : list (string * json) :=
  [ ("node_type", JStr (LineageNodeType_value t)); ("ref", JStr ref) ].

(** [LineageNode.node_id] *)
Definition node_id (n : LineageNode) : res string :=
  commit D_LINEAGE_NODE (JObj (id_body (node_type n) (node_ref n))).

(** [LineageGraph._richer]: Python compares the pairs lexicographically. *)
Definition richer (candidate existing : LineageNode) : bool :=
  let has n := bool_decide (ref_hash n ≠ None) in
  match has candidate, has existing with
  | true, false => true
  | false, true => false
  | _, _ => bool_decide (length (attributes existing) < length (attributes candidate))
  end.

(** [LineageGraph._add_node] *)
Definition add_node (n : LineageNode) : M LineageGraph string :=
  let! id := clift (node_id n) in
  let! g := cget in
  let keep := match nodes g !! id with Some e => negb (richer n e) | None => false end in
  if keep then cret id
  else
    let! _ := cput (mkGraph (<[id := n]> (nodes g)) (edges g) (edge_set g)) in
    cret id.

(** [LineageGraph._add_edge] *)
Definition add_edge (s d : string) (r : LineageRelation) : M LineageGraph unit :=
  let key := (s, d, LineageRelation_value r) in
  let! g := cget in
  if decide (key ∈ edge_set g) then cret tt
  else cput (mkGraph (nodes g) (edges g ++ [mkEdge s d r]) ({[key]} ∪ edge_set g)).

(** [LineageGraph.record_ciphertext] *)
Definition record_ciphertext (dataset_id ciphertext_id ciphertext_hash classification context_id : string)
    (key_epoch : Z) : M LineageGraph string :=
  let! ds := add_node (mkNode DATASET dataset_id None []) in
  let! ct := add_node (mkNode CIPHERTEXT ciphertext_id (Some ciphertext_hash)
    [("classification", classification); ("context_id", context_id);
     ("key_epoch", pretty key_epoch)]) in
  let! _ := add_edge ds ct ENCRYPTS in
  cret ct.

(** The loop over the parents in [record_result]. *)
Fixpoint record_parents (prog : string) (ids : list string) : M LineageGraph unit :=
  match ids with
  | [] => cret tt
  | pid :: ids =>
      let! ct := add_node (mkNode CIPHERTEXT pid None []) in
      let! _ := add_edge ct prog COMPUTED_BY in
      record_parents prog ids
  end.

(** [LineageGraph.record_result] *)
Definition record_result (parent_ciphertext_ids : list string)
    (program_id program_version result_id result_hash lineage_id : string) : M LineageGraph string :=
  let! prog := add_node (mkNode PROGRAM program_id None [("version", program_version)]) in
  let! _ := record_parents prog parent_ciphertext_ids in
  let! res := add_node (mkNode RESULT result_id (Some result_hash) [("lineage_id", lineage_id)]) in
  let! _ := add_edge prog res PRODUCES in
  cret res.

(** [LineageGraph.record_decrypt_request] *)
Definition record_decrypt_request (result_id request_id requester purpose : string)
    : M LineageGraph string :=
  let! res := add_node (mkNode RESULT result_id None []) in
  let! req := add_node (mkNode DECRYPT_REQUEST request_id None
    [("requester", requester); ("purpose", purpose)]) in
  let! _ := add_edge res req DECRYPT_OF in
  cret req.

(** [LineageGraph.record_release] *)
Definition record_release (request_id release_id recipient : string)
    (released_hash approval_id : option string) : M LineageGraph string :=
  let attrs := [("recipient", recipient)] ++
    (if truthy_opt approval_id then [("approval_id", default "" approval_id)] else []) in
  let! req := add_node (mkNode DECRYPT_REQUEST request_id None []) in
  let! rel := add_node (mkNode RELEASED_RESULT release_id released_hash attrs) in
  let! _ := add_edge req rel RELEASES in
  cret rel.

(** [LineageGraph.get_node] *)
Definition get_node (g : LineageGraph) (id : string) : option LineageNode := nodes g !! id.

(** The sources of the edges into a node, in the order they were recorded: what the
    dictionary [parents] of [trace] holds for it. *)
Definition parents_of (g : LineageGraph) (id : string) : list string :=
  src <$> List.filter (λ e, bool_decide (dst e = id)) (edges g).

Fixpoint foldM {S A : Type} (f : A → S → res S) (l : list A) (s : S) : res S :=
  match l with
  | [] => Ok s
  | x :: l => let? s := f x s in foldM f l s
  end.

(** [visit], the local function of [trace], with its two accumulators; [depth] is
    the number of frames the interpreter still allows. *)
Fixpoint visit (g : LineageGraph) (depth : nat) (nid : string) (st : gset string * list string)
    : res (gset string * list string) :=
  match depth with
  | 0 => Err (PyExc "RecursionError" "maximum recursion depth exceeded")
  | S depth =>
      if decide (nid ∈ st.1) then Ok st
      else
        let? st := foldM (visit g depth) (parents_of g nid) ({[nid]} ∪ st.1, st.2) in
        Ok (st.1, st.2 ++ [nid])
  end.

(** [LineageGraph.trace] *)
Definition trace (g : LineageGraph) (depth : nat) (nid : string) : res (list LineageNode) :=
  let? st := visit g depth nid (∅, []) in
  Ok (omap (λ n, nodes g !! n) st.2).

Definition node_json (p : string * LineageNode) : json :=
  JObj [ ("id", JStr p.1); ("type", JStr (LineageNodeType_value (node_type p.2)));
         ("ref", JStr (node_ref p.2)); ("ref_hash", jopt (ref_hash p.2));
         ("attributes", JObj (prod_map id JStr <$> attributes p.2)) ].
Definition edge_json (e : LineageEdge) : json :=
  JObj [ ("src", JStr (src e)); ("dst", JStr (dst e));
         ("relation", JStr (LineageRelation_value (relation e))) ].

Definition id_le (p q : string * LineageNode) : Prop := String.leb p.1 q.1.

(** [LineageGraph.graph_hash] *)
Definition graph_hash (g : LineageGraph) : res string :=
  commit D_LINEAGE_GRAPH (JObj
    [ ("nodes", JArr (node_json <$> merge_sort id_le (map_to_list (nodes g))));
      ("edges", JArr (edge_json <$> edges g)) ]).
End graph.

(** * Well-typed graphs *)

(** The kinds of node a relation joins. *)
Definition ends (r : LineageRelation) : LineageNodeType * LineageNodeType :=
  match r with
  | ENCRYPTS => (DATASET, CIPHERTEXT)
  | COMPUTED_BY => (CIPHERTEXT, PROGRAM)
  | PRODUCES => (PROGRAM, RESULT)
  | DECRYPT_OF => (RESULT, DECRYPT_REQUEST)
  | RELEASES => (DECRYPT_REQUEST, RELEASED_RESULT)
  end.

Definition edge_key (e : LineageEdge) : string * string * string :=
  (src e, dst e, LineageRelation_value (relation e)).

Lemma relation_value_inj r r' : LineageRelation_value r = LineageRelation_value r' → r = r'.
Proof. by destruct r, r'. Qed.
Lemma edge_key_inj e e' : edge_key e = edge_key e' → e = e'.
Proof.
  destruct e as [s d r], e' as [s' d' r']. unfold edge_key. simpl. intros [= -> -> Hr].
  by rewrite (relation_value_inj r r') by done.
Qed.
Lemma type_value_inj t t' : LineageNodeType_value t = LineageNodeType_value t' → t = t'.
Proof. by destruct t, t'. Qed.

(** Node [id] is recorded, with type [t]. *)
Definition has (g : LineageGraph) (id : string) (t : LineageNodeType) : Prop :=
  ∃ n, nodes g !! id = Some n ∧ node_type n = t.

Section typing.
Context `{Hashlib, Rfc8785}.

(** Nodes are filed under their own identifier, edges join recorded nodes of the
    kinds their relation says, and no edge is recorded twice. *)
Record typed (g : LineageGraph) : Prop := {
  ty_id id n : nodes g !! id = Some n → node_id n = Ok id;
  ty_edge e : e ∈ edges g → has g (src e) (ends (relation e)).1 ∧ has g (dst e) (ends (relation e)).2;
  ty_once : NoDup (edges g);
  ty_set k : k ∈ edge_set g ↔ ∃ e, e ∈ edges g ∧ edge_key e = k
}.

Lemma typed_new : typed new_graph.
Proof.
  split; [done|by intros e ?%elem_of_nil|constructor|]. intros k. split; [set_solver|].
  by intros (e & ?%elem_of_nil & _).
Qed.

(** Identifiers name one object. *)
Lemma node_id_inj n n' id :
  rfc8785_faithful → node_id n = Ok id → node_id n' = Ok id →
  sha_collision ∨ node_type n = node_type n' ∧ node_ref n = node_ref n'.
Proof.
  intros Hf (b & Hb & ->)%commit_ok (b' & Hb' & Heq)%commit_ok.
  apply domain_hash_hex_inj in Heq as [[_ ->]|?]; [right|by left].
  pose proof (Hf _ _ _ "node_type" _ Hb Hb' eq_refl) as Ht.
  pose proof (Hf _ _ _ "ref" _ Hb Hb' eq_refl) as Hr. simpl in Ht, Hr.
  injection Ht as Ht. injection Hr as ->. split; [by apply type_value_inj|done].
Qed.

(** What is recorded stays recorded. *)
Definition grows (g g' : LineageGraph) : Prop :=
  (∀ id t, has g id t → has g' id t) ∧ edges g `prefix_of` edges g'.
#[local] Instance grows_preorder : PreOrder grows.
Proof.
  split; [by split|]. intros x y z [Hxy Pxy] [Hyz Pyz]. split; [auto|by etrans].
Qed.

(** From a well-typed graph in which [P] holds, [m] leaves one in which, if it
    returns, its result satisfies [Q]; or there is a collision. *)
Definition triple {A} (P : LineageGraph → Prop) (m : M LineageGraph A)
    (Q : A → LineageGraph → Prop) : Prop :=
  ∀ g r g', typed g → P g → m g = (r, g') →
    sha_collision ∨ typed g' ∧ grows g g' ∧ ∀ a, r = Ok a → Q a g'.

Definition lasting (P : LineageGraph → Prop) : Prop := ∀ g g', grows g g' → P g → P g'.

Lemma triple_bind {A B} P (m : M LineageGraph A) Q (k : A → M LineageGraph B) R :
  triple P m Q → (∀ a, triple (Q a) (k a) R) → triple P (cbind m k) R.
Proof.
  intros Hm Hk g r g' Ht HP Hrun. unfold cbind in Hrun.
  destruct (m g) as [[a|x] g1] eqn:Hg.
  - destruct (Hm _ _ _ Ht HP Hg) as [?|(Ht1 & Hg1 & HQ)]; [by left|].
    destruct (Hk a _ _ _ Ht1 (HQ a eq_refl) Hrun) as [?|(Ht2 & Hg2 & HR)]; [by left|].
    right. split_and!; [done|by etrans|done].
  - injection Hrun as <- <-. destruct (Hm _ _ _ Ht HP Hg) as [?|(Ht1 & Hg1 & _)]; [by left|].
    by right.
Qed.

Lemma triple_frame {A} F P (m : M LineageGraph A) Q :
  lasting F → triple P m Q → triple (λ g, P g ∧ F g) m (λ a g, Q a g ∧ F g).
Proof.
  intros HF Hm g r g' Ht [HP Hf] Hg.
  destruct (Hm _ _ _ Ht HP Hg) as [?|(Ht1 & Hg1 & HQ)]; [by left|right].
  split_and!; try done. intros a ->. split; [auto|by eapply HF].
Qed.

Lemma triple_weaken {A} (P P' : LineageGraph → Prop) (m : M LineageGraph A) (Q Q' : A → LineageGraph → Prop) :
  triple P m Q → (∀ g, P' g → P g) → (∀ a g, Q a g → Q' a g) → triple P' m Q'.
Proof.
  intros Hm HP HQ g r g' Ht Hp Hg. destruct (Hm _ _ _ Ht (HP _ Hp) Hg) as [?|(?&?&?)]; [by left|].
  right. split_and!; eauto.
Qed.

Lemma triple_ret {A} (a : A) (P : LineageGraph → Prop) : triple P (cret a) (λ b g, b = a ∧ P g).
Proof. intros g r g' Ht HP [= <- <-]. right. split_and!; [done|done|]. by intros ? [= <-]. Qed.

Lemma has_lasting id t : lasting (λ g, has g id t).
Proof. intros g g' [Hh _] ?. by apply Hh. Qed.

Lemma triple_node n :
  rfc8785_faithful → triple (λ _, True) (add_node n) (λ id g, has g id (node_type n)).
Proof.
  intros Hf g r g' Ht _ Hrun. unfold add_node, cbind, clift, cget, cput, cret in Hrun.
  destruct (node_id n) as [id|x] eqn:Hid; [|injection Hrun as <- <-; right; by split_and!].
  destruct (nodes g !! id) as [e|] eqn:He.
  - destruct (node_id_inj n e id Hf Hid (ty_id _ Ht _ _ He)) as [?|[Hty _]]; [by left|right].
    destruct (richer n e); injection Hrun as <- <-; [|split_and!; [done|done|intros ? [= <-]; by exists e]].
    assert (Hh : ∀ i t, has g i t → has (mkGraph (<[id:=n]> (nodes g)) (edges g) (edge_set g)) i t).
    { intros i t (m & Hm & <-). destruct (decide (id = i)) as [<-|Hne].
      - exists n. simpl. rewrite lookup_insert_eq. split; [done|congruence].
      - exists m. simpl. by rewrite lookup_insert_ne. }
    split_and!; [|by split|].
    + split; simpl; [|intros e' He'; split; apply Hh, (ty_edge _ Ht e' He')|apply (ty_once _ Ht)|apply (ty_set _ Ht)].
      intros i m [[<- <-]|[_ Hm]]%lookup_insert_Some; [done|by apply (ty_id _ Ht)].
    + intros ? [= <-]. exists n. simpl. by rewrite lookup_insert_eq.
  - right. injection Hrun as <- <-.
    assert (Hh : ∀ i t, has g i t → has (mkGraph (<[id:=n]> (nodes g)) (edges g) (edge_set g)) i t).
    { intros i t (m & Hm & <-). exists m. simpl. rewrite lookup_insert_ne by congruence. done. }
    split_and!; [|by split|].
    + split; simpl; [|intros e' He'; split; apply Hh, (ty_edge _ Ht e' He')|apply (ty_once _ Ht)|apply (ty_set _ Ht)].
      intros i m [[<- <-]|[_ Hm]]%lookup_insert_Some; [done|by apply (ty_id _ Ht)].
    + intros ? [= <-]. exists n. simpl. by rewrite lookup_insert_eq.
Qed.

Lemma triple_edge s d r :
  triple (λ g, has g s (ends r).1 ∧ has g d (ends r).2) (add_edge s d r) (λ _ g, mkEdge s d r ∈ edges g).
Proof.
  intros g x g' Ht [Hs Hd] Hrun. right. unfold add_edge, cbind, cget, cput, cret in Hrun.
  case_decide as Hk; injection Hrun as <- <-.
  - split_and!; [done|done|]. intros _ _. apply (ty_set _ Ht) in Hk as (e & He & Heq).
    by rewrite (edge_key_inj (mkEdge s d r) e).
  - split_and!; [|split; [done|by apply prefix_app_r]|intros _ _; simpl; set_solver].
    split; simpl.
    + apply (ty_id _ Ht).
    + intros e [He| ->%list_elem_of_singleton]%elem_of_app; [apply (ty_edge _ Ht e He)|done].
    + apply NoDup_app. split_and!; [apply (ty_once _ Ht)| |apply NoDup_singleton].
      intros e He ->%list_elem_of_singleton. apply Hk, (ty_set _ Ht). by exists (mkEdge s d r).
    + intros k. rewrite elem_of_union, elem_of_singleton, (ty_set _ Ht). split.
      * intros [->|(e & He & <-)]; [exists (mkEdge s d r)|exists e]; set_solver.
      * intros (e & [He| ->%list_elem_of_singleton]%elem_of_app & <-); [right; by exists e|by left].
Qed.

(** Recording a node while others are known. *)
Lemma triple_node_known n s t :
  rfc8785_faithful →
  triple (λ g, has g s t) (add_node n) (λ id g, has g id (node_type n) ∧ has g s t).
Proof.
  intros Hf. eapply triple_weaken; [eapply triple_frame; [apply (has_lasting s t)|by apply triple_node]| |].
  - by intros.
  - by intros.
Qed.

(** Two nodes and the edge between them, the body of three of the recorders. *)
Lemma triple_link {A} n1 n2 r (k : string → M LineageGraph A) P Q :
  rfc8785_faithful → (node_type n1, node_type n2) = ends r →
  (∀ d, triple (λ g, has g d (node_type n2)) (k d) Q) →
  triple P (let! s := add_node n1 in let! d := add_node n2 in let! _ := add_edge s d r in k d) Q.
Proof.
  intros Hf He Hk.
  apply (triple_bind _ _ (λ s g, has g s (node_type n1)));
    [eapply triple_weaken; [by apply triple_node|done|done]|intros s].
  eapply triple_bind; [by apply triple_node_known|intros d].
  apply (triple_bind _ _ (λ _ g, has g d (node_type n2))); [|intros []; apply Hk].
  eapply triple_weaken; [eapply triple_frame; [apply (has_lasting d (node_type n2))|apply triple_edge]| |].
  - intros g [Hd Hs]. rewrite <-He. by split_and!.
  - by intros _ g [_ ?].
Qed.

Lemma triple_parents prog ids :
  rfc8785_faithful → triple (λ g, has g prog PROGRAM) (record_parents prog ids) (λ _ _, True).
Proof.
  intros Hf. induction ids as [|pid ids IH]; cbn [record_parents].
  - eapply triple_weaken; [apply triple_ret with (P := λ _, True)|done|done].
  - eapply triple_bind; [by apply triple_node_known|intros ct].
    apply (triple_bind _ _ (λ _ g, has g prog PROGRAM)); [|intros []; exact IH].
    eapply triple_weaken; [eapply triple_frame; [apply (has_lasting prog PROGRAM)|apply triple_edge]| |].
    + intros g [Hc Hp]. by split_and!.
    + by intros _ g [_ ?].
Qed.

(** The recorders as operations. *)
Inductive lineage_op : Type :=
| LCiphertext (dataset_id ciphertext_id ciphertext_hash classification context_id : string) (epoch : Z)
| LResult (parents : list string) (program version result_id result_hash lineage_id : string)
| LRequest (result_id request_id requester purpose : string)
| LRelease (request_id release_id recipient : string) (released_hash approval : option string).

Definition lineage_call (o : lineage_op) : M LineageGraph string :=
  match o with
  | LCiphertext d c h k x e => record_ciphertext d c h k x e
  | LResult ps p v r h l => record_result ps p v r h l
  | LRequest r q who why => record_decrypt_request r q who why
  | LRelease q r who h a => record_release q r who h a
  end.
Definition lineage_step (g : LineageGraph) (o : lineage_op) : LineageGraph := (lineage_call o g).2.

(** The kind of node a recorder returns. *)
Definition op_type (o : lineage_op) : LineageNodeType :=
  match o with
  | LCiphertext _ _ _ _ _ _ => CIPHERTEXT
  | LResult _ _ _ _ _ _ => RESULT
  | LRequest _ _ _ _ => DECRYPT_REQUEST
  | LRelease _ _ _ _ _ => RELEASED_RESULT
  end.

Lemma triple_done d t (Q : LineageGraph → Prop) :
  triple (λ g, has g d t ∧ Q g) (cret d) (λ id g, has g id t).
Proof.
  eapply triple_weaken; [apply (triple_ret d (λ g, has g d t))|by intros g [? _]|by intros a g [-> ?]].
Qed.

Lemma triple_call o : rfc8785_faithful →
  triple (λ _, True) (lineage_call o) (λ id g, has g id (op_type o)).
Proof.
  intros Hf. destruct o as [ds ct h k x e|ps p v r h l|r q who why|q r who h a]; cbn [lineage_call op_type].
  - apply triple_link; [done|done|]. intros d.
    eapply triple_weaken; [apply (triple_done d CIPHERTEXT (λ _, True))|by split|done].
  - unfold record_result.
    apply (triple_bind _ _ (λ prog g, has g prog PROGRAM)); [apply triple_node, Hf|intros prog].
    apply (triple_bind _ _ (λ _ g, has g prog PROGRAM)).
    { eapply triple_weaken; [eapply triple_frame; [apply (has_lasting prog PROGRAM)|by apply triple_parents]| |].
      - by split.
      - by intros _ g [_ ?]. }
    intros []. eapply triple_bind; [by apply triple_node_known|intros d].
    apply (triple_bind _ _ (λ _ g, has g d RESULT ∧ True)); [|intros []; apply triple_done].
    eapply triple_weaken; [eapply triple_frame; [apply (has_lasting d RESULT)|apply triple_edge]| |].
    + intros g [Hd Hp]. by split_and!.
    + by intros _ g [_ ?].
  - apply triple_link; [done|done|]. intros d.
    eapply triple_weaken; [apply (triple_done d DECRYPT_REQUEST (λ _, True))|by split|done].
  - apply triple_link; [done|done|]. intros d.
    eapply triple_weaken; [apply (triple_done d RELEASED_RESULT (λ _, True))|by split|done].
Qed.

Lemma typed_run ops g : rfc8785_faithful → typed g → sha_collision ∨ typed (run lineage_step g ops).
Proof.
  intros Hf. revert g. induction ops as [|o ops IH]; intros g Ht; [by right|].
  destruct (lineage_call o g) as [r g'] eqn:Hg.
  destruct (triple_call o Hf _ _ _ Ht I Hg) as [?|(Ht' & _)]; [by left|].
  change (run lineage_step g (o :: ops)) with (run lineage_step (lineage_step g o) ops).
  unfold lineage_step at 2. rewrite Hg. by apply IH.
Qed.
(** The identifiers an edge was recorded between. *)
Definition edge_between (g : LineageGraph) (n1 n2 : LineageNode) (r : LineageRelation) : Prop :=
  ∃ i j, node_id n1 = Ok i ∧ node_id n2 = Ok j ∧ mkEdge i j r ∈ edges g.

Lemma edge_between_grows g g' n1 n2 r : grows g g' → edge_between g n1 n2 r → edge_between g' n1 n2 r.
Proof.
  intros [_ Hp] (i & j & Hi & Hj & He). exists i, j. split_and!; [done|done|].
  by eapply elem_of_prefix.
Qed.

Lemma add_node_id n g i g' : add_node n g = (Ok i, g') → node_id n = Ok i.
Proof.
  unfold add_node, cbind, clift, cget, cput, cret. destruct (node_id n) as [id|]; [|done].
  destruct (nodes g !! id) as [e|]; [destruct (negb _)|]; by intros [= -> _].
Qed.

Lemma link_edge n1 n2 r g id g' :
  rfc8785_faithful → (node_type n1, node_type n2) = ends r → typed g →
  (let! s := add_node n1 in let! d := add_node n2 in let! _ := add_edge s d r in cret d) g = (Ok id, g') →
  sha_collision ∨ edge_between g' n1 n2 r ∧ node_id n2 = Ok id.
Proof.
  intros Hf He Ht Hrun. apply cbind_ok in Hrun as (i & g1 & H1 & Hrun).
  apply cbind_ok in Hrun as (j & g2 & H2 & Hrun). apply cbind_ok in Hrun as ([] & g3 & H3 & [= <- <-]).
  destruct (triple_node n1 Hf _ _ _ Ht I H1) as [?|(Ht1 & Hg1 & Hi)]; [by left|].
  destruct (triple_node n2 Hf _ _ _ Ht1 I H2) as [?|(Ht2 & Hg2 & Hj)]; [by left|].
  assert (Hends : has g2 i (ends r).1 ∧ has g2 j (ends r).2)
    by (rewrite <-He; split; [by apply Hg2, Hi|by apply Hj]).
  destruct (triple_edge i j r _ _ _ Ht2 Hends H3) as [?|(_ & _ & Hin)]; [by left|right].
  apply add_node_id in H1, H2. split; [|done]. exists i, j. split_and!; [done|done|by apply (Hin ())].
Qed.
End typing.

(** * The trace *)

Section tracing.
Variable g : LineageGraph.

(** [p] is recorded as a source of [x]. *)
Definition parent (p x : string) : Prop := p ∈ parents_of g x.
Definition ancestor : string → string → Prop := rtc parent.
Definition acyclic : Prop := ∀ x, ¬ tc parent x x.

Lemma parent_edge p x : parent p x ↔ ∃ e, e ∈ edges g ∧ src e = p ∧ dst e = x.
Proof.
  unfold parent, parents_of. rewrite list_elem_of_fmap.
  split; intros (e & He & Hx); exists e.
  - rewrite list_elem_of_In, filter_In, <-list_elem_of_In in Hx.
    destruct Hx as [Hx Hd%bool_decide_eq_true]. by subst.
  - destruct Hx as [<- <-]. split; [done|].
    rewrite list_elem_of_In, filter_In, <-list_elem_of_In. by rewrite bool_decide_true.
Qed.

(** What a visit adds to its accumulators: [new] in its order, from the nodes
    [starts]. *)
Record visited (starts : list string) (seen : gset string) (new : list string)
    (seen' : gset string) : Prop := {
  vi_seen : ∀ x, x ∈ seen' ↔ x ∈ seen ∨ x ∈ new;
  vi_nodup : NoDup new;
  vi_fresh : ∀ x, x ∈ new → x ∉ seen;
  vi_start : ∀ s, s ∈ starts → s ∈ seen';
  vi_from : ∀ x, x ∈ new → ∃ s, s ∈ starts ∧ ancestor x s;
  vi_closed : ∀ x p, x ∈ new → parent p x → p ∈ seen'
}.

(** Sources first: every parent of an element of [new] was seen before the visit or
    stands earlier. *)
Definition sources_first (seen : gset string) (new : list string) : Prop :=
  ∀ j x p, new !! j = Some x → parent p x → p ∈ seen ∨ ∃ i, i < j ∧ new !! i = Some p.

Lemma visit_fold d ps :
  (∀ n seen order st', visit g d n (seen, order) = Ok st' →
     ∃ new, st'.2 = order ++ new ∧ visited [n] seen new st'.1 ∧ (acyclic → sources_first seen new)) →
  ∀ seen order st', foldM (visit g d) ps (seen, order) = Ok st' →
    ∃ new, st'.2 = order ++ new ∧ visited ps seen new st'.1 ∧ (acyclic → sources_first seen new).
Proof.
  intros Hvisit. induction ps as [|p ps IH]; intros seen order st' Hrun; cbn [foldM] in Hrun.
  - injection Hrun as <-. exists []. rewrite app_nil_r. split_and!; [done| |by intros _ j x q].
    split; simpl; try (by intros ? ?%elem_of_nil); [set_solver|constructor|by intros x q ?%elem_of_nil].
  - apply rbind_ok in Hrun as ([s1 o1] & Hp & Hrun).
    destruct (Hvisit _ _ _ _ Hp) as (new1 & Ho1 & Hv1 & Hs1). simpl in Ho1, Hv1. subst o1.
    destruct (IH _ _ _ Hrun) as (new2 & Ho2 & Hv2 & Hs2).
    exists (new1 ++ new2). rewrite Ho2, app_assoc. split; [done|]. split.
    + split.
      * intros x. rewrite (vi_seen _ _ _ _ Hv2), (vi_seen _ _ _ _ Hv1), elem_of_app. tauto.
      * apply NoDup_app. split_and!; [apply Hv1| |apply Hv2].
        intros x H1 H2. apply (vi_fresh _ _ _ _ Hv2 x H2), (vi_seen _ _ _ _ Hv1). by right.
      * intros x [Hx|Hx]%elem_of_app; [by apply (vi_fresh _ _ _ _ Hv1)|].
        intros Hs. apply (vi_fresh _ _ _ _ Hv2 x Hx), (vi_seen _ _ _ _ Hv1). by left.
      * intros s [->|Hs]%elem_of_cons; [|by apply (vi_start _ _ _ _ Hv2)].
        apply (vi_seen _ _ _ _ Hv2). left. apply (vi_start _ _ _ _ Hv1). by left.
      * intros x [Hx|Hx]%elem_of_app.
        -- destruct (vi_from _ _ _ _ Hv1 x Hx) as (s & ->%list_elem_of_singleton & Ha).
           exists p. split; [by left|done].
        -- destruct (vi_from _ _ _ _ Hv2 x Hx) as (s & Hs & Ha). exists s. split; [by right|done].
      * intros x q [Hx|Hx]%elem_of_app Hq; [|by eapply (vi_closed _ _ _ _ Hv2)].
        apply (vi_seen _ _ _ _ Hv2). left. by eapply (vi_closed _ _ _ _ Hv1).
    + intros Hac j x q [Hj|[Hle Hj]]%lookup_app_Some Hq.
      * destruct (Hs1 Hac j x q Hj Hq) as [?|(i & Hi & Hiq)]; [by left|right].
        exists i. split; [done|]. by apply lookup_app_l_Some.
      * destruct (Hs2 Hac _ x q Hj Hq) as [Hs|(i & Hi & Hiq)].
        -- apply (vi_seen _ _ _ _ Hv1) in Hs as [?|Hn]; [by left|right].
           apply list_elem_of_lookup in Hn as [i Hi]. exists i.
           pose proof (lookup_lt_Some _ _ _ Hi). split; [lia|]. by apply lookup_app_l_Some.
        -- right. exists (length new1 + i). split; [lia|].
           rewrite lookup_app_r by lia. by replace (length new1 + i - length new1) with i by lia.
Qed.

Lemma visit_sound d n seen order st' :
  visit g d n (seen, order) = Ok st' →
  ∃ new, st'.2 = order ++ new ∧ visited [n] seen new st'.1 ∧ (acyclic → sources_first seen new).
Proof.
  revert n seen order st'. induction d as [|d IH]; intros n seen order st' Hrun; [done|].
  cbn [visit] in Hrun. case_decide as Hn.
  - injection Hrun as <-. exists []. rewrite app_nil_r. split_and!; [done| |by intros _ j x q].
    split; simpl; try (by intros ? ?%elem_of_nil); try (by intros x q ?%elem_of_nil);
      [set_solver|constructor|set_solver].
  - apply rbind_ok in Hrun as (st2 & Hfold & Hrun). injection Hrun as <-. simpl.
    destruct (visit_fold d _ IH _ _ _ Hfold) as (new & -> & Hv & Hs).
    assert (Hnn : n ∉ new) by (intros Hx; apply (vi_fresh _ _ _ _ Hv n Hx); set_solver).
    assert (Hanc : ∀ x, x ∈ new → tc parent x n).
    { intros x Hx. destruct (vi_from _ _ _ _ Hv x Hx) as (s & Hs' & Ha).
      eapply tc_rtc_l; [exact Ha|]. by apply tc_once. }
    exists (new ++ [n]). rewrite app_assoc. split_and!; [done|split|].
    + intros x. rewrite (vi_seen _ _ _ _ Hv). set_solver.
    + apply NoDup_app. split_and!; [apply Hv| |apply NoDup_singleton]. by intros x Hx ->%list_elem_of_singleton.
    + intros x [Hx| ->%list_elem_of_singleton]%elem_of_app; [|done].
      pose proof (vi_fresh _ _ _ _ Hv x Hx). set_solver.
    + intros s ->%list_elem_of_singleton. apply (vi_seen _ _ _ _ Hv). set_solver.
    + intros x [Hx| ->%list_elem_of_singleton]%elem_of_app; exists n; (split; [by left|]).
      * by apply tc_rtc, Hanc.
      * constructor.
    + intros x p [Hx| ->%list_elem_of_singleton]%elem_of_app Hp; [by eapply (vi_closed _ _ _ _ Hv)|].
      by apply (vi_start _ _ _ _ Hv).
    + intros Hac j x p Hj Hp. specialize (Hs Hac).
      assert (Hpn : p ∈ ({[n]} ∪ seen : gset string) → p ∈ seen).
      { intros [->%elem_of_singleton|?]%elem_of_union; [|done]. exfalso.
        apply lookup_app_Some in Hj as [Hj|[_ Hj]].
        - apply (Hac n). eapply tc_l; [exact Hp|]. apply Hanc. by eapply list_elem_of_lookup_2.
        - apply list_lookup_singleton_Some in Hj as [_ <-]. apply (Hac n). by apply tc_once. }
      apply lookup_app_Some in Hj as [Hj|[Hle Hj]].
      * destruct (Hs j x p Hj Hp) as [?|(i & Hi & Hip)]; [left; auto|right].
        exists i. split; [done|]. by apply lookup_app_l_Some.
      * apply list_lookup_singleton_Some in Hj as [Hj <-].
        pose proof (vi_start _ _ _ _ Hv p Hp) as Hps.
        apply (vi_seen _ _ _ _ Hv) in Hps as [?|Hpw]; [left; auto|right].
        apply list_elem_of_lookup in Hpw as [i Hi]. exists i.
        pose proof (lookup_lt_Some _ _ _ Hi). split; [lia|]. by apply lookup_app_l_Some.
Qed.

(** With nodes graded so that edges go up, a visit needs one frame per grade. *)
Lemma visit_graded (grade : string → nat) d n st :
  (∀ p x, parent p x → grade p < grade x) → grade n < d → is_ok (visit g d n st) = true.
Proof.
  intros Hg. revert n st. induction d as [|d IH]; intros n st Hn; [lia|].
  cbn [visit]. case_decide; [done|].
  assert (Hf : ∀ ps st, (∀ p, p ∈ ps → grade p < d) → is_ok (foldM (visit g d) ps st) = true).
  { induction ps as [|p ps IHps]; intros st0 Hps; [done|]. cbn [foldM].
    pose proof (IH p st0 (Hps p ltac:(by left))) as Hp. destruct (visit g d p st0) as [st1|]; [|done].
    simpl. apply IHps. intros q Hq. apply Hps. by right. }
  pose proof (Hf (parents_of g n) ({[n]} ∪ st.1, st.2)) as Hx.
  destruct (foldM _ _ _); [done|]. apply Hx. intros p Hp. pose proof (Hg p n Hp). lia.
Qed.

Lemma graded_acyclic (grade : string → nat) :
  (∀ p x, parent p x → grade p < grade x) → acyclic.
Proof.
  intros Hg x Hx. assert (Hlt : ∀ a b, tc parent a b → grade a < grade b).
  { induction 1 as [a b Hab|a b c Hab _ IH]; [by apply Hg|]. pose proof (Hg _ _ Hab). lia. }
  pose proof (Hlt _ _ Hx). lia.
Qed.

(** A visit from scratch collects exactly the ancestors. *)
Lemma visited_ancestors n new seen' x : visited [n] ∅ new seen' → x ∈ new ↔ ancestor x n.
Proof.
  intros Hv. assert (Hin : ∀ y, y ∈ seen' → y ∈ new).
  { intros y [Hy|Hy]%(vi_seen _ _ _ _ Hv); [set_solver|done]. }
  split.
  - intros Hx. by destruct (vi_from _ _ _ _ Hv x Hx) as (s & ->%list_elem_of_singleton & Ha).
  - assert (Hn : n ∈ new) by (apply Hin, (vi_start _ _ _ _ Hv); by left).
    induction 1 as [y|y z w Hyz _ IH]; [done|].
    apply Hin. by eapply (vi_closed _ _ _ _ Hv); [apply IH|].
Qed.
End tracing.

(** * Properties *)

Section properties.
Context `{Hashlib, Rfc8785}.

(** How far along the chain of provenance a kind of node stands. *)
Definition type_grade (t : LineageNodeType) : nat :=
  match t with
  | DATASET => 0 | CIPHERTEXT => 1 | PROGRAM => 2 | RESULT => 3 | DECRYPT_REQUEST => 4
  | RELEASED_RESULT => 5
  end.
Definition node_grade (g : LineageGraph) (id : string) : nat :=
  match nodes g !! id with Some n => type_grade (node_type n) | None => 0 end.

Lemma has_grade g id t : has g id t → node_grade g id = type_grade t.
Proof. intros (n & Hn & <-). unfold node_grade. by rewrite Hn. Qed.

Lemma typed_graded g p x : typed g → parent g p x → node_grade g p < node_grade g x.
Proof.
  intros Ht (e & He & <- & <-)%parent_edge. destruct (ty_edge _ Ht e He) as [Hs Hd].
  rewrite (has_grade _ _ _ Hs), (has_grade _ _ _ Hd). destruct (relation e); simpl; lia.
Qed.

Lemma node_grade_bound g id : node_grade g id ≤ 5.
Proof. unfold node_grade. destruct (nodes g !! id) as [n|]; [|lia]. destruct (node_type n); simpl; lia. Qed.

(** C19. Provenance is well typed.  Whatever is recorded, nodes are filed under their
    own identifiers, each edge joins recorded nodes of the two kinds its relation
    names, no edge is there twice, and a recorder that returns gives the identifier of
    a node of its kind while everything recorded before stays; or two nodes exhibit a
    collision of SHA-256. *)
Theorem lineage_well_typed ops o id g' :
  rfc8785_faithful →
  let g := run lineage_step new_graph ops in
  sha_collision ∨
  typed g ∧ (lineage_call o g = (Ok id, g') → sha_collision ∨ typed g' ∧ grows g g' ∧ has g' id (op_type o)).
Proof.
  intros Hf g. destruct (typed_run ops new_graph Hf typed_new) as [?|Ht]; [by left|right].
  split; [done|]. intros Ho. destruct (triple_call o Hf _ _ _ Ht I Ho) as [?|(Ht' & Hg & Hh)]; [by left|right].
  split_and!; [done|done|by apply Hh].
Qed.

(** C24. The trace terminates and is right.  Six frames are enough for any recorded
    graph, however large: the recursion climbs from kind to kind.  The trace lists the
    recorded ancestors of a node and itself, all of them and nothing else, each once,
    and every source before what was made from it. *)
Theorem trace_complete ops nid depth :
  rfc8785_faithful → 6 ≤ depth →
  let g := run lineage_step new_graph ops in
  sha_collision ∨
  ∃ order, trace g depth nid = Ok (omap (λ n, nodes g !! n) order) ∧ NoDup order ∧
    (∀ x, x ∈ order ↔ ancestor g x nid) ∧
    (is_Some (nodes g !! nid) → ∀ x, x ∈ order → is_Some (nodes g !! x)) ∧
    ∀ j x p, order !! j = Some x → parent g p x → ∃ i, i < j ∧ order !! i = Some p.
Proof.
  intros Hf Hd g. destruct (typed_run ops new_graph Hf typed_new) as [?|Ht]; [by left|right].
  fold g in Ht. pose proof (λ p x, typed_graded g p x Ht) as Hgr. unfold trace.
  pose proof (visit_graded g (node_grade g) depth nid (∅, []) Hgr
    ltac:(pose proof (node_grade_bound g nid); lia)) as Hok.
  destruct (visit g depth nid (∅, [])) as [st|] eqn:Hv; [|done].
  destruct (visit_sound _ _ _ _ _ _ Hv) as (new & Hnew & Hvi & Hsf). simpl in Hnew.
  pose proof (λ x, visited_ancestors g nid new st.1 x Hvi) as Hanc.
  exists new. simpl. rewrite Hnew. split_and!; [done|apply Hvi|done| |].
  - intros Hn x Hx%Hanc. inversion Hx as [|? y ? Hxy]; subst; [done|].
    apply parent_edge in Hxy as (e & He & <- & _). destruct (ty_edge _ Ht e He) as [(n & -> & _) _]. done.
  - intros j x p Hj Hp. destruct (Hsf (graded_acyclic g _ Hgr) j x p Hj Hp) as [?|?]; [set_solver|done].
Qed.
End properties.

(** * Witnesses *)

Import Instances.

Definition ex_lineage : list lineage_op :=
  [LCiphertext "ds_1" "ct_1" "sha256:c" "SECRET" "ctx_1" 1;
   LResult ["ct_1"; "ct_2"] "mean" "1" "res_1" "sha256:r" "lin_1";
   LRequest "res_1" "req_1" "alice" "audit"; LRelease "req_1" "rel_1" "alice" None (Some "appr_1")].
Definition ex_graph : LineageGraph := run (lineage_step (H0 := spelled)) new_graph ex_lineage.
Definition ex_release : string :=
  Eval vm_compute in match node_id (H0 := spelled) (mkNode RELEASED_RESULT "rel_1" None []) with
                     | Ok id => id | Err _ => "" end.

(** The release goes back to the dataset. *)
Example ex_traced :
  (match trace ex_graph 6 ex_release with Ok ns => node_ref <$> ns | Err _ => [] end) = ["ds_1"; "ct_1"; "ct_2"; "mean"; "res_1"; "req_1"; "rel_1"].
Proof. vm_compute. reflexivity. Qed.

(** C19 at a computation over two ciphertexts. *)
Lemma lineage_well_typed_witness :
  sha_collision ∨ typed (H0 := spelled) ex_graph.
Proof.
  destruct (lineage_well_typed (H0 := spelled) ex_lineage (LRequest "res_1" "req_2" "bob" "audit") "" ex_graph
    spelled_faithful) as [Hc|[Ht _]]; [left; exact Hc|right; exact Ht].
Defined.

(** C24 at its release. *)
Lemma trace_complete_witness :
  sha_collision ∨ ∃ order, trace ex_graph 6 ex_release = Ok (omap (λ n, nodes ex_graph !! n) order) ∧ NoDup order.
Proof.
  destruct (trace_complete (H0 := spelled) ex_lineage ex_release 6 spelled_faithful (Nat.le_refl 6))
    as [Hc|(order & Ho & Hn & _)]; [left; exact Hc|right; exists order; split; [exact Ho|exact Hn]].
Defined.
