(* ===== verification/PyFloat.v ===== *)
(** Python floats: binary64 arithmetic, comparison, true division of integers and
    [round] to a number of decimals. *)

From S2P Require Export Prelude.
From Corelib.Floats Require Export SpecFloat.

(** Comparisons and subtraction; a NaN compares false. *)
Definition fle (x y : spec_float) : bool := SFleb x y.
Definition flt (x y : spec_float) : bool := SFltb x y.
Definition fsub (x y : spec_float) : spec_float := SFsub 53 1024 x y.

(** The double nearest to [m * 2^e], ties to even; [neg] is the sign of a zero. *)
Definition nearest (m e : Z) (neg : bool) : spec_float := binary_normalize 53 1024 m e neg.
Definition of_int (n : Z) : spec_float := nearest n 0 false.

(** The double nearest to [n / d], for [d > 0]: the quotient is taken to at least 64
    significant bits, the last of which remembers whether the division was exact. *)
Definition of_ratio (n d : Z) (neg : bool) : spec_float :=
  let k := Z.max 0 (Z.log2 d - Z.log2 (Z.abs n) + 66)%Z in
  let q := (Z.shiftl (Z.abs n) k / d)%Z in
  let q' := (if Z.shiftl (Z.abs n) k mod d =? 0 then 2 * q else 2 * q + 1)%Z in
  nearest (if (n <? 0)%Z then - q' else q')%Z (- k - 1) neg.

(** [a / b] for non-negative integers, [b > 0]. *)
Definition true_div (a b : Z) : spec_float := of_ratio a b false.

(** The integer nearest to [n / d], ties to even. *)
Definition round_ratio (n d : Z) : Z :=
  (let q := n / d in let r := n mod d in
   if (2 * r <? d) || ((2 * r =? d) && Z.even q) then q else q + 1)%Z.

(** [round(x, k)]: the decimal with [k] places nearest to the exact value of [x], and
    the double nearest to that. *)
Definition fround (x : spec_float) (k : Z) : spec_float :=
  match x with
  | S754_finite s m e =>
      let n := (Z.pos m * 2 ^ Z.max 0 e * 10 ^ Z.max 0 k)%Z in
      let d := (2 ^ Z.max 0 (- e) * 10 ^ Z.max 0 (- k))%Z in
      let r := round_ratio n d in
      let r := if s then (- r)%Z else r in
      of_ratio (r * 10 ^ Z.max 0 (- k)) (10 ^ Z.max 0 k) s
  | _ => x
  end.

Example round_examples :
  fround (of_ratio 2675 1000 false) 2 = of_ratio 267 100 false ∧
  fround (of_ratio 25 10 false) 0 = of_int 2 ∧ fround (of_int (-1250)) (-2) = of_int (-1200) ∧
  true_div 1 3 = S754_finite false 6004799503160661 (-54).
Proof. split_and!; vm_compute; reflexivity. Qed.
