(* ===== verification/QueryGov.v ===== *)
(** Confidential query governance ([cvztte/confidential_query]): the policy, the
    decisions, and the history the governor keeps for each scope. *)

From S2P Require Export Errors PyFloat.

(** [ReleaseKind] *)
Inductive ReleaseKind : Set := AGGREGATE | INDIVIDUAL.
#[export] Instance ReleaseKind_eq_dec : EqDecision ReleaseKind.
Proof. solve_decision. Defined.

(** [QueryScope] *)
Record QueryScope : Set := mkScope {
  sc_agent_id : string;
  sc_dataset_id : string;
  sc_session_id : string;
  sc_purpose : string
}.

(** [QueryScope.key] *)
Definition scope_key (s : QueryScope) : string * string * string * string :=
  (sc_agent_id s, sc_dataset_id s, sc_session_id s, sc_purpose s).

(** [QueryRequest] *)
Record QueryRequest : Type := mkQuery {
  q_scope : QueryScope;
  q_program_id : string;
  subset_ids : gset string;
  aggregation_group_size : Z;
  release_kind : ReleaseKind;
  q_timestamp : spec_float
}.

(** [GovernanceAction] *)
Inductive GovernanceAction : Set := GA_ALLOW | GA_DENY | GA_TRANSFORM | GA_REQUIRE_APPROVAL.
#[export] Instance GovernanceAction_eq_dec : EqDecision GovernanceAction.
Proof. solve_decision. Defined.

(** [GovernanceDecision] *)
Record GovernanceDecision : Type := mkGovernance {
  g_action : GovernanceAction;
  g_reason : option ErrorCode;
  g_message : string;
  g_round_decimals : option Z
}.

(** [GovernanceDecision.allowed] *)
Definition g_allowed (d : GovernanceDecision) : bool := bool_decide (g_action d ≠ GA_DENY).

(** [QueryGovernancePolicy] *)
Record QueryGovernancePolicy : Type := mkGovPolicy {
  window_seconds : spec_float;
  max_decrypts_per_window : option Z;
  min_group_size : Z;
  deny_individual_value : bool;
  differencing_min_symmetric_difference : Z;
  max_overlap_ratio : option spec_float;
  require_approval_below_group_size : option Z;
  round_decimals : option Z
}.
Definition default_gov_policy : QueryGovernancePolicy :=
  mkGovPolicy (of_int 3600) None 1 true 0 None None None.

(** [QueryGovernor]: its policy and its history. *)
Record QueryGovernor : Type := mkGovernor {
  g_policy : QueryGovernancePolicy;
  history : gmap (string * string * string * string) (list (spec_float * gset string))
}.
Definition new_governor (p : option QueryGovernancePolicy) : QueryGovernor :=
  mkGovernor (default default_gov_policy p) ∅.

Definition past (g : QueryGovernor) (s : QueryScope) : list (spec_float * gset string) :=
  default [] (history g !! scope_key s).

(** [t >= request.timestamp - window_seconds] *)
Definition in_window (p : QueryGovernancePolicy) (now t : spec_float) : bool :=
  fle (fsub now (window_seconds p)) t.

(** [QueryGovernor._recent] *)
Definition recent (g : QueryGovernor) (r : QueryRequest) : list (spec_float * gset string) :=
  List.filter (λ ts, in_window (g_policy g) (q_timestamp r) ts.1) (past g (q_scope r)).

Definition deny (reason : ErrorCode) (msg : string) : GovernanceDecision :=
  mkGovernance GA_DENY (Some reason) msg None.

Definition sym_diff (a b : gset string) : Z := Z.of_nat (size ((a ∖ b) ∪ (b ∖ a))).
Definition overlap (a b : gset string) : spec_float :=
  true_div (Z.of_nat (size (a ∩ b))) (Z.min (Z.of_nat (size a)) (Z.of_nat (size b))).

(** The body of the loop over previous subsets in [evaluate]: the denial, if any. *)
Definition against_previous (p : QueryGovernancePolicy) (cur prev : gset string)
    : option GovernanceDecision :=
  if decide (cur = ∅ ∨ prev = ∅) then None
  else
    let sd := sym_diff cur prev in
    let thr := differencing_min_symmetric_difference p in
    if bool_decide (0 < thr)%Z && bool_decide (0 < sd < thr)%Z then
      Some (deny FHE_QUERY_PATTERN_RISK "differencing pattern detected vs a prior query")
    else
      match max_overlap_ratio p with
      | Some ratio =>
          if bool_decide (cur ≠ prev) && flt ratio (overlap cur prev) then
            Some (deny FHE_QUERY_PATTERN_RISK "repeated overlapping query restricted")
          else None
      | None => None
      end.

Fixpoint first_denial (p : QueryGovernancePolicy) (cur : gset string)
    (l : list (spec_float * gset string)) : option GovernanceDecision :=
  match l with
  | [] => None
  | (_, prev) :: l =>
      match against_previous p cur prev with
      | Some d => Some d
      | None => first_denial p cur l
      end
  end.

(** [QueryGovernor.evaluate] *)
Definition gov_evaluate (g : QueryGovernor) (r : QueryRequest) : GovernanceDecision :=
  let p := g_policy g in
  if decide (release_kind r = INDIVIDUAL ∧ deny_individual_value p = true) then
    deny FHE_QUERY_PATTERN_RISK "individual-value release denied by policy"
  else if decide (aggregation_group_size r < min_group_size p)%Z then
    deny FHE_QUERY_PATTERN_RISK "aggregation group smaller than minimum k"
  else if match max_decrypts_per_window p with
          | Some m => bool_decide (m ≤ Z.of_nat (length (recent g r)))%Z
          | None => false
          end
  then deny FHE_PRIVACY_BUDGET_EXCEEDED "decrypt rate limit exceeded for scope/window"
  else
    match first_denial p (subset_ids r) (recent g r) with
    | Some d => d
    | None =>
        if match require_approval_below_group_size p with
           | Some k => bool_decide (aggregation_group_size r < k)%Z
           | None => false
           end
        then mkGovernance GA_REQUIRE_APPROVAL (Some APPROVAL_REQUIRED)
               "release requires human approval for small group" (round_decimals p)
        else
          match round_decimals p with
          | Some n => mkGovernance GA_TRANSFORM None "result rounded/minimized" (Some n)
          | None => mkGovernance GA_ALLOW None "" None
          end
    end.

(** [QueryGovernor.record] *)
Definition gov_record (r : QueryRequest) : M QueryGovernor unit :=
  cmodify (λ g, mkGovernor (g_policy g)
    (<[scope_key (q_scope r) := past g (q_scope r) ++ [(q_timestamp r, subset_ids r)]]> (history g))).

(** [QueryGovernor.governed_release] *)
Definition governed_release (r : QueryRequest) : M QueryGovernor GovernanceDecision :=
  let! g := cget in
  let decision := gov_evaluate g r in
  if g_allowed decision then
    let! _ := gov_record r in
    cret decision
  else cret decision.

(** [QueryGovernor.minimize] *)
Definition minimize (values : list spec_float) (d : GovernanceDecision) : list spec_float :=
  match g_round_decimals d with
  | None => values
  | Some n => (λ v, fround v n) <$> values
  end.

(** * What a decision means *)

(** Releasing [cur] after [prev] reveals no small difference and no large overlap. *)
Definition compatible (p : QueryGovernancePolicy) (cur prev : gset string) : Prop :=
  cur = ∅ ∨ prev = ∅ ∨
  ((0 < differencing_min_symmetric_difference p → cur = prev ∨
    differencing_min_symmetric_difference p ≤ sym_diff cur prev)%Z ∧
   (∀ ratio, max_overlap_ratio p = Some ratio → cur = prev ∨ flt ratio (overlap cur prev) = false)).

Lemma sym_diff_zero a b : sym_diff a b = 0%Z ↔ a = b.
Proof.
  unfold sym_diff. split.
  - intros Hz. assert (Hs : size ((a ∖ b) ∪ (b ∖ a)) = 0) by lia.
    apply size_empty_inv in Hs. apply set_eq. intros x. pose proof (Hs x) as Hx.
    rewrite elem_of_union, !elem_of_difference in Hx. destruct (decide (x ∈ a)), (decide (x ∈ b)); set_solver.
  - intros ->. assert ((b ∖ b) ∪ (b ∖ b) = (∅ : gset string)) as -> by set_solver. by rewrite size_empty.
Qed.

Lemma against_previous_none p cur prev : against_previous p cur prev = None ↔ compatible p cur prev.
Proof.
  unfold against_previous, compatible. case_decide as He; [tauto|].
  pose proof (sym_diff_zero cur prev) as Hz.
  assert (Hsd : (0 ≤ sym_diff cur prev)%Z) by (unfold sym_diff; lia).
  destruct (bool_decide (0 < _)%Z && bool_decide (0 < sym_diff cur prev < _)%Z) eqn:Hd.
  - apply andb_prop in Hd as [Ht%bool_decide_eq_true Hs%bool_decide_eq_true]. split; [done|].
    intros [?|[?|[Hx _]]]; [tauto|tauto|]. destruct (Hx Ht) as [->|?]; [|lia].
    rewrite (proj2 (sym_diff_zero prev prev) eq_refl) in Hs. lia.
  - assert (Hdiff : (0 < differencing_min_symmetric_difference p → cur = prev ∨
      differencing_min_symmetric_difference p ≤ sym_diff cur prev)%Z).
    { intros Ht. rewrite bool_decide_true in Hd by done. apply bool_decide_eq_false in Hd.
      destruct (decide (sym_diff cur prev = 0%Z)); [left; tauto|right; lia]. }
    destruct (max_overlap_ratio p) as [ratio|].
    + destruct (bool_decide (cur ≠ prev) && flt ratio (overlap cur prev)) eqn:Ho.
      * apply andb_prop in Ho as [Hne%bool_decide_eq_true Hf]. split; [done|].
        intros [?|[?|[_ Hx]]]; [tauto|tauto|]. destruct (Hx ratio eq_refl); [done|congruence].
      * split; [|done]. intros _. right. right. split; [done|]. intros ? [= <-].
        apply andb_false_iff in Ho as [Ho|Ho]; [left|by right].
        apply bool_decide_eq_false in Ho. by apply dec_stable.
    + split; [|done]. intros _. right. right. by split.
Qed.

Lemma first_denial_none p cur l :
  first_denial p cur l = None ↔ ∀ t prev, (t, prev) ∈ l → compatible p cur prev.
Proof.
  induction l as [|[t prev] l IH]; simpl; [split; [by intros _ ? ? ?%elem_of_nil|done]|].
  destruct (against_previous p cur prev) as [d|] eqn:Ha.
  - split; [done|]. intros Hx. specialize (Hx t prev ltac:(by left)).
    apply against_previous_none in Hx. congruence.
  - apply against_previous_none in Ha. rewrite IH. split.
    + intros Hx t' prev' [[= -> ->]|Hin]%elem_of_cons; eauto.
    + intros Hx t' prev' Hin. apply (Hx t'). by right.
Qed.

Lemma first_denial_some p cur l d : first_denial p cur l = Some d → g_action d = GA_DENY.
Proof.
  induction l as [|[t prev] l IH]; simpl; [done|].
  destruct (against_previous p cur prev) as [d'|] eqn:Ha; [|done]. intros [= ->].
  unfold against_previous in Ha. repeat (case_decide || case_match); by simplify_eq.
Qed.

(** What the governor checks of a request given the releases in its window. *)
Record admissible (g : QueryGovernor) (r : QueryRequest) : Prop := {
  ad_kind : deny_individual_value (g_policy g) = true → release_kind r = AGGREGATE;
  ad_group : (min_group_size (g_policy g) ≤ aggregation_group_size r)%Z;
  ad_rate m : max_decrypts_per_window (g_policy g) = Some m → (Z.of_nat (length (recent g r)) < m)%Z;
  ad_subsets t prev : (t, prev) ∈ recent g r → compatible (g_policy g) (subset_ids r) prev
}.

Lemma gov_evaluate_iff g r : g_allowed (gov_evaluate g r) = true ↔ admissible g r.
Proof.
  unfold gov_evaluate. case_decide as Hk.
  { split; [done|]. intros [Hx _ _ _]. destruct Hk as [Hi Hd]. rewrite (Hx Hd) in Hi. done. }
  case_decide as Hg; [split; [done|]; intros []; lia|].
  destruct (match max_decrypts_per_window (g_policy g) with Some _ => _ | None => _ end) eqn:Hm.
  { split; [done|]. intros [_ _ Hx _]. destruct (max_decrypts_per_window (g_policy g)) as [m|]; [|done].
    apply bool_decide_eq_true in Hm. pose proof (Hx m eq_refl). lia. }
  destruct (first_denial _ _ _) as [d|] eqn:Hf.
  - pose proof (first_denial_some _ _ _ _ Hf) as Hd. unfold g_allowed. rewrite Hd. split; [done|].
    intros [_ _ _ Hx]. apply first_denial_none in Hx. congruence.
  - pose proof (proj1 (first_denial_none _ _ _) Hf) as Hs.
    assert (Hok : admissible g r).
    { constructor; [|lia| |done].
      - intros Hd. destruct (release_kind r) eqn:Hr; [done|]. tauto.
      - intros m Hmm. rewrite Hmm in Hm. apply bool_decide_eq_false in Hm. lia. }
    repeat case_match; by split.
Qed.

(** * The history *)

Definition gov_step (g : QueryGovernor) (r : QueryRequest) : QueryGovernor := (governed_release r g).2.

(** Each release was within the rate and compatible with every earlier one in its
    window. *)
Definition governed (p : QueryGovernancePolicy) (l : list (spec_float * gset string)) : Prop :=
  ∀ j tj sj, l !! j = Some (tj, sj) →
    let earlier := List.filter (λ ts, in_window p tj ts.1) (take j l) in
    (∀ m, max_decrypts_per_window p = Some m → (Z.of_nat (length earlier) < m)%Z) ∧
    (∀ t s, (t, s) ∈ earlier → compatible p sj s).

Lemma governed_snoc p l t s :
  governed p l →
  (∀ m, max_decrypts_per_window p = Some m →
     (Z.of_nat (length (List.filter (λ ts, in_window p t ts.1) l)) < m)%Z) →
  (∀ t' s', (t', s') ∈ List.filter (λ ts, in_window p t ts.1) l → compatible p s s') →
  governed p (l ++ [(t, s)]).
Proof.
  intros Hl Hm Hs j tj sj [Hj|[Hle Hj]]%lookup_app_Some.
  - pose proof (lookup_lt_Some _ _ _ Hj). rewrite take_app_le by lia. by apply Hl.
  - apply list_lookup_singleton_Some in Hj as [Hj [= <- <-]].
    replace j with (length l) by lia. by rewrite take_app_length.
Qed.

Lemma governed_release_cases r g :
  governed_release r g = (Ok (gov_evaluate g r), if g_allowed (gov_evaluate g r) then (gov_record r g).2 else g).
Proof. unfold governed_release, cbind, cget, cret, gov_record, cmodify. by destruct (g_allowed _). Qed.

Lemma past_record r g s :
  past (gov_record r g).2 s =
    if decide (scope_key s = scope_key (q_scope r)) then past g (q_scope r) ++ [(q_timestamp r, subset_ids r)]
    else past g s.
Proof.
  unfold gov_record, cmodify, past. simpl. case_decide as Hs.
  - by rewrite Hs, lookup_insert_eq.
  - by rewrite lookup_insert_ne.
Qed.

Lemma gov_step_policy g r : g_policy (gov_step g r) = g_policy g.
Proof. unfold gov_step. rewrite governed_release_cases. simpl. by destruct (g_allowed _). Qed.

Lemma gov_step_governed g r :
  (∀ s, governed (g_policy g) (past g s)) →
  ∀ s, governed (g_policy (gov_step g r)) (past (gov_step g r) s).
Proof.
  intros Hg s. rewrite gov_step_policy. unfold gov_step. rewrite governed_release_cases. cbn [snd].
  destruct (g_allowed (gov_evaluate g r)) eqn:Ha; [|done].
  apply gov_evaluate_iff in Ha as [_ _ Hm Hs]. rewrite past_record. case_decide; [|done].
  by apply governed_snoc.
Qed.

(** C18. Releases never differ too little and never come too fast.  A release is
    allowed exactly when its kind, its group size, the rate of its scope and every
    earlier subset in the window admit it, and it is recorded exactly then.  So over
    any sequence of releases, in every scope, each recorded release is within the rate
    limit of the window that ends with it, and differs from every earlier one in that
    window by nothing or by at least the configured symmetric difference, and overlaps
    it by no more than the configured ratio (unless equal, or empty). *)
Theorem releases_stay_governed p ops :
  let g := run gov_step (new_governor p) ops in
  (∀ s, governed (g_policy g) (past g s)) ∧
  (∀ r, let '(d, g') := governed_release r g in
     d = Ok (gov_evaluate g r) ∧
     (g_allowed (gov_evaluate g r) = true ↔ admissible g r) ∧
     (admissible g r → past g' (q_scope r) = past g (q_scope r) ++ [(q_timestamp r, subset_ids r)]) ∧
     (¬ admissible g r → g' = g)).
Proof.
  intros g. split.
  - assert (Hrun : ∀ g0, (∀ s, governed (g_policy g0) (past g0 s)) →
      ∀ s, governed (g_policy (run gov_step g0 ops)) (past (run gov_step g0 ops) s)).
    { intros g0 Hg0.
      apply (run_invariant gov_step (λ g, ∀ s, governed (g_policy g) (past g s)));
        [intros; by apply gov_step_governed|done]. }
    apply Hrun. intros s j tj sj. unfold past. simpl. by rewrite lookup_empty.
  - intros r. rewrite governed_release_cases. pose proof (gov_evaluate_iff g r) as Hiff.
    split_and!; [done|done| |].
    + intros Ha%Hiff. rewrite Ha. pose proof (past_record r g (q_scope r)) as Hp.
      rewrite decide_True in Hp by done. exact Hp.
    + intros Hn. destruct (g_allowed (gov_evaluate g r)); [|done]. exfalso. apply Hn. by apply Hiff.
Qed.

(** [evaluate] and [record] take the lock separately: two releases that interleave
    both pass a limit of one. *)
Example interleaved_releases :
  let p := mkGovPolicy (of_int 3600) (Some 1%Z) 1 true 0 None None None in
  let r := mkQuery (mkScope "a" "d" "s" "p") "SUM_V1" ∅ 10 AGGREGATE (of_int 100) in
  let g := new_governor (Some p) in
  g_allowed (gov_evaluate g r) = true ∧
  length (past (gov_record r (gov_record r g).2).2 (q_scope r)) = 2 ∧
  g_allowed (gov_evaluate (gov_step g r) r) = false.
Proof. split_and!; vm_compute; reflexivity. Qed.

(** Subsets that differ by one record: the second release is refused. *)
Example differencing_refused :
  let p := mkGovPolicy (of_int 3600) None 1 true 3 None None None in
  let q l t := mkQuery (mkScope "a" "d" "s" "p") "SUM_V1" (list_to_set l) 10 AGGREGATE (of_int t) in
  let g := gov_step (new_governor (Some p)) (q ["x"; "y"; "z"] 100%Z) in
  g_allowed (gov_evaluate g (q ["x"; "y"] 200%Z)) = false ∧
  g_allowed (gov_evaluate g (q ["x"; "y"; "z"] 200%Z)) = true ∧
  g_allowed (gov_evaluate g (q ["x"; "y"] 4000%Z)) = true.
Proof. split_and!; vm_compute; reflexivity. Qed.
