(* ===== verification/CAC.v ===== *)
(** Confidential computation, the declarations ([cvztte/cac]): permissions and their
    containment ceilings, the registries of contexts and programs, the envelopes, and
    the release gate. *)

From S2P Require Export Action Token.

(** * Permissions ([permissions.py], [guard.py]) *)

(** [CACPermission] *)
Inductive CACPermission : Set := READ_PLAINTEXT | COMPUTE_ON_CIPHERTEXT | DECRYPT_RESULT.
#[export] Instance CACPermission_eq_dec : EqDecision CACPermission.
Proof. solve_decision. Defined.
#[export] Instance CACPermission_countable : Countable CACPermission.
Proof.
  refine (inj_countable'
    (λ p, match p with READ_PLAINTEXT => 0 | COMPUTE_ON_CIPHERTEXT => 1 | DECRYPT_RESULT => 2 end)
    (λ n, match n with 0 => READ_PLAINTEXT | 1 => COMPUTE_ON_CIPHERTEXT | _ => DECRYPT_RESULT end) _).
  by intros [].
Defined.

Definition all_permissions : gset CACPermission :=
  {[READ_PLAINTEXT; COMPUTE_ON_CIPHERTEXT; DECRYPT_RESULT]}.

(** [REFERENCE_ROLE_GRANTS] *)
Definition REFERENCE_ROLE_GRANTS : list (string * gset CACPermission) :=
  [ ("data_owner", all_permissions); ("analytics_agent", {[COMPUTE_ON_CIPHERTEXT]});
    ("security_supervisor", {[DECRYPT_RESULT]}); ("unauthorized", ∅) ].

(** [ceiling_for], over [_CONTAINMENT_CEILING] *)
Definition ceiling_for (s : ContainmentState) : gset CACPermission :=
  match s with
  | NORMAL => all_permissions
  | SUSPICIOUS => {[COMPUTE_ON_CIPHERTEXT]}
  | RESTRICTED => {[COMPUTE_ON_CIPHERTEXT]}
  | QUARANTINED => ∅
  | TERMINATED => ∅
  end.

(** [effective_cac_permissions] *)
Definition effective_cac_permissions (granted : gset CACPermission) (s : ContainmentState)
    : gset CACPermission := granted ∩ ceiling_for s.

(** [require_compute], [require_decrypt], [require_read_plaintext] *)
Definition require_compute (granted : gset CACPermission) (s : ContainmentState) : res unit :=
  if decide (COMPUTE_ON_CIPHERTEXT ∉ effective_cac_permissions granted s) then
    err FHE_COMPUTE_DENIED "compute-on-ciphertext not permitted at current containment state"
  else Ok tt.
Definition require_decrypt (granted : gset CACPermission) (s : ContainmentState) : res unit :=
  if decide (DECRYPT_RESULT ∉ effective_cac_permissions granted s) then
    err FHE_DECRYPT_DENIED "decrypt-result not permitted at current containment state"
  else Ok tt.
Definition require_read_plaintext (granted : gset CACPermission) (s : ContainmentState) : res unit :=
  if decide (READ_PLAINTEXT ∉ effective_cac_permissions granted s) then
    err FHE_DECRYPT_DENIED "read-plaintext not permitted at current containment state"
  else Ok tt.

Ltac solve_require :=
  let Hd := fresh in let Hx := fresh in
  case_decide as Hd; [split; [done|intros Hx; destruct (Hd Hx)]|];
  split; [intros _; first [exact Hd|apply dec_stable; exact Hd]|done].

Lemma require_compute_ok granted s :
  require_compute granted s = Ok tt ↔ COMPUTE_ON_CIPHERTEXT ∈ effective_cac_permissions granted s.
Proof. unfold require_compute. solve_require. Qed.
Lemma require_decrypt_ok granted s :
  require_decrypt granted s = Ok tt ↔ DECRYPT_RESULT ∈ effective_cac_permissions granted s.
Proof. unfold require_decrypt. solve_require. Qed.
Lemma require_read_plaintext_ok granted s :
  require_read_plaintext granted s = Ok tt ↔ READ_PLAINTEXT ∈ effective_cac_permissions granted s.
Proof. unfold require_read_plaintext. solve_require. Qed.

(** Decryption and plaintext need a normal state. *)
Lemma decrypt_only_normal granted s :
  DECRYPT_RESULT ∈ effective_cac_permissions granted s ↔ DECRYPT_RESULT ∈ granted ∧ s = NORMAL.
Proof.
  unfold effective_cac_permissions. rewrite elem_of_intersection.
  destruct s; unfold ceiling_for, all_permissions; set_solver.
Qed.

(** * Contexts ([context.py]) *)

Inductive FHEScheme : Set := CKKS | BFV | BGV.
Definition FHEScheme_value (s : FHEScheme) : string :=
  match s with CKKS => "CKKS" | BFV => "BFV" | BGV => "BGV" end.
Inductive ContextStatus : Set := CTX_ACTIVE | CTX_RETIRED.
#[export] Instance ContextStatus_eq_dec : EqDecision ContextStatus.
Proof. solve_decision. Defined.
Inductive SecurityProfile : Set := SP_DEMO | SP_SECURE_LAB.
Definition SecurityProfile_value (p : SecurityProfile) : string :=
  match p with SP_DEMO => "demo" | SP_SECURE_LAB => "secure-lab" end.

(** [ThresholdConfig] *)
Record ThresholdConfig : Set := mkThreshold {
  th_enabled : bool;
  th_participants : Z;
  required_semantics : string
}.

(** [FHEContext] *)
Record FHEContext : Set := mkContext {
  context_id : string;
  ctx_scheme : FHEScheme;
  openfhe_version : string;
  security_profile : SecurityProfile;
  ring_dimension : Z;
  multiplicative_depth : Z;
  scaling_mod_size : Z;
  batch_size : Z;
  key_epoch : Z;
  threshold : ThresholdConfig;
  ctx_status : ContextStatus
}.

(** [FHEContextRegistry._by_id] *)
Notation FHEContextRegistry := (gmap string FHEContext).

Section contexts.
Context `{Hashlib, Rfc8785}.

(** [FHEContext.context_hash] *)
Definition context_hash (c : FHEContext) : res string :=
  commit D_FHE_CONTEXT (JObj
    [ ("context_id", JStr (context_id c)); ("scheme", JStr (FHEScheme_value (ctx_scheme c)));
      ("openfhe_version", JStr (openfhe_version c));
      ("security_profile", JStr (SecurityProfile_value (security_profile c)));
      ("ring_dimension", JInt (ring_dimension c));
      ("multiplicative_depth", JInt (multiplicative_depth c));
      ("scaling_mod_size", JInt (scaling_mod_size c)); ("batch_size", JInt (batch_size c));
      ("key_epoch", JInt (key_epoch c));
      ("threshold", JObj [ ("enabled", JBool (th_enabled (threshold c)));
                           ("participants", JInt (th_participants (threshold c)));
                           ("required_semantics", JStr (required_semantics (threshold c))) ]) ]).

(** [FHEContextRegistry.register] *)
Definition context_register (c : FHEContext) : M FHEContextRegistry string :=
  let! _ := cmodify (λ m, <[context_id c := c]> m) in
  clift (context_hash c).

(** [FHEContextRegistry.get] *)
Definition context_get (m : FHEContextRegistry) (id : string) : res FHEContext :=
  match m !! id with
  | Some c => Ok c
  | None => err FHE_CONTEXT_UNKNOWN "unknown FHE context"
  end.

(** [FHEContextRegistry.require_active] *)
Definition require_active (m : FHEContextRegistry) (id expected_hash : string) : res FHEContext :=
  let? c := context_get m id in
  if decide (ctx_status c ≠ CTX_ACTIVE) then err FHE_CONTEXT_UNAPPROVED "FHE context is not ACTIVE"
  else
    let? h := context_hash c in
    if decide (h ≠ expected_hash) then
      err FHE_CONTEXT_MISMATCH "FHE context hash mismatch (substitution)"
    else Ok c.

Lemma require_active_ok m id h c :
  require_active m id h = Ok c ↔ m !! id = Some c ∧ ctx_status c = CTX_ACTIVE ∧ context_hash c = Ok h.
Proof.
  unfold require_active, context_get. destruct (m !! id) as [c'|]; [|split; [done|by intros (? & _)]].
  cbn [rbind]. case_decide as Hs; [split; [done|intros ([= ->] & ? & _); done]|].
  destruct (context_hash c') as [h'|] eqn:Hh; cbn [rbind].
  - case_decide as Hd; [split; [done|intros ([= ->] & _ & ?); congruence]|]. subst h'.
    split; [intros [= ->]; by split_and!|by intros ([= ->] & _)].
  - split; [done|]. intros ([= ->] & _ & ?). congruence.
Qed.
End contexts.

(** * Programs ([program.py]) *)

Inductive ProgramId : Set := SUM_V1 | AVERAGE_V1 | WEIGHTED_SCORE_V1.
Definition ProgramId_value (p : ProgramId) : string :=
  match p with
  | SUM_V1 => "SUM_V1" | AVERAGE_V1 => "AVERAGE_V1" | WEIGHTED_SCORE_V1 => "WEIGHTED_SCORE_V1"
  end.
#[export] Instance ProgramId_eq_dec : EqDecision ProgramId.
Proof. solve_decision. Defined.

(** [FHEProgram] *)
Record FHEProgram : Set := mkProgram {
  program_id : ProgramId;
  pr_version : string;
  pr_scheme : FHEScheme;
  pr_depth : Z;
  input_arity : Z;
  input_schema : string;
  implementation_hash : string;
  leakage_notes : string;
  policy_classification : string;
  requires_weights : bool;
  requires_count : bool
}.

(** [default_programs] *)
Definition default_programs : list FHEProgram :=
  [ mkProgram SUM_V1 "1" CKKS 0 1 "vector<double>[batch]" "op:evalsum"
      "reveals only the aggregate sum on decrypt" "aggregate" false false;
    mkProgram AVERAGE_V1 "1" CKKS 1 1 "vector<double>[batch]" "op:evalsum;evalmult(scalar)"
      "reveals only the mean on decrypt; min group size enforced by query governance" "aggregate"
      false true;
    mkProgram WEIGHTED_SCORE_V1 "1" CKKS 1 1 "vector<double>[batch] * weights[batch]"
      "op:evalmult(ptxt);evalsum" "reveals only the weighted aggregate on decrypt" "aggregate"
      true false ].

(** [FHEProgramRegistry._by_id]; its order is never read. *)
Notation FHEProgramRegistry := (odict ProgramId FHEProgram).

(** [FHEProgramRegistry.__init__] *)
Definition new_program_registry (programs : option (list FHEProgram)) : FHEProgramRegistry :=
  foldl (λ d p, dset (program_id p) p d) [] (default default_programs programs).

Section programs.
Context `{Hashlib, Rfc8785}.

(** [FHEProgram.program_hash] *)
Definition program_hash (p : FHEProgram) : res string :=
  commit D_FHE_PROGRAM (JObj
    [ ("program_id", JStr (ProgramId_value (program_id p))); ("version", JStr (pr_version p));
      ("scheme", JStr (FHEScheme_value (pr_scheme p))); ("depth", JInt (pr_depth p));
      ("input_arity", JInt (input_arity p)); ("input_schema", JStr (input_schema p));
      ("implementation_hash", JStr (implementation_hash p));
      ("policy_classification", JStr (policy_classification p)) ]).

(** [FHEProgramRegistry.register] *)
Definition program_register (p : FHEProgram) : M FHEProgramRegistry string :=
  let! _ := cmodify (dset (program_id p) p) in
  clift (program_hash p).
End programs.

(** [FHEProgramRegistry.get] *)
Definition program_get (d : FHEProgramRegistry) (id : ProgramId) : res FHEProgram :=
  match dget id d with
  | Some p => Ok p
  | None => err FHE_PROGRAM_UNKNOWN "program not allowlisted"
  end.

(** [FHEProgramRegistry.require] *)
Definition program_require (d : FHEProgramRegistry) (id : ProgramId) (context_depth : Z)
    : res FHEProgram :=
  let? p := program_get d id in
  if decide (context_depth < pr_depth p)%Z then
    err FHE_PROGRAM_DENIED "program depth exceeds context multiplicative depth"
  else Ok p.

Lemma program_require_ok d id depth p :
  program_require d id depth = Ok p ↔ dget id d = Some p ∧ (pr_depth p ≤ depth)%Z.
Proof.
  unfold program_require, program_get. destruct (dget id d) as [p'|]; [|split; [done|by intros (? & _)]].
  cbn [rbind]. case_decide.
  - split; [done|]. intros ([= ->] & ?). lia.
  - split; [intros [= ->]; split; [done|lia]|by intros ([= ->] & _)].
Qed.

(** * Envelopes ([envelope.py]) *)

(** [CiphertextEnvelope] *)
Record CiphertextEnvelope : Set := mkCtEnv {
  ce_dataset_id : string;
  ce_ciphertext_id : string;
  ce_context_id : string;
  ce_context_hash : string;
  ce_key_epoch : Z;
  ce_schema : string;
  ce_classification : DataClassification;
  ce_owner : string;
  ce_ciphertext_hash : string;
  ce_created_at : string;
  allowed_programs : list string;
  allowed_program_set_hash : string
}.

(** [ResultEnvelope] *)
Record ResultEnvelope : Set := mkResEnv {
  re_dataset_id : string;
  re_ciphertext_id : string;
  re_context_id : string;
  re_context_hash : string;
  re_key_epoch : Z;
  re_schema : string;
  re_classification : DataClassification;
  re_owner : string;
  re_ciphertext_hash : string;
  re_created_at : string;
  re_allowed_program_set_hash : string;
  parent_ciphertext_ids : list string;
  re_program_id : string;
  re_program_version : string;
  result_ciphertext_hash : string;
  re_lineage_id : string
}.

(** [model_dump(mode="json", by_alias=True)] of the two envelopes. *)
Definition ciphertext_envelope_json (e : CiphertextEnvelope) : json :=
  JObj [ ("dataset_id", JStr (ce_dataset_id e)); ("ciphertext_id", JStr (ce_ciphertext_id e));
         ("context_id", JStr (ce_context_id e)); ("context_hash", JStr (ce_context_hash e));
         ("key_epoch", JInt (ce_key_epoch e)); ("schema", JStr (ce_schema e));
         ("classification", JStr (DataClassification_value (ce_classification e)));
         ("owner", JStr (ce_owner e)); ("ciphertext_hash", JStr (ce_ciphertext_hash e));
         ("created_at", JStr (ce_created_at e));
         ("allowed_programs", JArr (JStr <$> allowed_programs e));
         ("allowed_program_set_hash", JStr (allowed_program_set_hash e)) ].
Definition result_envelope_json (e : ResultEnvelope) : json :=
  JObj [ ("dataset_id", JStr (re_dataset_id e)); ("ciphertext_id", JStr (re_ciphertext_id e));
         ("context_id", JStr (re_context_id e)); ("context_hash", JStr (re_context_hash e));
         ("key_epoch", JInt (re_key_epoch e)); ("schema", JStr (re_schema e));
         ("classification", JStr (DataClassification_value (re_classification e)));
         ("owner", JStr (re_owner e)); ("ciphertext_hash", JStr (re_ciphertext_hash e));
         ("created_at", JStr (re_created_at e));
         ("allowed_program_set_hash", JStr (re_allowed_program_set_hash e));
         ("parent_ciphertext_ids", JArr (JStr <$> parent_ciphertext_ids e));
         ("program_id", JStr (re_program_id e)); ("program_version", JStr (re_program_version e));
         ("result_ciphertext_hash", JStr (result_ciphertext_hash e));
         ("lineage_id", JStr (re_lineage_id e)) ].

Section envelopes.
Context `{Hashlib, Rfc8785}.

(** [CiphertextEnvelope.envelope_hash], [ResultEnvelope.envelope_hash] *)
Definition ciphertext_envelope_hash (e : CiphertextEnvelope) : res string :=
  commit D_FHE_CIPHERTEXT (ciphertext_envelope_json e).
Definition result_envelope_hash (e : ResultEnvelope) : res string :=
  commit D_FHE_RESULT (result_envelope_json e).
End envelopes.

(** [CiphertextEnvelope.allows_program] *)
Definition allows_program (e : CiphertextEnvelope) (p : string) : bool :=
  bool_decide (p ∈ allowed_programs e).

(** [assert_no_substitution] *)
Definition assert_no_substitution (e : CiphertextEnvelope) (id hash : string) (epoch : Z) : res unit :=
  if decide (ce_context_id e ≠ id) then
    err FHE_CONTEXT_MISMATCH "ciphertext bound to a different context"
  else if decide (ce_context_hash e ≠ hash) then
    err FHE_CONTEXT_MISMATCH "ciphertext context hash mismatch"
  else if decide (ce_key_epoch e ≠ epoch) then
    err FHE_KEY_EPOCH_MISMATCH "ciphertext key epoch mismatch"
  else Ok tt.

(** * The release gate ([threshold/release.py]) *)

(** [DecryptReleaseRequest] *)
Record DecryptReleaseRequest : Type := mkRelease {
  rl_recipient : string;
  rl_purpose : string;
  rl_classification : DataClassification;
  rl_granted : gset CACPermission;
  rl_containment_state : ContainmentState;
  result_ciphertext_bytes : string;
  expected_result_hash : string;
  rl_approval_granted : bool;
  rl_approval_id : option string
}.

(** [_APPROVAL_REQUIRED_CLASSES] *)
Definition approval_required_class (c : DataClassification) : bool :=
  match c with CONFIDENTIAL | SECRET => true | _ => false end.

Section release.
Context `{Hashlib}.

(** [ThresholdReleasePolicy.authorize] *)
Definition release_authorize (r : DecryptReleaseRequest) : res unit :=
  let? _ := require_decrypt (rl_granted r) (rl_containment_state r) in
  if decide (domain_hash_hex D_FHE_RESULT (result_ciphertext_bytes r) ≠ expected_result_hash r) then
    err FHE_RESULT_RELEASE_DENIED "result ciphertext does not match authorized envelope"
  else if approval_required_class (rl_classification r) && negb (rl_approval_granted r) then
    err APPROVAL_REQUIRED "human approval required to release plaintext at this classification"
  else Ok tt.

Lemma release_authorize_ok r :
  release_authorize r = Ok tt ↔
  DECRYPT_RESULT ∈ rl_granted r ∧ rl_containment_state r = NORMAL ∧
  domain_hash_hex D_FHE_RESULT (result_ciphertext_bytes r) = expected_result_hash r ∧
  (approval_required_class (rl_classification r) = true → rl_approval_granted r = true).
Proof.
  unfold release_authorize.
  destruct (require_decrypt (rl_granted r) (rl_containment_state r)) as [[]|x] eqn:Hd; cbn [rbind].
  - apply require_decrypt_ok, decrypt_only_normal in Hd as [Hg Hs].
    case_decide as Hh; [split; [done|]; intros (_ & _ & ? & _); done|].
    destruct (approval_required_class _), (rl_approval_granted r); simpl; naive_solver.
  - split; [done|]. intros (Hg & Hs & _).
    assert (require_decrypt (rl_granted r) (rl_containment_state r) = Ok tt); [|congruence].
    by apply require_decrypt_ok, decrypt_only_normal.
Qed.

(** Only the last check asks for approval. *)
Lemma release_approval_required r :
  res_code (release_authorize r) = Some APPROVAL_REQUIRED ↔
  DECRYPT_RESULT ∈ rl_granted r ∧ rl_containment_state r = NORMAL ∧
  domain_hash_hex D_FHE_RESULT (result_ciphertext_bytes r) = expected_result_hash r ∧
  approval_required_class (rl_classification r) = true ∧ rl_approval_granted r = false.
Proof.
  unfold release_authorize.
  destruct (require_decrypt (rl_granted r) (rl_containment_state r)) as [[]|x] eqn:Hd; cbn [rbind].
  - apply require_decrypt_ok, decrypt_only_normal in Hd as [Hg Hs].
    case_decide as Hh; [split; [done|]; intros (_ & _ & ? & _); done|].
    destruct (approval_required_class _), (rl_approval_granted r); simpl; naive_solver.
  - split.
    + intros Hx. unfold require_decrypt in Hd. case_decide; [|done]. injection Hd as <-. done.
    + intros (Hg & Hs & _).
      assert (require_decrypt (rl_granted r) (rl_containment_state r) = Ok tt); [|congruence].
      by apply require_decrypt_ok, decrypt_only_normal.
Qed.
End release.
