(* ===== verification/CACBroker.v ===== *)
(** The client of the native FHE broker ([cvztte/cac/broker.py],
    [cac/subprocess_util.py]).  The native executable and the files it reads and
    writes are an interface: what one run answers, and the files it leaves. *)

From S2P Require Export CAC PyFloat PyJson PyTime.
From S2P Require Import Concrete.
From stdpp Require Import pretty.

(** What a run of the executable ends in; the output is [None] when it is not JSON. *)
Inductive native_outcome : Type :=
| NTimeout
| NExited (code : Z) (output : option json).

(** The workspace: the bytes at each path. *)
Notation Files := (gmap string string).

Class FHENative := {
  native_built : bool;
  native_run : list string → Files → native_outcome * Files
}.

(** [float(s)] of a string. *)
Class FloatOfStr := { float_of_str : string → option spec_float }.

(** [FHEBrokerClient.__init__]: the workspace root and the bound on ciphertext sizes
    ([None] without resource limits). *)
Record FHEConfig : Set := mkFHEConfig { workspace_root : string; max_ciphertext_bytes : option Z }.

(** [FHEBrokerClient]: the registries it shares and the workspace. *)
Record FHEBrokerClient : Type := mkClient {
  fc_contexts : FHEContextRegistry;
  fc_programs : FHEProgramRegistry;
  fc_files : Files
}.
Definition set_files (f : Files) (s : FHEBrokerClient) : FHEBrokerClient :=
  mkClient (fc_contexts s) (fc_programs s) f.

(** [base / child] of [pathlib], for segments that are not empty or a dot. *)
Definition path_div (base child : string) : string :=
  if str_startswith child "/" then child else base +:+ "/" +:+ child.

(** [default_binary_path], of the two variables and the working directory *)
Definition default_binary_path (env root : option string) (cwd : string) : string :=
  match env with
  | Some b => if decide (b = "") then path_div (default cwd root) "services/fhe-broker/build/fhe_broker" else b
  | None => path_div (default cwd root) "services/fhe-broker/build/fhe_broker"
  end.

(** Distinct names in a directory are distinct paths. *)
Lemma path_div_ne dir a b :
  str_startswith a "/" = false → str_startswith b "/" = false → a ≠ b → path_div dir a ≠ path_div dir b.
Proof. unfold path_div. intros -> -> Hne E. apply Hne. by apply (inj (String.append dir)), (inj (String.append "/")) in E. Qed.

(** [out.get(key)] on what [json.loads] returned. *)
Definition json_get (key : string) (v : json) : res json :=
  match v with
  | JObj kvs => Ok (default JNull (dget key kvs))
  | _ => Err (PyExc "AttributeError" "get")
  end.

Section client.
Context `{Hashlib, Rfc8785, FloatRepr, FHENative, FloatOfStr}.
Variable cfg : FHEConfig.

(** [FHEBrokerClient._run], the same as [run_broker_json] *)
Definition fhe_run (args : list string) : M FHEBrokerClient json :=
  if negb native_built then raise SECURITY_DEPENDENCY_UNAVAILABLE "FHE broker binary not built"
  else λ s,
    let '(o, f) := native_run args (fc_files s) in
    (match o with
     | NTimeout => err FHE_COMPUTE_TIMEOUT "FHE broker timed out"
     | NExited code out =>
         if decide (code ≠ 0%Z) then err FHE_COMPUTE_FAILED "FHE broker failed"
         else match out with
              | Some v => Ok v
              | None => err FHE_COMPUTE_FAILED "unparseable broker output"
              end
     end, set_files f s).

(** [FHEBrokerClient._context_dir], [_ct_path] *)
Definition context_dir (context_id : string) : string :=
  path_div (path_div (workspace_root cfg) "contexts") context_id.
Definition ct_path (context_id ct_id : string) : string :=
  path_div (path_div (path_div (workspace_root cfg) "ciphertexts") context_id) (ct_id +:+ ".bin").

(** [path.read_bytes()] *)
Definition read_bytes (f : Files) (path : string) : res string :=
  match f !! path with
  | Some b => Ok b
  | None => Err (PyExc "FileNotFoundError" path)
  end.

(** [FHEBrokerClient._hash_file] *)
Definition hash_file (f : Files) (path : string) (d : Domain) : res string :=
  let? b := read_bytes f path in Ok (domain_hash_hex d b).

(** [FHEBrokerClient._enforce_ciphertext_size] *)
Definition enforce_ciphertext_size (path : string) (output : bool) : M FHEBrokerClient unit :=
  let limit := default 0%Z (max_ciphertext_bytes cfg) in
  if decide (limit ≤ 0)%Z then cret tt
  else
    let! s := cget in
    let! b := clift (read_bytes (fc_files s) path) in
    if decide (limit < Z.of_nat (String.length b))%Z then
      let! _ := (if output then cput (set_files (delete path (fc_files s)) s) else cret tt) in
      raise FHE_CIPHERTEXT_TOO_LARGE "ciphertext exceeds the deployment resource bound"
    else cret tt.

(** [FHEBrokerClient.provision_context] *)
Definition provision_context (c : FHEContext) : M FHEBrokerClient json :=
  let! _ := czoom fc_contexts (λ m s, mkClient m (fc_programs s) (fc_files s)) (context_register c) in
  let cdir := context_dir (context_id c) in
  let! out := fhe_run ["gen-context"; cdir; pretty (multiplicative_depth c);
    pretty (scaling_mod_size c); pretty (batch_size c); pretty (ring_dimension c)] in
  let! h := clift (context_hash c) in
  let! dim := clift (json_get "ring_dimension" out) in
  let! s := cget in
  let! art := clift (hash_file (fc_files s) (path_div cdir "context.bin") D_FHE_CONTEXT) in
  cret (JObj [ ("context_id", JStr (context_id c)); ("context_hash", JStr h);
               ("ring_dimension", dim); ("context_artifact_hash", JStr art) ]).

Definition float_args (l : list spec_float) : string := String.concat "," (float_repr <$> l).

(** [FHEBrokerClient.encrypt]; [uuid] is the draw for the ciphertext. *)
Definition client_encrypt (ctx_id expected_hash : string) (values : list spec_float)
    (dataset_id owner : string) (classification : DataClassification)
    (allowed : list ProgramId) (schema : string) (clock : Z) (uuid : string)
    : M FHEBrokerClient (string * CiphertextEnvelope) :=
  let! s := cget in
  let! ctx := clift (require_active (fc_contexts s) ctx_id expected_hash) in
  let ct_id := "ct_" +:+ uuid in
  let path := ct_path ctx_id ct_id in
  let! _ := fhe_run ["encrypt"; context_dir ctx_id; path; float_args values] in
  let! _ := enforce_ciphertext_size path true in
  let allowed := sorted_strings (remove_dups (ProgramId_value <$> allowed)) in
  let! ch := clift (context_hash ctx) in
  let! s := cget in
  let! h := clift (hash_file (fc_files s) path D_FHE_CIPHERTEXT) in
  let! ah := clift (commit D_FHE_PROGRAM (JArr (JStr <$> allowed))) in
  cret (path, mkCtEnv dataset_id ct_id ctx_id ch (key_epoch ctx) schema classification owner h
                (iso_ms clock) allowed ah).

(** The body of the loop of [_verify_inputs]. *)
Definition verify_input (prog : FHEProgram) (ctx : FHEContext) (input : string * CiphertextEnvelope)
    : M FHEBrokerClient unit :=
  let '(path, env) := input in
  let! _ := enforce_ciphertext_size path false in
  let! _ := (if decide (ce_context_id env ≠ context_id ctx) then
               raise FHE_CONTEXT_MISMATCH "input ciphertext context mismatch"
             else
               let! h := clift (context_hash ctx) in
               if decide (ce_context_hash env ≠ h) then
                 raise FHE_CONTEXT_MISMATCH "input ciphertext context mismatch"
               else cret tt) in
  if decide (ce_key_epoch env ≠ key_epoch ctx) then
    raise FHE_KEY_EPOCH_MISMATCH "input ciphertext key epoch mismatch"
  else
  let! s := cget in
  let! actual := clift (hash_file (fc_files s) path D_FHE_CIPHERTEXT) in
  if decide (actual ≠ ce_ciphertext_hash env) then
    raise FHE_CIPHERTEXT_INVALID "ciphertext bytes do not match envelope"
  else
  let! ah := clift (commit D_FHE_PROGRAM (JArr (JStr <$> sorted_strings (allowed_programs env)))) in
  if decide (ah ≠ allowed_program_set_hash env) then
    raise FHE_CIPHERTEXT_INVALID "allowed-program set hash mismatch"
  else if negb (allows_program env (ProgramId_value (program_id prog))) then
    raise FHE_PROGRAM_DENIED "program not in ciphertext allowed set"
  else cret tt.

Fixpoint verify_each (prog : FHEProgram) (ctx : FHEContext) (inputs : list (string * CiphertextEnvelope))
    : M FHEBrokerClient unit :=
  match inputs with
  | [] => cret tt
  | i :: inputs => let! _ := verify_input prog ctx i in verify_each prog ctx inputs
  end.

(** [FHEBrokerClient._verify_inputs] *)
Definition verify_inputs (prog : FHEProgram) (ctx : FHEContext)
    (inputs : list (string * CiphertextEnvelope)) : M FHEBrokerClient unit :=
  if decide (Z.of_nat (length inputs) ≠ input_arity prog) then
    raise FHE_PROGRAM_DENIED "program input arity mismatch"
  else verify_each prog ctx inputs.

(** The weight and count arguments of [evaluate]. *)
Definition program_args (prog : FHEProgram) (weights : option (list spec_float)) (count : option Z)
    : res (list string) :=
  let? w := (if requires_weights prog then
               match weights with
               | Some (w :: ws) => Ok ["--weights"; float_args (w :: ws)]
               | _ => err FHE_PROGRAM_DENIED "program requires weights"
               end
             else Ok []) in
  let? c := (if requires_count prog then
               match count with
               | Some n => if decide (n = 0%Z) then err FHE_PROGRAM_DENIED "program requires count"
                           else Ok ["--count"; pretty n]
               | None => err FHE_PROGRAM_DENIED "program requires count"
               end
             else Ok []) in
  Ok (w ++ c).

(** [FHEBrokerClient.evaluate]; [uuid] and [lineage] are its two draws. *)
Definition client_evaluate (ctx_id expected_hash : string) (prog_id : ProgramId)
    (inputs : list (string * CiphertextEnvelope)) (weights : option (list spec_float))
    (count : option Z) (clock : Z) (uuid lineage : string)
    : M FHEBrokerClient (string * ResultEnvelope) :=
  let! s := cget in
  let! ctx := clift (require_active (fc_contexts s) ctx_id expected_hash) in
  let! prog := clift (program_require (fc_programs s) prog_id (multiplicative_depth ctx)) in
  let! _ := verify_inputs prog ctx inputs in
  let out_id := "res_" +:+ uuid in
  let out_path := ct_path ctx_id out_id in
  let! extra := clift (program_args prog weights count) in
  let! _ := fhe_run (["evaluate"; context_dir ctx_id; ProgramId_value prog_id; out_path]
                     ++ inputs.*1 ++ extra) in
  let! _ := enforce_ciphertext_size out_path true in
  match inputs with
  | [] => cthrow (PyExc "IndexError" "list index out of range")
  | (_, first) :: _ =>
      let! ch := clift (context_hash ctx) in
      let! s := cget in
      let! h := clift (hash_file (fc_files s) out_path D_FHE_CIPHERTEXT) in
      let! rh := clift (hash_file (fc_files s) out_path D_FHE_RESULT) in
      cret (out_path,
        mkResEnv (ce_dataset_id first) out_id ctx_id ch (key_epoch ctx) "vector<double>[batch]"
          (ce_classification first) (ce_owner first) h (iso_ms clock)
          (allowed_program_set_hash first) (ce_ciphertext_id <$> inputs.*2)
          (ProgramId_value (program_id prog)) (pr_version prog) rh ("lin_" +:+ lineage))
  end.

(** [float(v)] *)
Definition py_float (v : json) : res spec_float :=
  match v with
  | JFloat f => Ok f
  | JInt z =>
      match of_int z with
      | S754_infinity _ => Err (PyExc "OverflowError" "int too large to convert to float")
      | f => Ok f
      end
  | JBool b => Ok (of_int (if b then 1 else 0))
  | JStr s => match float_of_str s with
              | Some f => Ok f
              | None => Err (PyExc "ValueError" "could not convert string to float")
              end
  | _ => Err (PyExc "TypeError" "float")
  end.

Fixpoint py_floats (l : list json) : res (list spec_float) :=
  match l with
  | [] => Ok []
  | v :: l => let? f := py_float v in let? fs := py_floats l in Ok (f :: fs)
  end.

(** [FHEBrokerClient.decrypt] *)
Definition client_decrypt (ctx_id path : string) (len : Z) : M FHEBrokerClient (list spec_float) :=
  let! out := fhe_run ["decrypt"; context_dir ctx_id; path; pretty len] in
  let! vals := clift (json_get "values" out) in
  match vals with
  | JArr l => clift (py_floats l)
  | _ => raise FHE_COMPUTE_FAILED "decrypt returned no values"
  end.

(** * What was checked *)

(** A ciphertext that may feed [prog] in [ctx]. *)
Record input_ok (f : Files) (prog : FHEProgram) (ctx : FHEContext)
    (i : string * CiphertextEnvelope) : Prop := {
  io_context : ce_context_id i.2 = context_id ctx ∧ context_hash ctx = Ok (ce_context_hash i.2);
  io_epoch : ce_key_epoch i.2 = key_epoch ctx;
  io_bytes : ∃ b, f !! i.1 = Some b ∧ domain_hash_hex D_FHE_CIPHERTEXT b = ce_ciphertext_hash i.2 ∧
    ∀ m, max_ciphertext_bytes cfg = Some m → (0 < m)%Z → (Z.of_nat (String.length b) ≤ m)%Z;
  io_set : commit D_FHE_PROGRAM (JArr (JStr <$> sorted_strings (allowed_programs i.2)))
           = Ok (allowed_program_set_hash i.2);
  io_program : ProgramId_value (program_id prog) ∈ allowed_programs i.2
}.

Lemma enforce_ok path out s r s' :
  enforce_ciphertext_size path out s = (r, s') →
  (out = false → s' = s) ∧
  (r = Ok tt → s' = s ∧ ∀ m b, max_ciphertext_bytes cfg = Some m → (0 < m)%Z → fc_files s !! path = Some b →
     (Z.of_nat (String.length b) ≤ m)%Z).
Proof.
  unfold enforce_ciphertext_size. case_decide as Hl.
  - intros [= <- <-]. split; [done|]. intros _. split; [done|].
    intros m b Hm Hp _. rewrite Hm in Hl. simpl in Hl. lia.
  - unfold cbind, cget, clift, read_bytes, cret, cput, raise, cthrow.
    destruct (fc_files s !! path) as [b|] eqn:Hb; [|intros [= <- <-]; done].
    case_decide as Hs.
    + destruct out; intros [= <- <-]; done.
    + intros [= <- <-]. split; [done|]. intros _. split; [done|].
      intros m b' Hm _ [= <-]. rewrite Hm in Hs. simpl in Hs. lia.
Qed.

Lemma verify_input_ok prog ctx i s r s' :
  verify_input prog ctx i s = (r, s') → s' = s ∧ (r = Ok tt → input_ok (fc_files s) prog ctx i).
Proof.
  destruct i as [path env]. unfold verify_input. unfold cbind at 1.
  destruct (enforce_ciphertext_size path false s) as [[[]|x] s1] eqn:He;
    apply enforce_ok in He as [Hs He]; specialize (Hs eq_refl); subst s1; [|by intros [= <- <-]].
  destruct (He eq_refl) as [_ Hsize]. unfold cbind at 1.
  case_decide as Hc; [by intros [= <- <-]|]. unfold cbind at 1, clift at 1.
  destruct (context_hash ctx) as [h|x] eqn:Hh; [|by intros [= <- <-]].
  case_decide as Hhd; [by intros [= <- <-]|]. unfold cret at 1.
  case_decide as Hep; [by intros [= <- <-]|].
  unfold cbind at 1, cget at 1. unfold cbind at 1, clift at 1, hash_file, read_bytes.
  destruct (fc_files s !! path) as [b|] eqn:Hb; cbn [rbind]; [|by intros [= <- <-]].
  case_decide as Hbd; [by intros [= <- <-]|]. unfold cbind at 1, clift at 1.
  destruct (commit D_FHE_PROGRAM _) as [ah|x] eqn:Hah; [|by intros [= <- <-]].
  case_decide as Had; [by intros [= <- <-]|].
  destruct (allows_program env _) eqn:Hal; intros [= <- <-]; [|done].
  split; [done|]. intros _. apply bool_decide_eq_true in Hal.
  constructor; simpl; try done.
  - split; [done|]. congruence.
  - exists b. split_and!; [done|done|]. intros m Hm Hp. by eapply Hsize.
  - congruence.
Qed.

Lemma verify_inputs_ok prog ctx inputs s r s' :
  verify_inputs prog ctx inputs s = (r, s') →
  s' = s ∧ (r = Ok tt → Z.of_nat (length inputs) = input_arity prog ∧
                        Forall (input_ok (fc_files s) prog ctx) inputs).
Proof.
  unfold verify_inputs. case_decide as Hl; [by intros [= <- <-]|]. intros Hv.
  assert (He : s' = s ∧ (r = Ok tt → Forall (input_ok (fc_files s) prog ctx) inputs)); [|naive_solver].
  clear Hl. revert s r s' Hv. induction inputs as [|i inputs IH]; intros s r s'; cbn [verify_each].
  - intros [= <- <-]. split; [done|]. constructor.
  - unfold cbind. destruct (verify_input prog ctx i s) as [[[]|x] s1] eqn:Hi;
      apply verify_input_ok in Hi as [-> Hi]; [|by intros [= <- <-]].
    intros Hv. destruct (IH _ _ _ Hv) as [-> Hall]. split; [done|]. intros Hr.
    constructor; auto.
Qed.

Lemma fhe_run_frame args s r s' :
  fhe_run args s = (r, s') → fc_contexts s' = fc_contexts s ∧ fc_programs s' = fc_programs s.
Proof.
  unfold fhe_run. destruct native_built; simpl; [|by intros [= <- <-]].
  destruct (native_run args (fc_files s)). by intros [= <- <-].
Qed.

Lemma enforce_frame path out s r s' :
  enforce_ciphertext_size path out s = (r, s') →
  fc_contexts s' = fc_contexts s ∧ fc_programs s' = fc_programs s.
Proof.
  unfold enforce_ciphertext_size. case_decide; [by intros [= <- <-]|].
  unfold cbind, cget, clift, cret, cput, raise, cthrow.
  destruct (read_bytes (fc_files s) path); [|by intros [= <- <-]].
  case_decide; [|by intros [= <- <-]]. destruct out; by intros [= <- <-].
Qed.

(** The envelope of a result describes the bytes that were written. *)
Record result_ok (f : Files) (prog : FHEProgram) (ctx : FHEContext)
    (inputs : list (string * CiphertextEnvelope)) (path : string) (env : ResultEnvelope) : Prop := {
  ro_bytes : ∃ b, f !! path = Some b ∧ re_ciphertext_hash env = domain_hash_hex D_FHE_CIPHERTEXT b ∧
    result_ciphertext_hash env = domain_hash_hex D_FHE_RESULT b ∧
    ∀ m, max_ciphertext_bytes cfg = Some m → (0 < m)%Z → (Z.of_nat (String.length b) ≤ m)%Z;
  ro_context : context_hash ctx = Ok (re_context_hash env) ∧ re_key_epoch env = key_epoch ctx;
  ro_program : re_program_id env = ProgramId_value (program_id prog) ∧
    re_program_version env = pr_version prog;
  ro_parents : parent_ciphertext_ids env = ce_ciphertext_id <$> inputs.*2;
  ro_class : ∃ first, head inputs.*2 = Some first ∧ re_classification env = ce_classification first ∧
    re_owner env = ce_owner first ∧ re_dataset_id env = ce_dataset_id first
}.

Lemma client_evaluate_cases cid eh pid inputs w c clock u1 u2 s r s' :
  client_evaluate cid eh pid inputs w c clock u1 u2 s = (r, s') →
  (∃ x, r = Err x ∧ s' = s) ∨
  ∃ ctx prog, require_active (fc_contexts s) cid eh = Ok ctx ∧
    program_require (fc_programs s) pid (multiplicative_depth ctx) = Ok prog ∧
    Z.of_nat (length inputs) = input_arity prog ∧ Forall (input_ok (fc_files s) prog ctx) inputs ∧
    fc_contexts s' = fc_contexts s ∧ fc_programs s' = fc_programs s ∧
    ∀ p env, r = Ok (p, env) → result_ok (fc_files s') prog ctx inputs p env.
Proof.
  unfold client_evaluate. unfold cbind at 1, cget at 1. unfold cbind at 1, clift at 1.
  destruct (require_active _ _ _) as [ctx|x] eqn:Hctx; [|intros [= <- <-]; left; eauto].
  unfold cbind at 1, clift at 1.
  destruct (program_require _ _ _) as [prog|x] eqn:Hprog; [|intros [= <- <-]; left; eauto].
  unfold cbind at 1. destruct (verify_inputs prog ctx inputs s) as [[[]|x] s1] eqn:Hv;
    apply verify_inputs_ok in Hv as [-> Hv]; [|intros [= <- <-]; left; eauto].
  destruct (Hv eq_refl) as [Har Hall]. unfold cbind at 1, clift at 1.
  destruct (program_args prog w c) as [extra|x]; [|intros [= <- <-]; left; eauto].
  intros Hrun. right. exists ctx, prog. do 4 (split; [done|]).
  unfold cbind at 1 in Hrun. destruct (fhe_run _ s) as [[out|x] s2] eqn:Hr;
    apply fhe_run_frame in Hr as [Hc2 Hp2]; [|injection Hrun as <- <-; by split_and!].
  unfold cbind at 1 in Hrun. destruct (enforce_ciphertext_size _ true s2) as [[[]|x] s3] eqn:He;
    pose proof (enforce_frame _ _ _ _ _ He) as [Hc3 Hp3];
    [|injection Hrun as <- <-; split_and!; congruence || done].
  apply enforce_ok in He as [_ He]. destruct (He eq_refl) as [-> Hsize].
  destruct inputs as [|[p0 first] inputs]; [injection Hrun as <- <-; by split_and!|].
  unfold cbind at 1, clift at 1 in Hrun.
  destruct (context_hash ctx) as [ch|x] eqn:Hch; [|injection Hrun as <- <-; by split_and!].
  unfold cbind at 1, cget at 1 in Hrun. unfold cbind at 1, clift at 1, hash_file, read_bytes in Hrun.
  destruct (fc_files s2 !! ct_path cid _) as [b|] eqn:Hb; cbn [rbind] in Hrun;
    [|injection Hrun as <- <-; by split_and!].
  unfold cbind, clift, cret in Hrun. cbn [rbind] in Hrun.
  injection Hrun as <- <-. split_and!; [done|done|]. intros p env [= <- <-].
  constructor; simpl; try done; try congruence.
  - exists b. split_and!; [done|done|done|]. intros m Hm Hpos. by eapply Hsize.
  - by exists first.
Qed.

(** C26. Computation runs on authentic inputs only.  If [evaluate] returns, or if it
    changes a single file, then the context is registered, active and the one whose
    hash was authorized, the program is allowlisted and fits its depth, and every input
    is a ciphertext of that context and key epoch whose bytes hash to its envelope, in
    size, whose set of allowed programs is intact and contains this program.  What it
    returns describes the very bytes the executable wrote, with their parents. *)
Theorem compute_inputs_authentic cid eh pid inputs w c clock u1 u2 s r s' :
  client_evaluate cid eh pid inputs w c clock u1 u2 s = (r, s') →
  is_ok r = true ∨ fc_files s' ≠ fc_files s →
  ∃ ctx prog, fc_contexts s !! cid = Some ctx ∧ ctx_status ctx = CTX_ACTIVE ∧ context_hash ctx = Ok eh ∧
    dget pid (fc_programs s) = Some prog ∧ (pr_depth prog ≤ multiplicative_depth ctx)%Z ∧
    Z.of_nat (length inputs) = input_arity prog ∧ Forall (input_ok (fc_files s) prog ctx) inputs ∧
    ∀ p env, r = Ok (p, env) → result_ok (fc_files s') prog ctx inputs p env.
Proof.
  intros He Hr. apply client_evaluate_cases in He as [(x & -> & ->)|(ctx & prog & Hc & Hp & Ha & Hi & _ & _ & Hout)].
  { by destruct Hr. }
  apply require_active_ok in Hc as (Hc & Hs & Hh). apply program_require_ok in Hp as [Hp Hd].
  by exists ctx, prog.
Qed.
End client.

(** Two contents accepted for one envelope are the same, or SHA-256 collides. *)
Lemma input_bytes_unique `{Hashlib, Rfc8785} cfg f f' prog prog' ctx ctx' i i' b b' :
  input_ok cfg f prog ctx i → input_ok cfg f' prog' ctx' i' → i.2 = i'.2 →
  f !! i.1 = Some b → f' !! i'.1 = Some b' → b = b' ∨ sha_collision.
Proof.
  intros [_ _ (c & Hc & Hh & _) _ _] [_ _ (c' & Hc' & Hh' & _) _ _] Heq Hb Hb'.
  rewrite Hb in Hc. rewrite Hb' in Hc'. injection Hc as <-. injection Hc' as <-.
  rewrite <-Heq, <-Hh in Hh'. apply domain_hash_hex_inj in Hh' as [[_ ->]|?]; [by left|by right].
Qed.

(** * Witnesses: an executable that keeps ciphertexts in the clear *)

Import ShortInstances.

Definition toy_native : FHENative := {|
  native_built := true;
  native_run args f :=
    match args with
    | "encrypt" :: _ :: path :: vals :: _ => (NExited 0 (Some (JObj [])), <[path := vals]> f)
    | "evaluate" :: _ :: prog :: out :: ins =>
        (NExited 0 (Some (JObj [])), <[out := prog +:+ String.concat ";" ins]> f)
    | "decrypt" :: _ => (NExited 0 (Some (JObj [("values", JArr [JInt 5; JFloat (of_ratio 2675 1000 false)])])), f)
    | _ => (NExited 1 None, f)
    end |}.
Definition toy_repr : FloatRepr := {| float_repr := λ f, match f with S754_finite _ m _ => pretty (Npos m) | _ => "0.0" end |}.
Definition toy_float : FloatOfStr := {| float_of_str := λ _, None |}.
#[local] Existing Instances toy_native toy_repr toy_float.

Definition ex_fhe_cfg : FHEConfig := mkFHEConfig "/ws" (Some 1000%Z).
Definition ex_ctx : FHEContext :=
  mkContext "ctx_1" CKKS "1.2.0" SP_DEMO 0 2 50 8 1 (mkThreshold false 0 "") CTX_ACTIVE.
Definition ex_ctx_hash : string := Eval vm_compute in
  match context_hash ex_ctx with Ok h => h | Err _ => "" end.
Definition ex_client0 : FHEBrokerClient :=
  mkClient {["ctx_1" := ex_ctx]} (new_program_registry None) ∅.
Definition ex_encrypt :=
  client_encrypt ex_fhe_cfg "ctx_1" ex_ctx_hash [of_int 1; of_int 2] "ds_1" "alice" SECRET
    [SUM_V1; AVERAGE_V1] "vector<double>[batch]" 0 "u1" ex_client0.
Definition ex_ct : string * CiphertextEnvelope := Eval vm_compute in
  match ex_encrypt.1 with
  | Ok x => x
  | Err _ => ("", mkCtEnv "" "" "" "" 0 "" SECRET "" "" "" [] "")
  end.
Definition ex_client1 : FHEBrokerClient := ex_encrypt.2.
Definition ex_compute :=
  client_evaluate ex_fhe_cfg "ctx_1" ex_ctx_hash SUM_V1 [ex_ct] None None 0 "u2" "l1" ex_client1.
Definition ex_result : string * ResultEnvelope := Eval vm_compute in
  match ex_compute.1 with
  | Ok x => x
  | Err _ => ("", mkResEnv "" "" "" "" 0 "" SECRET "" "" "" "" [] "" "" "" "")
  end.

(** A ciphertext whose bytes were replaced, and a program it does not allow. *)
Example ex_substitutions :
  res_code (client_evaluate ex_fhe_cfg "ctx_1" ex_ctx_hash SUM_V1 [ex_ct] None None 0 "u2" "l1"
    (set_files (<[ex_ct.1 := "forged"]> (fc_files ex_client1)) ex_client1)).1 = Some FHE_CIPHERTEXT_INVALID ∧
  res_code (client_evaluate ex_fhe_cfg "ctx_1" ex_ctx_hash WEIGHTED_SCORE_V1 [ex_ct] (Some [of_int 1]) None 0
    "u2" "l1" ex_client1).1 = Some FHE_PROGRAM_DENIED.
Proof. split; vm_compute; reflexivity. Qed.

(** C26 at a sum over one ciphertext. *)
Lemma compute_inputs_authentic_witness :
  ∃ b, fc_files ex_client1 !! ex_ct.1 = Some b ∧
    domain_hash_hex D_FHE_CIPHERTEXT b = ce_ciphertext_hash ex_ct.2.
Proof.
  assert (Hr : is_ok (client_evaluate ex_fhe_cfg "ctx_1" ex_ctx_hash SUM_V1 [ex_ct] None None 0 "u2" "l1"
    ex_client1).1 = true) by (vm_compute; reflexivity).
  destruct (client_evaluate ex_fhe_cfg "ctx_1" ex_ctx_hash SUM_V1 [ex_ct] None None 0 "u2" "l1" ex_client1)
    as [r s'] eqn:He.
  cbn [fst] in Hr.
  destruct (compute_inputs_authentic ex_fhe_cfg "ctx_1" ex_ctx_hash SUM_V1 [ex_ct] None None 0 "u2" "l1"
    ex_client1 r s' He (or_introl Hr)) as (ctx & prog & _ & _ & _ & _ & _ & _ & Hall & _).
  apply Forall_cons in Hall as [[_ _ (b & Hb & Hh & _) _ _] _].
  exists b. split; [exact Hb|exact Hh].
Defined.
