(* ===== verification/CACService.v ===== *)
(** The confidential-computation surface of the control plane
    ([cvztte/control_plane/cac_service.py]): encryption, computation, decrypt requests
    with their governance, release gate and approvals, and the released results. *)

From S2P Require Export CACBroker QueryGov Approval Lineage.
From S2P Require Import Concrete.

(** What [decrypt_request] parks. *)
Record PendingDecrypt : Type := mkPendingDecrypt {
  pd_granted : gset CACPermission;
  pd_containment_state : ContainmentState;
  pd_context_id : string;
  pd_envelope : ResultEnvelope;
  pd_path : string;
  pd_length : Z;
  pd_recipient : string;
  pd_purpose : string;
  pd_query : QueryRequest
}.

(** An entry of [_results]. *)
Record ReleasedResult : Type := mkReleased {
  rr_values : list spec_float;
  rr_recipient : string;
  rr_released_at : string;
  rr_ciphertext_id : string
}.

(** [CACService].  The workspace files are there with or without a broker. *)
Record CACService : Type := mkService {
  has_broker : bool;
  client : FHEBrokerClient;
  lineage : LineageGraph;
  governor : QueryGovernor;
  cs_approvals : ApprovalStore;
  pending : gmap string PendingDecrypt;
  results : gmap string ReleasedResult
}.

Definition on_client {A} (m : M FHEBrokerClient A) : M CACService A :=
  czoom client (λ c s, mkService (has_broker s) c (lineage s) (governor s) (cs_approvals s) (pending s) (results s)) m.
Definition on_lineage {A} (m : M LineageGraph A) : M CACService A :=
  czoom lineage (λ g s, mkService (has_broker s) (client s) g (governor s) (cs_approvals s) (pending s) (results s)) m.
Definition on_governor {A} (m : M QueryGovernor A) : M CACService A :=
  czoom governor (λ g s, mkService (has_broker s) (client s) (lineage s) g (cs_approvals s) (pending s) (results s)) m.
Definition on_cac_approvals {A} (m : M ApprovalStore A) : M CACService A :=
  czoom cs_approvals (λ a s, mkService (has_broker s) (client s) (lineage s) (governor s) a (pending s) (results s)) m.
Definition set_pending (p : gmap string PendingDecrypt) (s : CACService) : CACService :=
  mkService (has_broker s) (client s) (lineage s) (governor s) (cs_approvals s) p (results s).
Definition set_results (r : gmap string ReleasedResult) (s : CACService) : CACService :=
  mkService (has_broker s) (client s) (lineage s) (governor s) (cs_approvals s) (pending s) r.

(** What a decrypt call returns. *)
Inductive DecryptStatus : Type :=
| DecryptPending (request_id : string)
| Released (request_id result_id : string) (values : list spec_float).

(** The identifiers one call draws. *)
Record cac_draws : Set := mkCacDraws { cd_request : string; cd_approval : string; cd_result : string }.

Section service.
Context `{Hashlib, Rfc8785, FloatRepr, FHENative, FloatOfStr}.
Variable cfg : FHEConfig.

(** [CACService._require_broker] *)
Definition require_broker : M CACService unit :=
  let! s := cget in
  if has_broker s then cret tt
  else raise SECURITY_DEPENDENCY_UNAVAILABLE "FHE broker not configured".

(** [CACService.encrypt]; returns the path, the envelope and the lineage node. *)
Definition cac_encrypt (granted : gset CACPermission) (cs : ContainmentState)
    (ctx_id expected_hash : string) (values : list spec_float) (dataset_id owner : string)
    (classification : DataClassification) (allowed : list ProgramId) (clock : Z) (uuid : string)
    : M CACService (string * CiphertextEnvelope * string) :=
  let! _ := clift (require_read_plaintext granted cs) in
  let! _ := require_broker in
  let! out := on_client (client_encrypt cfg ctx_id expected_hash values dataset_id owner
    classification allowed "vector<double>[batch]" clock uuid) in
  let '(path, env) := out in
  let! node := on_lineage (record_ciphertext dataset_id (ce_ciphertext_id env)
    (ce_ciphertext_hash env) (DataClassification_value classification) ctx_id (ce_key_epoch env)) in
  cret (path, env, node).

(** [CACService.compute] *)
Definition cac_compute (granted : gset CACPermission) (cs : ContainmentState)
    (ctx_id expected_hash : string) (prog : ProgramId) (inputs : list (string * CiphertextEnvelope))
    (weights : option (list spec_float)) (count : option Z) (clock : Z) (uuid lin : string)
    : M CACService (string * ResultEnvelope * string) :=
  let! _ := clift (require_compute granted cs) in
  let! _ := require_broker in
  let! out := on_client (client_evaluate cfg ctx_id expected_hash prog inputs weights count clock uuid lin) in
  let '(path, env) := out in
  let! node := on_lineage (record_result (ce_ciphertext_id <$> inputs.*2) (re_program_id env)
    (re_program_version env) (re_ciphertext_id env) (result_ciphertext_hash env) (re_lineage_id env)) in
  cret (path, env, node).

(** [CACService._release_now] *)
Definition release_now (request_id ctx_id : string) (env : ResultEnvelope) (path : string) (len : Z)
    (recipient : string) (query : QueryRequest) (approval_id : option string) (clock : Z)
    (uuid : string) : M CACService DecryptStatus :=
  let! _ := require_broker in
  let! values := on_client (client_decrypt cfg ctx_id path len) in
  let! governance := on_governor (governed_release query) in
  let values := minimize values governance in
  let result_id := "released_" +:+ uuid in
  let! _ := on_lineage (record_release request_id result_id recipient
    (Some (result_ciphertext_hash env)) approval_id) in
  let! _ := cmodify (λ s, set_results (<[result_id :=
    mkReleased values recipient (isoformat clock) (re_ciphertext_id env)]> (results s)) s) in
  cret (Released request_id result_id values).

(** The release request both decrypt paths submit to the gate. *)
Definition release_request (p : PendingDecrypt) (bytes : string) (approved : bool)
    (approval_id : option string) : DecryptReleaseRequest :=
  mkRelease (pd_recipient p) (pd_purpose p) (re_classification (pd_envelope p)) (pd_granted p)
    (pd_containment_state p) bytes (result_ciphertext_hash (pd_envelope p)) approved approval_id.

(** [CACService.decrypt_request], its arguments gathered in [p]. *)
Definition decrypt_request (p : PendingDecrypt) (approval_granted : bool)
    (approval_id : option string) (now : option Z) (clock : Z) (dr : cac_draws)
    : M CACService DecryptStatus :=
  let now := or_now now clock in
  let request_id := "dreq_" +:+ cd_request dr in
  let! _ := on_lineage (record_decrypt_request (re_ciphertext_id (pd_envelope p)) request_id
    (pd_recipient p) (pd_purpose p)) in
  let! s := cget in
  let governance := gov_evaluate (governor s) (pd_query p) in
  if negb (g_allowed governance) then
    raise (default FHE_QUERY_PATTERN_RISK (g_reason governance))
      (if decide (g_message governance = "") then "query governance denied release"
       else g_message governance)
  else
  let! bytes := clift (read_bytes (fc_files (client s)) (pd_path p)) in
  match release_authorize (release_request p bytes approval_granted approval_id) with
  | Err x =>
      if decide (res_code (A := unit) (Err x) = Some APPROVAL_REQUIRED ∧ approval_granted = false) then
        let! _ := on_cac_approvals (approval_request request_id (pd_recipient p)
          (result_ciphertext_hash (pd_envelope p)) 4
          (DataClassification_value (re_classification (pd_envelope p))) None (Some now) clock
          (cd_approval dr)) in
        let! _ := cmodify (λ s, set_pending (<[request_id := p]> (pending s)) s) in
        cret (DecryptPending request_id)
      else cthrow x
  | Ok _ =>
      release_now request_id (pd_context_id p) (pd_envelope p) (pd_path p) (pd_length p)
        (pd_recipient p) (pd_query p) None clock (cd_result dr)
  end.

(** [CACService.approve_decrypt] *)
Definition approve_decrypt (request_id approver : string) (now : option Z) (clock : Z) (uuid : string)
    : M CACService DecryptStatus :=
  let now := or_now now clock in
  let! s := cget in
  match pending s !! request_id with
  | None => raise APPROVAL_REQUIRED "unknown decrypt request"
  | Some p =>
      let! _ := on_cac_approvals (approval_grant request_id approver None (Some now) clock) in
      let! s := cget in
      let! _ := clift (assert_granted (cs_approvals s) request_id (Some now) clock) in
      let! bytes := clift (read_bytes (fc_files (client s)) (pd_path p)) in
      let! _ := clift (release_authorize (release_request p bytes true (Some request_id))) in
      let! out := release_now request_id (pd_context_id p) (pd_envelope p) (pd_path p) (pd_length p)
        (pd_recipient p) (pd_query p) (Some request_id) clock uuid in
      let! _ := cmodify (λ s, set_pending (delete request_id (pending s)) s) in
      cret out
  end.

(** [CACService.get_result] *)
Definition get_result (s : CACService) (result_id : string) : res ReleasedResult :=
  match results s !! result_id with
  | Some r => Ok r
  | None => err FHE_DECRYPT_DENIED "unknown or unreleased result"
  end.

(** * Histories *)

Inductive cac_op : Type :=
| CEncrypt (granted : gset CACPermission) (cs : ContainmentState) (ctx_id expected_hash : string)
    (values : list spec_float) (dataset_id owner : string) (classification : DataClassification)
    (allowed : list ProgramId) (clock : Z) (uuid : string)
| CCompute (granted : gset CACPermission) (cs : ContainmentState) (ctx_id expected_hash : string)
    (prog : ProgramId) (inputs : list (string * CiphertextEnvelope))
    (weights : option (list spec_float)) (count : option Z) (clock : Z) (uuid lin : string)
| CDecrypt (p : PendingDecrypt) (approval_granted : bool) (approval_id : option string)
    (now : option Z) (clock : Z) (dr : cac_draws)
| CApprove (request_id approver : string) (now : option Z) (clock : Z) (uuid : string)
| CDeny (request_id approver : string) (reason : option string) (now : option Z) (clock : Z).

(** [deny] is a call on the approval store, shared with the control plane. *)
Definition cac_step (s : CACService) (o : cac_op) : CACService :=
  match o with
  | CEncrypt g cs c h v d ow k a t u => (cac_encrypt g cs c h v d ow k a t u s).2
  | CCompute g cs c h p i w n t u l => (cac_compute g cs c h p i w n t u l s).2
  | CDecrypt p ag aid now t dr => (decrypt_request p ag aid now t dr s).2
  | CApprove r who now t u => (approve_decrypt r who now t u s).2
  | CDeny r who why now t => (on_cac_approvals (approval_deny r who why now t) s).2
  end.
End service.

(** * Releases *)

Section facts.
Context `{Hashlib, Rfc8785, FloatRepr, FHENative, FloatOfStr}.
Variable cfg : FHEConfig.
Implicit Types s : CACService.

(** What the gate demands of a release, over the files of [s]. *)
Record gates_open (s : CACService) (p : PendingDecrypt) (approved : bool) : Prop := {
  go_permission : DECRYPT_RESULT ∈ pd_granted p;
  go_containment : pd_containment_state p = NORMAL;
  go_bytes : ∃ b, fc_files (client s) !! pd_path p = Some b ∧
    domain_hash_hex D_FHE_RESULT b = result_ciphertext_hash (pd_envelope p);
  go_approval : approval_required_class (re_classification (pd_envelope p)) = true → approved = true
}.

Lemma release_gates s p b approved aid :
  read_bytes (fc_files (client s)) (pd_path p) = Ok b →
  release_authorize (release_request p b approved aid) = Ok tt → gates_open s p approved.
Proof.
  unfold read_bytes. destruct (fc_files _ !! _) as [b'|] eqn:Hb; [|done]. intros [= ->].
  intros (Hg & Hn & Hh & Ha)%release_authorize_ok. constructor; try done. by exists b.
Qed.

(** Nothing but the lineage, the files and the governor moves before the result is
    stored. *)
Lemma release_now_cases rid cid env path len who q aid clock uuid s r s' :
  release_now cfg rid cid env path len who q aid clock uuid s = (r, s') →
  pending s' = pending s ∧ cs_approvals s' = cs_approvals s ∧
  match r with
  | Err _ => results s' = results s
  | Ok out => ∃ raw s1 c1, client_decrypt cfg cid path len (client s) = (Ok raw, c1) ∧
      let values := minimize raw (gov_evaluate (governor s) q) in
      let result_id := "released_" +:+ uuid in
      out = Released rid result_id values ∧
      results s' = <[result_id := mkReleased values who (isoformat clock) (re_ciphertext_id env)]> (results s) ∧
      lineage s1 = lineage s ∧
      (∃ id, record_release rid result_id who (Some (result_ciphertext_hash env)) aid (lineage s1)
               = (Ok id, lineage s'))
  end ∧
  (lineage s' = lineage s ∨ lineage s' = (record_release rid ("released_" +:+ uuid) who
     (Some (result_ciphertext_hash env)) aid (lineage s)).2).
Proof.
  unfold release_now, cbind, require_broker, cbind, cget.
  destruct (has_broker s); [|intros [= <- <-]; split_and!; try done; by left]. unfold cret at 1.
  unfold on_client, czoom. destruct (client_decrypt cfg cid path len (client s)) as [[raw|x] c1] eqn:Hd;
    [|intros [= <- <-]; split_and!; try done; by left].
  unfold on_governor, czoom. cbn [governor]. rewrite governed_release_cases.
  unfold on_lineage, czoom. cbn [lineage].
  destruct (record_release _ _ _ _ _ (lineage s)) as [[id|x] g1] eqn:Hr;
    unfold cmodify, cret; intros [= <- <-]; split_and!; try done; try (by right).
  exists raw, s, c1. split_and!; try done. by exists id.
Qed.

Lemma decrypt_request_cases p ag aid now clock dr s r s' :
  decrypt_request cfg p ag aid now clock dr s = (r, s') →
  let rid := "dreq_" +:+ cd_request dr in
  ∃ g1 res, record_decrypt_request (re_ciphertext_id (pd_envelope p)) rid (pd_recipient p) (pd_purpose p)
              (lineage s) = (res, g1) ∧
  ((∃ x, r = Err x ∧ lineage s' = g1 ∧ pending s' = pending s ∧ results s' = results s) ∨
   (is_ok res = true ∧ admissible (governor s) (pd_query p) ∧
    ((r = Ok (DecryptPending rid) ∧ ag = false ∧ gates_open s p true ∧ lineage s' = g1 ∧
      pending s' = <[rid := p]> (pending s) ∧ results s' = results s) ∨
     (gates_open s p ag ∧ pending s' = pending s ∧
      ∃ s1, lineage s1 = g1 ∧ pending s1 = pending s ∧ results s1 = results s ∧
        governor s1 = governor s ∧ client s1 = client s ∧
        release_now cfg rid (pd_context_id p) (pd_envelope p) (pd_path p) (pd_length p)
          (pd_recipient p) (pd_query p) None clock (cd_result dr) s1 = (r, s'))))).
Proof.
  intros Hrun rid. unfold decrypt_request in Hrun. fold rid in Hrun.
  unfold cbind at 1, on_lineage, czoom in Hrun.
  destruct (record_decrypt_request _ _ _ _ (lineage s)) as [res g1] eqn:Hrec. exists g1, res.
  split; [done|]. destruct res as [id|x]; [|left; injection Hrun as <- <-; by exists x].
  set (s1 := mkService _ _ g1 _ _ _ _) in Hrun.
  unfold cbind at 1, cget at 1 in Hrun. cbn [governor] in Hrun.
  destruct (g_allowed (gov_evaluate (governor s1) (pd_query p))) eqn:Hg; simpl negb in Hrun; cbv iota in Hrun;
    [|left; unfold raise, cthrow in Hrun; injection Hrun as <- <-; by eexists].
  apply gov_evaluate_iff in Hg. unfold cbind at 1, clift at 1 in Hrun.
  destruct (read_bytes (fc_files (client s1)) (pd_path p)) as [b|x] eqn:Hb;
    [|left; injection Hrun as <- <-; by exists x].
  destruct (release_authorize _) as [[]|x] eqn:Hr.
  - right. split; [done|]. split; [done|]. right. split; [by apply (release_gates s p b ag aid)|].
    pose proof Hrun as Hn. apply release_now_cases in Hn as (Hp & _ & _). split; [done|]. by exists s1.
  - destruct (decide (res_code (A := unit) (Err x) = Some APPROVAL_REQUIRED ∧ ag = false)) as [[Hc Hag]|Hd];
      [|left; unfold cthrow in Hrun; injection Hrun as <- <-; by exists x].
    right. split; [done|]. split; [done|]. left. unfold on_cac_approvals, czoom, cbind, approval_request,
      cmodify, cret in Hrun. injection Hrun as <- <-. split_and!; try done.
    rewrite <-Hr in Hc. apply release_approval_required in Hc as (Hgr & Hn & Hh & Hcl & _).
    unfold read_bytes in Hb. destruct (fc_files (client s1) !! pd_path p) as [b'|] eqn:Hbb; [|done].
    injection Hb as ->. constructor; try done. by exists b.
Qed.

Lemma approve_decrypt_cases rid who now clock uuid s r s' :
  approve_decrypt cfg rid who now clock uuid s = (r, s') →
  (∃ x, r = Err x ∧ lineage s' = lineage s ∧ pending s' = pending s ∧ results s' = results s) ∨
  ∃ p rec s1 s2, pending s !! rid = Some p ∧ gates_open s p true ∧
    by_decision (cs_approvals s') rid = Some rec ∧ a_state rec = A_GRANTED ∧ approver rec = Some who ∧
    lineage s1 = lineage s ∧ pending s1 = pending s ∧ results s1 = results s ∧
    governor s1 = governor s ∧ client s1 = client s ∧
    release_now cfg rid (pd_context_id p) (pd_envelope p) (pd_path p) (pd_length p)
      (pd_recipient p) (pd_query p) (Some rid) clock uuid s1 = (r, s2) ∧
    s' = if is_ok r then set_pending (delete rid (pending s2)) s2 else s2.
Proof.
  intros Hrun. unfold approve_decrypt in Hrun. unfold cbind at 1, cget at 1 in Hrun.
  destruct (pending s !! rid) as [p|] eqn:Hp; [|left; unfold raise, cthrow in Hrun; injection Hrun as <- <-; by eexists].
  unfold cbind at 1, on_cac_approvals, czoom in Hrun.
  destruct (approval_grant rid who None _ clock (cs_approvals s)) as [[rec|x] a1] eqn:Hg;
    [|left; injection Hrun as <- <-; by exists x].
  set (s1 := mkService _ _ _ _ a1 _ _) in Hrun. unfold cbind at 1, cget at 1 in Hrun.
  unfold cbind at 1, clift at 1 in Hrun.
  destruct (assert_granted (cs_approvals s1) rid _ clock) as [rec'|x] eqn:Ha;
    [|left; injection Hrun as <- <-; by exists x].
  unfold cbind at 1, clift at 1 in Hrun.
  destruct (read_bytes (fc_files (client s1)) (pd_path p)) as [b|x] eqn:Hb;
    [|left; injection Hrun as <- <-; by exists x].
  unfold cbind at 1, clift at 1 in Hrun.
  destruct (release_authorize _) as [[]|x] eqn:Hr; [|left; injection Hrun as <- <-; by exists x].
  right. unfold cbind at 1 in Hrun. destruct (release_now cfg rid _ _ _ _ _ _ _ clock uuid s1) as [o s2] eqn:Hn.
  pose proof Hn as Hc. apply release_now_cases in Hc as (Hp2 & Ha2 & _).
  apply assert_granted_ok in Ha as (Hby & Hst & _). change (cs_approvals s1) with a1 in Hby, Ha2.
  apply approval_decide_ok in Hg as (r0 & _ & _ & _ & Hrec & Ha1).
  assert (Hwho : approver rec' = Some who).
  { unfold by_decision in Hby. subst a1. cbn [by_decision_id by_id] in Hby.
    destruct (by_decision_id (cs_approvals s) !! rid) as [i|]; [|done]. case_decide; [done|].
    simpl in Hby. rewrite lookup_insert_eq in Hby. injection Hby as <-. by subst rec. }
  exists p, rec', s1, s2. split_and!; try done.
  - by apply (release_gates s p b true (Some rid)).
  - destruct o; injection Hrun as <- <-; cbn [set_pending cs_approvals]; by rewrite Ha2.
  - by destruct o; injection Hrun as <- <-.
  - by destruct o; injection Hrun as <- <-.
Qed.

(** C8. Plaintext leaves through the gates only.  A step that changes the released
    results is a decrypt request or an approval.  In the first case the requester holds
    DECRYPT_RESULT in a normal state, the bytes to be decrypted hash to the authorized
    envelope, governance admits the query, and a confidential or secret result was
    declared approved by the caller.  In the second, a request was parked, the approver
    has granted it, and the same permission, state and bytes hold.  Encryption,
    computation and denials release nothing. *)
Theorem plaintext_through_gates s o :
  results (cac_step cfg s o) ≠ results s →
  match o with
  | CDecrypt p ag _ _ _ _ => gates_open s p ag ∧ admissible (governor s) (pd_query p)
  | CApprove rid who _ _ _ =>
      ∃ p rec, pending s !! rid = Some p ∧ gates_open s p true ∧
        by_decision (cs_approvals (cac_step cfg s o)) rid = Some rec ∧ a_state rec = A_GRANTED ∧
        approver rec = Some who
  | _ => False
  end.
Proof.
  destruct o as [g cs c h v d ow k a t u|g cs c h p i w n t u l|p ag aid now t dr|rid who now t u
    |rid who why now t]; cbn [cac_step]; intros Hne.
  - apply Hne. unfold cac_encrypt, cbind, clift, require_broker, cbind, cget.
    destruct (require_read_plaintext g cs); [|done]. destruct (has_broker s); [|done].
    unfold cret, on_client, czoom. destruct (client_encrypt _ _ _ _ _ _ _ _ _ _ _ _) as [[[path env]|] c1]; [|done].
    unfold on_lineage, czoom. cbn [lineage]. by destruct (record_ciphertext _ _ _ _ _ _ _) as [[] ?].
  - apply Hne. unfold cac_compute, cbind, clift, require_broker, cbind, cget.
    destruct (require_compute g cs); [|done]. destruct (has_broker s); [|done].
    unfold cret, on_client, czoom. destruct (client_evaluate _ _ _ _ _ _ _ _ _ _ _) as [[[path env]|] c1]; [|done].
    unfold on_lineage, czoom. cbn [lineage]. by destruct (record_result _ _ _ _ _ _ _) as [[] ?].
  - destruct (decrypt_request cfg p ag aid now t dr s) as [r s'] eqn:Hd.
    destruct (decrypt_request_cases _ _ _ _ _ _ _ _ _ Hd) as (g1 & rs & _ & [(x & _ & _ & _ & Hr)|(_ & Ha & [(_ & _ & _ & _ & _ & Hr)|(Hg & _)])]);
      done.
  - destruct (approve_decrypt cfg rid who now t u s) as [r s'] eqn:Hd.
    destruct (approve_decrypt_cases _ _ _ _ _ _ _ _ Hd) as [(x & _ & _ & _ & Hr)|(p & rec & s1 & s2 & Hp & Hg & Hb & Hs & Hw & _)];
      [done|]. by exists p, rec.
  - apply Hne. unfold on_cac_approvals, czoom. by destruct (approval_deny _ _ _ _ _ _).
Qed.
End facts.

(** * Every release can be traced *)

Section traceability.
Context `{Hashlib, Rfc8785, FloatRepr, FHENative, FloatOfStr}.
Variable cfg : FHEConfig.
Hypothesis faithful : rfc8785_faithful.
Implicit Types s : CACService.

Definition result_node (id : string) : LineageNode := mkNode RESULT id None [].
Definition request_node (id : string) : LineageNode := mkNode DECRYPT_REQUEST id None [].
Definition released_node (id : string) : LineageNode := mkNode RELEASED_RESULT id None [].

(** The lineage is well typed, and each parked request is recorded under the result it
    asks for. *)
Record traced (s : CACService) : Prop := {
  tr_typed : typed (lineage s);
  tr_pending rid p : pending s !! rid = Some p →
    edge_between (lineage s) (result_node (re_ciphertext_id (pd_envelope p))) (request_node rid) DECRYPT_OF
}.

Lemma traced_grows s g :
  traced s → typed g → grows (lineage s) g →
  ∀ rid p, pending s !! rid = Some p →
    edge_between g (result_node (re_ciphertext_id (pd_envelope p))) (request_node rid) DECRYPT_OF.
Proof. intros [_ Hp] _ Hg rid p Hr. eapply edge_between_grows; [exact Hg|by apply Hp]. Qed.

(** A recorder called on a well-typed graph. *)
Lemma recorded o g r g' : typed g → lineage_call o g = (r, g') → sha_collision ∨ typed g' ∧ grows g g'.
Proof.
  intros Ht Hc. destruct (triple_call o faithful _ _ _ Ht I Hc) as [?|(? & ? & _)]; [by left|by right].
Qed.

Lemma request_recorded r q who why g x g' :
  typed g → record_decrypt_request r q who why g = (x, g') →
  sha_collision ∨ typed g' ∧ grows g g' ∧
    (is_ok x = true → edge_between g' (result_node r) (request_node q) DECRYPT_OF).
Proof.
  intros Ht Hr. destruct (recorded (LRequest r q who why) g x g' Ht Hr) as [?|[Ht' Hg]]; [by left|].
  destruct x as [id|]; [|by right].
  destruct (link_edge (result_node r) (mkNode DECRYPT_REQUEST q None [("requester", who); ("purpose", why)])
    DECRYPT_OF g id g' faithful eq_refl Ht Hr) as [?|[He _]]; [by left|by right].
Qed.

Lemma release_recorded q rel who h aid g id g' :
  typed g → record_release q rel who h aid g = (Ok id, g') →
  sha_collision ∨ edge_between g' (request_node q) (released_node rel) RELEASES.
Proof.
  intros Ht Hr. destruct (link_edge (request_node q) (mkNode RELEASED_RESULT rel h _) RELEASES g id g'
    faithful eq_refl Ht Hr) as [?|[He _]]; [by left|right; exact He].
Qed.

Lemma traced_same s s' :
  lineage s' = lineage s → (∀ rid p, pending s' !! rid = Some p → pending s !! rid = Some p) →
  traced s → traced s'.
Proof. intros Hl Hp [Ht Hq]. constructor; rewrite Hl; eauto. Qed.

Lemma traced_recorded o s s' r :
  traced s → lineage_call o (lineage s) = (r, lineage s') →
  (∀ rid p, pending s' !! rid = Some p → pending s !! rid = Some p) → sha_collision ∨ traced s'.
Proof.
  intros Ht Hl Hp. destruct (recorded o _ _ _ (tr_typed _ Ht) Hl) as [?|[Ht' Hg]]; [by left|right].
  constructor; [done|]. intros rid p Hr. by eapply traced_grows; [| | |apply Hp].
Qed.

Lemma release_now_traced rid cid env path len who q aid clock uuid s r s' :
  traced s → release_now cfg rid cid env path len who q aid clock uuid s = (r, s') →
  sha_collision ∨ traced s' ∧ grows (lineage s) (lineage s') ∧
    ∀ rid' resid vals, r = Ok (Released rid' resid vals) →
      edge_between (lineage s') (request_node rid) (released_node resid) RELEASES.
Proof.
  intros Ht Hr. pose proof (release_now_cases _ _ _ _ _ _ _ _ _ _ _ _ _ _ Hr) as (Hp & _ & Hres & Hl).
  assert (Hsub : ∀ rid p, pending s' !! rid = Some p → pending s !! rid = Some p) by (by rewrite Hp).
  destruct r as [out|x].
  - destruct Hres as (raw & s1 & c1 & _ & Hout & _ & Hl1 & id & Hrel). rewrite Hl1 in Hrel.
    destruct (recorded (LRelease _ _ _ _ _) _ _ _ (tr_typed _ Ht) Hrel) as [?|[Ht' Hg]]; [by left|].
    destruct (release_recorded _ _ _ _ _ _ _ _ (tr_typed _ Ht) Hrel) as [?|He]; [by left|right].
    split_and!; [|done|].
    + constructor; [done|]. intros r p Hq. by eapply traced_grows; [| | |apply Hsub].
    + intros rid' resid vals [= ->]. injection Hout as _ -> _. done.
  - destruct Hl as [Hl|Hl]; [right; by split_and!; [apply (traced_same s)|rewrite Hl|]|].
    destruct (record_release _ _ _ _ _ (lineage s)) as [y g] eqn:Hrec. simpl in Hl. subst g.
    destruct (recorded (LRelease _ _ _ _ _) _ _ _ (tr_typed _ Ht) Hrec) as [?|[Ht' Hg]]; [by left|right].
    split_and!; [|done|done]. constructor; [done|].
    intros r p Hq. by eapply traced_grows; [| | |apply Hsub].
Qed.

(** The release of [resid] is recorded below the result of [p]. *)
Definition release_traced (g : LineageGraph) (p : PendingDecrypt) (resid : string) : Prop :=
  ∃ i k, node_id (result_node (re_ciphertext_id (pd_envelope p))) = Ok i ∧
    node_id (released_node resid) = Ok k ∧ ancestor g i k.

Lemma edges_trace g p rid resid :
  edge_between g (result_node (re_ciphertext_id (pd_envelope p))) (request_node rid) DECRYPT_OF →
  edge_between g (request_node rid) (released_node resid) RELEASES → release_traced g p resid.
Proof.
  intros (i & j & Hi & Hj & He) (j' & k & Hj' & Hk & He'). rewrite Hj in Hj'. injection Hj' as <-.
  exists i, k. split_and!; [done|done|].
  eapply rtc_l; [|apply rtc_once]; apply parent_edge; eauto.
Qed.

Lemma decrypt_request_traced p ag aid now clock dr s r s' :
  traced s → decrypt_request cfg p ag aid now clock dr s = (r, s') →
  sha_collision ∨ traced s' ∧
    ∀ rid resid vals, r = Ok (Released rid resid vals) → release_traced (lineage s') p resid.
Proof.
  intros Ht Hd. destruct (decrypt_request_cases _ _ _ _ _ _ _ _ _ _ Hd) as (g1 & x & Hrec & Hcase).
  destruct (request_recorded _ _ _ _ _ _ _ (tr_typed _ Ht) Hrec) as [?|(Ht1 & Hg1 & He)]; [by left|].
  pose proof (traced_grows s g1 Ht Ht1 Hg1) as Hold.
  destruct Hcase as [(y & -> & Hl & Hp & _)|(Hx & _ & [(-> & _ & _ & Hl & Hp & _)|(_ & _ & s1 & Hl & Hp & _ & _ & _ & Hn)])].
  - right. split; [|done]. constructor; [by rewrite Hl|]. intros q p'. rewrite Hl, Hp. apply Hold.
  - right. split; [|done]. constructor; [by rewrite Hl|]. intros q p'. rewrite Hl, Hp.
    intros [[<- <-]|[_ Hq]]%lookup_insert_Some; [by apply He|by apply Hold].
  - assert (Ht1' : traced s1).
    { constructor; [by rewrite Hl|]. intros q p'. rewrite Hl, Hp. apply Hold. }
    destruct (release_now_traced _ _ _ _ _ _ _ _ _ _ _ _ _ Ht1' Hn) as [?|(Ht' & Hg' & Hrel)]; [by left|right].
    split; [done|]. intros rid resid vals Hr. eapply edges_trace; [|by apply (Hrel rid resid vals)].
    eapply edge_between_grows; [exact Hg'|]. rewrite Hl. by apply He.
Qed.

Lemma approve_decrypt_traced rid who now clock uuid s r s' :
  traced s → approve_decrypt cfg rid who now clock uuid s = (r, s') →
  sha_collision ∨ traced s' ∧
    ∀ p rid' resid vals, pending s !! rid = Some p → r = Ok (Released rid' resid vals) →
      release_traced (lineage s') p resid.
Proof.
  intros Ht Ha.
  destruct (approve_decrypt_cases _ _ _ _ _ _ _ _ _ Ha) as [(x & -> & Hl & Hp & _)|
    (p & rec & s1 & s2 & Hpend & _ & _ & _ & _ & Hl & Hp & _ & _ & _ & Hn & ->)].
  - right. split; [|done]. apply (traced_same s); [done|by rewrite Hp|done].
  - assert (Ht1 : traced s1) by (apply (traced_same s); [done|by rewrite Hp|done]).
    destruct (release_now_traced _ _ _ _ _ _ _ _ _ _ _ _ _ Ht1 Hn) as [?|(Ht' & Hg' & Hrel)]; [by left|right].
    split.
    + destruct (is_ok r); [|done]. apply (traced_same s2); [done| |done].
      intros q p'. simpl. by intros [_ ?]%lookup_delete_Some.
    + intros p' rid' resid vals Hp' Hr. rewrite Hpend in Hp'. injection Hp' as <-.
      assert (Hls : lineage (if is_ok r then set_pending (delete rid (pending s2)) s2 else s2) = lineage s2)
        by by destruct (is_ok r).
      rewrite Hls. eapply edges_trace; [|by apply (Hrel rid' resid vals)].
      eapply edge_between_grows; [exact Hg'|]. rewrite Hl. by apply (tr_pending _ Ht).
Qed.

Lemma traced_step s o : traced s → sha_collision ∨ traced (cac_step cfg s o).
Proof.
  intros Ht.
  destruct o as [g cs c h v d ow k a t u|g cs c h p i w n t u l|p ag aid now t dr|rid who now t u
    |rid who why now t]; cbn [cac_step].
  - unfold cac_encrypt, cbind, clift, require_broker, cbind, cget.
    destruct (require_read_plaintext g cs); [|by right]. destruct (has_broker s); [|by right].
    unfold cret, on_client, czoom. destruct (client_encrypt _ _ _ _ _ _ _ _ _ _ _ _) as [[[path env]|] c1];
      [|right; by apply (traced_same s)].
    unfold on_lineage, czoom. cbn [lineage].
    destruct (record_ciphertext _ _ _ _ _ _ _) as [x g1] eqn:Hr.
    destruct x as [id|x]; (eapply (traced_recorded (LCiphertext _ _ _ _ _ _) s); [done|exact Hr|done]).
  - unfold cac_compute, cbind, clift, require_broker, cbind, cget.
    destruct (require_compute g cs); [|by right]. destruct (has_broker s); [|by right].
    unfold cret, on_client, czoom. destruct (client_evaluate _ _ _ _ _ _ _ _ _ _ _) as [[[path env]|] c1];
      [|right; by apply (traced_same s)].
    unfold on_lineage, czoom. cbn [lineage].
    destruct (record_result _ _ _ _ _ _ _) as [x g1] eqn:Hr.
    destruct x as [id|x]; (eapply (traced_recorded (LResult _ _ _ _ _ _) s); [done|exact Hr|done]).
  - destruct (decrypt_request cfg p ag aid now t dr s) as [r s'] eqn:Hd.
    destruct (decrypt_request_traced _ _ _ _ _ _ _ _ _ Ht Hd) as [?|[? _]]; [by left|by right].
  - destruct (approve_decrypt cfg rid who now t u s) as [r s'] eqn:Hd.
    destruct (approve_decrypt_traced _ _ _ _ _ _ _ _ Ht Hd) as [?|[? _]]; [by left|by right].
  - right. unfold on_cac_approvals, czoom. destruct (approval_deny _ _ _ _ _ _) as [x a].
    by apply (traced_same s).
Qed.

Lemma traced_run ops s : traced s → sha_collision ∨ traced (run (cac_step cfg) s ops).
Proof.
  revert s. induction ops as [|o ops IH]; intros s Ht; [by right|].
  destruct (traced_step s o Ht) as [?|Ht']; [by left|]. by apply IH.
Qed.

(** Every release can be traced.  Take any history of a service that starts with
    an empty lineage and nothing parked.  Whenever a decrypt request or an approval
    then returns a released result, the lineage holds a path from the encrypted result
    that was asked for to the node of that release; or SHA-256 collides. *)
Theorem releases_traceable s0 ops :
  lineage s0 = new_graph → pending s0 = ∅ →
  let s := run (cac_step cfg) s0 ops in
  (∀ p ag aid now clock dr rid resid vals s',
     decrypt_request cfg p ag aid now clock dr s = (Ok (Released rid resid vals), s') →
     sha_collision ∨ release_traced (lineage s') p resid) ∧
  (∀ rid0 who now clock uuid p rid resid vals s', pending s !! rid0 = Some p →
     approve_decrypt cfg rid0 who now clock uuid s = (Ok (Released rid resid vals), s') →
     sha_collision ∨ release_traced (lineage s') p resid).
Proof.
  intros Hl Hp s.
  assert (Ht0 : traced s0).
  { constructor; [rewrite Hl; apply typed_new|]. intros rid p. by rewrite Hp, lookup_empty. }
  destruct (traced_run ops s0 Ht0) as [?|Ht]; [by split; intros; left|]. fold s in Ht. split.
  - intros p ag aid now clock dr rid resid vals s' Hd.
    destruct (decrypt_request_traced _ _ _ _ _ _ _ _ _ Ht Hd) as [?|[_ Hr]]; [by left|right].
    by eapply Hr.
  - intros rid0 who now clock uuid p rid resid vals s' Hpend Ha.
    destruct (approve_decrypt_traced _ _ _ _ _ _ _ _ Ht Ha) as [?|[_ Hr]]; [by left|right].
    by eapply Hr.
Qed.
End traceability.

(** * Witnesses: two requests for one result *)

Import ShortInstances.
#[local] Existing Instances spelled toy_native toy_repr toy_float.

Definition cx_hash : string := Eval vm_compute in
  match context_hash ex_ctx with Ok h => h | Err _ => "" end.
Definition cx_policy : QueryGovernancePolicy := mkGovPolicy (of_int 3600) (Some 1%Z) 1 true 0 None None (Some 2%Z).
Definition cx_service0 : CACService :=
  mkService true ex_client0 new_graph (new_governor (Some cx_policy)) (new_approval_store 300) ∅ ∅.
Definition cx_encrypted := cac_encrypt ex_fhe_cfg {[READ_PLAINTEXT]} NORMAL "ctx_1" cx_hash [of_int 1; of_int 2] "ds_1"
  "alice" SECRET [SUM_V1] 0 "u1" cx_service0.
Definition cx_ct : string * CiphertextEnvelope := Eval vm_compute in
  match cx_encrypted.1 with Ok (p, e, _) => (p, e) | Err _ => ex_ct end.
Definition cx_setup : list cac_op :=
  [CEncrypt {[READ_PLAINTEXT]} NORMAL "ctx_1" cx_hash [of_int 1; of_int 2] "ds_1" "alice" SECRET [SUM_V1] 0 "u1";
   CCompute {[COMPUTE_ON_CIPHERTEXT]} NORMAL "ctx_1" cx_hash SUM_V1 [cx_ct] None None 0 "u2" "l1"].
Definition cx_computed := cac_compute ex_fhe_cfg {[COMPUTE_ON_CIPHERTEXT]} NORMAL "ctx_1" cx_hash SUM_V1 [cx_ct]
  None None 0 "u2" "l1" cx_encrypted.2.
Definition cx_res : string * ResultEnvelope := Eval vm_compute in
  match cx_computed.1 with Ok (p, e, _) => (p, e) | Err _ => ex_result end.
Definition cx_query : QueryRequest :=
  mkQuery (mkScope "agt_1" "ds_1" "ses_1" "audit") "SUM_V1" ∅ 10 AGGREGATE (of_int 100).
Definition cx_request : PendingDecrypt :=
  mkPendingDecrypt {[DECRYPT_RESULT]} NORMAL "ctx_1" cx_res.2 cx_res.1 2 "bob" "audit" cx_query.
Definition cx_ask (u : string) : cac_op :=
  CDecrypt cx_request false None (Some 0%Z) 0 (mkCacDraws u ("a" +:+ u) "").
Definition cx_parked : list cac_op := cx_setup ++ [cx_ask "q1"; cx_ask "q2"].
Definition cx_state (ops : list cac_op) : CACService := run (cac_step ex_fhe_cfg) cx_service0 ops.

Definition released_values (r : res DecryptStatus) : list spec_float :=
  match r with Ok (Released _ _ v) => v | _ => [] end.

(** An analyst who may only compute gets no plaintext, nor does anyone in a contained
    state. *)
Example compute_never_decrypts :
  res_code (decrypt_request ex_fhe_cfg (mkPendingDecrypt {[COMPUTE_ON_CIPHERTEXT]} NORMAL "ctx_1" cx_res.2
    cx_res.1 2 "bob" "audit" cx_query) true None (Some 0%Z) 0 (mkCacDraws "q" "a" "r") (cx_state cx_setup)).1
  = Some FHE_DECRYPT_DENIED ∧
  res_code (decrypt_request ex_fhe_cfg (mkPendingDecrypt all_permissions RESTRICTED "ctx_1" cx_res.2
    cx_res.1 2 "bob" "audit" cx_query) true None (Some 0%Z) 0 (mkCacDraws "q" "a" "r") (cx_state cx_setup)).1
  = Some FHE_DECRYPT_DENIED.
Proof. split; vm_compute; reflexivity. Qed.

(** An approval does not ask governance again: both parked requests are released under
    a limit of one, and the second, which governance denies by then, is not even
    rounded. *)
Example approval_skips_governance :
  let first := approve_decrypt ex_fhe_cfg "dreq_q1" "carol" (Some 1%Z) 1 "r1" (cx_state cx_parked) in
  let second := approve_decrypt ex_fhe_cfg "dreq_q2" "carol" (Some 2%Z) 2 "r2" first.2 in
  released_values first.1 = [of_int 5; of_ratio 267 100 false] ∧
  g_allowed (gov_evaluate (governor first.2) cx_query) = false ∧
  released_values second.1 = [of_int 5; of_ratio 2675 1000 false].
Proof. split_and!; vm_compute; reflexivity. Qed.

(** C8 at the approval of a secret result. *)
Lemma plaintext_through_gates_witness :
  ∃ p rec, pending (cx_state cx_parked) !! "dreq_q1" = Some p ∧ gates_open (cx_state cx_parked) p true ∧
    a_state rec = A_GRANTED ∧ approver rec = Some "carol".
Proof.
  destruct (plaintext_through_gates ex_fhe_cfg (cx_state cx_parked)
    (CApprove "dreq_q1" "carol" (Some 1%Z) 1 "r1")) as (p & rec & Hp & Hg & _ & Hs & Hw).
  - intros Heq. apply (f_equal (lookup "released_r1")) in Heq. vm_compute in Heq. discriminate.
  - exists p, rec. split; [exact Hp|]. split; [exact Hg|]. split; [exact Hs|exact Hw].
Defined.

(** At the same approval. *)
Lemma releases_traceable_witness :
  sha_collision ∨ release_traced
    (lineage (approve_decrypt ex_fhe_cfg "dreq_q1" "carol" (Some 1%Z) 1 "r1" (cx_state cx_parked)).2)
    cx_request "released_r1".
Proof.
  destruct (releases_traceable ex_fhe_cfg spelled_faithful cx_service0 cx_parked eq_refl eq_refl) as [_ Ha].
  assert (Hp : pending (cx_state cx_parked) !! "dreq_q1" = Some cx_request) by (vm_compute; reflexivity).
  assert (Hr : ∃ v, (approve_decrypt ex_fhe_cfg "dreq_q1" "carol" (Some 1%Z) 1 "r1" (cx_state cx_parked)).1
    = Ok (Released "dreq_q1" "released_r1" v)) by (eexists; vm_compute; reflexivity).
  destruct Hr as [v Hr].
  destruct (approve_decrypt ex_fhe_cfg "dreq_q1" "carol" (Some 1%Z) 1 "r1" (cx_state cx_parked)) as [r s'] eqn:He.
  cbn [fst] in Hr. subst r.
  exact (Ha "dreq_q1" "carol" (Some 1%Z) 1%Z "r1" cx_request _ _ _ s' Hp He).
Defined.
