(* ===== verification/Threshold.v ===== *)
(** Threshold decryption ([cvztte/cac/threshold]): the key authorities, the key
    ceremony and the decrypt coordinator, over the native executable. *)

From S2P Require Export CACBroker.
From S2P Require Import Concrete.
From stdpp Require Import pretty.

(** The operations of a [Participant]; an operation may change the files. *)
Record Participant : Type := mkParticipant {
  party_id : string;
  keygen_lead : string → string → string → M Files json;
  keygen_join : string → string → string → string → string → M Files json;
  partial_decrypt : string → string → string → bool → M Files json
}.

Section authority.
Context `{FHENative}.

(** [subprocess_util.run_broker_json] *)
Definition run_broker_json (args : list string) : M Files json :=
  if negb native_built then raise SECURITY_DEPENDENCY_UNAVAILABLE "FHE broker binary not built"
  else λ f,
    let '(o, f) := native_run args f in
    (match o with
     | NTimeout => err FHE_COMPUTE_TIMEOUT "FHE broker timed out"
     | NExited code out =>
         if decide (code ≠ 0%Z) then err FHE_COMPUTE_FAILED "FHE broker failed"
         else match out with
              | Some v => Ok v
              | None => err FHE_COMPUTE_FAILED "unparseable broker output"
              end
     end, f).

(** [KeyAuthority]: its identifier and the directory of its share. *)
Definition KeyAuthority (id share_dir : string) : Participant :=
  mkParticipant id
    (λ ctx_dir out_pub out_es,
       run_broker_json ["mp-keygen-lead"; ctx_dir; share_dir; out_pub; out_es])
    (λ ctx_dir prev_pub prev_es out_pub out_es,
       run_broker_json ["mp-keygen-join"; ctx_dir; share_dir; prev_pub; prev_es; out_pub; out_es])
    (λ ctx_dir ct out lead,
       run_broker_json [(if lead : bool then "mp-decrypt-lead" else "mp-decrypt-main"); ctx_dir;
                        share_dir; ct; out]).

(** [KeyAuthority.has_share] *)
Definition has_share (share_dir : string) (f : Files) : bool :=
  bool_decide (is_Some (f !! path_div share_dir "share-sec.bin")).

(** * The key ceremony *)

(** The rounds of the joiners in [ThresholdKeyCeremony.provision]; returns the last
    public and evaluation keys. *)
Fixpoint join_rounds (ctx_dir ceremony : string) (ps : list Participant) (pub es : string)
    : M Files (string * string) :=
  match ps with
  | [] => cret (pub, es)
  | p :: ps =>
      let next_pub := path_div ceremony ("pub-" +:+ party_id p +:+ ".bin") in
      let next_es := path_div ceremony ("es-" +:+ party_id p +:+ ".bin") in
      let! _ := keygen_join p ctx_dir pub es next_pub next_es in
      join_rounds ctx_dir ceremony ps next_pub next_es
  end.

(** [ThresholdKeyCeremony.__init__] and [provision] *)
Definition provision (ws : string) (participants : list Participant) (c : FHEContext) : M Files json :=
  if decide (length participants < 2) then
    raise FHE_THRESHOLD_INSUFFICIENT "threshold key ceremony requires at least 2 participants"
  else
  let ctx_dir := path_div (path_div ws "contexts") (context_id c) in
  let ceremony := path_div (path_div ws "ceremony") (context_id c) in
  let! gen := run_broker_json ["mp-gen-context"; ctx_dir; pretty (multiplicative_depth c);
    pretty (scaling_mod_size c); pretty (batch_size c); pretty (ring_dimension c)] in
  match participants with
  | [] => cthrow (PyExc "ValueError" "not enough values to unpack")
  | lead :: joiners =>
      let pub := path_div ceremony ("pub-" +:+ party_id lead +:+ ".bin") in
      let es := path_div ceremony ("es-" +:+ party_id lead +:+ ".bin") in
      let! _ := keygen_lead lead ctx_dir pub es in
      let! keys := join_rounds ctx_dir ceremony joiners pub es in
      let! _ := run_broker_json ["mp-install-public"; ctx_dir; keys.1; keys.2] in
      let! dim := clift (json_get "ring_dimension" gen) in
      cret (JObj [ ("context_id", JStr (context_id c)); ("context_dir", JStr ctx_dir);
                   ("ring_dimension", dim);
                   ("participants", JArr ((λ p, JStr (party_id p)) <$> participants)) ])
  end.

(** * The decrypt coordinator *)

Definition partial_path (dir run_id : string) (p : Participant) : string :=
  path_div dir ("partial-" +:+ run_id +:+ "-" +:+ party_id p +:+ ".bin").

(** The loop of [DecryptCoordinator.decrypt] over the parties. *)
Fixpoint collect_partials (ctx_dir ct dir run_id : string) (lead : bool) (ps : list Participant)
    : M Files (list string) :=
  match ps with
  | [] => cret []
  | p :: ps =>
      let out := partial_path dir run_id p in
      let! _ := partial_decrypt p ctx_dir ct out lead in
      let! rest := collect_partials ctx_dir ct dir run_id false ps in
      cret (out :: rest)
  end.

Context `{Hashlib, FloatOfStr}.

(** [DecryptCoordinator.decrypt]; [run_id] is its draw. *)
Definition coordinator_decrypt (ws : string) (participants : list Participant) (expected : Z)
    (ctx_dir result_path : string) (len : Z) (rq : DecryptReleaseRequest) (run_id : string)
    : M Files (list spec_float) :=
  if decide (Z.of_nat (length participants) ≠ expected) then
    raise FHE_THRESHOLD_INSUFFICIENT "not all required decryption parties are present"
  else
  let! _ := clift (release_authorize rq) in
  let dir := path_div ws "partials" in
  let! paths := collect_partials ctx_dir result_path dir run_id true participants in
  let! out := run_broker_json (["mp-decrypt-fuse"; ctx_dir; pretty len] ++ paths) in
  let! vals := clift (json_get "values" out) in
  match vals with
  | JArr l => clift (py_floats l)
  | _ => raise FHE_PARTIAL_DECRYPT_INVALID "fusion returned no plaintext"
  end.

(** * Every party takes part *)

(** Each participant in turn has answered its part of a protocol; [part lead p] is
    what it was asked. *)
Inductive all_answered (part : bool → Participant → M Files json) : bool → list Participant → Files → Files → Prop :=
| answered_nil lead f : all_answered part lead [] f f
| answered_cons lead p ps f f1 f2 v :
    part lead p f = (Ok v, f1) → all_answered part false ps f1 f2 → all_answered part lead (p :: ps) f f2.

Lemma collect_partials_ok ctx_dir ct dir run_id lead ps f paths f' :
  collect_partials ctx_dir ct dir run_id lead ps f = (Ok paths, f') →
  paths = partial_path dir run_id <$> ps ∧
  all_answered (λ lead p, partial_decrypt p ctx_dir ct (partial_path dir run_id p) lead) lead ps f f'.
Proof.
  revert lead f paths f'. induction ps as [|p ps IH]; intros lead f paths f'; cbn [collect_partials].
  - intros [= <- <-]. split; [done|constructor].
  - intros (v & f1 & Hp & Hr)%cbind_ok. apply cbind_ok in Hr as (rest & f2 & Hr & [= <- <-]).
    destruct (IH _ _ _ _ Hr) as [-> Hall]. split; [done|]. by econstructor.
Qed.

Lemma coordinator_decrypt_ok ws ps expected ctx_dir path len rq run_id f vals f' :
  coordinator_decrypt ws ps expected ctx_dir path len rq run_id f = (Ok vals, f') →
  Z.of_nat (length ps) = expected ∧ release_authorize rq = Ok tt ∧
  ∃ f1 out l,
    all_answered (λ lead p, partial_decrypt p ctx_dir path (partial_path (path_div ws "partials") run_id p) lead)
      true ps f f1 ∧
    run_broker_json (["mp-decrypt-fuse"; ctx_dir; pretty len] ++
      (partial_path (path_div ws "partials") run_id <$> ps)) f1 = (Ok out, f') ∧
    json_get "values" out = Ok (JArr l) ∧ py_floats l = Ok vals.
Proof.
  unfold coordinator_decrypt. case_decide as Hn; [done|]. intros ([] & ? & [= Hr <-] & Hrun)%cbind_ok.
  split; [lia|]. split; [done|].
  apply cbind_ok in Hrun as (paths & f1 & Hc & Hrun). apply collect_partials_ok in Hc as [-> Hall].
  apply cbind_ok in Hrun as (out & f2 & Hf & Hrun). apply cbind_ok in Hrun as (v & f3 & Hv & Hrun).
  injection Hv as Hv ->. destruct v as [| | | | |l|]; try done. injection Hrun as Hl ->.
  exists f1, out, l. by split_and!.
Qed.

(** C15. Decryption is N-of-N and gated.  If the coordinator returns plaintext, then the
    number of parties is the expected one; the gate held (DECRYPT_RESULT in a normal
    state, the authorized ciphertext, and approval where the class needs it); every
    party, the first as lead, has produced its partial decryption of that ciphertext;
    and what is returned is the fusion of exactly these partials.  If the gate or the
    count fails, no party is asked and no file changes. *)
Theorem threshold_all_parties ws ps expected ctx_dir path len rq run_id f r f' :
  coordinator_decrypt ws ps expected ctx_dir path len rq run_id f = (r, f') →
  (∀ vals, r = Ok vals →
     Z.of_nat (length ps) = expected ∧
     (DECRYPT_RESULT ∈ rl_granted rq ∧ rl_containment_state rq = NORMAL ∧
      domain_hash_hex D_FHE_RESULT (result_ciphertext_bytes rq) = expected_result_hash rq ∧
      (approval_required_class (rl_classification rq) = true → rl_approval_granted rq = true)) ∧
     ∃ f1 out l,
       all_answered (λ lead p, partial_decrypt p ctx_dir path (partial_path (path_div ws "partials") run_id p) lead)
         true ps f f1 ∧
       run_broker_json (["mp-decrypt-fuse"; ctx_dir; pretty len] ++
         (partial_path (path_div ws "partials") run_id <$> ps)) f1 = (Ok out, f') ∧
       json_get "values" out = Ok (JArr l) ∧ py_floats l = Ok vals) ∧
  (Z.of_nat (length ps) ≠ expected ∨ is_ok (release_authorize rq) = false → is_ok r = false ∧ f' = f).
Proof.
  intros Hrun. split.
  - intros vals ->. apply coordinator_decrypt_ok in Hrun as (Hn & Hr & Hrest). by apply release_authorize_ok in Hr.
  - revert Hrun. unfold coordinator_decrypt. case_decide as Hn; [by intros [= <- <-]|].
    unfold cbind at 1, clift at 1. destruct (release_authorize rq) as [[]|x]; [by intros _ [?|?]|by intros [= <- <-]].
Qed.

(** The ceremony installs keys only after the lead and every joiner answered, each
    building on the keys of the one before. *)
Inductive chained (ctx_dir ceremony : string) : list Participant → string → string → string → string → Files → Files → Prop :=
| chained_nil pub es f : chained ctx_dir ceremony [] pub es pub es f f
| chained_cons p ps pub es pub' es' f f1 f2 v :
    keygen_join p ctx_dir pub es (path_div ceremony ("pub-" +:+ party_id p +:+ ".bin"))
      (path_div ceremony ("es-" +:+ party_id p +:+ ".bin")) f = (Ok v, f1) →
    chained ctx_dir ceremony ps (path_div ceremony ("pub-" +:+ party_id p +:+ ".bin"))
      (path_div ceremony ("es-" +:+ party_id p +:+ ".bin")) pub' es' f1 f2 →
    chained ctx_dir ceremony (p :: ps) pub es pub' es' f f2.

Lemma join_rounds_ok ctx_dir ceremony ps pub es f keys f' :
  join_rounds ctx_dir ceremony ps pub es f = (Ok keys, f') →
  chained ctx_dir ceremony ps pub es keys.1 keys.2 f f'.
Proof.
  revert pub es f. induction ps as [|p ps IH]; intros pub es f; cbn [join_rounds].
  - intros [= <- <-]. constructor.
  - intros (v & f1 & Hp & Hr)%cbind_ok. econstructor; [exact Hp|by apply IH].
Qed.

Lemma provision_ok ws ps c f v f' :
  provision ws ps c f = (Ok v, f') →
  2 ≤ length ps ∧ ∃ lead joiners gen f1 w f2 pub es f3 u,
    let ctx_dir := path_div (path_div ws "contexts") (context_id c) in
    let ceremony := path_div (path_div ws "ceremony") (context_id c) in
    let pub0 := path_div ceremony ("pub-" +:+ party_id lead +:+ ".bin") in
    let es0 := path_div ceremony ("es-" +:+ party_id lead +:+ ".bin") in
    ps = lead :: joiners ∧
    run_broker_json ["mp-gen-context"; ctx_dir; pretty (multiplicative_depth c);
      pretty (scaling_mod_size c); pretty (batch_size c); pretty (ring_dimension c)] f = (Ok gen, f1) ∧
    keygen_lead lead ctx_dir pub0 es0 f1 = (Ok w, f2) ∧
    chained ctx_dir ceremony joiners pub0 es0 pub es f2 f3 ∧
    run_broker_json ["mp-install-public"; ctx_dir; pub; es] f3 = (Ok u, f').
Proof.
  unfold provision. case_decide as Hn; [done|]. intros (gen & f1 & Hg & Hrun)%cbind_ok. split; [lia|].
  destruct ps as [|lead joiners]; [done|].
  apply cbind_ok in Hrun as (w & f2 & Hl & Hrun). apply cbind_ok in Hrun as ([pub es] & f3 & Hj & Hrun).
  apply join_rounds_ok in Hj. apply cbind_ok in Hrun as (u & f4 & Hi & Hrun).
  apply cbind_ok in Hrun as (dim & f5 & [= Hd ->] & [= _ ->]).
  exists lead, joiners, gen, f1, w, f2, pub, es, f3, u. by split_and!.
Qed.
End authority.

(** * Witnesses: partials that carry the party, and a fusion that counts them *)

Import ShortInstances.

Definition mp_native : FHENative := {|
  native_built := true;
  native_run args f :=
    match args with
    | "mp-decrypt-lead" :: _ :: share :: ct :: out :: _ => (NExited 0 (Some (JObj [])), <[out := "lead" +:+ share]> f)
    | "mp-decrypt-main" :: _ :: share :: ct :: out :: _ => (NExited 0 (Some (JObj [])), <[out := share]> f)
    | "mp-decrypt-fuse" :: _ :: _ :: parts =>
        (NExited 0 (Some (JObj [("values", JArr [JInt (Z.of_nat (length parts))])])), f)
    | _ => (NExited 0 (Some (JObj [])), f)
    end |}.
#[local] Existing Instances mp_native toy_float.

Definition ex_parties : list Participant :=
  [KeyAuthority "a" "/shares/a"; KeyAuthority "b" "/shares/b"; KeyAuthority "c" "/shares/c"].
Definition ex_release_bytes : string := "ciphertext".
Definition ex_release_rq : DecryptReleaseRequest :=
  mkRelease "bob" "audit" SECRET {[DECRYPT_RESULT]} NORMAL ex_release_bytes
    (domain_hash_hex D_FHE_RESULT ex_release_bytes) true None.
Definition ex_fused :=
  coordinator_decrypt "/ws" ex_parties 3 "/ctx" "/ct" 1 ex_release_rq "run" ∅.

Example ex_fused_values : ex_fused.1 = Ok [of_int 3].
Proof. vm_compute. reflexivity. Qed.

(** C15 at three parties. *)
Lemma threshold_all_parties_witness :
  ∃ f1, all_answered (λ lead p, partial_decrypt p "/ctx" "/ct" (partial_path (path_div "/ws" "partials") "run" p) lead)
          true ex_parties ∅ f1.
Proof.
  pose proof ex_fused_values as Hr. destruct ex_fused as [r f'] eqn:He. cbn [fst] in Hr.
  destruct (threshold_all_parties "/ws" ex_parties 3 "/ctx" "/ct" 1 ex_release_rq "run" ∅ r f' He) as [Hok _].
  destruct (Hok _ Hr) as (_ & _ & f1 & out & l & Hall & _).
  exists f1. exact Hall.
Defined.
