(* ===== verification/Planes.v ===== *)
(** The two planes ([cvztte/control_plane/planes.py]): the surface an agent holds and
    the administrative one, whose every method asks for an administrator first. *)

From S2P Require Export PlaneHistory CAC.
From S2P Require Import Concrete PlaneProps.

(** [AdminAuthorizer]: the administrators. *)
Notation AdminAuthorizer := (gset string).

(** [AdminAuthorizer.require] *)
Definition require_admin (admins : AdminAuthorizer) (principal : string) : res unit :=
  if decide (principal ∉ admins) then err ENFORCEMENT_DENIED "principal is not an administrator"
  else Ok tt.

Section planes.
Context `{Hashlib, Rfc8785, Pydantic, SignatureProvider, IsoParser, OPA, PolicySchema}.
Context {G E K W : Type} `{ReplayGuardProtocol G E} `{ReceiptSink K}.
Variable cfg : PlaneConfig.
Variable admins : AdminAuthorizer.
Abbreviation plane := (ControlPlane (G := G) (K := K) (W := W)).

(** What the facades share: the control plane, whose registry and containment engine
    they are handed, and the registry of contexts if confidential computation is on. *)
Record Facade : Type := mkFacade { fa_plane : plane; fa_contexts : option FHEContextRegistry }.

Definition on_plane {A} (m : M plane A) : M Facade A :=
  czoom fa_plane (λ p s, mkFacade p (fa_contexts s)) m.
Definition on_keys {A} (m : M KeyRegistry A) : M plane A :=
  czoom key_registry (λ k s, mkPlane k (session_store s) (approvals s) (replay_guard s)
    (containment s) (enforcement s) (decisions s)) m.

(** * [AgentPlane] *)

Definition agent_create_session (agent runtime : string) (ttl now : option Z) (clock : Z) (uuid : string)
    : M Facade Session := on_plane (create_session agent runtime ttl now clock uuid).
Definition agent_evaluate (envelope : SignedEnvelope) (grant : Grant) (aud : string)
    (dest : option string) (rows bytes now : option Z) (clock : Z) (env : E) (dr : plane_draws)
    : M Facade EvaluationResult :=
  on_plane (plane_evaluate cfg envelope grant aud dest rows bytes now clock env dr).
Definition agent_evaluate_execute {Req} (envelope : SignedEnvelope) (grant : Grant)
    (broker : EnforcementBroker Req W) (rq : Req) (dest : option string) (rows bytes now : option Z)
    (clock : Z) (env : E) (dr : plane_draws) (mediated_at : Z) : M Facade ExecuteOutcome :=
  on_plane (evaluate_execute cfg envelope grant broker rq dest rows bytes now clock env dr mediated_at).
Definition agent_get_decision (s : Facade) (did : string) : res EvaluationResult :=
  get_decision (fa_plane s) did.
Definition agent_containment_status (s : Facade) (subject : string) : json :=
  containment_status (fa_plane s) subject.

(** * [AdminPlane] *)

(** [self._authz.require(principal)] before the body of a method. *)
Definition as_admin {A} (principal : string) (m : M Facade A) : M Facade A :=
  let! _ := clift (require_admin admins principal) in m.

Definition admin_register_agent (principal agent : string) : M Facade bool :=
  as_admin principal (on_plane (on_keys (register_agent agent))).
Definition admin_rotate_key (principal agent : string) (clock : Z) (entropy : string)
    : M Facade KeyRecord :=
  as_admin principal (on_plane (on_keys (Identity.rotate agent None clock entropy))).
Definition admin_revoke_key (principal kid reason : string) (clock : Z) : M Facade KeyRecord :=
  as_admin principal (on_plane (on_keys (revoke_key kid reason clock))).
Definition admin_revoke_agent (principal agent reason : string) (clock : Z) : M Facade (list KeyRecord) :=
  as_admin principal (on_plane (on_keys (revoke_agent agent reason clock))).

(** [AdminPlane.activate_fhe_context] *)
Definition admin_activate_fhe_context (principal : string) (c : FHEContext) : M Facade string :=
  as_admin principal
    (let! s := cget in
     match fa_contexts s with
     | None => raise SECURITY_DEPENDENCY_UNAVAILABLE "FHE registry not enabled"
     | Some m =>
         let '(r, m') := context_register c m in
         let! _ := cput (mkFacade (fa_plane s) (Some m')) in
         clift r
     end).

(** [AdminPlane.quarantine] *)
Definition admin_quarantine (principal subject agent : string) (runtime : option string)
    (reason_codes : option (list string)) (target : ContainmentState) (now : option Z) (clock : Z)
    : M Facade json :=
  as_admin principal (on_plane
    (quarantine subject agent runtime
       (match reason_codes with Some (c :: cs) => c :: cs | _ => ["ADMIN_QUARANTINE"] end)
       target now clock)).

(** [AdminPlane.reset_containment]: the principal is the approver. *)
Definition admin_reset_containment (principal subject agent : string) (method : RecoveryMethod)
    (runtime : option string) (now : option Z) (clock : Z) : M Facade json :=
  as_admin principal (on_plane
    (reset_containment subject agent method (Some principal) runtime now clock)).

(** [AdminPlane.approve], [AdminPlane.deny_approval] *)
Definition admin_approve (principal did : string) (now : option Z) (clock : Z) (dr : draws)
    : M Facade EvaluationResult :=
  as_admin principal (on_plane (plane_approve cfg did principal now clock dr)).
Definition admin_deny_approval (principal did : string) (reason : option string) (now : option Z)
    (clock : Z) : M Facade json :=
  as_admin principal (on_plane (deny_approval did principal reason now clock)).

(** * Calls on the facades *)

Inductive agent_op : Type :=
| GCreateSession (agent runtime : string) (ttl now : option Z) (clock : Z) (uuid : string)
| GEvaluate (envelope : SignedEnvelope) (grant : Grant) (aud : string) (dest : option string)
    (rows bytes now : option Z) (clock : Z) (env : E) (dr : plane_draws)
| GExecute {Req : Type} (envelope : SignedEnvelope) (grant : Grant) (broker : EnforcementBroker Req W)
    (rq : Req) (dest : option string) (rows bytes now : option Z) (clock : Z) (env : E)
    (dr : plane_draws) (mediated_at : Z).

Inductive admin_op : Type :=
| MRegister (agent : string)
| MRotate (agent : string) (clock : Z) (entropy : string)
| MRevokeKey (kid reason : string) (clock : Z)
| MRevokeAgent (agent reason : string) (clock : Z)
| MActivate (c : FHEContext)
| MQuarantine (subject agent : string) (runtime : option string) (codes : option (list string))
    (target : ContainmentState) (now : option Z) (clock : Z)
| MReset (subject agent : string) (method : RecoveryMethod) (runtime : option string) (now : option Z)
    (clock : Z)
| MApprove (did : string) (now : option Z) (clock : Z) (dr : draws)
| MDeny (did : string) (reason : option string) (now : option Z) (clock : Z).

Definition agent_step (s : Facade) (o : agent_op) : Facade :=
  match o with
  | GCreateSession a r ttl now t u => (agent_create_session a r ttl now t u s).2
  | GEvaluate e g aud d ro by_ now t env dr => (agent_evaluate e g aud d ro by_ now t env dr s).2
  | GExecute e g b rq d ro by_ now t env dr at_ =>
      (agent_evaluate_execute e g b rq d ro by_ now t env dr at_ s).2
  end.

(** An administrative call: how it ends (its value aside), and the state it leaves. *)
Definition admin_call (principal : string) (o : admin_op) (s : Facade) : res unit * Facade :=
  let done {A} (p : res A * Facade) := (let? _ := p.1 in Ok tt, p.2) in
  match o with
  | MRegister a => done (admin_register_agent principal a s)
  | MRotate a t e => done (admin_rotate_key principal a t e s)
  | MRevokeKey k why t => done (admin_revoke_key principal k why t s)
  | MRevokeAgent a why t => done (admin_revoke_agent principal a why t s)
  | MActivate c => done (admin_activate_fhe_context principal c s)
  | MQuarantine sb a rt c tg now t => done (admin_quarantine principal sb a rt c tg now t s)
  | MReset sb a m rt now t => done (admin_reset_containment principal sb a m rt now t s)
  | MApprove d now t dr => done (admin_approve principal d now t dr s)
  | MDeny d why now t => done (admin_deny_approval principal d why now t s)
  end.

(** Agents act through one facade, principals through the other. *)
Inductive facade_op : Type := FAgent (o : agent_op) | FAdmin (principal : string) (o : admin_op).
Definition facade_step (s : Facade) (o : facade_op) : Facade :=
  match o with
  | FAgent o => agent_step s o
  | FAdmin who o => (admin_call who o s).2
  end.

(** The step of the control plane a call amounts to, if it is one. *)
Definition plane_of_agent (o : agent_op) : plane_op (E := E) (W := W) :=
  match o with
  | GCreateSession a r ttl now t u => PCreateSession a r ttl now t u
  | GEvaluate e g aud d ro by_ now t env dr => PEvaluate e g aud d ro by_ now t env dr
  | GExecute e g b rq d ro by_ now t env dr at_ => PExecute e g b rq d ro by_ now t env dr at_
  end.
Definition plane_of_admin (who : string) (o : admin_op) : option (plane_op (E := E) (W := W)) :=
  match o with
  | MRegister a => Some (PKeys (KRegister a))
  | MRotate a t e => Some (PKeys (KGenerate a ACTIVE None None t e))
  | MRevokeKey k why t => Some (PKeys (KRevoke k why t))
  | MRevokeAgent a why t => Some (PKeys (KRevokeAgent a why t))
  | MActivate _ => None
  | MQuarantine sb a rt c tg now t =>
      Some (PQuarantine sb a rt (match c with Some (c :: cs) => c :: cs | _ => ["ADMIN_QUARANTINE"] end) tg now t)
  | MReset sb a m rt now t => Some (PReset sb a m (Some who) rt now t)
  | MApprove d now t dr => Some (PApprove d who now t dr)
  | MDeny d why now t => Some (PDeny d who why now t)
  end.
Definition plane_of (o : facade_op) : option (plane_op (E := E) (W := W)) :=
  match o with
  | FAgent o => Some (plane_of_agent o)
  | FAdmin who o => if decide (who ∈ admins) then plane_of_admin who o else None
  end.

(** * Facts *)

Lemma require_admin_in who : who ∈ admins → require_admin admins who = Ok tt.
Proof. intros. unfold require_admin. by rewrite decide_False by (by intros []). Qed.
Lemma require_admin_out who : who ∉ admins →
  require_admin admins who = err ENFORCEMENT_DENIED "principal is not an administrator".
Proof. intros. unfold require_admin. by rewrite decide_True. Qed.

Lemma as_admin_in {A} who (m : M Facade A) s : who ∈ admins → as_admin who m s = m s.
Proof. intros. unfold as_admin, cbind, clift. by rewrite require_admin_in. Qed.
Lemma as_admin_out {A} who (m : M Facade A) s : who ∉ admins →
  as_admin who m s = (err ENFORCEMENT_DENIED "principal is not an administrator", s).
Proof. intros. unfold as_admin, cbind, clift. by rewrite require_admin_out. Qed.

Lemma on_plane_state {A} (m : M plane A) s : fa_plane (on_plane m s).2 = (m (fa_plane s)).2.
Proof. unfold on_plane, czoom. by destruct (m (fa_plane s)). Qed.

Lemma on_keys_state {A} (m : M KeyRegistry A) (o : key_op) (s : plane) :
  (m (key_registry s)).2 = key_step (key_registry s) o → (on_keys m s).2 = plane_step (E := E) cfg s (PKeys o).
Proof. unfold on_keys, czoom. intros Hm. cbn [plane_step]. rewrite <-Hm. by destruct (m (key_registry s)). Qed.

(** A principal outside the list gets nowhere. *)
Lemma admin_call_denied who o s :
  who ∉ admins → admin_call who o s = (err ENFORCEMENT_DENIED "principal is not an administrator", s).
Proof. intros Hn. destruct o; cbn [admin_call]; unfold admin_register_agent, admin_rotate_key,
  admin_revoke_key, admin_revoke_agent, admin_activate_fhe_context, admin_quarantine,
  admin_reset_containment, admin_approve, admin_deny_approval; by rewrite as_admin_out. Qed.

(** The facades add nothing to the control plane. *)
Lemma facade_plane s o :
  fa_plane (facade_step s o) =
    match plane_of o with Some po => plane_step cfg (fa_plane s) po | None => fa_plane s end.
Proof.
  destruct o as [o|who o]; cbn [facade_step plane_of].
  - destruct o; cbn [agent_step plane_of_agent]; apply on_plane_state.
  - case_decide as Hin; [|by rewrite admin_call_denied].
    destruct o; cbn [admin_call plane_of_admin snd];
      unfold admin_register_agent, admin_rotate_key, admin_revoke_key, admin_revoke_agent,
        admin_activate_fhe_context, admin_quarantine, admin_reset_containment, admin_approve,
        admin_deny_approval; rewrite as_admin_in by done; rewrite ?on_plane_state; try done;
      try (by apply on_keys_state).
    unfold cbind, cget, cput, clift, raise, cthrow. destruct (fa_contexts s) as [m|]; [|done].
    by destruct (context_register c m) as [r m'].
Qed.

(** Plane steps of a history. *)
Definition plane_history (ops : list facade_op) : list (plane_op (E := E) (W := W)) := omap plane_of ops.

Lemma facade_history s ops :
  fa_plane (run facade_step s ops) = run (plane_step cfg) (fa_plane s) (plane_history ops).
Proof.
  revert s. induction ops as [|o ops IH]; intros s; [done|].
  change (run facade_step s (o :: ops)) with (run facade_step (facade_step s o) ops).
  rewrite IH, facade_plane. unfold plane_history. simpl. by destruct (plane_of o).
Qed.

(** * Approvals come from administrators *)

(** Every decided approval was decided by one. *)
Definition decided_by_admins (a : ApprovalStore) : Prop :=
  ∀ id rec, by_id a !! id = Some rec → a_state rec ≠ A_PENDING →
    ∃ who, approver rec = Some who ∧ who ∈ admins.

(** What a plane step does to the approvals. *)
Lemma approvals_step (s : plane) o :
  let a := approvals s in let a' := approvals (plane_step cfg s o) in
  a' = a ∨ (∃ d ag h k cl now clock u, a' = approval_step a (ARequest d ag h k cl None now clock u)) ∨
  ∃ d who why now clock, a' = approval_step a (AGrant d who why now clock) ∧ (∃ n c dr, o = PApprove d who n c dr) ∨
    a' = approval_step a (ADeny d who why now clock) ∧ (∃ w n c, o = PDeny d who w n c).
Proof.
  intros a a'. unfold a'. clear a'.
  assert (Hev : ∀ envelope grant aud dest rows bytes now clock env dr,
    approvals (plane_evaluate cfg envelope grant aud dest rows bytes now clock env dr s).2 = a ∨
    ∃ d ag h k cl now' clock' u,
      approvals (plane_evaluate cfg envelope grant aud dest rows bytes now clock env dr s).2 =
      approval_step a (ARequest d ag h k cl None now' clock' u)).
  { intros. destruct (plane_evaluate cfg _ _ _ _ _ _ _ _ _ _ s) as [r s'] eqn:He. cbn [snd].
    destruct (evaluate_cases _ _ _ _ _ _ _ _ _ _ _ _ _ _ He)
      as [(x & _ & g & -> & _)|(s1 & cs & dec & ah & _ & (g & -> & _) & _ & [(_ & res & _ & _ & _ & _ & ->)|(_ & sg & _ & _ & ->)])];
      [by left|right; eauto 20|by left]. }
  destruct o as [o|ag rt ttl now clock u|sid|env g aud d ro by_ now clock e dr
    |Req env g b rq d ro by_ now clock e dr t|Req b rq bd now|did who now clock dr
    |did who why now clock|sb ag rt c t now clock|sb ag m ap rt now clock|sb ag f rt c now clock];
    cbn [plane_step]; try (by left).
  - left. by destruct (create_session_frame ag rt ttl now clock u s) as [x ->].
  - destruct (Hev env g aud d ro by_ now clock e dr) as [?|?]; [by left|by right; left].
  - assert (Hx : approvals (evaluate_execute cfg env g b rq d ro by_ now clock e dr t s).2
      = approvals (plane_evaluate cfg env g (audience b) d ro by_ now clock e dr s).2).
    { unfold evaluate_execute, cbind.
      destruct (plane_evaluate cfg env g (audience b) d ro by_ now clock e dr s) as [[ev|x] s']; [|done].
      case_decide; [done|].
      destruct (on_enforcement (mediate b rq (binding_of (request env)) t) s') as [[o|x] s2] eqn:Hm;
        apply on_enforcement_frame in Hm as (_ & _ & Ha & _); done. }
    rewrite Hx. destruct (Hev env g (audience b) d ro by_ now clock e dr) as [?|?]; [by left|by right; left].
  - left. destruct (on_enforcement _ s) as [x s2] eqn:Hm. by apply on_enforcement_frame in Hm as (_ & _ & Ha & _).
  - destruct (plane_approve _ _ _ _ _ _ s) as [r s'] eqn:Ha. cbn [snd].
    destruct (approve_cases _ _ _ _ _ _ _ _ _ Ha)
      as [(x & _ & [->| ->])|(? & ? & ? & ? & ? & _ & _ & _ & _ & _ & _ & _ & _ & ->)]; [by left|..];
      right; right; exists did, who, None, (Some (or_now now clock)), clock; left; eauto.
  - right. right. exists did, who, why, now, clock. right. split; [|eauto].
    unfold deny_approval, cbind, on_approvals, czoom. cbn [approval_step].
    by destruct (approval_deny _ _ _ _ _ _) as [[] ?].
  - left. unfold quarantine, cbind, on_containment, czoom. by destruct (kill_switch _ _ _ _ _ _ _ _) as [[] ?].
  - left. unfold reset_containment, cbind, on_containment, czoom. by destruct (recover _ _ _ _ _ _ _ _) as [[] ?].
  - left. unfold on_containment, czoom. by destruct (evaluate _ _ _ _ _ _ _ _) as [? ?].
Qed.

Lemma decide_by_admins a d st who why now clock :
  who ∈ admins → decided_by_admins a → decided_by_admins (approval_decide d st who why now clock a).2.
Proof.
  intros Hw Ha. destruct (approval_decide d st who why now clock a) as [[r|x] a'] eqn:Hd.
  - apply approval_decide_ok in Hd as (r0 & _ & _ & _ & -> & ->). intros id rec. simpl.
    intros [[_ <-]|[_ Hr]]%lookup_insert_Some; [by exists who|exact (Ha _ _ Hr)].
  - apply approval_decide_err in Hd. by subst.
Qed.

(** The operations of a history whose approvals and denials come from administrators. *)
Definition admin_decisions (o : plane_op (E := E) (W := W)) : Prop :=
  match o with PApprove _ who _ _ _ | PDeny _ who _ _ _ => who ∈ admins | _ => True end.

Lemma decided_by_admins_step s o :
  admin_decisions o → decided_by_admins (approvals s) → decided_by_admins (approvals (plane_step cfg s o)).
Proof.
  intros Ho Ha. destruct (approvals_step s o) as
    [->|[(d & ag & h & k & cl & now & clock & u & ->)|(d & who & why & now & clock & [[-> (n & c & dr & ->)]|[-> (w & n & c & ->)]])]].
  - done.
  - intros id rec. simpl. intros [[_ <-]|[_ Hr]]%lookup_insert_Some; [done|exact (Ha _ _ Hr)].
  - by apply decide_by_admins.
  - by apply decide_by_admins.
Qed.

Lemma plane_history_admins ops : Forall admin_decisions (plane_history ops).
Proof.
  unfold plane_history. induction ops as [|o ops IH]; [constructor|]. simpl.
  destruct (plane_of o) as [po|] eqn:Hp; [|done]. constructor; [|done].
  destruct o as [o|who o]; cbn [plane_of] in Hp.
  - injection Hp as <-. by destruct o.
  - case_decide; [|done]. destruct o; cbn [plane_of_admin] in Hp; by simplify_eq.
Qed.

Lemma decided_by_admins_run ops s :
  Forall admin_decisions ops → decided_by_admins (approvals s) →
  decided_by_admins (approvals (run (plane_step cfg) s ops)).
Proof.
  intros Hops. revert s. induction Hops as [|o ops Ho _ IH]; intros s Hs; [done|].
  apply IH. by apply decided_by_admins_step.
Qed.

(** C12. Authority stays with the administrators.  Whatever agents and principals call
    on the two facades, the control plane goes through exactly the steps of the agents
    and of the administrators: a call by anyone else is ENFORCEMENT_DENIED and changes
    nothing.  No agent's call changes the containment of anybody.  And starting from a
    fresh plane whose identifiers are drawn fresh, every token at or above the risk
    threshold is for a decision whose approval an administrator granted. *)
Theorem admins_hold_authority s0 ops :
  fresh_plane (fa_plane s0) →
  guarded (plane_step cfg) (plane_fresh (E := E)) (fa_plane s0) (plane_history ops) →
  let s := run facade_step s0 ops in
  fa_plane s = run (plane_step cfg) (fa_plane s0) (plane_history ops) ∧
  (∀ who o, who ∉ admins →
     admin_call who o s = (err ENFORCEMENT_DENIED "principal is not an administrator", s)) ∧
  (∀ o, containment (fa_plane (agent_step s o)) = containment (fa_plane s)) ∧
  (∀ k t, store (fa_plane s) !! k = Some t →
     (RiskTier_value (require_approval_from_tier cfg) ≤ t_risk_level (token t))%Z →
     ∃ rec who, by_decision (approvals (fa_plane s)) (t_request_id (token t)) = Some rec ∧
       a_state rec = A_GRANTED ∧ approver rec = Some who ∧ who ∈ admins).
Proof.
  intros Hf Hg s. pose proof (facade_history s0 ops) as Hp. fold s in Hp. split_and!; [done| | |].
  - intros who o Hn. by apply admin_call_denied.
  - intros o. pose proof (facade_plane s (FAgent o)) as Ha. cbn [facade_step plane_of] in Ha.
    rewrite Ha, step_containment. by destruct o.
  - intros k t Hk Hrisk. rewrite Hp in *.
    pose proof (plane_inv_run cfg _ _ Hg (plane_inv_fresh cfg _ Hf)) as Hi.
    destruct (iv_token _ _ Hi _ _ Hk) as (e & _ & _ & _ & [[_ Hlow]|(rec & who & Hr & Hs & Hw)]); [lia|].
    assert (Hd : decided_by_admins (approvals (run (plane_step cfg) (fa_plane s0) (plane_history ops)))).
    { apply decided_by_admins_run; [apply plane_history_admins|]. destruct Hf as (_ & _ & ttl & ->).
      intros id rec'. simpl. by rewrite lookup_empty. }
    assert (Hid : ∃ id, by_id (approvals (run (plane_step cfg) (fa_plane s0) (plane_history ops))) !! id = Some rec).
    { unfold by_decision in Hr. destruct (by_decision_id _ !! _) as [id|]; [|done]. case_decide; [done|].
      by exists id. }
    destruct Hid as [id Hid]. destruct (Hd id rec Hid) as (who' & Hw' & Hin); [by rewrite Hs|].
    exists rec, who'. by split_and!.
Qed.
End planes.

(** * Witnesses: one administrator *)

Import Instances.
#[local] Existing Instances toy_provider iso_instance authz_engine strict_schema.

Definition ex_admins : gset string := {["carol"]}.
Definition ex_facade_ops : list (facade_op (E := unit) (W := list string)) :=
  [FAgent (GCreateSession "agt_1" "rt_1" None (Some 10%Z) 0 "1");
   FAgent (GEvaluate ex_request_env ex_grant "file" None None None (Some 25000000%Z) 0 () ex_pd);
   FAdmin "mallory" (MApprove "dec_d1" (Some 25500000%Z) 0 (mkDraws "t1" "q1" "n1"));
   FAdmin "carol" (MApprove "dec_d1" (Some 26000000%Z) 0 (mkDraws "t2" "q2" "n2"))].
Definition ex_facade0 : Facade (G := InMemoryReplayGuard) (K := list ExecutionReceipt) (W := list string) :=
  mkFacade ex_plane0 None.

Definition ex_facade_run := run (facade_step ex_cautious ex_admins) ex_facade0.

(** The outsider's approval mints nothing; the administrator's does. *)
Example ex_outsider_refused :
  store (fa_plane (ex_facade_run (take 3 ex_facade_ops))) = ∅ ∧
  length (map_to_list (store (fa_plane (ex_facade_run ex_facade_ops)))) = 1.
Proof. split; vm_compute; reflexivity. Qed.

(** C12 at a high-risk action approved by the administrator. *)
Lemma admins_hold_authority_witness :
  Forall (λ kt, ∃ rec who,
      by_decision (approvals (fa_plane (ex_facade_run ex_facade_ops))) (t_request_id (token kt.2)) = Some rec ∧
      approver rec = Some who ∧ who ∈ ex_admins)
    (map_to_list (store (fa_plane (ex_facade_run ex_facade_ops)))).
Proof.
  destruct (admins_hold_authority ex_cautious ex_admins ex_facade0 ex_facade_ops) as (_ & _ & _ & Hhigh).
  - exact ex_fresh.
  - split; [exact I|]. split; [vm_compute; exact (conj eq_refl eq_refl)|]. split; [exact I|exact I].
  - fold ex_facade_run in Hhigh. apply Forall_forall. intros [k t] Hk.
    pose proof Hk as Hm. apply elem_of_map_to_list in Hm.
    destruct (Hhigh k t Hm) as (rec & who & Hr & _ & Hw & Hin); [|exists rec, who; exact (conj Hr (conj Hw Hin))].
    revert k t Hk Hm.
    assert (Hall : Forall (λ kt : string * string * SignedDecisionToken, (0 ≤ t_risk_level (token kt.2))%Z)
      (map_to_list (store (fa_plane (ex_facade_run ex_facade_ops))))).
    { vm_compute. repeat constructor; discriminate. }
    intros k t Hk _. exact (proj1 (Forall_forall _ _) Hall (k, t) Hk).
Defined.
