(* ===== verification/Conformance.v ===== *)
(** Runtime profiles and the conformance harness ([cvztte/onboarding/profile.py],
    [conformance.py]): what an agent declares about its runtime, and the checks that
    run real enforcement in a throwaway workspace before activation. *)

From S2P Require Export Brokers Containment AuditLog.
From S2P Require Import Concrete.

(** * Profiles *)

(** [DeploymentMode] *)
Inductive DeploymentMode : Set := OBSERVE | WARN | ENFORCE | QUARANTINE.
#[export] Instance DeploymentMode_eq_dec : EqDecision DeploymentMode.
Proof. solve_decision. Defined.
Definition DeploymentMode_value (m : DeploymentMode) : string :=
  match m with
  | OBSERVE => "OBSERVE" | WARN => "WARN" | ENFORCE => "ENFORCE" | QUARANTINE => "QUARANTINE"
  end.

(** [ActivationState] *)
Inductive ActivationState : Set :=
| REGISTERED | PROFILED | CONFORMANCE_PASSED | ENFORCED | ACT_QUARANTINED | DISABLED.

(** [SandboxProfile] *)
Record SandboxProfile : Set := mkSandbox {
  isolated : bool;
  no_unrestricted_egress : bool;
  filesystem_confined : bool
}.

(** [ChannelPolicy] *)
Record ChannelPolicy : Set := mkChannel {
  ch_mediated : bool;
  ch_allowlist : list string;
  deny_direct : bool
}.
Definition default_channel : ChannelPolicy := mkChannel false [] true.

(** [AgentRuntimeProfile] *)
Record AgentRuntimeProfile : Set := mkProfile {
  pf_agent_id : string;
  pf_runtime_id : string;
  pf_framework : string;
  delegation_template : string;
  pf_policy_hash : string;
  max_risk_level : Z;
  sandbox : SandboxProfile;
  tool_policy : ChannelPolicy;
  network_policy : ChannelPolicy;
  filesystem_policy : ChannelPolicy;
  secret_policy : ChannelPolicy;
  output_policy : ChannelPolicy;
  semantic_adapter : option string;
  activation_state : ActivationState
}.

(** [profile.model_copy(update={"activation_state": ...})] *)
Definition set_activation (st : ActivationState) (p : AgentRuntimeProfile) : AgentRuntimeProfile :=
  mkProfile (pf_agent_id p) (pf_runtime_id p) (pf_framework p) (delegation_template p)
    (pf_policy_hash p) (max_risk_level p) (sandbox p) (tool_policy p) (network_policy p)
    (filesystem_policy p) (secret_policy p) (output_policy p) (semantic_adapter p) st.

(** The channels [mandatory_controls_present] goes through, in its order. *)
Definition channels (p : AgentRuntimeProfile) : list (string * ChannelPolicy) :=
  [ ("tool_policy", tool_policy p); ("network_policy", network_policy p);
    ("filesystem_policy", filesystem_policy p); ("secret_policy", secret_policy p);
    ("output_policy", output_policy p) ].

Definition channel_missing (c : string * ChannelPolicy) : list string :=
  (if ch_mediated c.2 then [] else [c.1 +:+ ".mediated"]) ++
  (if deny_direct c.2 then [] else [c.1 +:+ ".deny_direct"]).

(** [AgentRuntimeProfile.mandatory_controls_present] *)
Definition mandatory_controls_present (p : AgentRuntimeProfile) : bool * list string :=
  let missing :=
    (if no_unrestricted_egress (sandbox p) then [] else ["sandbox.no_unrestricted_egress"]) ++
    (channels p ≫= channel_missing) in
  (bool_decide (missing = []), missing).

(** The controls are present exactly when the sandbox allows no unrestricted egress and
    every channel is mediated and denies direct access. *)
Lemma controls_present_iff p :
  (mandatory_controls_present p).1 = true ↔
  no_unrestricted_egress (sandbox p) = true ∧
  Forall (λ c, ch_mediated c.2 = true ∧ deny_direct c.2 = true) (channels p).
Proof.
  unfold mandatory_controls_present. cbn [fst]. rewrite bool_decide_eq_true.
  assert (Hc : ∀ cs, cs ≫= channel_missing = [] ↔
    Forall (λ c, ch_mediated c.2 = true ∧ deny_direct c.2 = true) cs).
  { induction cs as [|c cs IH]; [done|]. rewrite bind_cons, Forall_cons, app_nil, IH.
    unfold channel_missing. destruct (ch_mediated c.2), (deny_direct c.2); naive_solver. }
  rewrite app_nil, Hc. destruct (no_unrestricted_egress (sandbox p)); naive_solver.
Qed.

(** * The harness *)

(** [ConformanceCheck], [ConformanceReport] *)
Record ConformanceCheck : Set := mkCheck { ck_name : string; ck_passed : bool; ck_detail : string }.
Record ConformanceReport : Set := mkReport {
  cr_agent_id : string;
  cr_runtime_id : string;
  cr_checks : list ConformanceCheck
}.
Definition report_passed (r : ConformanceReport) : bool := forallb ck_passed (cr_checks r).
Definition failures (r : ConformanceReport) : list string :=
  ck_name <$> filter (λ c, ck_passed c = false) (cr_checks r).

(** What one check draws: the token's identifiers, and when the token is minted and the
    request mediated. *)
Record check_draws : Set := mkCheckDraws { ck_token : draws; ck_issued : Z; ck_mediated : Z }.

(** What one run draws: the key and the instants of its checks. *)
Record run_draws : Set := mkRunDraws {
  rn_key : string;
  rn_bypass : Z;
  rn_happy : check_draws;
  rn_deny : check_draws;
  rn_binding : check_draws;
  rn_kill : check_draws;
  rn_killed : Z
}.

(** The checks every conformance token claims. *)
Definition conformance_checks : TokenChecks := mkChecks true true true true "SAFE" true.

(** What [_wiring] returns *)
Record wired : Type := mkWired {
  wi_authority : DecisionTokenAuthority;
  wi_root : string;
  wi_validator : DecisionTokenValidator
}.

Section harness.
Context `{Hashlib, Rfc8785, Pydantic, Kernel}.
Variable p : AgentRuntimeProfile.

(** The binding of [run] *)
Definition harness_binding : AdapterBinding :=
  mkBinding (pf_agent_id p) (pf_runtime_id p) "ses_conformance" None.

(** [ConformanceHarness._wiring]: the authority, the root of the broker and its
    validator, with an empty store and a sink of its own. *)
Definition wiring (workspace key : string) (eps : option EpochSet) : M history wired :=
  let eps := default default_epochs eps in
  let! auth := clift (new_authority key 30) in
  let! v := clift (new_validator key eps) in
  let! root := ask_str (SRealpath workspace) in
  cret (mkWired auth root v).

(** [ConformanceHarness._present] *)
Definition present_for (w : wired) (binding : AdapterBinding) (req : FileRequest) (eps : EpochSet) (decision : TokenDecision)
    (dr : check_draws) : res DecisionTokenValidator :=
  let? action := file_observe (wi_root w) req binding in
  let? signed := issue (wi_authority w) action binding (audience (FileBroker (wi_root w))) (pf_policy_hash p) eps
    decision 0 NORMAL (Some conformance_checks) None 1 None None (ck_issued dr) (ck_token dr) in
  Ok (present signed (wi_validator w)).2.

(** [try: out = broker.mediate(req, binding) except CVZTTEError as exc] *)
Definition attempt (root : string) (v : DecisionTokenValidator) (req : FileRequest)
    (binding : AdapterBinding) (now : Z) : M history (MediationOutcome + CVZTTEError) :=
  λ h, let '(r, es) := mediate (FileBroker root) req binding now (mkES v (mkAuditSink [] now) h) in
       (match r with
        | Ok out => Ok (inl out)
        | Err (Cvztte e) => Ok (inr e)
        | Err x => Err x
        end, world es).

Definition file_write (name content : string) : FileRequest :=
  mkFileRequest name "write" (Some content) INTERNAL.

(** [(Path(ws) / name).exists()] *)
Definition exists_in (ws name : string) : M history bool :=
  let! n := ask_int (SExists (path_join ws name)) in
  cret (negb (bool_decide (n = 0%Z))).

(** [ConformanceHarness._check_bypass_blocked] *)
Definition check_bypass_blocked (ws key : string) (now : Z) : M history ConformanceCheck :=
  let! w := wiring ws key None in
  let! r := attempt (wi_root w) (wi_validator w) (file_write "bypass.txt" "x") harness_binding now in
  cret match r with
       | inr e => mkCheck "direct_bypass_blocked" true (code_value (code e))
       | inl _ => mkCheck "direct_bypass_blocked" false "un-tokened request was NOT denied"
       end.

(** [ConformanceHarness._check_happy_path] *)
Definition check_happy_path (ws key : string) (dr : check_draws) : M history ConformanceCheck :=
  let! w := wiring ws key None in
  let req := file_write "ok.txt" "hello" in
  let! v := clift (present_for w harness_binding req default_epochs TD_ALLOW dr) in
  let! r := attempt (wi_root w) v req harness_binding (ck_mediated dr) in
  cret match r with
       | inr e => mkCheck "mediated_happy_path" false (code_value (code e))
       | inl out => mkCheck "mediated_happy_path"
                      (bool_decide (rc_outcome (mo_receipt out) = "EXECUTED"))
                      (rc_outcome (mo_receipt out))
       end.

(** [ConformanceHarness._check_mediated_deny] *)
Definition check_mediated_deny (ws key : string) (dr : check_draws) : M history ConformanceCheck :=
  let! w := wiring ws key None in
  let req := file_write "deny.txt" "x" in
  let! v := clift (present_for w harness_binding req default_epochs TD_DENY dr) in
  let! r := attempt (wi_root w) v req harness_binding (ck_mediated dr) in
  cret match r with
       | inr e => mkCheck "mediated_deny" true (code_value (code e))
       | inl _ => mkCheck "mediated_deny" false "DENY token executed"
       end.

(** [ConformanceHarness._check_exact_binding] *)
Definition check_exact_binding (ws key : string) (dr : check_draws) : M history ConformanceCheck :=
  let! w := wiring ws key None in
  let! v := clift (present_for w harness_binding (file_write "a.txt" "x")
                     default_epochs TD_ALLOW dr) in
  let! r := attempt (wi_root w) v (file_write "b.txt" "x") harness_binding (ck_mediated dr) in
  match r with
  | inr e =>
      let! there := exists_in ws "b.txt" in
      cret (mkCheck "decision_token_exact_binding" (negb there) (code_value (code e)))
  | inl _ => cret (mkCheck "decision_token_exact_binding" false "token for A executed action B")
  end.

(** [ConformanceHarness._check_adapter_context] *)
Definition check_adapter_context : ConformanceCheck :=
  match semantic_adapter p with
  | Some a =>
      if decide (a = "") then
        mkCheck "adapter_context" true "no adapter (unknown-framework fallback: boundary-only)"
      else mkCheck "adapter_context" true ("adapter=" +:+ a)
  | None => mkCheck "adapter_context" true "no adapter (unknown-framework fallback: boundary-only)"
  end.

(** [ConformanceHarness._check_kill_switch]; the engine and the validator share the
    epoch source. *)
Definition check_kill_switch (ws key : string) (dr : check_draws) (killed_at : Z)
    : M history ConformanceCheck :=
  let eps := default_epochs in
  let! w := wiring ws key (Some eps) in
  let req := file_write "kill.txt" "x" in
  let! v := clift (present_for w harness_binding req eps TD_ALLOW dr) in
  let subject := pf_agent_id p +:+ "|" +:+ pf_runtime_id p +:+ "|" +:+ "ses_conformance" in
  let '(k, engine) := kill_switch subject (pf_agent_id p) QUARANTINED ["CONFORMANCE_KILL_TEST"]
    (Some (pf_runtime_id p)) None killed_at (new_engine None (Some eps) (seconds 300)) in
  let! _ := clift k in
  let killed := bool_decide (engine_state engine subject = QUARANTINED) in
  let! r := attempt (wi_root w) (set_epochs (epoch_source engine) v) req harness_binding (ck_mediated dr) in
  match r with
  | inr e =>
      let! there := (if killed then exists_in ws "kill.txt" else cret true) in
      cret (mkCheck "kill_switch" (killed && negb there) (code_value (code e)))
  | inl _ => cret (mkCheck "kill_switch" false "token still executed after kill switch")
  end.

(** The body of [run] under the temporary directory *)
Definition run_checks (ws : string) (d : run_draws) : M history (list ConformanceCheck) :=
  let key := rn_key d in
  let! bypass := check_bypass_blocked ws key (rn_bypass d) in
  let! happy := check_happy_path ws key (rn_happy d) in
  let! deny := check_mediated_deny ws key (rn_deny d) in
  let! exact := check_exact_binding ws key (rn_binding d) in
  let! kill := check_kill_switch ws key (rn_kill d) (rn_killed d) in
  cret [bypass; happy; deny; exact; check_adapter_context; kill].

(** [ConformanceHarness.run] *)
Definition harness_run (d : run_draws) : M history ConformanceReport :=
  let! ws := ask_str (SMkdtemp "cvztte-conformance-") in
  let! checks := cfinally (run_checks ws d) (ask_unit (SRmtree ws)) in
  cret (mkReport (pf_agent_id p) (pf_runtime_id p) checks).
End harness.

(** * What a report can say *)

Section report.
Context `{Hashlib, Rfc8785, Pydantic, Kernel} (p : AgentRuntimeProfile).

(** Calls that look and touch nothing. *)
Definition looks (c : syscall * answer) : Prop :=
  match c.1 with SRealpath _ | SExists _ => True | _ => False end.

Lemma ask_str_inv c h r h' :
  ask_str c h = (r, h') → ∃ a, h' = h ++ [(c, a)] ∧ ∀ s, r = Ok s → a = AStr s.
Proof.
  unfold ask_str, ask, cbind, cret, cthrow. intros Ha. exists (kernel h c).
  destruct (kernel h c); simplify_eq; naive_solver.
Qed.
Lemma ask_int_inv c h r h' :
  ask_int c h = (r, h') → ∃ a, h' = h ++ [(c, a)] ∧ ∀ z, r = Ok z → a = AInt z.
Proof.
  unfold ask_int, ask, cbind, cret, cthrow. intros Ha. exists (kernel h c).
  destruct (kernel h c); simplify_eq; naive_solver.
Qed.

Lemma exists_in_inv ws name h b h' :
  exists_in ws name h = (Ok b, h') →
  ∃ z, h' = h ++ [(SExists (path_join ws name), AInt z)] ∧ b = negb (bool_decide (z = 0%Z)).
Proof.
  unfold exists_in. intros He. apply cbind_ok in He as (z & h1 & Hz & He). injection He as <- <-.
  apply ask_int_inv in Hz as (a & -> & Ha). rewrite (Ha z eq_refl). by exists z.
Qed.

Lemma wiring_inv ws key eps h w h' :
  wiring ws key eps h = (Ok w, h') →
  h' = h ++ [(SRealpath ws, AStr (wi_root w))] ∧
  wi_validator w = mkValidator key (default default_epochs eps) ∅ ∅.
Proof.
  unfold wiring. intros Hw. apply cbind_ok in Hw as (auth & h1 & Ha & Hw). injection Ha as Ha <-.
  apply cbind_ok in Hw as (v & h2 & Hv & Hw). injection Hv as Hv <-.
  apply cbind_ok in Hw as (root & h3 & Hr & Hw). injection Hw as <- <-.
  apply ask_str_inv in Hr as (a & -> & Hr). rewrite (Hr root eq_refl). split; [done|].
  unfold new_validator in Hv. case_decide; simplify_eq. done.
Qed.

(** The one token presented is for the request, the decision and the epochs it was
    issued for. *)
Lemma presented_only w binding req eps decision dr v e signed a h aud t :
  v_store (wi_validator w) = ∅ →
  present_for p w binding req eps decision dr = Ok v →
  authorizes (set_epochs e v) signed a h binding aud t →
  t_decision (token signed) = decision ∧ eps = e ∧ fr_path req = target a.
Proof.
  intros Hv Hp Ha. unfold present_for in Hp. apply rbind_ok in Hp as (act & Hob & Hp).
  apply rbind_ok in Hp as (s & Hi & Hp). injection Hp as <-. apply issue_ok in Hi.
  destruct Hi as (_ & _ & _ & _ & _ & Ht & _ & _ & _ & _ & _ & _ & He & Hd & _).
  destruct Ha. simpl in *. rewrite Hv in az_presented.
  apply lookup_insert_Some in az_presented as [[_ <-]|[_ Hl]]; [|by rewrite lookup_empty in Hl].
  rewrite Ht in az_target. split_and!; [done|congruence|].
  rewrite <-az_target. unfold file_observe in Hob. destruct (op_to_action _); [|done].
  by injection Hob as <-.
Qed.

Lemma same_epochs v : set_epochs (v_epochs v) v = v.
Proof. by destruct v. Qed.

(** A mediation no token can grant is refused, and asks the kernel nothing. *)
Lemma attempt_refused root v req binding now h x h' :
  (∀ signed a act, observe (FileBroker root) req binding = Ok act → effect_of (t_decision (token signed)) = ALLOW →
     ¬ authorizes v signed act a binding "file-broker-01" now) →
  attempt root v req binding now h = (Ok x, h') → h' = h ∧ ∃ e, x = inr e.
Proof.
  unfold attempt. intros Hno Ha.
  destruct (mediate (FileBroker root) req binding now (mkES v (mkAuditSink [] now) h)) as [r es] eqn:Hm.
  destruct (mediate_cases _ _ _ _ _ _ _ Hm) as [[Hr Hw]|(a & d & v' & [Hob (hh & Hh & Haz & Hx) Hal] & _)].
  - simpl in Hw. destruct r as [o|[]]; simplify_eq; eauto.
  - exfalso. apply authorize_ok in Haz as (signed & Haz & -> & _). eapply Hno; [exact Hob|exact Hal|exact Haz].
Qed.

Lemma bypass_inv ws key now h c h' :
  check_bypass_blocked p ws key now h = (Ok c, h') →
  ck_name c = "direct_bypass_blocked" ∧ ck_passed c = true ∧
  ∃ calls, h' = h ++ calls ∧ Forall looks calls.
Proof.
  unfold check_bypass_blocked. intros Hc. apply cbind_ok in Hc as (w & h1 & Hw & Hc).
  apply wiring_inv in Hw as [-> Hv]. apply cbind_ok in Hc as (r & h2 & Ha & Hc). injection Hc as <- <-.
  apply attempt_refused in Ha as [-> [e ->]].
  - split_and!; [done..|]. eexists; split; [done|]. by repeat constructor.
  - intros signed a act _ _ []. rewrite Hv in az_presented. simpl in az_presented.
    by rewrite lookup_empty in az_presented.
Qed.

Lemma deny_inv ws key dr h c h' :
  check_mediated_deny p ws key dr h = (Ok c, h') →
  ck_name c = "mediated_deny" ∧ ck_passed c = true ∧
  ∃ calls, h' = h ++ calls ∧ Forall looks calls.
Proof.
  unfold check_mediated_deny. intros Hc. apply cbind_ok in Hc as (w & h1 & Hw & Hc).
  apply wiring_inv in Hw as [-> Hv]. apply cbind_ok in Hc as (v & h2 & Hp & Hc). injection Hp as Hp <-.
  apply cbind_ok in Hc as (r & h2 & Ha & Hc). injection Hc as <- <-.
  apply attempt_refused in Ha as [-> [e ->]].
  - split_and!; [done..|]. eexists; split; [done|]. by repeat constructor.
  - intros signed a act _ Hal Haz. assert (Hv0 : v_store (wi_validator w) = ∅) by by rewrite Hv.
    rewrite <-(same_epochs v) in Haz.
    destruct (presented_only _ _ _ _ _ _ _ _ _ _ _ _ _ Hv0 Hp Haz) as (Hd & _).
    by rewrite Hd in Hal.
Qed.

Lemma exact_inv ws key dr h c h' :
  check_exact_binding p ws key dr h = (Ok c, h') →
  ck_name c = "decision_token_exact_binding" ∧
  ∃ calls z, h' = h ++ calls ∧ Forall looks calls ∧
    (SExists (path_join ws "b.txt"), AInt z) ∈ calls ∧ ck_passed c = bool_decide (z = 0%Z).
Proof.
  unfold check_exact_binding. intros Hc. apply cbind_ok in Hc as (w & h1 & Hw & Hc).
  apply wiring_inv in Hw as [-> Hv]. apply cbind_ok in Hc as (v & h2 & Hp & Hc). injection Hp as Hp <-.
  apply cbind_ok in Hc as (r & h2 & Ha & Hc).
  apply attempt_refused in Ha as [-> [e ->]].
  - apply cbind_ok in Hc as (b & h3 & He & Hc). injection Hc as <- <-.
    apply exists_in_inv in He as (z & -> & ->). split; [done|].
    eexists [_; _], z. rewrite <-app_assoc. split; [done|]. split; [by repeat constructor|].
    split; [set_solver|]. simpl. by rewrite negb_involutive.
  - intros signed a act Hob _ Haz. assert (Hv0 : v_store (wi_validator w) = ∅) by by rewrite Hv.
    rewrite <-(same_epochs v) in Haz.
    destruct (presented_only _ _ _ _ _ _ _ _ _ _ _ _ _ Hv0 Hp Haz) as (_ & _ & Ht).
    injection Hob as <-. done.
Qed.

Lemma kill_inv ws key dr t h c h' :
  check_kill_switch p ws key dr t h = (Ok c, h') →
  ck_name c = "kill_switch" ∧
  ∃ calls z, h' = h ++ calls ∧ Forall looks calls ∧
    (SExists (path_join ws "kill.txt"), AInt z) ∈ calls ∧ ck_passed c = bool_decide (z = 0%Z).
Proof.
  unfold check_kill_switch. intros Hc. apply cbind_ok in Hc as (w & h1 & Hw & Hc).
  apply wiring_inv in Hw as [-> Hv]. apply cbind_ok in Hc as (v & h2 & Hp & Hc). injection Hp as Hp <-.
  destruct (kill_switch _ _ _ _ _ _ _ _) as [k engine] eqn:Hk.
  apply cbind_ok in Hc as (tr & h2 & Hok & Hc). injection Hok as -> <-.
  destruct (kill_switch_spec _ _ _ _ _ _ _ _ _ _ Hk) as [(x & [=] & _)|(_ & tr' & [= <-] & Hm & Hn)].
  rewrite (mv_new _ _ _ _ Hm), Hn in Hc.
  rewrite bool_decide_eq_true_2 in Hc by done.
  apply cbind_ok in Hc as (r & h2 & Ha & Hc).
  apply attempt_refused in Ha as [-> [e ->]].
  - apply cbind_ok in Hc as (b & h3 & He & Hc). injection Hc as <- <-.
    apply exists_in_inv in He as (z & -> & ->). split; [done|].
    eexists [_; _], z. rewrite <-app_assoc. split; [done|]. split; [by repeat constructor|].
    split; [set_solver|]. simpl. by rewrite negb_involutive.
  - intros signed a act _ _ Haz. assert (Hv0 : v_store (wi_validator w) = ∅) by by rewrite Hv.
    destruct (presented_only _ _ _ _ _ _ _ _ _ _ _ _ _ Hv0 Hp Haz) as (_ & He & _).
    rewrite (mv_epoch _ _ _ _ Hm) in He. discriminate He.
Qed.

(** The happy path works in its own root, and passes only after the write. *)
Lemma happy_inv ws key dr h c h' :
  check_happy_path p ws key dr h = (Ok c, h') →
  ck_name c = "mediated_happy_path" ∧
  ∃ root calls, h' = h ++ (SRealpath ws, AStr root) :: calls ∧ confined root [] calls ∧
    (ck_passed c = true → ∃ l fd x y, calls = l ++ [(SWrite fd "hello", x); (SClose fd, y)]).
Proof.
  unfold check_happy_path. intros Hc. apply cbind_ok in Hc as (w & h1 & Hw & Hc).
  apply wiring_inv in Hw as [-> Hv]. apply cbind_ok in Hc as (v & h2 & Hp & Hc). injection Hp as Hp <-.
  apply cbind_ok in Hc as (r & h2 & Ha & Hc). injection Hc as <- <-.
  split; [by destruct r as [?|?]|]. exists (wi_root w).
  set (h1 := h ++ _) in Ha. unfold attempt in Ha.
  destruct (mediate (FileBroker (wi_root w)) _ _ _ _) as [o es] eqn:Hm.
  assert (Hh2 : h2 = world es) by (by destruct o as [?|[]]; simplify_eq).
  assert (Hr : ∀ out, r = inl out → o = Ok out) by (intros out ->; by destruct o as [?|[]]; simplify_eq).
  clear Ha. subst h2.
  destruct (mediate_cases _ _ _ _ _ _ _ Hm) as [[Hno Hsame]|(a & d & v' & _ & _ & Hw & Ho)].
  - exists []. cbn [world] in Hsame. rewrite Hsame. split_and!; [done..|].
    destruct r as [out|]; [|done]. rewrite (Hr out eq_refl) in Hno. done.
  - cbn [execute FileBroker world] in Hw, Ho.
    destruct (file_execute (wi_root w) a d (file_write "ok.txt" "hello") h1) as [x h2] eqn:Hx.
    cbn [snd] in Hw. subst h2.
    destruct (stays_run _ _ _ _ _ _ (file_execute_stays _ _ _ _) Hx) as (calls & Hcalls & Hconf).
    exists calls. rewrite Hcalls. unfold h1. rewrite <-app_assoc. split_and!; [done..|].
    destruct r as [out|]; [|done]. intros _.
    destruct (Ho out (Hr out eq_refl)) as (_ & _ & Hres). cbn [fst] in Hres. subst x.
    destruct (file_write_reaches _ _ _ _ _ _ _ Hx eq_refl) as (l & fd & y & z & Hl).
    exists l, fd, y, z. rewrite Hl in Hcalls. by apply app_inv_head in Hcalls.
Qed.

Definition verdicts (r : ConformanceReport) : list (string * bool) :=
  (λ c, (ck_name c, ck_passed c)) <$> cr_checks r.

(** What a conformance report can say.  Whatever the kernel answers, a report that
    the harness returns has the six checks in order; the bypass, the denied token and
    the adapter pass; the token bound to another action and the killed subject are
    refused, and their checks pass exactly when the kernel then shows no such file.  Only
    the happy path does more than resolve and look: it stays inside the workspace root
    the kernel resolved, and passes only when its write has reached the kernel. *)
Theorem conformance_report_exact d h rep h' :
  harness_run p d h = (Ok rep, h') →
  ∃ ws root pre happy post hp z1 z2 a,
    h' = h ++ (SMkdtemp "cvztte-conformance-", AStr ws) :: pre ++ happy ++ post ++ [(SRmtree ws, a)] ∧
    Forall looks (pre ++ post) ∧ (SRealpath ws, AStr root) ∈ pre ∧ confined root [] happy ∧
    (hp = true → ∃ l fd x y, happy = l ++ [(SWrite fd "hello", x); (SClose fd, y)]) ∧
    (SExists (path_join ws "b.txt"), AInt z1) ∈ post ∧
    (SExists (path_join ws "kill.txt"), AInt z2) ∈ post ∧
    verdicts rep = [ ("direct_bypass_blocked", true); ("mediated_happy_path", hp);
                     ("mediated_deny", true);
                     ("decision_token_exact_binding", bool_decide (z1 = 0%Z));
                     ("adapter_context", true); ("kill_switch", bool_decide (z2 = 0%Z)) ].
Proof.
  unfold harness_run. intros Hr. apply cbind_ok in Hr as (ws & h1 & Hws & Hr).
  apply ask_str_inv in Hws as (w & -> & Hw). rewrite (Hw ws eq_refl) in Hr.
  apply cbind_ok in Hr as (checks & h2 & Hc & Hr). injection Hr as <- <-.
  unfold cfinally in Hc. destruct (run_checks p ws d _) as [o h3] eqn:Hrun.
  assert (o = Ok checks ∧ ∃ a, h2 = h3 ++ [(SRmtree ws, a)]) as [-> [a ->]].
  { unfold ask_unit, ask, cbind, cret in Hc. destruct (kernel h3 (SRmtree ws)); simplify_eq; eauto. }
  clear Hc. unfold run_checks in Hrun.
  apply cbind_ok in Hrun as (c1 & h4 & Hc1 & Hrun). apply bypass_inv in Hc1 as (N1 & P1 & l1 & -> & F1).
  apply cbind_ok in Hrun as (c2 & h5 & Hc2 & Hrun). apply happy_inv in Hc2 as (N2 & root & l2 & -> & F2 & W2).
  apply cbind_ok in Hrun as (c3 & h6 & Hc3 & Hrun). apply deny_inv in Hc3 as (N3 & P3 & l3 & -> & F3).
  apply cbind_ok in Hrun as (c4 & h7 & Hc4 & Hrun).
  apply exact_inv in Hc4 as (N4 & l4 & z1 & -> & F4 & E4 & P4).
  apply cbind_ok in Hrun as (c5 & h8 & Hc5 & Hrun). injection Hrun as <- <-.
  apply kill_inv in Hc5 as (N5 & l5 & z2 & -> & F5 & E5 & P5).
  exists ws, root, (l1 ++ [(SRealpath ws, AStr root)]), l2, (l3 ++ l4 ++ l5), (ck_passed c2), z1, z2, a.
  split; [by rewrite <-!app_assoc|].
  split; [rewrite !Forall_app; split_and!; try done; by repeat constructor|]. split; [set_solver|]. split; [exact F2|].
  split; [exact W2|]. split; [set_solver|]. split; [set_solver|].
  unfold verdicts. simpl. rewrite N1, N2, N3, N4, N5, P1, P3, P4, P5.
  unfold check_adapter_context. by repeat case_match.
Qed.
End report.

(** * At a kernel that grants the one write *)

Definition ex_host : Kernel :=
  {| kernel := λ _ c, match c with
       | SMkdtemp _ => AStr "/tmp/c"
       | SRealpath q => AStr q
       | SFdRealpath _ => AStr "/tmp/c/ok.txt"
       | SOpen _ _ => AInt 3
       | SExists _ => AInt 0
       | _ => AUnit
       end |}.
Definition ex_channel : ChannelPolicy := mkChannel true [] true.
Definition ex_profile : AgentRuntimeProfile :=
  mkProfile "alice" "rt_1" "langgraph" "default" "sha256:p" 3 (mkSandbox true true true)
    ex_channel ex_channel ex_channel ex_channel ex_channel None PROFILED.
Definition ex_check_draws (n : string) : check_draws :=
  mkCheckDraws (mkDraws ("d" +:+ n) ("r" +:+ n) ("n" +:+ n)) 1000000 2000000.
Definition ex_run_draws : run_draws :=
  mkRunDraws "0123456789abcdef0123456789abcdef" 1000000 (ex_check_draws "1") (ex_check_draws "2")
    (ex_check_draws "3") (ex_check_draws "4") 1500000.

Import Instances.

Definition ex_report : ConformanceReport :=
  mkReport "alice" "rt_1"
    [ mkCheck "direct_bypass_blocked" true "DECISION_TOKEN_INVALID";
      mkCheck "mediated_happy_path" true "EXECUTED";
      mkCheck "mediated_deny" true "ENFORCEMENT_DENIED";
      mkCheck "decision_token_exact_binding" true "DECISION_TOKEN_INVALID";
      mkCheck "adapter_context" true "no adapter (unknown-framework fallback: boundary-only)";
      mkCheck "kill_switch" true "DECISION_TOKEN_EPOCH_STALE" ].

(** The identity in place of SHA-256: an injective one. *)
Definition plain_hash : Hashlib := {| sha256 := λ s, s |}.

Lemma ex_report_run : (harness_run (H := plain_hash) (H2 := ex_host) ex_profile ex_run_draws []).1 = Ok ex_report.
Proof. vm_compute. reflexivity. Qed.

(** At a kernel on which every check passes. *)
Lemma conformance_report_exact_witness :
  report_passed ex_report = true ∧
  ∃ z, verdicts ex_report !! 5 = Some ("kill_switch", bool_decide (z = 0%Z)).
Proof.
  split; [reflexivity|]. pose proof ex_report_run as Hr.
  destruct (harness_run (H := plain_hash) (H2 := ex_host) ex_profile ex_run_draws []) as [r h'] eqn:He.
  cbn [fst] in Hr. subst r.
  destruct (conformance_report_exact (H := plain_hash) (H2 := ex_host) ex_profile ex_run_draws [] ex_report h' He)
    as (ws & root & pre & happy & post & hp & z1 & z2 & a & _ & _ & _ & _ & _ & _ & _ & Hv).
  exists z2. rewrite Hv. reflexivity.
Defined.
