(* ===== verification/Onboarding.v ===== *)
(** Onboarding ([cvztte/onboarding/mode.py], [shadow.py], [service.py]): the deployment
    mode and its controller, the shadow-mode report, and the activation of an agent. *)

From S2P Require Export Conformance PyFloat.
From S2P Require Import Concrete.

(** * Deployment modes ([mode.py]) *)

(** [ModeOutcome] *)
Inductive ModeOutcome : Set := WOULD_ALLOW | WOULD_DENY | MO_ALLOW | WARN_ALLOW | MO_DENY.
#[export] Instance ModeOutcome_eq_dec : EqDecision ModeOutcome.
Proof. solve_decision. Defined.

(** [apply_mode] *)
Definition apply_mode (m : DeploymentMode) (base_allow : bool) : ModeOutcome :=
  match m with
  | OBSERVE => if base_allow then WOULD_ALLOW else WOULD_DENY
  | WARN => if base_allow then MO_ALLOW else WARN_ALLOW
  | ENFORCE => if base_allow then MO_ALLOW else MO_DENY
  | QUARANTINE => MO_DENY
  end.

(** [is_enforcing] *)
Definition is_enforcing (m : DeploymentMode) : bool := bool_decide (m = ENFORCE ∨ m = QUARANTINE).

(** Only the enforcing modes block, and they block whatever is not allowed. *)
Lemma apply_mode_blocks m base :
  apply_mode m base = MO_DENY ↔ is_enforcing m = true ∧ (base = false ∨ m = QUARANTINE).
Proof. unfold is_enforcing. rewrite bool_decide_eq_true. destruct m, base; naive_solver. Qed.

(** [self._audit.append(...)] of an optional log *)
Definition append_opt `{Hashlib, Rfc8785} (stage : AuditStage) (payload : odict string json) (clock : Z)
    : M (option HashChainedAuditLog) unit :=
  λ a, match a with
       | None => (Ok tt, None)
       | Some l =>
           let '(r, l') := log_append stage payload clock l in
           (match r with Ok _ => Ok tt | Err x => Err x end, Some l')
       end.

(** [ModeController] *)
Record ModeController : Set := mkController {
  mc_mode : DeploymentMode;
  mc_audit : option HashChainedAuditLog
}.

Definition mode_change (actor : string) (old new : DeploymentMode) : odict string json :=
  [ ("action", JStr "mode_change"); ("actor", JStr actor);
    ("old_mode", JStr (DeploymentMode_value old)); ("new_mode", JStr (DeploymentMode_value new)) ].

(** [ModeController.set_mode] *)
Definition set_mode `{Hashlib, Rfc8785} (new : DeploymentMode) (actor : string) (is_admin : bool)
    (clock : Z) : M ModeController unit :=
  if negb is_admin then raise MODE_CHANGE_FORBIDDEN "mode change requires an administrator"
  else if decide (actor = "") then raise MODE_CHANGE_FORBIDDEN "mode change requires an actor"
  else
    let! s := cget in
    let! _ := cput (mkController new (mc_audit s)) in
    czoom mc_audit (λ a s, mkController (mc_mode s) a)
      (append_opt ADMIN (mode_change actor (mc_mode s) new) clock).

(** [ModeController.apply] *)
Definition controller_apply (s : ModeController) (base_allow : bool) : ModeOutcome :=
  apply_mode (mc_mode s) base_allow.

(** * Shadow mode ([shadow.py]) *)

(** [ShadowObservation] *)
Record ShadowObservation : Set := mkObservation {
  so_action_hash : string;
  so_outcome : ModeOutcome;
  bypass_attempt : bool;
  missing_policy : bool;
  unknown_destination : option string;
  adapter_present : bool;
  false_positive_candidate : bool
}.

(** [ShadowReport] *)
Record ShadowReport : Set := mkShadow {
  sr_total : Z;
  would_allow : Z;
  would_deny : Z;
  warn_allow : Z;
  bypass_attempts : Z;
  sr_missing_policy : Z;
  false_positive_candidates : Z;
  unknown_destinations : list string;
  adapter_coverage : spec_float
}.

(** [ShadowReport.enforce_would_block] *)
Definition enforce_would_block (r : ShadowReport) : Z := (would_deny r + warn_allow r)%Z.

(** [sum(1 for o in obs if p(o))] *)
Definition tally_obs (p : ShadowObservation → bool) (obs : list ShadowObservation) : Z :=
  Z.of_nat (length (filter (λ o, p o = true) obs)).

(** [ShadowAggregator.record]; its state is the list of observations. *)
Definition shadow_record (o : ShadowObservation) : M (list ShadowObservation) unit :=
  cmodify (λ obs, obs ++ [o]).

(** [ShadowAggregator.report] *)
Definition shadow_report (obs : list ShadowObservation) : ShadowReport :=
  let total := Z.of_nat (length obs) in
  let with_adapter := tally_obs adapter_present obs in
  let dests := remove_dups (omap unknown_destination obs) in
  mkShadow total
    (tally_obs (λ o, bool_decide (so_outcome o = WOULD_ALLOW)) obs)
    (tally_obs (λ o, bool_decide (so_outcome o = WOULD_DENY)) obs)
    (tally_obs (λ o, bool_decide (so_outcome o = WARN_ALLOW)) obs)
    (tally_obs bypass_attempt obs)
    (tally_obs missing_policy obs)
    (tally_obs false_positive_candidate obs)
    (sorted_strings (filter (λ d, d ≠ "") dests))
    (if decide (total = 0%Z) then of_int 0 else true_div with_adapter total).

Lemma tally_obs_cons p o obs : tally_obs p (o :: obs) = ((if p o then 1 else 0) + tally_obs p obs)%Z.
Proof.
  unfold tally_obs. rewrite filter_cons.
  destruct (p o); [rewrite decide_True by done|rewrite decide_False by done]; simpl; lia.
Qed.

(** What the report predicts: of actions observed in OBSERVE and WARN, those it counts
    as blocked are exactly the ones ENFORCE denies, and every action is counted once. *)
Lemma shadow_predicts_enforcement (l : list (DeploymentMode * bool * ShadowObservation)) :
  Forall (λ x, let '(m, base, o) := x in is_enforcing m = false ∧ so_outcome o = apply_mode m base) l →
  let r := shadow_report (snd <$> l) in
  enforce_would_block r =
    Z.of_nat (length (filter (λ x, apply_mode ENFORCE x.1.2 = MO_DENY) l)) ∧
  (would_allow r + would_deny r + warn_allow r +
     tally_obs (λ o, bool_decide (so_outcome o = MO_ALLOW)) (snd <$> l) = sr_total r)%Z.
Proof.
  unfold shadow_report, enforce_would_block. cbn [would_deny warn_allow would_allow sr_total].
  induction 1 as [|[[m base] o] l [Hm Ho] _ [IH1 IH2]]; [done|].
  rewrite fmap_cons. cbn [snd]. rewrite !tally_obs_cons, Ho, filter_cons. cbn [fst snd length].
  destruct m, base; try done; cbn [apply_mode] in *;
    repeat case_bool_decide; try done; case_decide; try done; cbn [length]; split; lia.
Qed.

(** * Activation ([service.py]) *)

(** [OnboardingResult] *)
Record OnboardingResult : Set := mkActivation {
  or_profile : AgentRuntimeProfile;
  or_report : ConformanceReport
}.

(** [OnboardingService] and the host its harness runs on *)
Record OnboardingService : Set := mkOnboarding {
  ob_audit : option HashChainedAuditLog;
  ob_host : history
}.

Section service.
Context `{Hashlib, Rfc8785, Pydantic, Kernel}.

(** [OnboardingService.register] *)
Definition onboarding_register (p : AgentRuntimeProfile) : AgentRuntimeProfile :=
  set_activation PROFILED p.

(** [OnboardingService.run_conformance] *)
Definition run_conformance (p : AgentRuntimeProfile) (d : run_draws)
    : M OnboardingService ConformanceReport :=
  czoom ob_host (λ h s, mkOnboarding (ob_audit s) h) (harness_run p d).

Definition activation_event (p : AgentRuntimeProfile) (actor outcome : string)
    (missing failed : list string) : odict string json :=
  [ ("action", JStr "onboarding_activation"); ("actor", JStr actor);
    ("agent_id", JStr (pf_agent_id p)); ("runtime_id", JStr (pf_runtime_id p));
    ("result", JStr outcome) ] ++
  (if decide (missing = []) then []
   else [("missing_controls", JArr (JStr <$> sorted_strings missing))]) ++
  (if decide (failed = []) then []
   else [("conformance_failures", JArr (JStr <$> sorted_strings failed))]).

(** [OnboardingService._audit_activation] *)
Definition audit_activation (p : AgentRuntimeProfile) (actor outcome : string)
    (missing failed : list string) (clock : Z) : M OnboardingService unit :=
  czoom ob_audit (λ a s, mkOnboarding a (ob_host s))
    (append_opt ADMIN (activation_event p actor outcome missing failed) clock).

(** [OnboardingService.activate] *)
Definition activate_agent (p : AgentRuntimeProfile) (actor : string) (is_admin : bool) (d : run_draws)
    (clock : Z) : M OnboardingService OnboardingResult :=
  if negb is_admin || bool_decide (actor = "") then
    raise MODE_CHANGE_FORBIDDEN "activation requires an administrator"
  else
  let '(controls, missing) := mandatory_controls_present p in
  if negb controls then
    let! _ := audit_activation p actor "BLOCKED" missing [] clock in
    raise ACTIVATION_BLOCKED "mandatory controls absent"
  else
  let! report := run_conformance p d in
  if negb (report_passed report) then
    let! _ := audit_activation p actor "CONFORMANCE_FAILED" [] (failures report) clock in
    raise CONFORMANCE_FAILED "conformance checks failed"
  else
  let activated := set_activation ENFORCED p in
  let! _ := audit_activation activated actor "ENFORCED" [] [] clock in
  cret (mkActivation activated report).

(** * What changes and what is recorded *)

(** The log [a'] is [a], if there is one, and these payloads after it. *)
Definition logged (a a' : option HashChainedAuditLog) (payloads : list (odict string json)) : Prop :=
  match a with
  | None => a' = None
  | Some l => ∃ evs, a' = Some (l ++ evs) ∧ ev_payload <$> evs = payloads ∧ (linked l → linked (l ++ evs))
  end.

Lemma logged_nothing a : logged a a [].
Proof. destruct a as [l|]; [|done]. exists []. by rewrite app_nil_r. Qed.

Lemma append_opt_cases stage payload clock a r a' :
  append_opt stage payload clock a = (r, a') →
  (r = Ok tt ∧ logged a a' [payload]) ∨ (is_ok r = false ∧ a' = a).
Proof.
  unfold append_opt. destruct a as [l|]; [|intros [= <- <-]; by left].
  pose proof (linked_append stage payload clock l) as Hl.
  destruct (log_append_cases stage payload clock l) as [(x & _ & He)|(h & _ & He)];
    rewrite He in *; intros [= <- <-]; [by right|left].
  split; [done|]. by eexists [_].
Qed.

Lemma audit_activation_cases p actor outcome missing failed clock s r s' :
  audit_activation p actor outcome missing failed clock s = (r, s') →
  ob_host s' = ob_host s ∧
  ((r = Ok tt ∧ logged (ob_audit s) (ob_audit s') [activation_event p actor outcome missing failed]) ∨
   (is_ok r = false ∧ ob_audit s' = ob_audit s)).
Proof.
  unfold audit_activation. intros Ha. apply czoom_inv in Ha as (a & Ha & ->).
  split; [done|]. by apply append_opt_cases in Ha.
Qed.

(** Every call of [set_mode] is refused without effect, or changes the mode; and then it
    is recorded, unless the log cannot take another event. *)
Lemma set_mode_cases new actor adm clock s r s' :
  set_mode new actor adm clock s = (r, s') →
  if adm && negb (bool_decide (actor = "")) then
    mc_mode s' = new ∧
    ((r = Ok tt ∧ logged (mc_audit s) (mc_audit s') [mode_change actor (mc_mode s) new]) ∨
     (is_ok r = false ∧ mc_audit s' = mc_audit s))
  else is_ok r = false ∧ s' = s.
Proof.
  unfold set_mode. destruct adm; [|by intros [= <- <-]]. simpl.
  case_decide as Ha; [rewrite bool_decide_eq_true_2 by done; by intros [= <- <-]|].
  rewrite bool_decide_eq_false_2 by done. unfold cbind, cget, cput. simpl.
  intros Hs. apply czoom_inv in Hs as (a & Hs & ->). split; [done|].
  by apply append_opt_cases in Hs.
Qed.

Definition at_most_one_logged (a a' : option HashChainedAuditLog) : Prop :=
  ∃ payloads, logged a a' payloads ∧ length payloads ≤ 1.

(** A refusal that is recorded first. *)
Lemma recorded_refusal {A} p actor outcome missing failed clock c msg s (r : res A) s' :
  (let! _ := audit_activation p actor outcome missing failed clock in raise c msg) s = (r, s') →
  is_ok r = false ∧ ob_host s' = ob_host s ∧ at_most_one_logged (ob_audit s) (ob_audit s').
Proof.
  unfold cbind. destruct (audit_activation _ _ _ _ _ _ s) as [[[]|x] s1] eqn:Ha;
    apply audit_activation_cases in Ha as [Hh [[Hr Hl]|[Hr Hl]]]; try done;
    intros [= <- <-]; (split; [done|]); (split; [done|]); eexists; (split; [first [exact Hl|rewrite Hl; apply logged_nothing]|simpl; lia]).
Qed.

(** Activation is gated and recorded.  An activation returns only for an
    administrator with a name, a profile that declares no unrestricted egress and
    mediates every channel without direct access, and a conformance run, on the host as
    it was, whose report passed; it returns the profile as ENFORCED and, if there is a
    log, has recorded just that.  Anyone else is refused without effect; missing
    controls are refused before anything is asked of the host.  Whatever happens, the
    log keeps what it had, gains at most one event, and stays soundly chained. *)
Theorem activation_gated p actor adm d clock s r s' :
  activate_agent p actor adm d clock s = (r, s') →
  (∀ res, r = Ok res →
     adm = true ∧ actor ≠ "" ∧ no_unrestricted_egress (sandbox p) = true ∧
     Forall (λ c, ch_mediated c.2 = true ∧ deny_direct c.2 = true) (channels p) ∧
     harness_run p d (ob_host s) = (Ok (or_report res), ob_host s') ∧
     report_passed (or_report res) = true ∧ or_profile res = set_activation ENFORCED p ∧
     logged (ob_audit s) (ob_audit s') [activation_event (or_profile res) actor "ENFORCED" [] []]) ∧
  (adm = false ∨ actor = "" → r = err MODE_CHANGE_FORBIDDEN "activation requires an administrator" ∧ s' = s) ∧
  ((mandatory_controls_present p).1 = false → is_ok r = false ∧ ob_host s' = ob_host s) ∧
  at_most_one_logged (ob_audit s) (ob_audit s').
Proof.
  unfold activate_agent. intros Ha.
  destruct (negb adm || bool_decide (actor = "")) eqn:Hadm.
  { injection Ha as <- <-. split_and!; try done. exists []. split; [apply logged_nothing|simpl; lia]. }
  apply orb_false_iff in Hadm as [Hadm Hact]. apply negb_false_iff in Hadm.
  apply bool_decide_eq_false in Hact.
  pose proof (controls_present_iff p) as Hcp.
  destruct (mandatory_controls_present p) as [[] missing] eqn:Hmc; cbn [fst negb] in *.
  2: { apply recorded_refusal in Ha as (Hr & Hh & Hl). split_and!; try done; [|naive_solver].
       by intros res ->. }
  unfold run_conformance, cbind at 1 in Ha.
  destruct (czoom ob_host _ (harness_run p d) s) as [[rep|x] s1] eqn:Hrun;
    apply czoom_inv in Hrun as (h & Hrun & ->); cbn [fst snd] in Ha.
  2: { injection Ha as <- <-. split_and!; try done; [naive_solver|].
       exists []. split; [apply logged_nothing|simpl; lia]. }
  destruct (report_passed rep) eqn:Hpass; cbn [negb] in Ha.
  2: { apply recorded_refusal in Ha as (Hr & Hh & Hl). split_and!; try done; [|naive_solver].
       by intros res ->. }
  unfold cbind in Ha.
  destruct (audit_activation _ _ _ _ _ _ _) as [[[]|x] s2] eqn:Haud;
    apply audit_activation_cases in Haud as [Hh [[Hr Hl]|[Hr Hl]]]; try done;
    injection Ha as <- <-; cbn [ob_audit ob_host] in *.
  - split_and!; try done; [|naive_solver|eexists; split; [exact Hl|simpl; lia]].
    intros res [= <-]. destruct (proj1 Hcp eq_refl) as [Heg Hch]. split_and!; try done.
    by rewrite Hh.
  - split_and!; try done; [naive_solver|]. exists []. rewrite Hl.
    split; [apply logged_nothing|simpl; lia].
Qed.
End service.

(** * Examples *)

Import Instances.

Definition ex_onboarding : OnboardingService := mkOnboarding (Some []) [].
Definition ex_activation : OnboardingResult := mkActivation (set_activation ENFORCED ex_profile) ex_report.

Lemma ex_activated :
  (activate_agent (H := plain_hash) (H2 := ex_host) ex_profile "root" true ex_run_draws 0 ex_onboarding).1
  = Ok ex_activation.
Proof. vm_compute. reflexivity. Qed.

(** At an activation that succeeds. *)
Lemma activation_gated_witness :
  or_profile ex_activation = set_activation ENFORCED ex_profile ∧ report_passed ex_report = true.
Proof.
  pose proof ex_activated as Hr.
  destruct (activate_agent (H := plain_hash) (H2 := ex_host) ex_profile "root" true ex_run_draws 0 ex_onboarding)
    as [r s'] eqn:He.
  cbn [fst] in Hr. subst r.
  destruct (activation_gated (H := plain_hash) (H2 := ex_host) _ _ _ _ _ _ _ _ He) as (Hok & _).
  destruct (Hok ex_activation eq_refl) as (_ & _ & _ & _ & _ & Hp & Hprof & _).
  split; [exact Hprof|exact Hp].
Defined.

(** The harness wires enforcement of its own: a profile whose sandbox and channels are
    all open passes it as well, and only its declarations stop the activation. *)
Definition ex_open_profile : AgentRuntimeProfile :=
  mkProfile "alice" "rt_1" "langgraph" "default" "sha256:p" 3 (mkSandbox false false false)
    default_channel default_channel default_channel default_channel default_channel None DISABLED.
Example conformance_ignores_controls :
  (harness_run (H := plain_hash) (H2 := ex_host) ex_open_profile ex_run_draws []).1 = Ok ex_report.
Proof. vm_compute. reflexivity. Qed.

(** An agent that was disabled is activated without being registered again. *)
Example disabled_reactivated :
  is_ok (activate_agent (H := plain_hash) (H2 := ex_host) (set_activation DISABLED ex_profile) "root" true
    ex_run_draws 0 ex_onboarding).1 = true.
Proof. vm_compute. reflexivity. Qed.

(** A log whose last event cannot be hashed takes no further event, and the mode
    changes all the same. *)
Definition ex_stuck_log : HashChainedAuditLog :=
  [mkEvent 0 RECEIPT "t" "h" [("x", JFloat S754_nan)]].
Example mode_changes_unrecorded :
  let '(r, s) := set_mode OBSERVE "root" true 0 (mkController ENFORCE (Some ex_stuck_log)) in
  is_ok r = false ∧ mc_mode s = OBSERVE ∧ mc_audit s = Some ex_stuck_log.
Proof. vm_compute. done. Qed.
