(* ===== verification/Config.v ===== *)
(** Configuration ([cvztte/config]): the deployment profiles and the bounded admission
    of jobs ([profiles.py], [backpressure.py]). *)

From S2P Require Export CAC.

(** * Deployment profiles ([profiles.py]) *)

(** [ProfileName] *)
Inductive ProfileName : Set := PN_DEMO | PN_SECURE_LAB | PN_ENTERPRISE_REFERENCE.
#[export] Instance ProfileName_eq_dec : EqDecision ProfileName.
Proof. solve_decision. Defined.
Definition ProfileName_value (n : ProfileName) : string :=
  match n with
  | PN_DEMO => "demo" | PN_SECURE_LAB => "secure-lab" | PN_ENTERPRISE_REFERENCE => "enterprise-reference"
  end.

(** [ResourceLimits] *)
Record ResourceLimits : Set := mkLimits {
  lim_ciphertext_bytes : Z;
  max_inflight_proofs : Z;
  max_inflight_fhe : Z
}.

(** [InfraRequirement] *)
Record InfraRequirement : Set := mkInfra {
  component : string;
  requirement : string;
  satisfied_by_reference_build : bool
}.

(** [DeploymentProfile] *)
Record DeploymentProfile : Set := mkDeployment {
  dp_name : ProfileName;
  dp_description : string;
  dp_security_profile : SecurityProfile;
  resource_limits : ResourceLimits;
  requires_mtls : bool;
  requires_separate_hosts : bool;
  key_custody : string;
  production_certified : bool;
  infra_requirements : list InfraRequirement
}.

(** The bounds pydantic checks of a [ResourceLimits] *)
Definition limits_ok (l : ResourceLimits) : bool :=
  bool_decide (0 ≤ lim_ciphertext_bytes l)%Z && bool_decide (1 ≤ max_inflight_proofs l)%Z &&
  bool_decide (1 ≤ max_inflight_fhe l)%Z.

(** [DeploymentProfile.model_post_init] *)
Definition profile_post_init (p : DeploymentProfile) : res DeploymentProfile :=
  if decide (dp_name p = PN_ENTERPRISE_REFERENCE ∧ production_certified p = true) then
    Err (PyExc "ValueError" "enterprise-reference must never be production_certified (§53)")
  else Ok p.

(** [_ENTERPRISE_INFRA] *)
Definition ENTERPRISE_INFRA : list InfraRequirement :=
  (λ '(c, r), mkInfra c r false) <$>
  [ ("topology", "separate services/hosts per plane");
    ("transport", "mutual TLS between all services");
    ("key-custody", "HSM / KMS / TEE for signing & MAC keys");
    ("state", "highly-available Redis / state store");
    ("observability", "SIEM / SOC integration");
    ("supply-chain", "signed policy/model/circuit releases");
    ("supply-chain", "SBOM + container image signing");
    ("time", "secure/attested clock source");
    ("resilience", "disaster recovery / backups");
    ("assurance", "external cryptographic/security audit") ].

(** [DEMO], [SECURE_LAB], [ENTERPRISE_REFERENCE] *)
Definition DEMO_PROFILE : DeploymentProfile :=
  mkDeployment PN_DEMO "Fast hackathon-friendly settings — weaker, clearly labelled (§53)."
    SP_DEMO (mkLimits (32 * 1024 * 1024) 4 2) false false "software" false [].
Definition SECURE_LAB_PROFILE : DeploymentProfile :=
  mkDeployment PN_SECURE_LAB "128-bit crypto, separate threshold parties, stronger isolation (§53)."
    SP_SECURE_LAB (mkLimits (16 * 1024 * 1024) 8 4) false true "software" false [].
Definition ENTERPRISE_REFERENCE_PROFILE : DeploymentProfile :=
  mkDeployment PN_ENTERPRISE_REFERENCE
    ("Configuration skeleton for a production posture — NOT production-certified; " +:+
     "the reference build does not itself provide this infrastructure (§53).")
    SP_SECURE_LAB (mkLimits (16 * 1024 * 1024) 16 8) true true "hsm-kms-tee" false ENTERPRISE_INFRA.

(** [_BY_NAME] *)
Definition profiles : list DeploymentProfile :=
  [DEMO_PROFILE; SECURE_LAB_PROFILE; ENTERPRISE_REFERENCE_PROFILE].

(** [get_profile] of a string *)
Definition get_profile (name : string) : res DeploymentProfile :=
  match list_find (λ p, ProfileName_value (dp_name p) = name) profiles with
  | Some (_, p) => Ok p
  | None => Err (PyExc "ValueError" name)
  end.

(** Every profile that can be selected passes its own validation, is not certified for
    production, and names itself; a name outside the three is an error. *)
Lemma get_profile_spec name :
  match get_profile name with
  | Ok p => ProfileName_value (dp_name p) = name ∧ profile_post_init p = Ok p ∧
            limits_ok (resource_limits p) = true ∧ production_certified p = false ∧
            Forall (λ i, satisfied_by_reference_build i = false) (infra_requirements p)
  | Err _ => ∀ n, ProfileName_value n ≠ name
  end.
Proof.
  unfold get_profile. destruct (list_find _ profiles) as [[i p]|] eqn:Hf.
  - apply list_find_Some in Hf as (Hl & Hn & _). split; [done|].
    assert (Hp : p ∈ profiles) by (by eapply list_elem_of_lookup_2).
    clear Hl Hn. unfold profiles in Hp.
    repeat (apply elem_of_cons in Hp as [->|Hp]); [..|by apply elem_of_nil in Hp];
      (split; [reflexivity|]); (split; [reflexivity|]); (split; [reflexivity|]); by repeat constructor.
  - apply list_find_None in Hf. rewrite Forall_forall in Hf.
    intros [] Hn; [apply (Hf DEMO_PROFILE)|apply (Hf SECURE_LAB_PROFILE)|apply (Hf ENTERPRISE_REFERENCE_PROFILE)];
      unfold profiles; set_solver.
Qed.

(** * Bounded admission ([backpressure.py])

    [admit] takes the semaphore, counts under the lock, runs the job, counts again and
    gives the semaphore back: four atomic steps (two when it is refused) that threads
    interleave. *)

(** Where a thread is in [admit]. *)
Inductive admit_phase : Set :=
| Outside    (** not in [admit] *)
| Acquired   (** holds the semaphore, not counted yet *)
| Running    (** counted, in the body of the [with] *)
| Leaving    (** uncounted, still holds the semaphore *)
| Shed.      (** refused, not counted yet *)

(** [BoundedAdmission], and the threads that use it. *)
Record BoundedAdmission : Set := mkAdmission {
  capacity : Z;
  sem : Z;
  inflight : Z;
  admitted : Z;
  shed : Z;
  threads : list admit_phase
}.

(** [BoundedAdmission.__init__] *)
Definition new_admission (cap : Z) (n : nat) : res BoundedAdmission :=
  if decide (cap < 1)%Z then Err (PyExc "ValueError" "capacity must be >= 1")
  else Ok (mkAdmission cap cap 0 0 0 (replicate n Outside)).

Definition at_phase (i : nat) (p : admit_phase) (s : BoundedAdmission) : list admit_phase :=
  <[i := p]> (threads s).

(** One step of thread [i] through [admit]; [release] of a bounded semaphore that is
    full raises. *)
Definition admit_step (s : BoundedAdmission) (i : nat) : BoundedAdmission :=
  match threads s !! i with
  | None => s
  | Some Outside =>
      if decide (0 < sem s)%Z
      then mkAdmission (capacity s) (sem s - 1) (inflight s) (admitted s) (shed s) (at_phase i Acquired s)
      else mkAdmission (capacity s) (sem s) (inflight s) (admitted s) (shed s) (at_phase i Shed s)
  | Some Shed =>
      mkAdmission (capacity s) (sem s) (inflight s) (admitted s) (shed s + 1) (at_phase i Outside s)
  | Some Acquired =>
      mkAdmission (capacity s) (sem s) (inflight s + 1) (admitted s + 1) (shed s) (at_phase i Running s)
  | Some Running =>
      mkAdmission (capacity s) (sem s) (inflight s - 1) (admitted s) (shed s) (at_phase i Leaving s)
  | Some Leaving =>
      if decide (sem s < capacity s)%Z
      then mkAdmission (capacity s) (sem s + 1) (inflight s) (admitted s) (shed s) (at_phase i Outside s)
      else mkAdmission (capacity s) (sem s) (inflight s) (admitted s) (shed s) (at_phase i Outside s)
  end.

(** The threads at a phase that satisfies [f]. *)
Definition tally (f : admit_phase → bool) (l : list admit_phase) : Z :=
  foldr (λ p n, ((if f p then 1 else 0) + n)%Z) 0%Z l.
Definition holds (p : admit_phase) : bool :=
  match p with Acquired | Running | Leaving => true | _ => false end.
Definition in_body (p : admit_phase) : bool := match p with Running => true | _ => false end.

Lemma tally_update f l i p q :
  l !! i = Some p →
  tally f (<[i := q]> l) = (tally f l - (if f p then 1 else 0) + (if f q then 1 else 0))%Z.
Proof.
  revert i. induction l as [|x l IH]; intros i Hi; [done|].
  destruct i as [|i]; simpl in *; [simplify_eq; lia|]. rewrite (IH i Hi). lia.
Qed.
Lemma tally_nonneg f l : (0 ≤ tally f l)%Z.
Proof. induction l as [|x l IH]; simpl; [lia|]. destruct (f x); lia. Qed.
Lemma tally_pos f l i p : l !! i = Some p → f p = true → (1 ≤ tally f l)%Z.
Proof.
  revert i. induction l as [|x l IH]; intros [|i] Hi Hf; simplify_eq/=.
  - rewrite Hf. pose proof (tally_nonneg f l). lia.
  - specialize (IH i Hi Hf). destruct (f x); lia.
Qed.
Lemma tally_le f g l : (∀ p, f p = true → g p = true) → (tally f l ≤ tally g l)%Z.
Proof.
  intros Hfg. induction l as [|x l IH]; simpl; [lia|].
  specialize (Hfg x). destruct (f x), (g x); try lia; naive_solver.
Qed.

Record admission_inv (cap : Z) (s : BoundedAdmission) : Prop := {
  ad_capacity : capacity s = cap;
  ad_sem : (0 ≤ sem s)%Z;
  ad_held : (sem s + tally holds (threads s) = cap)%Z;
  ad_inflight : inflight s = tally in_body (threads s)
}.

Lemma admission_inv_step cap s i : admission_inv cap s → admission_inv cap (admit_step s i).
Proof.
  intros [Hc Hs Hh Hi]. unfold admit_step. destruct (threads s !! i) as [p|] eqn:Hp; [|done].
  pose proof (λ f q, tally_update f _ _ _ q Hp) as Hu.
  assert (Hl : p = Leaving → (sem s < capacity s)%Z).
  { intros ->. pose proof (tally_pos holds _ _ _ Hp eq_refl). lia. }
  destruct p; try case_decide; try (exfalso; specialize (Hl eq_refl); lia);
    (split; cbn [capacity sem inflight threads]; unfold at_phase;
     [done|lia|rewrite Hu; simpl; lia|rewrite Hu; simpl; lia]).
Qed.

Lemma admission_inv_run cap n s0 sched :
  new_admission cap n = Ok s0 → admission_inv cap (run admit_step s0 sched).
Proof.
  unfold new_admission. case_decide; [done|]. intros [= <-].
  apply run_invariant; [intros; by apply admission_inv_step|].
  assert (Hz : ∀ f, f Outside = false → tally f (replicate n Outside) = 0%Z).
  { intros f Hf. induction n as [|n IH]; simpl; [done|]. by rewrite Hf, IH. }
  split; simpl; [done|lia|rewrite Hz by done; lia|by rewrite Hz].
Qed.

(** C29. Admission is bounded under every interleaving.  However the threads are
    scheduled, the jobs in flight are those in the body of their [with] and never more
    than the capacity, the semaphore accounts for every thread that holds it and is
    never released beyond its bound, a thread is shed exactly when the capacity is taken,
    and when every thread has left, all of it is free again. *)
Theorem admission_bounded cap n s0 sched :
  new_admission cap n = Ok s0 →
  let s := run admit_step s0 sched in
  (0 ≤ inflight s ≤ cap)%Z ∧ inflight s = tally in_body (threads s) ∧
  (0 ≤ sem s)%Z ∧ (sem s + tally holds (threads s) = cap)%Z ∧
  (∀ i, threads s !! i = Some Leaving → (sem s < capacity s)%Z) ∧
  (∀ i, threads s !! i = Some Outside →
     threads (admit_step s i) !! i = Some (if decide (tally holds (threads s) = cap) then Shed else Acquired)) ∧
  (Forall (λ p, p = Outside) (threads s) → inflight s = 0%Z ∧ sem s = cap).
Proof.
  intros Hn s. destruct (admission_inv_run cap n s0 sched Hn) as [Hc Hs Hh Hi]. fold s in Hc, Hs, Hh, Hi.
  pose proof (tally_nonneg in_body (threads s)).
  pose proof (tally_le in_body holds (threads s) ltac:(by intros [])).
  split_and!; [lia|lia|done|done|done|..].
  - intros i Hl. pose proof (tally_pos holds _ _ _ Hl eq_refl). lia.
  - intros i Ho. unfold admit_step. rewrite Ho.
    assert (Hlt : i < length (threads s)) by (by eapply lookup_lt_Some).
    repeat case_decide; try lia; cbn [threads]; by apply list_lookup_insert_eq.
  - intros Hall. assert (Hz : ∀ f, f Outside = false → tally f (threads s) = 0%Z).
    { intros f Hf. induction Hall as [|x l -> _ IH]; simpl; [done|]. by rewrite Hf, IH. }
    rewrite Hi, Hz by done. rewrite Hz in Hh by done. lia.
Qed.

Definition ex_admission : BoundedAdmission := mkAdmission 1 1 0 0 0 [Outside; Outside].
(** C29 at two threads and one slot. *)
Lemma admission_bounded_witness :
  let s := run admit_step ex_admission [0; 0; 1; 1] in
  threads s = [Running; Outside] ∧ shed s = 1%Z ∧ inflight s = 1%Z ∧ (0 ≤ inflight s ≤ 1)%Z.
Proof.
  destruct (admission_bounded 1 2 ex_admission [0; 0; 1; 1] eq_refl) as (Hb & _).
  split; [reflexivity|]. split; [reflexivity|]. split; [reflexivity|]. exact Hb.
Defined.
