(* ===== verification/Adapters.v ===== *)
(** Framework adapters ([cvztte/adapters]) and the context they fill in
    ([cvztte/context/model.py]): what an event of a framework becomes, and what it can
    and cannot decide.  [str] of a value that is not a string and [str.lower] are an
    interface. *)

From S2P Require Export Containment PyTime.
From S2P Require Import Concrete.

(** [str(v)] and [s.lower()] *)
Class PyText := { py_str : json → string; py_lower : string → string }.

(** * Context ([context/model.py]) *)

(** [SemanticContextQuality] *)
Inductive SemanticContextQuality : Set := RICH | PARTIAL | BOUNDARY_ONLY | Q_UNKNOWN.
#[export] Instance SemanticContextQuality_eq_dec : EqDecision SemanticContextQuality.
Proof. solve_decision. Defined.

(** [Provenance] *)
Record Provenance : Set := mkProvenance {
  pv_source : ObservationSource;
  pv_adapter_id : option string;
  pv_runtime_id : string;
  observed_at : string;
  boundary_observed : bool
}.

(** [AgentContext] *)
Record AgentContext : Set := mkAgentContext {
  context_version : Z;
  cx_agent_id : string;
  cx_runtime_id : string;
  cx_session_id : string;
  cx_delegation_id : option string;
  cx_framework : option string;
  cx_adapter_id : option string;
  workflow_id : option string;
  node_id : option string;
  intent_hash : option string;
  purpose_code : option string;
  cx_classification : DataClassification;
  semantic_context_quality : SemanticContextQuality
}.

(** * Events and proposals ([adapters/base.py]) *)

(** [FrameworkEvent] *)
Record FrameworkEvent : Set := mkFrameworkEvent {
  fe_binding : AdapterBinding;
  fe_payload : odict string json;
  fe_workflow_id : option string;
  fe_node_id : option string;
  fe_purpose_code : option string;
  fe_observed_at : option string
}.

(** [ActionProposal] *)
Record ActionProposal : Set := mkProposal {
  pr_action : AgentAction;
  pr_context : AgentContext;
  pr_provenance : Provenance
}.

(** A subclass of [FrameworkAdapter]: its class variables, [normalize_action], and how it
    corrects the quality of the context. *)
Record FrameworkAdapter : Type := mkAdapter {
  framework : string;
  adapter_id : string;
  default_quality : SemanticContextQuality;
  experimental : bool;
  normalize_action : odict string json → res AgentAction;
  adjust_quality : odict string json → SemanticContextQuality → SemanticContextQuality
}.

(** [AdapterRegistry]: the adapters by framework. *)
Notation AdapterRegistry := (gmap string FrameworkAdapter).

Section adapters.
Context `{PyText}.

(** [FrameworkAdapter._require] *)
Definition require_field (p : odict string json) (key : string) : res json :=
  match dget key p with
  | Some v => Ok v
  | None => err SCHEMA_INVALID "framework event missing required field"
  end.

(** [str(v)]: a string is itself *)
Definition str_value (v : json) : string := match v with JStr s => s | _ => py_str v end.

(** [FrameworkAdapter._str] without a default *)
Definition str_field (p : odict string json) (key : string) : option string :=
  match dget key p with
  | None | Some JNull => None
  | Some v => Some (str_value v)
  end.

(** [a or b] of optional strings *)
Definition str_or (a b : option string) : option string := if truthy_opt a then a else b.

(** [FrameworkAdapter.semantic_context] *)
Definition semantic_context (a : FrameworkAdapter) (e : FrameworkEvent) : res AgentContext :=
  let? action := normalize_action a (fe_payload e) in
  let b := fe_binding e in
  Ok (mkAgentContext 1 (b_agent_id b) (b_runtime_id b) (b_session_id b) (b_delegation_id b)
        (Some (framework a)) (Some (adapter_id a)) (fe_workflow_id e) (fe_node_id e) None
        (fe_purpose_code e) (data_classification action)
        (adjust_quality a (fe_payload e) (default_quality a))).

(** [FrameworkAdapter.propose]; [clock] is the instant of [_now_rfc3339]. *)
Definition propose (a : FrameworkAdapter) (e : FrameworkEvent) (clock : Z) : res ActionProposal :=
  let? action := normalize_action a (fe_payload e) in
  let? context := semantic_context a e in
  Ok (mkProposal action context
        (mkProvenance SRC_ADAPTER (Some (adapter_id a)) (b_runtime_id (fe_binding e))
           (if truthy_opt (fe_observed_at e) then default "" (fe_observed_at e) else iso_ms clock) false)).

(** * The adapters ([adapters/frameworks.py]) *)

(** [_KIND_TO_ACTION] *)
Definition KIND_TO_ACTION : list (string * ActionType) :=
  [ ("http", NETWORK_REQUEST); ("network", NETWORK_REQUEST); ("api", API_REQUEST);
    ("db", DB_OPERATION); ("database", DB_OPERATION); ("file_read", FILE_READ);
    ("file_write", FILE_WRITE); ("file_delete", FILE_DELETE); ("shell", SHELL_EXEC);
    ("process", PROCESS_EXEC); ("code", CODE_EXECUTION); ("secret", SECRET_ACCESS);
    ("memory_read", MEMORY_READ); ("memory_write", MEMORY_WRITE); ("user_output", USER_OUTPUT) ].

(** [DataClassification(s)], [ActionType(s)]: the member with that value *)
Definition classification_of (s : string) : option DataClassification :=
  snd <$> list_find (λ c, DataClassification_value c = s) [PUBLIC; INTERNAL; CONFIDENTIAL; SECRET].
Definition all_action_types : list ActionType :=
  [ TOOL_CALL; MCP_CALL; API_REQUEST; DB_OPERATION; FILE_READ; FILE_WRITE; FILE_DELETE;
    PROCESS_EXEC; SHELL_EXEC; CODE_EXECUTION; NETWORK_REQUEST; USER_OUTPUT; AGENT_MESSAGE;
    MEMORY_READ; MEMORY_WRITE; SECRET_ACCESS; CLOUD_CONTROL_ACTION; EXTERNAL_MESSAGE; FHE_ENCRYPT;
    FHE_COMPUTE; FHE_DECRYPT_REQUEST; FHE_PARTIAL_DECRYPT; FHE_COMBINE_DECRYPT; FHE_KEY_ROTATE;
    FHE_CONTEXT_CREATE; FHE_REENCRYPT ].
Definition action_type_of (s : string) : option ActionType :=
  snd <$> list_find (λ t, ActionType_value t = s) all_action_types.

(** [_classification] *)
Definition classification (p : odict string json) : DataClassification :=
  match str_field p "data_classification" with
  | None => INTERNAL
  | Some s => default INTERNAL (classification_of s)
  end.

(** [_arguments] *)
Definition arguments_of (p : odict string json) : odict string json :=
  match dget "arguments" p with Some (JObj kvs) => kvs | _ => [] end.

(** [MCPAdapter] *)
Definition mcp_normalize (p : odict string json) : res AgentAction :=
  let server := default "unknown" (str_or (str_field p "server") (Some "unknown")) in
  let? tool := require_field p "tool" in
  let tool := str_value tool in
  Ok (mkAction 1 MCP_CALL (server +:+ "/" +:+ tool) (Some tool) (Some server) (arguments_of p)
        (classification p) None).
Definition MCPAdapter : FrameworkAdapter :=
  mkAdapter "mcp" "mcp-v1" RICH false mcp_normalize (λ _ q, q).

(** The kind of a tool event *)
Definition event_kind (p : odict string json) : string :=
  py_lower (default "" (str_or (str_or (str_field p "kind") (str_field p "tool_type")) (Some ""))).

(** [_KindAdapter.normalize_action] *)
Definition kind_normalize (p : odict string json) : res AgentAction :=
  let ty := default TOOL_CALL (dget (event_kind p) KIND_TO_ACTION) in
  let tgt := default "unknown" (str_or (str_or (str_field p "target") (str_field p "tool")) (Some "unknown")) in
  Ok (mkAction 1 ty tgt (str_or (str_field p "operation") (str_field p "tool"))
        (str_field p "resource") (arguments_of p) (classification p) None).

(** [_KindAdapter.semantic_context]: an unknown kind lowers the quality. *)
Definition kind_quality (p : odict string json) (q : SemanticContextQuality) : SemanticContextQuality :=
  match dget (event_kind p) KIND_TO_ACTION with Some _ => q | None => PARTIAL end.
Definition kind_adapter (name id : string) : FrameworkAdapter :=
  mkAdapter name id RICH false kind_normalize kind_quality.
Definition LangGraphAdapter : FrameworkAdapter := kind_adapter "langgraph" "langgraph-v1".
Definition LangChainAdapter : FrameworkAdapter := kind_adapter "langchain" "langchain-v1".
Definition CodingAgentAdapter : FrameworkAdapter := kind_adapter "coding-agent" "coding-agent-v1".

(** [GenericSDKAdapter] *)
Definition generic_normalize (p : odict string json) : res AgentAction :=
  let? raw := require_field p "action_type" in
  let ty := default TOOL_CALL (action_type_of (str_value raw)) in
  let? tgt := require_field p "target" in
  Ok (mkAction 1 ty (str_value tgt) (str_field p "operation") (str_field p "resource")
        (arguments_of p) (classification p) None).
Definition GenericSDKAdapter : FrameworkAdapter :=
  mkAdapter "generic" "generic-v1" PARTIAL false generic_normalize (λ _ q, q).

(** [AgentMessageAdapter] *)
Definition message_normalize (p : odict string json) : res AgentAction :=
  let external := match dget "external" p with Some v => truthy v | None => false end in
  let recipient := default "unknown" (str_or (str_or (str_field p "to") (str_field p "recipient"))
                                             (Some "unknown")) in
  Ok (mkAction 1 (if external then EXTERNAL_MESSAGE else AGENT_MESSAGE) recipient (Some "send")
        (str_field p "channel") (arguments_of p) (classification p) None).
Definition AgentMessageAdapter : FrameworkAdapter :=
  mkAdapter "agent-messaging" "agent-msg-v1" RICH false message_normalize (λ _ q, q).

(** [BrowserAdapter] *)
Definition BROWSER_EVENTS : list (string * ActionType) :=
  [ ("navigate", NETWORK_REQUEST); ("form_submit", NETWORK_REQUEST); ("upload", FILE_READ);
    ("download", FILE_WRITE) ].
Definition browser_normalize (p : odict string json) : res AgentAction :=
  let? ev := require_field p "event" in
  let kind := py_lower (str_value ev) in
  let ty := default NETWORK_REQUEST (dget kind BROWSER_EVENTS) in
  let tgt := default "unknown" (str_or (str_or (str_field p "url") (str_field p "target")) (Some "unknown")) in
  Ok (mkAction 1 ty tgt (Some kind) (str_field p "domain") (arguments_of p) (classification p) None).
Definition BrowserAdapter : FrameworkAdapter :=
  mkAdapter "browser" "browser-v1" PARTIAL true browser_normalize (λ _ q, q).

(** * The registry ([adapters/registry.py]) *)

(** [AdapterRegistry.__init__], [register], [get], [frameworks] *)
Definition adapter_register (a : FrameworkAdapter) (r : AdapterRegistry) : AdapterRegistry :=
  <[framework a := a]> r.
Definition built_in_adapters : list FrameworkAdapter :=
  [ MCPAdapter; LangGraphAdapter; LangChainAdapter; CodingAgentAdapter; GenericSDKAdapter;
    AgentMessageAdapter; BrowserAdapter ].
Definition new_adapter_registry : AdapterRegistry := foldl (flip adapter_register) ∅ built_in_adapters.
Definition adapter_get (r : AdapterRegistry) (name : string) : option FrameworkAdapter := r !! name.
Definition frameworks (r : AdapterRegistry) : list string := sorted_strings (elements (dom r)).

(** [boundary_only_context] *)
Definition boundary_only_context (b : AdapterBinding) (c : DataClassification) : AgentContext :=
  mkAgentContext 1 (b_agent_id b) (b_runtime_id b) (b_session_id b) (b_delegation_id b) None None
    None None None None c BOUNDARY_ONLY.

(** [boundary_provenance] *)
Definition boundary_provenance (b : AdapterBinding) (src : ObservationSource) (at_ : option string)
    (clock : Z) : Provenance :=
  mkProvenance src None (b_runtime_id b)
    (if truthy_opt at_ then default "" at_ else iso_ms clock) true.
End adapters.

(** * What a proposal can say *)

Section proposals.
Context `{PyText}.

(** The fields without which an adapter refuses an event. *)
Definition required_fields (name : string) : list string :=
  if decide (name = "mcp") then ["tool"]
  else if decide (name = "generic") then ["action_type"; "target"]
  else if decide (name = "browser") then ["event"]
  else [].

Lemma registered_adapter name a :
  adapter_get new_adapter_registry name = Some a → a ∈ built_in_adapters ∧ framework a = name.
Proof.
  unfold adapter_get, new_adapter_registry.
  assert (Hg : ∀ l (r : AdapterRegistry), (∀ a, r !! name = Some a → a ∈ built_in_adapters ∧ framework a = name) →
    (∀ x, x ∈ l → x ∈ built_in_adapters) →
    foldl (flip adapter_register) r l !! name = Some a → a ∈ built_in_adapters ∧ framework a = name).
  { induction l as [|x l IH]; intros r Hr Hl; [by apply Hr|]. simpl. apply IH; [|set_solver].
    intros b. unfold adapter_register. rewrite lookup_insert_Some. intros [[Hf <-]|[_ Hb]]; [|by apply Hr].
    split; [apply Hl; set_solver|done]. }
  apply Hg; [intros b Hb; by rewrite lookup_empty in Hb|done].
Qed.

Lemma require_field_cases p key :
  (∃ v, require_field p key = Ok v ∧ dget key p = Some v) ∨
  (∃ m, require_field p key = err SCHEMA_INVALID m ∧ dget key p = None).
Proof. unfold require_field. destruct (dget key p); eauto. Qed.

Lemma kind_cases p (P Q : Prop) :
  Forall (λ k, dget k p ≠ None) [] ∧
  (kind_quality p RICH = RICH → P ∨ Q ∨
     dget (event_kind p) KIND_TO_ACTION = Some (default TOOL_CALL (dget (event_kind p) KIND_TO_ACTION))) ∧
  @None PayloadRef = None ∧ classification p = classification p.
Proof.
  split_and!; [constructor| |done..]. unfold kind_quality.
  destruct (dget (event_kind p) KIND_TO_ACTION); [by right; right|done].
Qed.

(** A built-in adapter refuses an event exactly for a missing field, with
    [SCHEMA_INVALID], and reads nothing but the payload. *)
Lemma normalize_cases a p :
  a ∈ built_in_adapters →
  match normalize_action a p with
  | Ok act => Forall (λ k, dget k p ≠ None) (required_fields (framework a)) ∧
      (adjust_quality a p (default_quality a) = RICH →
         framework a = "mcp" ∨ framework a = "agent-messaging" ∨
         dget (event_kind p) KIND_TO_ACTION = Some (action_type act)) ∧
      payload_ref act = None ∧ data_classification act = classification p
  | Err x => ∃ m, x = Cvztte (new_error SCHEMA_INVALID m) ∧
      Exists (λ k, dget k p = None) (required_fields (framework a))
  end.
Proof.
  intros Ha. unfold built_in_adapters in Ha.
  repeat (apply elem_of_cons in Ha as [->|Ha]); [..|by apply elem_of_nil in Ha];
    cbn [normalize_action adjust_quality default_quality framework MCPAdapter LangGraphAdapter
         LangChainAdapter CodingAgentAdapter GenericSDKAdapter AgentMessageAdapter BrowserAdapter
         kind_adapter].
  - change (required_fields "mcp") with ["tool"]. unfold mcp_normalize.
    destruct (require_field_cases p "tool") as [(v & -> & Hd)|(m & -> & Hd)]; cbn.
    + split_and!; [|by left|done..]. constructor; [by rewrite Hd|constructor].
    + exists m. split; [done|]. by left.
  - apply kind_cases.
  - apply kind_cases.
  - apply kind_cases.
  - change (required_fields "generic") with ["action_type"; "target"]. unfold generic_normalize.
    destruct (require_field_cases p "action_type") as [(v & -> & Hd)|(m & -> & Hd)]; cbn.
    + destruct (require_field_cases p "target") as [(w & -> & Hw)|(m & -> & Hw)]; cbn.
      * split_and!; [|done..]. constructor; [by rewrite Hd|constructor; [by rewrite Hw|constructor]].
      * exists m. split; [done|]. right. by left.
    + exists m. split; [done|]. by left.
  - split_and!; [constructor|by right; left|done..].
  - change (required_fields "browser") with ["event"]. unfold browser_normalize.
    destruct (require_field_cases p "event") as [(v & -> & Hd)|(m & -> & Hd)]; cbn.
    + split_and!; [|done..]. constructor; [by rewrite Hd|constructor].
    + exists m. split; [done|]. by left.
Qed.

(** Adapters propose and decide nothing.  For any event and any adapter the registry
    hands out, a proposal speaks for exactly the identity the runtime bound to the
    event, whatever the payload says; it is marked as an adapter's observation, never as
    one of an enforcement boundary; its context carries the classification of its
    action; and it claims rich context only from the MCP and messaging adapters or for
    a tool kind that determines the action's type.  An event is refused exactly when a
    field its adapter requires is missing. *)
Theorem proposals_inert name a e clock :
  adapter_get new_adapter_registry name = Some a →
  match propose a e clock with
  | Ok p =>
      let c := pr_context p in let b := fe_binding e in
      (cx_agent_id c, cx_runtime_id c, cx_session_id c, cx_delegation_id c)
        = (b_agent_id b, b_runtime_id b, b_session_id b, b_delegation_id b) ∧
      cx_framework c = Some name ∧ cx_adapter_id c = Some (adapter_id a) ∧
      pv_source (pr_provenance p) = SRC_ADAPTER ∧ boundary_observed (pr_provenance p) = false ∧
      pv_runtime_id (pr_provenance p) = b_runtime_id b ∧
      normalize_action a (fe_payload e) = Ok (pr_action p) ∧
      cx_classification c = data_classification (pr_action p) ∧
      (semantic_context_quality c = RICH →
         name = "mcp" ∨ name = "agent-messaging" ∨
         dget (event_kind (fe_payload e)) KIND_TO_ACTION = Some (action_type (pr_action p))) ∧
      Forall (λ k, dget k (fe_payload e) ≠ None) (required_fields name)
  | Err x =>
      (∃ m, x = Cvztte (new_error SCHEMA_INVALID m)) ∧
      Exists (λ k, dget k (fe_payload e) = None) (required_fields name)
  end.
Proof.
  intros Hg. apply registered_adapter in Hg as [Ha <-].
  pose proof (normalize_cases a (fe_payload e) Ha) as Hn.
  unfold propose, semantic_context.
  destruct (normalize_action a (fe_payload e)) as [act|x]; cbn.
  - destruct Hn as (Hr & Hq & _ & _). by split_and!.
  - destruct Hn as (m & -> & Hx). split; [by exists m|done].
Qed.
End proposals.

(** * Examples *)

(** [str] and [lower] on what the examples hold. *)
Definition ascii_lower (c : Ascii.ascii) : Ascii.ascii :=
  let n := Ascii.nat_of_ascii c in
  if (65 <=? n) && (n <=? 90) then Ascii.ascii_of_nat (n + 32) else c.
Fixpoint lower_ascii (s : string) : string :=
  match s with EmptyString => "" | String c r => String (ascii_lower c) (lower_ascii r) end.
Definition ex_text : PyText := {| py_str := λ _, ""; py_lower := lower_ascii |}.

Definition ex_event : FrameworkEvent :=
  mkFrameworkEvent ex_binding [("kind", JStr "SHELL"); ("target", JStr "ls"); ("agent_id", JStr "mallory")]
    None None None None.

(** At a shell event whose payload names another agent. *)
Lemma proposals_inert_witness :
  match propose (LangGraphAdapter (H := ex_text)) ex_event 0 with
  | Ok p => cx_agent_id (pr_context p) = b_agent_id ex_binding ∧ action_type (pr_action p) = SHELL_EXEC
  | Err _ => False
  end.
Proof.
  pose proof (proposals_inert (H := ex_text) "langgraph" (LangGraphAdapter (H := ex_text)) ex_event 0 eq_refl) as Hp.
  destruct (propose (LangGraphAdapter (H := ex_text)) ex_event 0) as [p|x] eqn:He; [|vm_compute in He; done].
  destruct Hp as (Hi & _). split; [by injection Hi|]. vm_compute in He. by injection He as <-.
Defined.

(** A label outside the four is taken as INTERNAL, not as the strictest. *)
Example unknown_label_downgraded :
  classification (H := ex_text) [("data_classification", JStr "TOP_SECRET")] = INTERNAL.
Proof. reflexivity. Qed.
