(* ===== verification/Proxies.v ===== *)
(** The remaining enforcement points ([enforcement/egress_proxy.py], [process_broker.py],
    [output_proxy.py]): outbound requests, processes and released output.  URL and address
    parsing, the regular expressions and the operating system are interfaces. *)

From S2P Require Export Brokers.
From S2P Require Import Concrete.
From stdpp Require Import pretty.

(** * Egress proxy *)

(** What [urlparse] returns, as far as it is used; reading [port] may raise. *)
Record ParsedUrl : Set := mkUrl {
  url_scheme : string;
  url_hostname : option string;
  url_port : res (option Z);
  url_path : string
}.

(** [urlparse], [ipaddress.ip_address] (whether an address is private, loopback or
    link-local; [None] when the text is no address) and [str.upper]. *)
Class NetText := {
  urlparse : string → res ParsedUrl;
  ip_scope : string → option bool;
  py_upper : string → string
}.

(** [EgressRequest], [EgressConfig] *)
Record EgressRequest : Set := mkEgress {
  eg_url : string;
  eg_method : string;
  eg_body : option string;
  eg_classification : DataClassification
}.
Record EgressConfig : Type := mkEgressConfig {
  allowed_domains : gset string;
  internal_domain_suffixes : list string;
  max_bytes : Z;
  allow_secret_egress_external : bool
}.

Definition slash : Ascii.ascii := Ascii.ascii_of_nat 47.

(** [s.split("/", n)] *)
Fixpoint split_slash (n : nat) (s : string) : list string :=
  match s with
  | EmptyString => [""]
  | String c r =>
      match n with
      | O => [s]
      | S n' =>
          if Ascii.eqb c slash then "" :: split_slash n' r
          else match split_slash n r with
               | w :: ws => String c w :: ws
               | [] => [String c ""]
               end
      end
  end.

(** [s.strip("/")] is empty *)
Fixpoint only_slashes (s : string) : bool :=
  match s with EmptyString => true | String c r => Ascii.eqb c slash && only_slashes r end.

Section egress.
Context `{Hashlib, Rfc8785, NetText} {W : Type}.
Variable cfg : EgressConfig.
(** The injected [sender]. *)
Variable sender : option (json → M W ExecutionResult).

(** [_is_internal_host] *)
Definition is_internal_host (host : string) : bool :=
  match ip_scope host with
  | Some b => b
  | None => existsb (λ s, bool_decide (host = s) || str_endswith host ("." +:+ s))
                    (internal_domain_suffixes cfg)
  end.

(** The class of a path: its first segment. *)
Definition path_class (path : string) : res string :=
  if only_slashes path then Ok "root"
  else match split_slash 2 path with
       | _ :: c :: _ => Ok c
       | _ => Err (PyExc "IndexError" "list index out of range")
       end.

(** [EgressProxy.observe] *)
Definition egress_observe (request : EgressRequest) (binding : AdapterBinding) : res AgentAction :=
  let? parsed := urlparse (eg_url request) in
  match url_hostname parsed with
  | None => err SCHEMA_INVALID "malformed egress URL"
  | Some host =>
      if bool_decide (url_scheme parsed = "") || bool_decide (host = "") then
        err SCHEMA_INVALID "malformed egress URL"
      else
        let? p := url_port parsed in
        let dflt := if decide (url_scheme parsed = "https") then 443%Z else 80%Z in
        let port := match p with Some n => if decide (n = 0%Z) then dflt else n | None => dflt end in
        let? cls := path_class (url_path parsed) in
        let body := default "" (eg_body request) in
        Ok (mkAction 1 NETWORK_REQUEST host (Some (py_upper (eg_method request)))
              (Some (url_scheme parsed +:+ "://" +:+ host +:+ ":" +:+ pretty port +:+ url_path parsed))
              [ ("scheme", JStr (url_scheme parsed)); ("port", JInt port); ("path_class", JStr cls) ]
              (eg_classification request)
              (Some (mkPayloadRef ("egress-body:" +:+ host +:+ url_path parsed) (content_digest body)
                       (Some (Z.of_nat (String.length body))))))
  end.

(** [action.payload_ref.size if action.payload_ref else 0] *)
Definition payload_size (a : AgentAction) : Z :=
  match payload_ref a with Some p => default 0%Z (p_size p) | None => 0%Z end.

Definition normalized_request (a : AgentAction) : json :=
  JObj [ ("host", JStr (target a)); ("resource", jopt (resource a)); ("method", jopt (operation a));
         ("internal", JBool (is_internal_host (target a))); ("payload_hash", jopt (payload_hash_of a));
         ("size", JInt (payload_size a)) ].

(** [EgressProxy._execute] *)
Definition egress_execute (a : AgentAction) (d : AuthorizedDecision) (request : EgressRequest)
    : M W ExecutionResult :=
  let internal := is_internal_host (target a) in
  if decide (max_bytes cfg < payload_size a)%Z then
    raise EGRESS_DENIED "payload exceeds egress byte limit"
  else if negb internal && negb (bool_decide (target a ∈ allowed_domains cfg)) then
    raise EGRESS_DENIED "external destination not on allowlist"
  else if negb internal && is_sensitive (data_classification a) && negb (allow_secret_egress_external cfg)
  then raise EGRESS_DENIED "confidential/secret egress to external denied"
  else
    match sender with
    | Some send => send (normalized_request a)
    | None => cret (mkResult (resource a) (payload_hash_of a)
                (Some (JObj [("forwarded", JBool false); ("normalized", normalized_request a)])))
    end.

Definition EgressProxy : EnforcementBroker EgressRequest W :=
  mkBroker SRC_EGRESS_PROXY "egress-proxy-01" egress_observe egress_execute.

(** What leaves is within the byte limit, goes to an internal host or an allowlisted one,
    and is not sensitive on its way out unless the configuration says so; and it is sent
    once, as the action describes it. *)
Lemma egress_contained a d request w r w' :
  egress_execute a d request w = (r, w') → is_ok r = true ∨ w' ≠ w →
  (payload_size a ≤ max_bytes cfg)%Z ∧
  (is_internal_host (target a) = true ∨
   target a ∈ allowed_domains cfg ∧
   (is_sensitive (data_classification a) = false ∨ allow_secret_egress_external cfg = true)) ∧
  ∀ send, sender = Some send → (r, w') = send (normalized_request a) w.
Proof.
  unfold egress_execute, raise, cthrow. intros He Hw.
  case_decide; [injection He as <- <-; by destruct Hw|].
  destruct (is_internal_host (target a)) eqn:Hi; simpl in He.
  - split; [lia|]. split; [by left|]. intros send ->. by rewrite He.
  - destruct (bool_decide (target a ∈ allowed_domains cfg)) eqn:Hd; simpl in He;
      [|injection He as <- <-; by destruct Hw].
    apply bool_decide_eq_true in Hd. split; [lia|].
    destruct (is_sensitive (data_classification a)) eqn:Hs, (allow_secret_egress_external cfg) eqn:Ha;
      simpl in He; try (injection He as <- <-; by destruct Hw);
      (split; [right; split; [done|by auto]|]); intros send ->; by rewrite He.
Qed.
End egress.

(** * Process broker *)

(** What the broker asks of the operating system, and what it may answer: a run ends, times
    out, or raises (an [OSError], the [ValueError] of an argument with a NUL character in it,
    the [SubprocessError] of a limit that could not be set in the child). *)
Record spawn : Set := mkSpawn {
  sp_argv : list string;
  sp_timeout : spec_float;
  sp_cwd : option string;
  sp_cpu_seconds : Z;
  sp_address_space : Z
}.
Inductive host_call : Set :=
| PWhich (name : string)
| PExists (path : string)
| PRun (s : spawn).
Inductive host_answer : Set :=
| PNothing
| PPath (path : string)
| PTimeout
| PRaise (cls arg : string)
| PDone (returncode : Z) (stdout : string).

(** The operating system, and [bytes.decode("utf-8", "replace")]. *)
Class ProcessHost := {
  process_host : list (host_call * host_answer) → host_call → host_answer;
  decode_replace : string → string
}.
Notation host_history := (list (host_call * host_answer)).

(** [ProcessConfig], [ProcessRequest] *)
Record ProcessConfig : Type := mkProcessConfig {
  allowed_commands : gset string;
  workspace_cwd : option string;
  timeout_seconds : spec_float;
  max_cpu_seconds : Z;
  max_address_space_bytes : Z;
  max_output_bytes : Z;
  use_unshare : bool
}.
Record ProcessRequest : Set := mkProcess { argv : list string }.

(** [os.path.basename] *)
Fixpoint basename_from (acc s : string) : string :=
  match s with
  | EmptyString => acc
  | String c r => if Ascii.eqb c slash then basename_from "" r else basename_from (acc +:+ String c "") r
  end.
Definition basename (s : string) : string := basename_from "" s.

(** [s[:n]] *)
Definition slice_to (n : Z) (s : string) : string :=
  String.substring 0 (Z.to_nat (if decide (n < 0)%Z then Z.of_nat (String.length s) + n else n)) s.

Section process.
Context `{Hashlib, Rfc8785, ProcessHost}.
Variable cfg : ProcessConfig.

Definition ask_host (c : host_call) : M host_history host_answer :=
  λ h, let a := process_host h c in (Ok a, h ++ [(c, a)]).

(** [ProcessBroker.observe] *)
Definition process_observe (request : ProcessRequest) (binding : AdapterBinding) : res AgentAction :=
  match argv request with
  | [] => err SCHEMA_INVALID "empty argv"
  | a0 :: _ =>
      Ok (mkAction 1 PROCESS_EXEC (basename a0) (Some "exec") None
            [("argv", JArr (JStr <$> argv request))] INTERNAL None)
  end.

(** [shutil.which(name)] *)
Definition ask_which (name : string) : M host_history (option string) :=
  let! a := ask_host (PWhich name) in
  cret match a with PPath p => Some p | _ => None end.

(** [ProcessBroker._resolve_command] *)
Definition resolve_command (a0 : string) : M host_history string :=
  if negb (bool_decide (basename a0 ∈ allowed_commands cfg)) then
    raise PROCESS_COMMAND_DENIED "command not on allowlist"
  else
    let! found := ask_which a0 in
    let path := if truthy_opt found then default "" found else if isabs a0 then a0 else "" in
    if decide (path = "") then raise PROCESS_COMMAND_DENIED "command not found"
    else
      let! there := ask_host (PExists path) in
      match there with
      | PPath _ => cret path
      | _ => raise PROCESS_COMMAND_DENIED "command not found"
      end.

(** The command line: under [unshare] if configured and present. *)
Definition command_line (cmd : list string) : M host_history (list string) :=
  if use_unshare cfg then
    let! found := ask_which "unshare" in
    cret (if truthy_opt found then ["unshare"; "--user"; "--net"; "--"] ++ cmd else cmd)
  else cret cmd.

(** [ProcessBroker._execute] *)
Definition process_execute (a : AgentAction) (d : AuthorizedDecision) (request : ProcessRequest)
    : M host_history ExecutionResult :=
  match argv request with
  | [] => cthrow (PyExc "IndexError" "list index out of range")
  | a0 :: args =>
      let! path := resolve_command a0 in
      let! cmd := command_line (path :: args) in
      let! out := ask_host (PRun (mkSpawn cmd (timeout_seconds cfg) (workspace_cwd cfg)
                                   (max_cpu_seconds cfg) (max_address_space_bytes cfg))) in
      match out with
      | PTimeout => raise EXECUTION_FAILED "process timed out"
      | PDone rc stdout =>
          let stdout := slice_to (max_output_bytes cfg) stdout in
          cret (mkResult (Some ("process:" +:+ target a)) (Some (content_digest stdout))
                  (Some (JObj [("returncode", JInt rc); ("stdout", JStr (decode_replace stdout))])))
      | PRaise cls arg =>
          if is_oserror (PyExc cls arg) then raise EXECUTION_FAILED "process spawn failed"
          else cthrow (PyExc cls arg)
      | PNothing | PPath _ => cthrow (PyExc "TypeError" "not a finished process")
      end
  end.

(** * What is spawned *)

(** A spawn of an allowlisted command with the arguments of the request, within the
    limits, at a path the host resolved and found. *)
Definition spawn_ok (request : ProcessRequest) (calls : host_history) (s : spawn) : Prop :=
  ∃ a0 args path y, argv request = a0 :: args ∧ basename a0 ∈ allowed_commands cfg ∧
    ((PWhich a0, PPath path) ∈ calls ∨ path = a0 ∧ isabs a0 = true) ∧
    (PExists path, PPath y) ∈ calls ∧
    (sp_argv s = path :: args ∨
     use_unshare cfg = true ∧ sp_argv s = ["unshare"; "--user"; "--net"; "--"] ++ path :: args) ∧
    sp_timeout s = timeout_seconds cfg ∧ sp_cwd s = workspace_cwd cfg ∧ sp_cpu_seconds s = max_cpu_seconds cfg ∧
    sp_address_space s = max_address_space_bytes cfg.

Definition is_run (c : host_call * host_answer) : bool := match c.1 with PRun _ => true | _ => false end.
Definition runs (calls : host_history) : list (host_call * host_answer) := filter (λ c, is_run c = true) calls.

Lemma resolve_command_inv a0 h r h' :
  resolve_command a0 h = (r, h') →
  ∃ calls, h' = h ++ calls ∧ runs calls = [] ∧
    (basename a0 ∉ allowed_commands cfg → calls = [] ∧ is_ok r = false) ∧
    ∀ path, r = Ok path → basename a0 ∈ allowed_commands cfg ∧
      ((PWhich a0, PPath path) ∈ calls ∨ path = a0 ∧ isabs a0 = true) ∧
      ∃ y, (PExists path, PPath y) ∈ calls.
Proof.
  unfold resolve_command, ask_which, ask_host, cbind, cret, raise, cthrow.
  destruct (bool_decide (basename a0 ∈ allowed_commands cfg)) eqn:Hb; cbn [negb].
  2: { apply bool_decide_eq_false in Hb. intros [= <- <-]. exists []. by rewrite app_nil_r. }
  apply bool_decide_eq_true in Hb.
  set (w := process_host h (PWhich a0)).
  set (found := match w with PPath p => Some p | _ => None end).
  set (path := if truthy_opt found then default "" found else if isabs a0 then a0 else "").
  assert (Hpath : path ≠ "" → w = PPath path ∨ path = a0 ∧ isabs a0 = true).
  { unfold path, found. destruct w as [|q| | |]; simpl;
      try (destruct (isabs a0); naive_solver). destruct (bool_decide (q = "")); simpl; [|by left].
    destruct (isabs a0); naive_solver. }
  case_decide as Hp.
  { intros [= <- <-]. exists [(PWhich a0, w)]. split_and!; [done|done|done|]. intros ? [=]. }
  set (e := process_host _ (PExists path)). intros He.
  exists [(PWhich a0, w); (PExists path, e)].
  assert (h' = h ++ [(PWhich a0, w); (PExists path, e)]) as ->.
  { destruct e; injection He as _ <-; by rewrite <-app_assoc. }
  split_and!; [done|done|done|]. intros q ->.
  destruct e as [|y| | |] eqn:Hey; simplify_eq.
  split; [done|]. split; [|exists y; set_solver].
  destruct (Hpath Hp) as [Hw|Hq]; [left|by right]. rewrite <-Hw. set_solver.
Qed.

(** C27. The process broker runs only what is allowed.  Whatever the host answers, a
    request starts at most one process, and that is a command whose base name is on the
    allowlist, at a path the host resolved and found, with the arguments of the request
    as a list (never a shell string) and under the configured directory, time and limits; a
    command off the allowlist asks the host nothing; and a result means that the process
    ran. *)
Theorem process_confined a d request h r h' :
  process_execute a d request h = (r, h') →
  ∃ calls, h' = h ++ calls ∧ length (runs calls) ≤ 1 ∧
    (∀ s x, (PRun s, x) ∈ calls → spawn_ok request calls s) ∧
    (∀ a0 args, argv request = a0 :: args → basename a0 ∉ allowed_commands cfg → calls = []) ∧
    (is_ok r = true → ∃ s rc out, runs calls = [(PRun s, PDone rc out)]).
Proof.
  unfold process_execute. destruct (argv request) as [|a0 args] eqn:Hargv.
  { intros [= <- <-]. exists []. rewrite app_nil_r. split_and!; try done; [simpl; lia|set_solver]. }
  unfold cbind at 1. destruct (resolve_command a0 h) as [r1 h1] eqn:Hres.
  apply resolve_command_inv in Hres as (l1 & -> & Hr1 & Hoff & Hok).
  assert (Hno : ∀ s x, (PRun s, x) ∉ l1).
  { intros s x Hin. assert ((PRun s, x) ∈ runs l1) by (by apply list_elem_of_filter). rewrite Hr1 in *. set_solver. }
  destruct r1 as [path|x].
  2: { intros [= <- <-]. exists l1. split_and!; [done|rewrite Hr1; simpl; lia|set_solver| |done].
       intros ? ? [= <- <-] Hb. by apply Hoff. }
  destruct (Hok path eq_refl) as (Hal & Hpath & y & Hy).
  unfold cbind at 1. destruct (command_line (path :: args) (h ++ l1)) as [r2 h2] eqn:Hcmd.
  assert (∃ cmd l2, r2 = Ok cmd ∧ h2 = (h ++ l1) ++ l2 ∧ runs l2 = [] ∧
    (cmd = path :: args ∨ use_unshare cfg = true ∧ cmd = ["unshare"; "--user"; "--net"; "--"] ++ path :: args))
    as (cmd & l2 & -> & -> & Hr2 & Hc).
  { unfold command_line, ask_which, ask_host, cbind, cret in Hcmd.
    destruct (use_unshare cfg); injection Hcmd as <- <-.
    - eexists _, [_]. split_and!; [done|done|done|]. by case_match; [right|left].
    - eexists _, []. rewrite app_nil_r. split_and!; [done..|by left]. }
  unfold cbind, ask_host. set (s := mkSpawn _ _ _ _ _). set (o := process_host _ (PRun s)).
  intros He. assert (Hh : h' = ((h ++ l1) ++ l2) ++ [(PRun s, o)]).
  { destruct o as [| | |cls arg|]; try (by injection He). by destruct (is_oserror (PyExc cls arg)); injection He. }
  assert (Hr : runs (l1 ++ l2 ++ [(PRun s, o)]) = [(PRun s, o)]).
  { unfold runs in *. by rewrite !filter_app, Hr1, Hr2. }
  exists (l1 ++ l2 ++ [(PRun s, o)]). rewrite Hh, <-!app_assoc. split_and!; [done|rewrite Hr; simpl; lia| | |].
  - intros s' x Hin. assert ((PRun s', x) ∈ runs (l1 ++ l2 ++ [(PRun s, o)])) as Hin'
      by (by apply list_elem_of_filter).
    rewrite Hr in Hin'. apply list_elem_of_singleton in Hin' as [= -> _].
    exists a0, args, path, y. split_and!; [done|done| |set_solver|exact Hc|done..].
    destruct Hpath as [?|?]; [left; set_solver|by right].
  - intros ? ? [= <- <-] Hb. done.
  - intros Hr0. rewrite Hr. destruct o as [| | |cls arg|]; [injection He as <- _; done..| |injection He as <- _; eauto].
    destruct (is_oserror (PyExc cls arg)); injection He as <- _; done.
Qed.

Definition ProcessBroker : EnforcementBroker ProcessRequest host_history :=
  mkBroker SRC_PROCESS_BROKER "process-broker-01" process_observe process_execute.
End process.

(** * Output proxy *)

(** The [re] module: whether a pattern is found, and [subn] with a literal replacement. *)
Class Regex := {
  re_search : string → string → bool;
  re_subn : string → string → string → string * Z
}.

(** [_CREDENTIAL_PATTERNS], [_PII_PATTERNS] *)
Definition CREDENTIAL_PATTERNS : list string :=
  [ "AKIA[0-9A-Z]{16}"; "sk-[A-Za-z0-9]{20,}"; "(?i)(password|api[_-]?key|secret)\s*[:=]\s*\S+";
    "-----BEGIN (RSA |EC )?PRIVATE KEY-----" ].
Definition PII_PATTERNS : list string :=
  [ "[A-Za-z0-9._%+-]+@[A-Za-z0-9.-]+\.[A-Za-z]{2,}"; "\b\d{3}-\d{2}-\d{4}\b";
    "\b(?:\d[ -]?){13,16}\b" ].

(** [OutputRequest] *)
Record OutputRequest : Set := mkOutput { op_content : string; op_classification : DataClassification }.

Section output.
Context `{Hashlib, Regex} {W : Type}.

(** [OutputProxy.observe] *)
Definition output_observe (request : OutputRequest) (binding : AdapterBinding) : res AgentAction :=
  Ok (mkAction 1 USER_OUTPUT "user-output" (Some "release") None [] (op_classification request)
        (Some (mkPayloadRef "ephemeral-output" (content_digest (op_content request))
                 (Some (Z.of_nat (length (code_points (op_content request)))))))).

(** The loop over [_PII_PATTERNS]: the text so far and whether anything was replaced. *)
Definition redact (content : string) : string * bool :=
  foldl (λ '(text, found) pat,
           let '(text', n) := re_subn pat "[REDACTED]" text in
           (text', found || bool_decide (0 < n)%Z)) (content, false) PII_PATTERNS.

(** [OutputProxy._decide] *)
Definition output_decide (request : OutputRequest) : DecisionEffect * string :=
  let content := op_content request in
  if existsb (λ pat, re_search pat content) CREDENTIAL_PATTERNS then (DENY, content)
  else if decide (op_classification request = SECRET) then (DENY, content)
  else
    let '(redacted, pii_found) := redact content in
    if pii_found || bool_decide (op_classification request = CONFIDENTIAL) then (REDACT, redacted)
    else (ALLOW, content).

(** [OutputProxy._execute] *)
Definition output_execute (a : AgentAction) (d : AuthorizedDecision) (request : OutputRequest)
    : M W ExecutionResult :=
  let '(eff, content) := output_decide request in
  if decide (eff = DENY) then raise OUTPUT_DENIED "output release denied by DLP controls"
  else cret (mkResult (Some "ephemeral-output") (Some (content_digest content))
               (Some (JObj [("effect", JStr (DecisionEffect_value eff)); ("content", JStr content)]))).

Definition OutputProxy : EnforcementBroker OutputRequest W :=
  mkBroker SRC_OUTPUT_PROXY "output-proxy-01" output_observe output_execute.

(** Only text in which no credential pattern is found is released, nothing classified
    SECRET is, and what is classified CONFIDENTIAL or has a replaced pattern goes out in
    its redacted form. *)
Lemma output_released a d request (w : W) res w' :
  output_execute a d request w = (Ok res, w') →
  w' = w ∧ Forall (λ pat, re_search pat (op_content request) = false) CREDENTIAL_PATTERNS ∧
  op_classification request ≠ SECRET ∧
  let '(redacted, found) := redact (op_content request) in
  result_hash res = Some (content_digest
    (if found || bool_decide (op_classification request = CONFIDENTIAL) then redacted
     else op_content request)).
Proof.
  unfold output_execute, output_decide, raise, cthrow, cret.
  destruct (existsb _ CREDENTIAL_PATTERNS) eqn:Hc.
  { rewrite decide_True by done. by intros [=]. }
  case_decide as Hs; [rewrite decide_True by done; by intros [=]|].
  destruct (redact (op_content request)) as [redacted found].
  assert (Hall : Forall (λ pat, re_search pat (op_content request) = false) CREDENTIAL_PATTERNS).
  { apply Forall_forall. intros pat Hp. destruct (re_search pat (op_content request)) eqn:Hr; [|done].
    rewrite <-Hc. symmetry. apply existsb_exists. exists pat. split; [by apply list_elem_of_In|done]. }
  destruct (found || bool_decide (op_classification request = CONFIDENTIAL));
    rewrite decide_False by done; by intros [= <- <-].
Qed.
End output.

(** * Examples *)

Definition ex_host_os : ProcessHost :=
  {| process_host := λ _ c, match c with
       | PWhich n => PPath (if isabs n then n else "/usr/bin/" +:+ n)
       | PExists p => PPath p
       | PRun _ => PDone 0 "ok"
       end;
     decode_replace := λ s, s |}.
(** [30.0] *)
Definition ex_timeout : spec_float := S754_finite false 8444249301319680 (-48).
Definition ex_process_cfg : ProcessConfig := mkProcessConfig {["ls"]} None ex_timeout 10 536870912 1048576 false.

Import Instances.

(** C27 at a listing. *)
Lemma process_confined_witness :
  ∃ calls, length (runs calls) ≤ 1 ∧
    (process_execute (H1 := ex_host_os) ex_process_cfg ex_action ex_decision (mkProcess ["ls"; "-l"]) []).2 = calls ∧
    (PRun (mkSpawn ["/usr/bin/ls"; "-l"] ex_timeout None 10 536870912), PDone 0 "ok") ∈ calls.
Proof.
  destruct (process_execute (H1 := ex_host_os) ex_process_cfg ex_action ex_decision (mkProcess ["ls"; "-l"]) [])
    as [r h'] eqn:He.
  destruct (process_confined (H1 := ex_host_os) _ _ _ _ _ _ _ He) as (calls & Hh & Hr & _).
  exists calls. split; [exact Hr|]. split; [exact Hh|].
  assert (Hv : h' = (process_execute (H1 := ex_host_os) ex_process_cfg ex_action ex_decision
                       (mkProcess ["ls"; "-l"]) []).2) by (by rewrite He).
  simpl in Hh. subst calls. rewrite Hv. vm_compute. right. right. left.
Defined.

(** The allowlist looks at the base name only: a program of that name anywhere on the
    file system runs. *)
Example any_directory_runs :
  ∃ x, (PRun (mkSpawn ["/tmp/evil/ls"] ex_timeout None 10 536870912), x) ∈
    (process_execute (H1 := ex_host_os) ex_process_cfg ex_action ex_decision (mkProcess ["/tmp/evil/ls"]) []).2.
Proof. eexists. vm_compute. right. right. left. Qed.

(** A limit that cannot be set in the child, or an argument with a NUL character in it,
    leaves the broker as the exception Python raises. *)
Definition ex_no_limits : ProcessHost :=
  {| process_host := λ _ c, match c with
       | PWhich n => PPath ("/usr/bin/" +:+ n)
       | PExists p => PPath p
       | PRun _ => PRaise "SubprocessError" "Exception occurred in preexec_fn."
       end;
     decode_replace := λ s, s |}.
Example raw_exception_leaves :
  (process_execute (H1 := ex_no_limits) ex_process_cfg ex_action ex_decision (mkProcess ["ls"]) []).1
  = Err (PyExc "SubprocessError" "Exception occurred in preexec_fn.").
Proof. vm_compute. reflexivity. Qed.
