(* ===== verification/StrictJson.v ===== *)
(** Strict parsing of JSON ([cvztte/canonical/strict_json.py]) over the scanner of
    [json.loads], which is modelled as CPython's C scanner works: on the code points of
    the text, with [object_pairs_hook] and [parse_constant] called where it calls them.

    Texts are lists of code points.  A lone surrogate, which an escape can produce, is
    kept in the three bytes UTF-8 would give it. *)

From S2P Require Export PyJson Errors.

(** [float(s)] of a number literal. *)
Class FloatLiteral := { read_float : string → option spec_float }.

Definition MAX_PAYLOAD_BYTES : Z := 1 * 1024 * 1024.
Definition MAX_NESTING_DEPTH : Z := 64.

#[local] Notation "'let?' ' p ':=' m 'in' k" := (rbind m (λ p, k))
  (at level 200, p strict pattern, m at level 200, k at level 200).

(** * UTF-8 *)

Definition in_range (lo hi n : N) : bool := (lo <=? n)%N && (n <=? hi)%N.
Definition cont (c : Ascii.ascii) : bool := in_range 128 191 (Ascii.N_of_ascii c).

(** [raw.decode("utf-8")]: shortest forms only, no surrogates, at most U+10FFFF. *)
Fixpoint utf8_decode (s : string) : option (list N) :=
  match s with
  | EmptyString => Some []
  | String a r =>
      let n := Ascii.N_of_ascii a in
      if (n <? 128)%N then (λ l, n :: l) <$> utf8_decode r
      else if in_range 194 223 n then
        match r with
        | String b r =>
            if cont b then (λ l, ((n mod 32) * 64 + cont_bits b)%N :: l) <$> utf8_decode r else None
        | _ => None
        end
      else if in_range 224 239 n then
        match r with
        | String b (String c r) =>
            let v := (((n mod 16) * 64 + cont_bits b) * 64 + cont_bits c)%N in
            if cont b && cont c && (2048 <=? v)%N && negb (in_range 55296 57343 v)
            then (λ l, v :: l) <$> utf8_decode r else None
        | _ => None
        end
      else if in_range 240 244 n then
        match r with
        | String b (String c (String d r)) =>
            let v := ((((n mod 8) * 64 + cont_bits b) * 64 + cont_bits c) * 64 + cont_bits d)%N in
            if cont b && cont c && cont d && in_range 65536 1114111 v
            then (λ l, v :: l) <$> utf8_decode r else None
        | _ => None
        end
      else None
  end.

Definition byte (n : N) : Ascii.ascii := Ascii.ascii_of_N n.
(** The UTF-8 form of a code point. *)
Definition encode_cp (n : N) : string :=
  if (n <? 128)%N then String (byte n) ""
  else if (n <? 2048)%N then String (byte (192 + n / 64)) (String (byte (128 + n mod 64)) "")
  else if (n <? 65536)%N then
    String (byte (224 + n / 4096)) (String (byte (128 + n / 64 mod 64)) (String (byte (128 + n mod 64)) ""))
  else
    String (byte (240 + n / 262144)) (String (byte (128 + n / 4096 mod 64))
      (String (byte (128 + n / 64 mod 64)) (String (byte (128 + n mod 64)) ""))).
Definition utf8_encode (l : list N) : string := String.concat "" (encode_cp <$> l).

(** * The scanner *)

(** What the scanner raises of its own: [json.JSONDecodeError]. *)
Definition decode_error {A} (msg : string) : res A := Err (PyExc "JSONDecodeError" msg).
Definition recursion_error {A} : res A := Err (PyExc "RecursionError" "maximum recursion depth exceeded").
(** The fuel of the model ran out; [scan_enough_fuel] below: it does not. *)
Definition out_of_fuel {A} : res A := Err (PyExc "out of fuel" "").

Definition is_ws (n : N) : bool := bool_decide (n ∈ [32; 9; 10; 13]%N).
Fixpoint skip_ws (t : list N) : list N :=
  match t with c :: r => if is_ws c then skip_ws r else t | [] => [] end.

Definition is_digit (n : N) : bool := in_range 48 57 n.
(** The value of a hexadecimal digit. *)
Definition hex_value (n : N) : option N :=
  if is_digit n then Some (n - 48)%N
  else if in_range 97 102 n then Some (n - 87)%N
  else if in_range 65 70 n then Some (n - 55)%N
  else None.
Definition hex4 (a b c d : N) : option N :=
  match hex_value a, hex_value b, hex_value c, hex_value d with
  | Some a, Some b, Some c, Some d => Some (((a * 16 + b) * 16 + c) * 16 + d)%N
  | _, _, _, _ => None
  end.
Definition high_surrogate (n : N) : bool := in_range 55296 56319 n.
Definition low_surrogate (n : N) : bool := in_range 56320 57343 n.
Definition join_surrogates (h l : N) : N := (65536 + (h - 55296) * 1024 + (l - 56320))%N.

(** The one-character escapes. *)
Definition unescape (n : N) : option N :=
  (λ x, x.2.2) <$> list_find (λ c, c.1 = n)
    [(34, 34); (92, 92); (47, 47); (98, 8); (102, 12); (110, 10); (114, 13); (116, 9)]%N.

Definition push {A B} (c : A) (r : res (list A * B)) : res (list A * B) :=
  let? '(l, t) := r in Ok (c :: l, t).

(** [scanstring] with [strict=True], after the opening quote. *)
Fixpoint scan_string (t : list N) : res (list N * list N) :=
  match t with
  | [] => decode_error "Unterminated string"
  | c :: r =>
      if (c =? 34)%N then Ok ([], r)
      else if (c =? 92)%N then
        match r with
        | [] => decode_error "Unterminated string"
        | e :: r1 =>
            if (e =? 117)%N then
              match r1 with
              | a :: b :: c :: d :: r2 =>
                  match hex4 a b c d with
                  | None => decode_error "Invalid \uXXXX escape"
                  | Some u =>
                      if high_surrogate u then
                        match r2 with
                        | x :: y :: a' :: b' :: c' :: d' :: r3 =>
                            if (x =? 92)%N && (y =? 117)%N then
                              match hex4 a' b' c' d' with
                              | None => decode_error "Invalid \uXXXX escape"
                              | Some u' =>
                                  if low_surrogate u' then push (join_surrogates u u') (scan_string r3)
                                  else push u (scan_string r2)
                              end
                            else push u (scan_string r2)
                        | _ => push u (scan_string r2)
                        end
                      else push u (scan_string r2)
                  end
              | _ => decode_error "Invalid \uXXXX escape"
              end
            else
              match unescape e with
              | Some c => push c (scan_string r1)
              | None => decode_error "Invalid \escape"
              end
        end
      else if (c <=? 31)%N then decode_error "Invalid control character"
      else push c (scan_string r)
  end.

Fixpoint span_digits (t : list N) : list N * list N :=
  match t with
  | c :: r => if is_digit c then let '(ds, r') := span_digits r in (c :: ds, r') else ([], t)
  | [] => ([], [])
  end.

(** The parts of a number literal: sign, integer digits, fraction with its point, and
    exponent with its letter and sign; and what follows. *)
Record literal : Set := mkLiteral {
  lit_neg : bool;
  lit_int : list N;
  lit_frac : list N;
  lit_exp : list N
}.

(** A mark and the digits it needs; nothing if there are none. *)
Definition scan_marked (mark t0 t : list N) : list N * list N :=
  match span_digits t with ([], _) => ([], t0) | (ds, r) => (mark ++ ds, r) end.
Definition scan_fraction (t : list N) : list N * list N :=
  match t with
  | c :: r => if (c =? 46)%N then scan_marked [c] t r else ([], t)
  | [] => ([], [])
  end.
Definition scan_exponent (t : list N) : list N * list N :=
  match t with
  | c :: r =>
      if (c =? 101)%N || (c =? 69)%N then
        match r with
        | s :: r' => if (s =? 43)%N || (s =? 45)%N then scan_marked [c; s] t r' else scan_marked [c] t r
        | [] => ([], t)
        end
      else ([], t)
  | [] => ([], [])
  end.

(** The digits of the integer part: a lone zero, or no leading zero. *)
Definition scan_integer (t : list N) : option (list N * list N) :=
  match t with
  | c :: r =>
      if (c =? 48)%N then Some ([c], r)
      else if in_range 49 57 c then Some (span_digits t)
      else None
  | [] => None
  end.

(** [_match_number_unicode]; [None] where it raises [StopIteration]. *)
Definition scan_number (t : list N) : option (literal * list N) :=
  let '(neg, t1) := match t with c :: r => if (c =? 45)%N then (true, r) else (false, t)
                    | [] => (false, t) end in
  (λ '(ds, r),
     let '(fr, r1) := scan_fraction r in
     let '(ex, r2) := scan_exponent r1 in
     (mkLiteral neg ds fr ex, r2)) <$> scan_integer t1.

Definition literal_text (l : literal) : string :=
  utf8_encode ((if lit_neg l then [45%N] else []) ++ lit_int l ++ lit_frac l ++ lit_exp l).
Definition digits_value (ds : list N) : Z :=
  foldl (λ v d, (10 * v + Z.of_N (d - 48))%Z) 0%Z ds.

(** [_reject_constant] *)
Definition reject_constant {A} (name : string) : res A :=
  err SCHEMA_INVALID ("non-finite JSON number not allowed: " +:+ name).

(** [_reject_duplicate_keys] *)
Fixpoint reject_from (seen : list string) (pairs : list (string * json)) : res unit :=
  match pairs with
  | [] => Ok tt
  | (k, _) :: pairs =>
      if bool_decide (k ∈ seen) then err DUPLICATE_JSON_KEY "duplicate JSON key"
      else reject_from (k :: seen) pairs
  end.
Definition reject_duplicate_keys (pairs : list (string * json)) : res json :=
  let? _ := reject_from [] pairs in Ok (JObj pairs).

(** [object_pairs_hook] and [parse_constant] of a call of [json.loads]. *)
Record json_hooks : Set := mkHooks {
  pairs_hook : list (string * json) → res json;
  constant_hook : string → res json
}.
Definition strict_hooks : json_hooks := mkHooks reject_duplicate_keys reject_constant.
(** Without hooks: [dict(pairs)], in which the last of a name counts at the place of the
    first, and the constants as floats. *)
Definition plain_hooks : json_hooks :=
  mkHooks (λ kvs, Ok (JObj (foldl (λ d kv, dset kv.1 kv.2 d) [] kvs)))
    (λ c, Ok (JFloat (if bool_decide (c = "NaN") then S754_nan
                      else S754_infinity (bool_decide (c = "-Infinity"))))).

(** Neither hook of the code: every member of an object is kept, in order, and the constants
    are not JSON.  The reference that [strict_loads] is compared with. *)
Definition grammar_hooks : json_hooks :=
  mkHooks (λ kvs, Ok (JObj kvs)) (λ c, Err (PyExc "JSONDecodeError" c)).

Section scanner.
Context `{FloatLiteral}.
(** [sys.get_int_max_str_digits()], and the frames the interpreter has left. *)
Variable int_max_digits : nat.
Variable hooks : json_hooks.

(** [int(s)] and [float(s)] of the literal: [int] refuses more digits than the limit. *)
Definition number_value (l : literal) : res json :=
  match lit_frac l, lit_exp l with
  | [], [] =>
      if decide (int_max_digits < length (lit_int l)) then
        Err (PyExc "ValueError" "Exceeds the limit for integer string conversion")
      else Ok (JInt (if lit_neg l then - digits_value (lit_int l) else digits_value (lit_int l)))
  | _, _ =>
      match read_float (literal_text l) with
      | Some f => Ok (JFloat f)
      | None => Err (PyExc "ValueError" "could not convert string to float")
      end
  end.

(** The text after a word, if [t] begins with it. *)
Fixpoint after (w : string) (t : list N) : option (list N) :=
  match w, t with
  | EmptyString, _ => Some t
  | String a w, c :: t => if bool_decide (Ascii.N_of_ascii a = c) then after w t else None
  | _, [] => None
  end.

(** The words of the grammar and of [parse_constant]. *)
Definition words : list (string * res json) :=
  [ ("null", Ok JNull); ("true", Ok (JBool true)); ("false", Ok (JBool false));
    ("NaN", constant_hook hooks "NaN"); ("Infinity", constant_hook hooks "Infinity");
    ("-Infinity", constant_hook hooks "-Infinity") ].
Fixpoint scan_word (ws : list (string * res json)) (t : list N) : option (res json * list N) :=
  match ws with
  | [] => None
  | (w, v) :: ws => match after w t with Some r => Some (v, r) | None => scan_word ws t end
  end.

(** A value that opens no bracket and no string. *)
Definition scan_scalar (t : list N) : res (json * list N) :=
  match scan_word words t with
  | Some (v, r) => let? v := v in Ok (v, r)
  | None =>
      match scan_number t with
      | Some (l, r) => let? v := number_value l in Ok (v, r)
      | None => decode_error "Expecting value"
      end
  end.

(** The character [c] next, after whitespace. *)
Definition next_is (c : N) (t : list N) : option (list N) :=
  match skip_ws t with x :: r => if (x =? c)%N then Some r else None | [] => None end.

(** [scan_once] and, inside brackets, [_parse_array] and [_parse_object]; [frames] is the
    recursion the interpreter has left. *)
Fixpoint scan_once (fuel frames : nat) (t : list N) : res (json * list N) :=
  match fuel with
  | 0 => out_of_fuel
  | S fuel =>
      match t with
      | [] => decode_error "Expecting value"
      | c :: r =>
          if (c =? 34)%N then let? '(s, r) := scan_string r in Ok (JStr (utf8_encode s), r)
          else if (c =? 123)%N then
            match frames with
            | 0 => recursion_error
            | S frames =>
                match next_is 125 r with
                | Some r => let? v := pairs_hook hooks [] in Ok (v, r)
                | None => let? '(kvs, r) := scan_members fuel frames (skip_ws r) in
                          let? v := pairs_hook hooks kvs in Ok (v, r)
                end
            end
          else if (c =? 91)%N then
            match frames with
            | 0 => recursion_error
            | S frames =>
                match next_is 93 r with
                | Some r => Ok (JArr [], r)
                | None => let? '(l, r) := scan_elements fuel frames (skip_ws r) in Ok (JArr l, r)
                end
            end
          else scan_scalar t
      end
  end
with scan_elements (fuel frames : nat) (t : list N) : res (list json * list N) :=
  match fuel with
  | 0 => out_of_fuel
  | S fuel =>
      let? '(v, r) := scan_once fuel frames t in
      match next_is 93 r with
      | Some r => Ok ([v], r)
      | None =>
          match next_is 44 r with
          | Some r => push v (scan_elements fuel frames (skip_ws r))
          | None => decode_error "Expecting ',' delimiter"
          end
      end
  end
with scan_members (fuel frames : nat) (t : list N) : res (list (string * json) * list N) :=
  match fuel with
  | 0 => out_of_fuel
  | S fuel =>
      match next_is 34 t with
      | None => decode_error "Expecting property name enclosed in double quotes"
      | Some r =>
          let? '(k, r) := scan_string r in
          match next_is 58 r with
          | None => decode_error "Expecting ':' delimiter"
          | Some r =>
              let? '(v, r) := scan_once fuel frames (skip_ws r) in
              match next_is 125 r with
              | Some r => Ok ([(utf8_encode k, v)], r)
              | None =>
                  match next_is 44 r with
                  | Some r => push (utf8_encode k, v) (scan_members fuel frames (skip_ws r))
                  | None => decode_error "Expecting ',' delimiter"
                  end
              end
          end
      end
  end.

(** [json.loads(text, ...)] *)
Definition json_loads (frames : nat) (t : list N) : res json :=
  if bool_decide (head t = Some 65279%N) then
    decode_error "Unexpected UTF-8 BOM (decode using utf-8-sig)"
  else
    let? '(v, r) := scan_once (2 * length t + 2) frames (skip_ws t) in
    match skip_ws r with [] => Ok v | _ => decode_error "Extra data" end.

End scanner.

(** [_check_depth] *)
Fixpoint check_depth (v : json) (depth : Z) : res unit :=
  if decide (MAX_NESTING_DEPTH < depth)%Z then err SCHEMA_INVALID "nesting depth exceeds 64"
  else match v with
       | JObj kvs => foldr (λ kv k, let? _ := check_depth kv.2 (depth + 1)%Z in k) (Ok tt) kvs
       | JArr l => foldr (λ v k, let? _ := check_depth v (depth + 1)%Z in k) (Ok tt) l
       | _ => Ok tt
       end.

(** [strict_loads] *)
Definition strict_loads `{FloatLiteral} (int_max_digits frames : nat) (raw : string) : res json :=
  if decide (MAX_PAYLOAD_BYTES < Z.of_nat (String.length raw))%Z then
    err PAYLOAD_TOO_LARGE "payload exceeds 1048576 bytes"
  else
    match utf8_decode raw with
    | None => err SCHEMA_INVALID "invalid UTF-8"
    | Some text =>
        let? v := match json_loads int_max_digits strict_hooks frames text with
                  | Err (PyExc "JSONDecodeError" m) => err SCHEMA_INVALID ("malformed JSON: " +:+ m)
                  | r => r
                  end in
        let? _ := check_depth v 0 in
        Ok v
    end.

(** [bool(v)] *)
Definition py_bool (v : json) : bool :=
  match v with
  | JNull | JFloat (S754_zero _) => false
  | JBool b => b
  | JInt z => negb (z =? 0)%Z
  | JFloat _ => true
  | JStr s => negb (bool_decide (s = ""))
  | JArr l => negb (bool_decide (length l = 0))
  | JObj kvs => negb (bool_decide (length kvs = 0))
  end.

(** [v[k]] *)
Definition json_item (k : string) (v : json) : res json :=
  match v with
  | JObj kvs => match dget k kvs with Some v => Ok v | None => Err (PyExc "KeyError" k) end
  | _ => Err (PyExc "TypeError" "indices must be integers")
  end.

(** [int(v)], of [int(s)] for strings; a float is truncated towards zero. *)
Definition int_value (int_of_str : string → option Z) (v : json) : res Z :=
  match v with
  | JInt z => Ok z
  | JBool b => Ok (if b then 1%Z else 0%Z)
  | JFloat (S754_zero _) => Ok 0%Z
  | JFloat (S754_finite s m e) =>
      let n := if decide (0 ≤ e)%Z then (Z.pos m * 2 ^ e)%Z else (Z.pos m / 2 ^ (- e))%Z in
      Ok (if s then - n else n)%Z
  | JFloat (S754_infinity _) => Err (PyExc "OverflowError" "cannot convert float infinity to integer")
  | JFloat S754_nan => Err (PyExc "ValueError" "cannot convert float NaN to integer")
  | JStr s => match int_of_str s with
              | Some z => Ok z | None => Err (PyExc "ValueError" "invalid literal for int()") end
  | _ => Err (PyExc "TypeError" "int() argument must be a string or a number")
  end.

(** * What is accepted, and how the rest is refused *)

(** No object at any depth has two members of the same name. *)
Fixpoint unambiguous (v : json) : Prop :=
  match v with
  | JArr l => foldr (λ v P, unambiguous v ∧ P) True l
  | JObj kvs => NoDup kvs.*1 ∧ foldr (λ kv P, unambiguous kv.2 ∧ P) True kvs
  | _ => True
  end.
(** The nesting of a value: how many brackets are around its innermost part. *)
Fixpoint nesting (v : json) : Z :=
  match v with
  | JArr l => foldr (λ v n, Z.max (1 + nesting v) n) 0%Z l
  | JObj kvs => foldr (λ kv n, Z.max (1 + nesting kv.2) n) 0%Z kvs
  | _ => 0%Z
  end.
(** The opening brackets of a text. *)
Definition brackets (t : list N) : nat := length (filter (λ c, c = 123%N ∨ c = 91%N) t).

(** Suffixes: what is left of a text. *)
Lemma brackets_suffix r t : r `suffix_of` t → brackets r ≤ brackets t.
Proof. intros [l ->]. unfold brackets. rewrite filter_app, length_app. lia. Qed.

Lemma skip_ws_suffix t : skip_ws t `suffix_of` t.
Proof.
  induction t as [|c t IH]; simpl; [done|]. destruct (is_ws c); [|done].
  by apply suffix_cons_r.
Qed.
Lemma next_is_suffix c t r : next_is c t = Some r → ∃ l, t = l ++ c :: r.
Proof.
  unfold next_is. intros Hn. destruct (skip_ws_suffix t) as [l Hl].
  destruct (skip_ws t) as [|x s]; [done|]. destruct (x =? c)%N eqn:Hx; [|done].
  injection Hn as ->. apply N.eqb_eq in Hx as ->. by exists l.
Qed.
Lemma span_digits_app t ds r : span_digits t = (ds, r) → t = ds ++ r ∧ Forall (λ d, is_digit d = true) ds.
Proof.
  revert ds r. induction t as [|c t IH]; intros ds r; simpl; [by intros [= <- <-]|].
  destruct (is_digit c) eqn:Hc; [|by intros [= <- <-]].
  destruct (span_digits t) as [ds' r'] eqn:He. intros [= <- <-].
  destruct (IH _ _ eq_refl) as [-> ?]. split; [done|by constructor].
Qed.
Lemma scan_marked_suffix mark t0 t ds r :
  scan_marked mark t0 t = (ds, r) → t `suffix_of` t0 → r `suffix_of` t0.
Proof.
  unfold scan_marked. destruct (span_digits t) as [ds' r'] eqn:He.
  apply span_digits_app in He as [-> _]. destruct ds'; intros [= <- <-] Hs; [done|].
  etrans; [|exact Hs]. by eexists.
Qed.
Lemma scan_fraction_suffix t ds r : scan_fraction t = (ds, r) → r `suffix_of` t.
Proof.
  destruct t as [|c t]; simpl; [by intros [= <- <-]|]. destruct (c =? 46)%N; [|by intros [= <- <-]].
  intros He. eapply scan_marked_suffix; [exact He|]. by apply suffix_cons_r.
Qed.
Lemma scan_exponent_suffix t ds r : scan_exponent t = (ds, r) → r `suffix_of` t.
Proof.
  destruct t as [|c t]; simpl; [by intros [= <- <-]|].
  destruct ((c =? 101) || (c =? 69))%N; [|by intros [= <- <-]].
  destruct t as [|s t]; [by intros [= <- <-]|].
  destruct ((s =? 43) || (s =? 45))%N; intros He; (eapply scan_marked_suffix; [exact He|]);
    solve [by apply suffix_cons_r|by apply suffix_cons_r, suffix_cons_r].
Qed.
Lemma scan_integer_suffix t ds r :
  scan_integer t = Some (ds, r) → t = ds ++ r ∧ ds ≠ [].
Proof.
  destruct t as [|c t]; simpl; [done|]. destruct (c =? 48)%N; [by intros [= <- <-]|].
  destruct (in_range 49 57 c) eqn:Hr; [|done]. intros [= He].
  assert (Hd : is_digit c = true).
  { unfold is_digit, in_range in *. apply andb_prop in Hr as [H1 H2].
    apply N.leb_le in H1, H2. apply andb_true_intro. split; apply N.leb_le; lia. }
  rewrite Hd in He. destruct (span_digits t) as [ds' r'] eqn:Hs. injection He as <- <-.
  apply span_digits_app in Hs as [-> _]. done.
Qed.
(** A number takes something, and no more integer digits than there are characters. *)
Lemma scan_number_suffix t l r :
  scan_number t = Some (l, r) →
  r `suffix_of` t ∧ length r < length t ∧ length (lit_int l) ≤ length t.
Proof.
  unfold scan_number. intros He.
  set (p := match t with c :: r => if (c =? 45)%N then (true, r) else (false, t) | [] => (false, t) end) in He.
  assert (Hp : p.2 `suffix_of` t).
  { unfold p. destruct t as [|c t]; [done|]. destruct (c =? 45)%N; [by apply suffix_cons_r|done]. }
  destruct p as [neg t1]. simpl in Hp.
  destruct (scan_integer t1) as [[ds r1]|] eqn:Hi; [|done]. simpl in He.
  apply scan_integer_suffix in Hi as [-> Hne].
  destruct (scan_fraction r1) as [fr r2] eqn:Hf. apply scan_fraction_suffix in Hf.
  destruct (scan_exponent r2) as [ex r3] eqn:Hx. apply scan_exponent_suffix in Hx.
  injection He as <- <-. simpl.
  pose proof (suffix_length _ _ Hp) as L1. pose proof (suffix_length _ _ Hf).
  pose proof (suffix_length _ _ Hx). rewrite length_app in L1.
  destruct ds as [|d ds]; [done|]. simpl in *. split; [|lia].
  etrans; [exact Hx|]. etrans; [exact Hf|]. etrans; [|exact Hp]. by exists (d :: ds).
Qed.
Lemma after_suffix w t r : after w t = Some r → r `suffix_of` t ∧ length t = String.length w + length r.
Proof.
  revert t. induction w as [|a w IH]; intros t; simpl; [by intros [= <-]|].
  destruct t as [|c t]; [done|]. case_bool_decide; [|done]. intros Ha.
  destruct (IH _ Ha) as [Hs Hl]. split; [by apply suffix_cons_r|simpl; lia].
Qed.

(** Why the scanner stops. *)
Inductive scan_failure (int_max frames : nat) (t : list N) `{FloatLiteral} : exn → Prop :=
| FDecode m : scan_failure int_max frames t (PyExc "JSONDecodeError" m)
| FConstant m : scan_failure int_max frames t (Cvztte (new_error SCHEMA_INVALID m))
| FDuplicate m : scan_failure int_max frames t (Cvztte (new_error DUPLICATE_JSON_KEY m))
| FRecursion m : frames < brackets t → scan_failure int_max frames t (PyExc "RecursionError" m)
| FInteger m : int_max < length t → scan_failure int_max frames t (PyExc "ValueError" m)
| FFloat m l : read_float (literal_text l) = None → scan_failure int_max frames t (PyExc "ValueError" m).

Section failures.
Context `{FloatLiteral} (int_max : nat).

Lemma scan_failure_suffix frames r t x :
  r `suffix_of` t → scan_failure int_max frames r x → scan_failure int_max frames t x.
Proof.
  intros Hs. pose proof (brackets_suffix _ _ Hs). pose proof (suffix_length _ _ Hs).
  destruct 1; econstructor; (done || lia).
Qed.
Lemma scan_failure_bracket frames r t c x :
  r `suffix_of` t → c = 123%N ∨ c = 91%N →
  scan_failure int_max frames r x → scan_failure int_max (S frames) (c :: t) x.
Proof.
  intros Hs Hc. pose proof (brackets_suffix _ _ Hs). pose proof (suffix_length _ _ Hs).
  assert (brackets (c :: t) = S (brackets t)).
  { unfold brackets. rewrite filter_cons, decide_True by done. done. }
  destruct 1; econstructor; (done || simpl; lia).
Qed.

Lemma push_ok {A B} (c : A) (r : res (list A * B)) l t :
  push c r = Ok (l, t) ↔ ∃ l', r = Ok (l', t) ∧ l = c :: l'.
Proof. unfold push. destruct r as [[l' t']|x]; simpl; naive_solver. Qed.
Lemma push_err {A B} (c : A) (r : res (list A * B)) x : push c r = Err x ↔ r = Err x.
Proof. unfold push. destruct r as [[l' t']|y]; simpl; naive_solver. Qed.

(** [scan_string] takes its closing quote and fails only with a decoding error. *)
Lemma scan_string_spec t :
  match scan_string t with
  | Ok (_, r) => r `suffix_of` t ∧ length r < length t
  | Err x => ∃ m, x = PyExc "JSONDecodeError" m
  end.
Proof.
  induction t as [t IH] using (induction_ltof1 _ (@length N)). unfold ltof in IH.
  assert (Hpush : ∀ c r, length r < length t → r `suffix_of` t →
    match push c (scan_string r) with
    | Ok (_, r) => r `suffix_of` t ∧ length r < length t
    | Err x => ∃ m, x = PyExc "JSONDecodeError" m
    end).
  { intros c r Hl Hs. specialize (IH r Hl). destruct (scan_string r) as [[l r']|x]; simpl; [|done].
    destruct IH as [Hs' Hl']. split; [by etrans|lia]. }
  destruct t as [|c r]; simpl; [by eexists|].
  destruct (c =? 34)%N; [split; [by apply suffix_cons_r|lia]|].
  destruct (c =? 92)%N.
  2: { destruct (c <=? 31)%N; [by eexists|]. apply Hpush; [simpl; lia|by apply suffix_cons_r]. }
  destruct r as [|e r1]; [by eexists|].
  destruct (e =? 117)%N.
  2: { destruct (unescape e); [|by eexists]. apply Hpush; [simpl; lia|by exists [c; e]]. }
  destruct r1 as [|a [|b [|c0 [|d r2]]]]; try by eexists.
  destruct (hex4 a b c0 d) as [u|]; [|by eexists].
  assert (H2 : ∀ k, match push k (scan_string r2) with
    | Ok (_, r) => r `suffix_of` c :: e :: a :: b :: c0 :: d :: r2 ∧ length r < length (c :: e :: a :: b :: c0 :: d :: r2)
    | Err x => ∃ m, x = PyExc "JSONDecodeError" m
    end).
  { intros k. apply Hpush; [simpl; lia|by exists [c; e; a; b; c0; d]]. }
  destruct (high_surrogate u); [|apply H2].
  destruct r2 as [|x [|y [|a' [|b' [|c' [|d' r3]]]]]]; try apply H2.
  destruct ((x =? 92) && (y =? 117))%N; [|apply H2].
  destruct (hex4 a' b' c' d') as [u'|]; [|by eexists].
  destruct (low_surrogate u'); [|apply H2].
  apply Hpush; [simpl; lia|by exists [c; e; a; b; c0; d; x; y; a'; b'; c'; d']].
Qed.

Lemma scan_word_spec ws t v r :
  scan_word ws t = Some (v, r) →
  ∃ w, (w, v) ∈ ws ∧ r `suffix_of` t ∧ length t = String.length w + length r.
Proof.
  induction ws as [|[w u] ws IH]; simpl; [done|].
  destruct (after w t) as [r'|] eqn:Ha.
  - intros [= <- <-]. apply after_suffix in Ha as [? ?]. exists w. set_solver.
  - intros Hs. destruct (IH Hs) as (w' & ? & ? & ?). exists w'. set_solver.
Qed.

Lemma scan_scalar_spec frames t :
  match scan_scalar int_max strict_hooks t with
  | Ok (v, r) => r `suffix_of` t ∧ length r < length t ∧ unambiguous v ∧ nesting v = 0%Z
  | Err x => scan_failure int_max frames t x
  end.
Proof.
  unfold scan_scalar. destruct (scan_word (words strict_hooks) t) as [[v r]|] eqn:Hw.
  { apply scan_word_spec in Hw as (w & Hw & Hs & Hl). unfold words in Hw.
    repeat (apply elem_of_cons in Hw as [[= -> ->]|Hw]); [..|by apply elem_of_nil in Hw];
      simpl in Hl |- *; first [split_and!; [done|lia|done|done]|constructor]. }
  destruct (scan_number t) as [[l r]|] eqn:Hn; [|constructor].
  apply scan_number_suffix in Hn as (Hs & Hl & Hd). unfold number_value.
  assert (Hf : match (match read_float (literal_text l) with Some f => Ok (JFloat f)
      | None => Err (PyExc "ValueError" "could not convert string to float") end) with
    | Ok v => unambiguous v ∧ nesting v = 0%Z | Err x => scan_failure int_max frames t x end).
  { destruct (read_float (literal_text l)) eqn:Hr; [done|]. by eapply FFloat. }
  destruct (lit_frac l), (lit_exp l).
  - case_decide; simpl; [apply FInteger; lia|done].
  - destruct (read_float _); simpl in *; [by split_and!|done].
  - destruct (read_float _); simpl in *; [by split_and!|done].
  - destruct (read_float _); simpl in *; [by split_and!|done].
Qed.

Lemma reject_from_spec seen pairs :
  match reject_from seen pairs with
  | Ok _ => NoDup pairs.*1 ∧ ∀ k, k ∈ seen → k ∉ pairs.*1
  | Err x => ∃ m, x = Cvztte (new_error DUPLICATE_JSON_KEY m)
  end.
Proof.
  revert seen. induction pairs as [|[k v] pairs IH]; intros seen; simpl; [split; [constructor|set_solver]|].
  case_bool_decide as Hk; [by eexists|].
  specialize (IH (k :: seen)). destruct (reject_from (k :: seen) pairs); [|done].
  destruct IH as [Hn Hs]. split; [constructor; [|done]; apply Hs; set_solver|].
  intros j Hj. rewrite not_elem_of_cons. split; [by intros ->|]. apply Hs. set_solver.
Qed.

(** What a scanner's result says of the text [t] it was given. *)
Definition scanned {A} (frames : nat) (P : A → Prop) (t : list N) (r : res (A * list N)) : Prop :=
  match r with
  | Ok (a, r) => r `suffix_of` t ∧ length r < length t ∧ P a
  | Err x => scan_failure int_max frames t x
  end.

(** A part of the text scanned, and the rest carried on with. *)
Lemma scanned_bind {A B} frames (P : A → Prop) (Q : B → Prop) t t' m k :
  t' `suffix_of` t → scanned frames P t' m →
  (∀ a r, P a → r `suffix_of` t' → length r < length t' → scanned frames Q t (k (a, r))) →
  scanned frames Q t (rbind m k).
Proof.
  intros Hs Hm Hk. destruct m as [[a r]|x]; simpl in *; [naive_solver|].
  by eapply scan_failure_suffix.
Qed.
Lemma scanned_bracket {A B} c frames (P : A → Prop) (Q : B → Prop) t t' m k :
  c = 123%N ∨ c = 91%N → t' `suffix_of` t → scanned frames P t' m →
  (∀ a r, P a → r `suffix_of` t' → length r < length t' → scanned (S frames) Q (c :: t) (k (a, r))) →
  scanned (S frames) Q (c :: t) (rbind m k).
Proof.
  intros Hc Hs Hm Hk. destruct m as [[a r]|x]; simpl in *; [naive_solver|].
  by apply (scan_failure_bracket _ t').
Qed.
Lemma scanned_push {A} frames (P : A → Prop) t t' a m :
  t' `suffix_of` t → P a → scanned frames (Forall P) t' m → scanned frames (Forall P) t (push a m).
Proof.
  intros Hs Ha Hm. unfold push. eapply scanned_bind; [exact Hs|exact Hm|].
  intros l r Hl Hr Hlt. simpl. pose proof (suffix_length _ _ Hs).
  split_and!; [by etrans|lia|by constructor].
Qed.
Lemma next_is_shorter c t r : next_is c t = Some r → r `suffix_of` t ∧ length r < length t.
Proof.
  intros [l ->]%next_is_suffix. split; [exists (l ++ [c]); by rewrite <-(assoc_L (++))|].
  rewrite length_app. simpl. lia.
Qed.
Lemma skip_ws_length t : length (skip_ws t) ≤ length t.
Proof. apply suffix_length, skip_ws_suffix. Qed.

Lemma reject_duplicate_keys_spec frames pairs t r :
  r `suffix_of` t → length r < length t → Forall (λ kv, unambiguous kv.2) pairs →
  scanned frames unambiguous t (let? v := reject_duplicate_keys pairs in Ok (v, r)).
Proof.
  intros Hs Hl Hp. unfold reject_duplicate_keys. pose proof (reject_from_spec [] pairs) as Hr.
  destruct (reject_from [] pairs); simpl in *.
  - split_and!; [done|done|apply Hr|]. clear -Hp. by induction Hp.
  - destruct Hr as [m ->]. constructor.
Qed.

(** One step of fuel. *)
Lemma scan_once_S hooks fuel frames t : scan_once int_max hooks (S fuel) frames t =
  match t with
  | [] => decode_error "Expecting value"
  | c :: r =>
      if (c =? 34)%N then let? '(s, r) := scan_string r in Ok (JStr (utf8_encode s), r)
      else if (c =? 123)%N then
        match frames with
        | 0 => recursion_error
        | S frames =>
            match next_is 125 r with
            | Some r => let? v := pairs_hook hooks [] in Ok (v, r)
            | None => let? '(kvs, r) := scan_members int_max hooks fuel frames (skip_ws r) in
                      let? v := pairs_hook hooks kvs in Ok (v, r)
            end
        end
      else if (c =? 91)%N then
        match frames with
        | 0 => recursion_error
        | S frames =>
            match next_is 93 r with
            | Some r => Ok (JArr [], r)
            | None => let? '(l, r) := scan_elements int_max hooks fuel frames (skip_ws r) in Ok (JArr l, r)
            end
        end
      else scan_scalar int_max hooks t
  end.
Proof. done. Qed.
Lemma scan_elements_S hooks fuel frames t : scan_elements int_max hooks (S fuel) frames t =
  (let? '(v, r) := scan_once int_max hooks fuel frames t in
   match next_is 93 r with
   | Some r => Ok ([v], r)
   | None =>
       match next_is 44 r with
       | Some r => push v (scan_elements int_max hooks fuel frames (skip_ws r))
       | None => decode_error "Expecting ',' delimiter"
       end
   end).
Proof. done. Qed.
Lemma scan_members_S hooks fuel frames t : scan_members int_max hooks (S fuel) frames t =
  match next_is 34 t with
  | None => decode_error "Expecting property name enclosed in double quotes"
  | Some r =>
      let? '(k, r) := scan_string r in
      match next_is 58 r with
      | None => decode_error "Expecting ':' delimiter"
      | Some r =>
          let? '(v, r) := scan_once int_max hooks fuel frames (skip_ws r) in
          match next_is 125 r with
          | Some r => Ok ([(utf8_encode k, v)], r)
          | None =>
              match next_is 44 r with
              | Some r => push (utf8_encode k, v) (scan_members int_max hooks fuel frames (skip_ws r))
              | None => decode_error "Expecting ',' delimiter"
              end
          end
      end
  end.
Proof. done. Qed.

(** The scanner with fuel for twice the text: it takes some of it, and its values are
    unambiguous; or it stops for a reason the text gives. *)
Lemma scan_enough_fuel fuel frames t :
  (2 * length t + 1 ≤ fuel → scanned frames unambiguous t (scan_once int_max strict_hooks fuel frames t)) ∧
  (2 * length t + 2 ≤ fuel →
     scanned frames (Forall unambiguous) t (scan_elements int_max strict_hooks fuel frames t) ∧
     scanned frames (Forall (λ kv, unambiguous kv.2)) t (scan_members int_max strict_hooks fuel frames t)).
Proof.
  revert frames t. induction fuel as [|fuel IH]; intros frames t; [lia|]. split; [|intros Hf; split].
  - intros Hf. destruct t as [|c t]; [constructor|]. simpl in Hf. rewrite scan_once_S.
    assert (Hc : t `suffix_of` c :: t) by by apply suffix_cons_r.
    pose proof (skip_ws_length t). pose proof (skip_ws_suffix t).
    destruct (c =? 34)%N.
    { pose proof (scan_string_spec t) as Hs. destruct (scan_string t) as [[s r]|x]; simpl.
      - destruct Hs. split_and!; [by etrans|lia|done].
      - destruct Hs as [m ->]. constructor. }
    destruct (c =? 123)%N eqn:Hbrace; [|destruct (c =? 91)%N eqn:Hsquare].
    + apply N.eqb_eq in Hbrace as ->.
      destruct frames as [|frames]; [simpl; constructor; unfold brackets; simpl; lia|].
      destruct (next_is 125 t) as [r|] eqn:Hn.
      { apply next_is_shorter in Hn as [? ?].
        apply reject_duplicate_keys_spec; [by etrans|simpl; lia|constructor]. }
      destruct (proj2 (IH frames (skip_ws t)) ltac:(lia)) as [_ Hm].
      eapply scanned_bracket; [by left|done|exact Hm|]. intros kvs r Hk Hr Hl. cbn beta iota zeta.
      apply reject_duplicate_keys_spec; [by do 2 (etrans; [done|])|simpl; lia|done].
    + apply N.eqb_eq in Hsquare as ->.
      destruct frames as [|frames]; [simpl; constructor; unfold brackets; simpl; lia|].
      destruct (next_is 93 t) as [r|] eqn:Hn.
      { apply next_is_shorter in Hn as [? ?]. simpl. split_and!; [by etrans|lia|done]. }
      destruct (proj2 (IH frames (skip_ws t)) ltac:(lia)) as [Hm _].
      eapply scanned_bracket; [by right|done|exact Hm|]. intros l r Hv Hr Hl. simpl.
      split_and!; [by do 2 (etrans; [done|])|lia|clear -Hv; by induction Hv].
    + pose proof (scan_scalar_spec frames (c :: t)) as Hs. destruct (scan_scalar _ _ _) as [[v r]|x]; [|done].
      simpl in *. naive_solver.
  - rewrite scan_elements_S. eapply scanned_bind; [done|apply IH; lia|].
    intros v r Hv Hr Hl. cbn beta iota zeta. destruct (next_is 93 r) as [r'|] eqn:Hn.
    { apply next_is_shorter in Hn as [? ?]. simpl. split_and!; [by etrans|lia|by constructor]. }
    destruct (next_is 44 r) as [r'|] eqn:Hc; [|constructor]. apply next_is_shorter in Hc as [? ?].
    pose proof (skip_ws_length r').
    eapply scanned_push; [do 2 (etrans; [|done]); apply skip_ws_suffix|done|]. apply IH. lia.
  - rewrite scan_members_S. destruct (next_is 34 t) as [r|] eqn:Hq; [|constructor].
    apply next_is_shorter in Hq as [? ?].
    pose proof (scan_string_spec r) as Hs. destruct (scan_string r) as [[k r1]|x]; simpl;
      [destruct Hs|destruct Hs as [m ->]; constructor].
    destruct (next_is 58 r1) as [r2|] eqn:Hcol; [|constructor]. apply next_is_shorter in Hcol as [? ?].
    pose proof (skip_ws_length r2).
    assert (skip_ws r2 `suffix_of` t) by (do 3 (etrans; [|done]); apply skip_ws_suffix).
    eapply scanned_bind; [done|apply IH; lia|].
    intros v r3 Hv Hr Hl. cbn beta iota zeta. destruct (next_is 125 r3) as [r'|] eqn:Hn.
    { apply next_is_shorter in Hn as [? ?]. simpl.
      split_and!; [do 2 (etrans; [done|]); done|lia|by constructor]. }
    destruct (next_is 44 r3) as [r'|] eqn:Hc; [|constructor]. apply next_is_shorter in Hc as [? ?].
    pose proof (skip_ws_length r').
    eapply scanned_push; [|done|apply IH; lia]. do 3 (etrans; [|done]). apply skip_ws_suffix.
Qed.


(** [_check_depth] lets a value pass exactly if it nests within the limit. *)
Lemma check_depth_spec v d :
  (0 ≤ d ≤ MAX_NESTING_DEPTH + 1)%Z →
  check_depth v d = if decide (d + nesting v ≤ MAX_NESTING_DEPTH)%Z then Ok tt
                    else err SCHEMA_INVALID "nesting depth exceeds 64".
Proof.
  revert v d.
  refine (json_rect' _ _ _ _ _ _ _ _); try (by intros; simpl; repeat case_decide; done || lia).
  - intros l IH d Hd. cbn [check_depth nesting]. 
    case_decide as Hmax; [rewrite decide_False; [done|]|].
    { assert (0 ≤ foldr (λ v n, Z.max (1 + nesting v) n) 0 l)%Z by (clear; induction l; simpl; lia). lia. }
    induction IH as [|v l Hv _ IHl]; simpl; [rewrite decide_True by lia; done|].
    rewrite Hv by lia. case_decide; simpl; [rewrite IHl|]; repeat case_decide; done || lia.
  - intros l IH d Hd. cbn [check_depth nesting].
    case_decide as Hmax; [rewrite decide_False; [done|]|].
    { assert (0 ≤ foldr (λ (kv : string * json) n, Z.max (1 + nesting kv.2) n) 0 l)%Z by (clear; induction l; simpl; lia). lia. }
    induction IH as [|kv l Hv _ IHl]; simpl; [rewrite decide_True by lia; done|].
    rewrite Hv by lia. case_decide; simpl; [rewrite IHl|]; repeat case_decide; done || lia.
Qed.

Lemma json_loads_spec frames t :
  match json_loads int_max strict_hooks frames t with
  | Ok v => unambiguous v
  | Err x => scan_failure int_max frames t x
  end.
Proof.
  unfold json_loads. case_bool_decide; [constructor|].
  pose proof (skip_ws_length t). pose proof (skip_ws_suffix t).
  pose proof (proj1 (scan_enough_fuel (2 * length t + 2) frames (skip_ws t)) ltac:(lia)) as Hs.
  destruct (scan_once _ _ _ _ _) as [[v r]|x]; simpl in *; [|by eapply scan_failure_suffix].
  destruct (skip_ws r); [by destruct Hs as (_ & _ & ?)|constructor].
Qed.

End failures.

(** * Against the reference parser *)

(** The tree of a text: all members of its objects, and no constants but those of JSON. *)
Definition parse_tree `{FloatLiteral} (int_max frames : nat) (text : list N) : res json :=
  json_loads int_max grammar_hooks frames text.

(** The text before the scan has a duplicate name, or the scans fail alike. *)
Inductive refused_like : exn → exn → Prop :=
| RL_duplicate m x : refused_like (Cvztte (new_error DUPLICATE_JSON_KEY m)) x
| RL_constant m m' : refused_like (Cvztte (new_error SCHEMA_INVALID m)) (PyExc "JSONDecodeError" m')
| RL_same c m : refused_like (PyExc c m) (PyExc c m).

(** What the scan with the hooks makes of a result of the scan without: the same if what was
    read is unambiguous, a duplicate name otherwise, and an error for an error. *)
Definition follows {A} (P : A → Prop) (strict lax : res (A * list N)) : Prop :=
  match lax with
  | Ok (a, r) => (P a ∧ strict = Ok (a, r)) ∨
                 (¬ P a ∧ ∃ m, strict = Err (Cvztte (new_error DUPLICATE_JSON_KEY m)))
  | Err x => ∃ y, strict = Err y ∧ refused_like y x
  end.

(** Both stop with one error. *)
Ltac fails_alike := eexists; split; [reflexivity|constructor].

Section reference.
Context `{FloatLiteral} (int_max : nat).

Lemma follows_bind {A B} (P : A → Prop) (Q : B → Prop) m1 m2 k1 k2 :
  follows P m1 m2 → (∀ a r, P a → follows Q (k1 (a, r)) (k2 (a, r))) →
  (∀ a r b r', ¬ P a → k2 (a, r) = Ok (b, r') → ¬ Q b) →
  follows Q (rbind m1 k1) (rbind m2 k2).
Proof.
  unfold follows at 1. destruct m2 as [[a r]|x]; intros Hm Hk Hbad.
  - destruct Hm as [[Ha ->]|(Ha & m & ->)]; [by apply Hk|]. simpl.
    unfold follows. destruct (k2 (a, r)) as [[b r']|x] eqn:Hk2.
    + right. split; [by eapply Hbad|by eexists].
    + fails_alike.
  - destruct Hm as (y & -> & Hy). simpl. unfold follows. by exists y.
Qed.
Lemma follows_same {A} (P : A → Prop) m : (∀ a r, m = Ok (a, r) → P a) → (∀ x, m = Err x → ∃ c a, x = PyExc c a) →
  follows P m m.
Proof.
  intros Hok Herr. unfold follows. destruct m as [[a r]|x]; [left; split; [by eapply Hok|done]|].
  destruct (Herr x eq_refl) as (c & a & ->). eexists. split; [done|constructor].
Qed.
Lemma follows_push {A} (P : A → Prop) a m1 m2 :
  P a → follows (Forall P) m1 m2 → follows (Forall P) (push a m1) (push a m2).
Proof.
  intros Ha Hm. unfold push. eapply follows_bind; [exact Hm| |].
  - intros l r Hl. left. split; [by constructor|done].
  - intros l r b r' Hl [= <- <-] Hb. by apply Forall_cons in Hb as [_ ?].
Qed.

Lemma reject_from_fails seen pairs :
  NoDup pairs.*1 → (∀ k, k ∈ seen → k ∉ pairs.*1) → reject_from seen pairs = Ok tt.
Proof.
  revert seen. induction pairs as [|[k v] pairs IH]; intros seen Hn Hs; [done|]. simpl in *.
  apply NoDup_cons in Hn as [Hk Hn]. rewrite bool_decide_false by (intros Hin; apply (Hs k Hin); by left).
  apply IH; [done|]. intros j Hj. apply elem_of_cons in Hj as [->|Hj]; [done|].
  intros Hin. apply (Hs j Hj). by right.
Qed.

Lemma unambiguous_members kvs : unambiguous (JObj kvs) ↔ NoDup kvs.*1 ∧ Forall (λ kv, unambiguous kv.2) kvs.
Proof.
  simpl. apply and_iff_compat_l. induction kvs as [|kv kvs IH]; simpl; [by split; [constructor|]|].
  rewrite Forall_cons. naive_solver.
Qed.
Lemma unambiguous_elements l : unambiguous (JArr l) ↔ Forall unambiguous l.
Proof.
  simpl. induction l as [|v l IH]; simpl; [by split; [constructor|]|]. rewrite Forall_cons. naive_solver.
Qed.

(** The hook on the members of an object whose values are unambiguous. *)
Lemma follows_members kvs (r : list N) :
  Forall (λ kv, unambiguous kv.2) kvs →
  follows unambiguous (let? v := reject_duplicate_keys kvs in Ok (v, r)) (Ok (JObj kvs, r)).
Proof.
  intros Hf. unfold follows, reject_duplicate_keys. rewrite unambiguous_members.
  pose proof (reject_from_spec [] kvs) as Hr. destruct (reject_from [] kvs) as [[]|x] eqn:He.
  - left. by destruct Hr.
  - right. destruct Hr as [m ->]. split; [|by eexists]. intros [Hn _].
    rewrite reject_from_fails in He; [done|done|set_solver].
Qed.

Lemma follows_scalar t :
  follows unambiguous (scan_scalar int_max strict_hooks t) (scan_scalar int_max grammar_hooks t).
Proof.
  unfold scan_scalar, words, scan_word. cbn [constant_hook strict_hooks grammar_hooks].
  do 3 (destruct (after _ t) as [r|]; [left; by split|]).
  do 3 (destruct (after _ t) as [r|]; [fails_alike|]).
  destruct (scan_number t) as [[l r]|]; [|fails_alike].
  assert (Hn : follows unambiguous (let? v := number_value int_max l in Ok (v, r))
    (let? v := number_value int_max l in Ok (v, r))); [|done].
  apply follows_same.
  - intros v r' Hv. apply rbind_ok in Hv as (w & Hw & [= <- <-]). unfold number_value in Hw.
    repeat case_match; simplify_eq; done.
  - intros x. unfold number_value. repeat case_match; simpl; intros; simplify_eq; by do 2 eexists.
Qed.

(** The scanner with the hooks of the code follows the reference. *)
Lemma follows_scan fuel frames t :
  follows unambiguous (scan_once int_max strict_hooks fuel frames t) (scan_once int_max grammar_hooks fuel frames t) ∧
  follows (Forall unambiguous) (scan_elements int_max strict_hooks fuel frames t)
    (scan_elements int_max grammar_hooks fuel frames t) ∧
  follows (Forall (λ kv, unambiguous kv.2)) (scan_members int_max strict_hooks fuel frames t)
    (scan_members int_max grammar_hooks fuel frames t).
Proof.
  revert frames t. induction fuel as [|fuel IH]; intros frames t; [split_and!; fails_alike|]. split_and!.
  - rewrite !scan_once_S. destruct t as [|c t]; [fails_alike|]. destruct (c =? 34)%N.
    { pose proof (scan_string_spec t) as Hs. destruct (scan_string t) as [[s r]|x]; simpl; [left; by split|].
      destruct Hs as [m ->]. fails_alike. }
    destruct (c =? 123)%N; [|destruct (c =? 91)%N; [|apply follows_scalar]];
      (destruct frames as [|frames]; [fails_alike|]).
    + destruct (next_is 125 t) as [r|]; [by apply (follows_members [] r)|].
      eapply follows_bind; [apply IH| |].
      * intros kvs r Hk. by apply follows_members.
      * intros kvs r v r' Hk [= <- <-] Hv. by apply unambiguous_members in Hv as [_ ?].
    + destruct (next_is 93 t) as [r|]; [left; by split|].
      eapply follows_bind; [apply IH| |].
      * intros l r Hl. left. split; [by apply unambiguous_elements|done].
      * intros l r v r' Hl [= <- <-] Hv. by apply unambiguous_elements in Hv.
  - rewrite !scan_elements_S. eapply follows_bind; [apply IH| |].
    + intros v r Hv. destruct (next_is 93 r) as [r'|]; [left; split; [by constructor|done]|].
      destruct (next_is 44 r) as [r'|]; [|fails_alike]. by apply follows_push; [|apply IH].
    + intros v r l r' Hv Hk Hl. destruct (next_is 93 r); [|destruct (next_is 44 r); [|done]].
      * injection Hk as <- <-. by apply Forall_cons in Hl as [? _].
      * apply push_ok in Hk as (l' & _ & ->). by apply Forall_cons in Hl as [? _].
  - rewrite !scan_members_S. destruct (next_is 34 t) as [r|]; [|fails_alike].
    pose proof (scan_string_spec r) as Hs. destruct (scan_string r) as [[k r1]|x]; simpl;
      [|destruct Hs as [m ->]; fails_alike].
    destruct (next_is 58 r1) as [r2|]; [|fails_alike]. eapply follows_bind; [apply IH| |].
    + intros v r3 Hv. destruct (next_is 125 r3) as [r'|]; [left; split; [by constructor|done]|].
      destruct (next_is 44 r3) as [r'|]; [|fails_alike]. by apply follows_push; [|apply IH].
    + intros v r3 l r' Hv Hk Hl. destruct (next_is 125 r3); [|destruct (next_is 44 r3); [|done]].
      * injection Hk as <- <-. by apply Forall_cons in Hl as [? _].
      * apply push_ok in Hk as (l' & _ & ->). by apply Forall_cons in Hl as [? _].
Qed.

(** [json.loads] with the hooks of the code, from the tree of the text. *)
Lemma json_loads_follows frames t :
  match parse_tree int_max frames t with
  | Ok v => (unambiguous v ∧ json_loads int_max strict_hooks frames t = Ok v) ∨
            (¬ unambiguous v ∧ ∃ m, json_loads int_max strict_hooks frames t = Err (Cvztte (new_error DUPLICATE_JSON_KEY m)))
  | Err x => ∃ y, json_loads int_max strict_hooks frames t = Err y ∧ refused_like y x
  end.
Proof.
  unfold parse_tree, json_loads. case_bool_decide; [fails_alike|].
  destruct (follows_scan (2 * length t + 2) frames (skip_ws t)) as [Hf _]. unfold follows in Hf.
  destruct (scan_once int_max grammar_hooks _ _ _) as [[v r]|x]; cbn [rbind].
  - destruct Hf as [[Hv ->]|(Hv & m & ->)]; cbn [rbind]; destruct (skip_ws r).
    + by left.
    + fails_alike.
    + right. by split; [|eexists].
    + fails_alike.
  - destruct Hf as (y & -> & Hy). by exists y.
Qed.
End reference.

Section strict.
Context `{FloatLiteral} (int_max frames : nat) (raw : string).

Definition within_size : Prop := (Z.of_nat (String.length raw) ≤ MAX_PAYLOAD_BYTES)%Z.

(** [raw] is a payload of the value [v]: within the size limit, valid UTF-8, and its text has
    the tree [v], in which no object names a member twice and brackets nest 64 deep at
    most. *)
Definition strict_payload (v : json) : Prop :=
  within_size ∧ ∃ text, utf8_decode raw = Some text ∧ parse_tree int_max frames text = Ok v ∧
    unambiguous v ∧ (nesting v ≤ MAX_NESTING_DEPTH)%Z.

(** Why [strict_loads] refuses it, by code.  A text that is not JSON can be refused for a
    duplicate name the scan met before the error. *)
Inductive strict_refusal : ErrorCode → Prop :=
| RTooLarge : ¬ within_size → strict_refusal PAYLOAD_TOO_LARGE
| REncoding : within_size → utf8_decode raw = None → strict_refusal SCHEMA_INVALID
| RSyntax text m : within_size → utf8_decode raw = Some text →
    parse_tree int_max frames text = Err (PyExc "JSONDecodeError" m) → strict_refusal SCHEMA_INVALID
| RDepth text v : within_size → utf8_decode raw = Some text → parse_tree int_max frames text = Ok v →
    unambiguous v → (MAX_NESTING_DEPTH < nesting v)%Z → strict_refusal SCHEMA_INVALID
| RDuplicate text v : within_size → utf8_decode raw = Some text → parse_tree int_max frames text = Ok v →
    ¬ unambiguous v → strict_refusal DUPLICATE_JSON_KEY
| RDuplicateFirst text x : within_size → utf8_decode raw = Some text → parse_tree int_max frames text = Err x →
    strict_refusal DUPLICATE_JSON_KEY.

(** And those for which the interpreter's own exceptions leave it. *)
Inductive strict_escape (text : list N) : string → Prop :=
| EscRecursion : frames < brackets text → strict_escape text "RecursionError"
| EscInteger : int_max < length text → strict_escape text "ValueError"
| EscFloat l : read_float (literal_text l) = None → strict_escape text "ValueError".

(** A failure of the scan as [strict_loads] passes it on. *)
Lemma strict_failure text x y :
  within_size → utf8_decode raw = Some text → parse_tree int_max frames text = Err x → refused_like y x →
  scan_failure int_max frames text y →
  match match y with
        | PyExc "JSONDecodeError" m => err SCHEMA_INVALID ("malformed JSON: " +:+ m)
        | y => Err (A := json) y
        end with
  | Ok _ => False
  | Err (Cvztte e) => strict_refusal (code e)
  | Err (PyExc name m) => parse_tree int_max frames text = Err (PyExc name m) ∧ strict_escape text name
  end.
Proof.
  intros Hs Hu Hp Hl Hf.
  destruct Hf; inversion Hl; subst; simpl;
    first [by eapply RDuplicateFirst|by eapply RSyntax|split; [done|by econstructor]].
Qed.

Lemma strict_loads_cases :
  match strict_loads int_max frames raw with
  | Ok v => strict_payload v
  | Err (Cvztte e) => strict_refusal (code e)
  | Err (PyExc name m) => within_size ∧ ∃ text, utf8_decode raw = Some text ∧
      parse_tree int_max frames text = Err (PyExc name m) ∧ strict_escape text name
  end.
Proof.
  unfold strict_loads. case_decide as Hsize; [constructor; unfold within_size; lia|].
  assert (Hin : within_size) by (unfold within_size; lia).
  destruct (utf8_decode raw) as [text|] eqn:Hu; [|by constructor].
  pose proof (json_loads_spec int_max frames text) as Hj. pose proof (json_loads_follows int_max frames text) as Ht.
  destruct (parse_tree int_max frames text) as [v|x] eqn:Hp.
  - destruct Ht as [[Hv ->]|(Hv & m & ->)]; cbn [rbind]; [|by eapply RDuplicate].
    rewrite check_depth_spec by (unfold MAX_NESTING_DEPTH; lia).
    case_decide; cbn [rbind]; [|eapply RDepth; try done; lia]. split; [done|]. exists text. by split_and!.
  - destruct Ht as (y & Hy & Hl). rewrite Hy in Hj |- *.
    pose proof (strict_failure text x y Hin Hu Hp Hl Hj) as Hc.
    destruct Hj; simpl in *; try done; (split; [done|]); exists text; by destruct Hc.
Qed.
End strict.

