(* ===== verification/JsonRoundTrip.v ===== *)
(** [strict_loads] reads back what [json.dumps(v, sort_keys=True)] writes: the value with
    the members of every object in the order of their names. *)

From S2P Require Export StrictJson.

#[local] Arguments String.append !s1 s2 : simpl nomatch.

(** Arithmetic with quotients and remainders. *)
#[local] Ltac dlia := zify; Z.to_euclidean_division_equations; lia.

(** * UTF-8 *)

(** A code point that is not a surrogate. *)
Definition scalar (n : N) : bool := (n <? 55296)%N || in_range 57344 1114111 n.

Lemma byte_of c n : n = Ascii.N_of_ascii c → byte n = c.
Proof. intros ->. apply Ascii.ascii_N_embedding. Qed.
Lemma ascii_bound c : (Ascii.N_of_ascii c < 256)%N.
Proof. apply Ascii.N_ascii_bounded. Qed.
Lemma N_of_byte n : (n < 256)%N → Ascii.N_of_ascii (byte n) = n.
Proof. apply Ascii.N_ascii_embedding. Qed.
Lemma in_range_spec lo hi n : in_range lo hi n = true ↔ (lo ≤ n ≤ hi)%N.
Proof. unfold in_range. rewrite andb_true_iff, !N.leb_le. done. Qed.
Lemma in_range_false lo hi n : in_range lo hi n = false ↔ ¬ (lo ≤ n ≤ hi)%N.
Proof. rewrite <-not_true_iff_false, in_range_spec. done. Qed.
Lemma scalar_spec n : scalar n = true ↔ (n < 55296 ∨ 57344 ≤ n ≤ 1114111)%N.
Proof. unfold scalar. rewrite orb_true_iff, N.ltb_lt, in_range_spec. done. Qed.

Lemma utf8_encode_cons n l : utf8_encode (n :: l) = encode_cp n +:+ utf8_encode l.
Proof. unfold utf8_encode. rewrite fmap_cons. apply PyJson.concat_cons. Qed.

(** Turning the tests of the decoder into arithmetic. *)
#[local] Ltac tests :=
  repeat match goal with
  | H : (_ && _)%bool = true |- _ => apply andb_prop in H as [? ?]
  | H : negb _ = true |- _ => apply negb_true_iff in H
  | H : in_range _ _ _ = true |- _ => apply in_range_spec in H
  | H : in_range _ _ _ = false |- _ => apply in_range_false in H
  | H : cont _ = true |- _ => unfold cont in H
  | H : (_ <? _)%N = true |- _ => apply N.ltb_lt in H
  | H : (_ <? _)%N = false |- _ => apply N.ltb_ge in H
  | H : (_ <=? _)%N = true |- _ => apply N.leb_le in H
  end.

(** What the decoder of a valid text computes: its code points. *)
Lemma utf8_decode_spec s l :
  utf8_decode s = Some l → code_points s = l ∧ utf8_encode l = s ∧ Forall (λ n, scalar n = true) l.
Proof.
  revert l. induction s as [s IH] using (induction_ltof1 _ String.length). unfold ltof in IH.
  intros l. destruct s as [|a s]; simpl; [by intros [= <-]|].
  assert (Hstep : ∀ n r, String.length r < String.length (String a s) → scalar n = true →
    (λ l, n :: l) <$> utf8_decode r = Some l →
    n :: code_points r = l ∧ utf8_encode l = encode_cp n +:+ r ∧ Forall (λ n, scalar n = true) l).
  { intros n r Hr Hn Hl. destruct (utf8_decode r) as [l'|] eqn:Hd; [|done]. injection Hl as <-.
    destruct (IH _ Hr _ Hd) as (-> & <- & ?). rewrite utf8_encode_cons. by repeat constructor. }
  destruct (_ <? 128)%N eqn:H1.
  { intros Hl. apply Hstep in Hl as (-> & -> & ?); [|simpl; lia|tests; apply scalar_spec; lia].
    split_and!; [done| |done]. unfold encode_cp. rewrite H1. simpl. by rewrite (byte_of a). }
  pose proof (ascii_bound a) as Ha. unfold cont_bits in *.
  destruct (in_range 194 223 _) eqn:H2.
  { destruct s as [|b s]; [done|]. pose proof (ascii_bound b).
    destruct (cont b) eqn:Hb; [|done]. tests. rewrite (proj2 (N.ltb_lt _ 224)) by lia.
    set (v := (_ + _)%N). assert (128 ≤ v < 2048)%N by (unfold v; dlia).
    intros Hl. apply Hstep in Hl as (-> & -> & ?); [|simpl; lia|apply scalar_spec; lia].
    split_and!; [done| |done]. unfold encode_cp.
    rewrite (proj2 (N.ltb_ge v 128)), (proj2 (N.ltb_lt v 2048)) by lia. simpl.
    by rewrite (byte_of a), (byte_of b) by (unfold v; dlia). }
  destruct (in_range 224 239 _) eqn:H3.
  { destruct s as [|b [|c s]]; [done..|]. pose proof (ascii_bound b). pose proof (ascii_bound c).
    destruct (cont b && cont c && _ && _)%bool eqn:Hb; [|done]. tests.
    rewrite (proj2 (N.ltb_ge _ 224)), (proj2 (N.ltb_lt _ 240)) by lia.
    set (v := (_ + _)%N) in *. assert (v < 65536)%N by (unfold v; dlia).
    intros Hl. apply Hstep in Hl as (-> & -> & ?); [|simpl; lia|apply scalar_spec; lia].
    split_and!; [done| |done]. unfold encode_cp.
    rewrite (proj2 (N.ltb_ge v 128)), (proj2 (N.ltb_ge v 2048)), (proj2 (N.ltb_lt v 65536)) by lia. simpl.
    by rewrite (byte_of a), (byte_of b), (byte_of c) by (unfold v; dlia). }
  destruct (in_range 240 244 _) eqn:H4; [|done].
  destruct s as [|b [|c [|d s]]]; [done..|].
  pose proof (ascii_bound b). pose proof (ascii_bound c). pose proof (ascii_bound d).
  destruct (cont b && cont c && cont d && _)%bool eqn:Hb; [|done]. tests.
  rewrite (proj2 (N.ltb_ge _ 224)), (proj2 (N.ltb_ge _ 240)) by lia.
  set (v := (_ + _)%N) in *.
  intros Hl. apply Hstep in Hl as (-> & -> & ?); [|simpl; lia|apply scalar_spec; lia].
  split_and!; [done| |done]. unfold encode_cp.
  rewrite (proj2 (N.ltb_ge v 128)), (proj2 (N.ltb_ge v 2048)), (proj2 (N.ltb_ge v 65536)) by lia. simpl.
  by rewrite (byte_of a), (byte_of b), (byte_of c), (byte_of d) by (unfold v; dlia).
Qed.

(** * Rendered text *)

Definition ascii_only (s : string) : Prop := Forall (λ n, (n < 128)%N) (codes s).

Lemma codes_app a b : codes (a +:+ b) = codes a ++ codes b.
Proof.
  unfold codes. induction a as [|c a IH]; [done|]. cbn. f_equal. exact IH.
Qed.
Lemma codes_cons c a : codes (String c a) = Ascii.N_of_ascii c :: codes a.
Proof. done. Qed.
Lemma length_codes s : length (codes s) = String.length s.
Proof. unfold codes. induction s as [|c s IH]; [done|]. simpl. by f_equal. Qed.
Lemma ascii_app a b : ascii_only a → ascii_only b → ascii_only (a +:+ b).
Proof. unfold ascii_only. rewrite codes_app. apply Forall_app_2. Qed.
Lemma ascii_concat sep l : ascii_only sep → Forall ascii_only l → ascii_only (String.concat sep l).
Proof.
  intros Hsep. induction 1 as [|x l Hx Hl IH]; [constructor|]. simpl. destruct l; [done|].
  apply ascii_app; [done|]. by apply ascii_app.
Qed.
Lemma utf8_decode_ascii s : ascii_only s → utf8_decode s = Some (codes s).
Proof.
  unfold ascii_only. induction s as [|c s IH]; [done|]. rewrite codes_cons. intros [Hc Hs]%Forall_cons.
  simpl. apply N.ltb_lt in Hc. rewrite Hc, IH by done. done.
Qed.

(** ** Strings *)

Lemma ascii_small n : (n < 128)%N → ascii_only (String (Ascii.ascii_of_N n) "").
Proof. intros Hn. constructor; [|constructor]. rewrite Ascii.N_ascii_embedding; lia. Qed.
Lemma hex_byte_codes c :
  ∃ a b, codes (hex_byte c) = [a; b] ∧ (a < 128)%N ∧ (b < 128)%N ∧
    hex_value a = Some (Ascii.N_of_ascii c / 16)%N ∧ hex_value b = Some (Ascii.N_of_ascii c mod 16)%N.
Proof.
  exists (Ascii.N_of_ascii (hex_digit (Ascii.nat_of_ascii c / 16))),
    (Ascii.N_of_ascii (hex_digit (Ascii.nat_of_ascii c mod 16))).
  by destruct c as [[] [] [] [] [] [] [] []].
Qed.
Lemma u_escape_codes n : (n < 65536)%N →
  ∃ a b c d, codes (u_escape n) = [92; 117; a; b; c; d]%N ∧ ascii_only (u_escape n) ∧
    hex4 a b c d = Some n.
Proof.
  intros Hn.
  destruct (hex_byte_codes (Ascii.ascii_of_N (n / 256))) as (a & b & E1 & ? & ? & Ha & Hb).
  destruct (hex_byte_codes (Ascii.ascii_of_N (n mod 256))) as (c & d & E2 & ? & ? & Hc & Hd).
  rewrite !Ascii.N_ascii_embedding in * by dlia.
  assert (E : codes (u_escape n) = [92; 117; a; b; c; d]%N).
  { unfold u_escape. rewrite codes_app. cbn [hex]. rewrite !codes_app, E1, E2. done. }
  exists a, b, c, d. split_and!; [done| |].
  - unfold ascii_only. rewrite E. repeat (constructor; [lia|]). constructor.
  - unfold hex4. rewrite Ha, Hb, Hc, Hd. f_equal. dlia.
Qed.

Lemma json_escape_ascii n : scalar n = true → ascii_only (json_escape n).
Proof.
  intros Hn%scalar_spec. unfold json_escape. repeat case_match; tests.
  all: try (by repeat constructor).
  - apply ascii_small. lia.
  - by destruct (u_escape_codes n) as (? & ? & ? & ? & ? & ? & ?).
  - destruct (u_escape_codes (55296 + (n - 65536) / 1024)) as (? & ? & ? & ? & ? & ? & ?); [dlia|].
    destruct (u_escape_codes (56320 + (n - 65536) mod 1024)) as (? & ? & ? & ? & ? & ? & ?); [dlia|].
    by apply ascii_app.
Qed.

(** The scanner undoes one escape. *)
Lemma scan_escape n t :
  scalar n = true → scan_string (codes (json_escape n) ++ t) = push n (scan_string t).
Proof.
  intros Hn%scalar_spec. unfold json_escape.
  repeat match goal with |- context [if (n =? ?k)%N then _ else _] =>
    destruct (N.eqb_spec n k) as [->|]; [done|] end.
  destruct ((32 <=? n) && (n <=? 126))%N eqn:Hp; tests.
  { rewrite codes_cons, Ascii.N_ascii_embedding by lia. cbn [codes app scan_string String.list_ascii_of_string fmap list_fmap].
    rewrite (proj2 (N.eqb_neq n 34)), (proj2 (N.eqb_neq n 92)), (proj2 (N.leb_gt n 31)) by lia. done. }
  destruct (n <? 65536)%N eqn:Hb; tests.
  { destruct (u_escape_codes n) as (a & b & c & d & -> & _ & Hh); [done|]. simpl. rewrite Hh.
    unfold high_surrogate. rewrite (proj2 (in_range_false 55296 56319 n)) by lia. done. }
  set (v := (n - 65536)%N).
  destruct (u_escape_codes (55296 + v / 1024)) as (a & b & c & d & E1 & _ & Hh); [unfold v; dlia|].
  destruct (u_escape_codes (56320 + v mod 1024)) as (a' & b' & c' & d' & E2 & _ & Hl); [unfold v; dlia|].
  rewrite codes_app, E1, E2. simpl. rewrite Hh, Hl. unfold high_surrogate, low_surrogate.
  rewrite !(proj2 (in_range_spec _ _ _)) by (unfold v; dlia).
  do 2 f_equal. unfold join_surrogates, v. dlia.
Qed.

Lemma scan_rendered l t :
  Forall (λ n, scalar n = true) l →
  scan_string (codes (String.concat "" (json_escape <$> l)) ++ 34%N :: t) = Ok (l, t).
Proof.
  induction 1 as [|n l Hn Hl IH]; [done|]. rewrite fmap_cons, PyJson.concat_cons, codes_app, <-(assoc_L (++)).
  rewrite scan_escape by done. by rewrite IH.
Qed.

Definition wf_str (s : string) : Prop := is_Some (utf8_decode s).

Lemma dumps_str_codes s :
  wf_str s → ∃ b, codes (dumps_str s) = 34%N :: b ++ [34%N] ∧
    ∀ t, scan_string (b ++ 34%N :: t) = Ok (code_points s, t) ∧ utf8_encode (code_points s) = s.
Proof.
  intros [l Hl]. apply utf8_decode_spec in Hl as (<- & He & Hf). unfold dumps_str.
  rewrite !codes_app. eexists. split; [done|]. intros t. split; [by apply scan_rendered|done].
Qed.
Lemma dumps_str_ascii s : wf_str s → ascii_only (dumps_str s).
Proof.
  intros [l Hl]. apply utf8_decode_spec in Hl as (<- & He & Hf). unfold dumps_str.
  repeat apply ascii_app; [by repeat constructor| |by repeat constructor].
  apply ascii_concat; [constructor|]. apply Forall_fmap. eapply Forall_impl; [done|].
  apply json_escape_ascii.
Qed.

(** ** Numbers *)

(** What may follow a value: the end, a comma or a closing bracket. *)
Definition stops (t : list N) : Prop :=
  match t with c :: _ => c = 44%N ∨ c = 93%N ∨ c = 125%N | [] => True end.
(** The digits of an integer: a lone zero, or no leading zero. *)
Definition int_digits_of (ds : list N) : Prop :=
  Forall (λ d, is_digit d = true) ds ∧
  match ds with d :: r => in_range 49 57 d = true ∨ (d = 48%N ∧ r = []) | [] => False end.

Lemma digits_value_snoc ds d : digits_value (ds ++ [d]) = (10 * digits_value ds + Z.of_N (d - 48))%Z.
Proof. unfold digits_value. by rewrite foldl_app. Qed.

Lemma int_digits_spec fuel n acc :
  (n < 2 ^ N.of_nat fuel)%N → 0 < fuel →
  ∃ ds, codes (int_digits fuel n acc) = ds ++ codes acc ∧ int_digits_of ds ∧
    digits_value ds = Z.of_N n ∧ (0 < n → in_range 49 57 (default 0 (head ds)) = true)%N.
Proof.
  revert n acc. induction fuel as [|fuel IH]; intros n acc Hn Hf; [lia|]. cbn [int_digits].
  assert (Hd : Ascii.N_of_ascii (Ascii.ascii_of_N (48 + n mod 10)) = (48 + n mod 10)%N).
  { apply Ascii.N_ascii_embedding. dlia. }
  destruct (N.ltb_spec n 10).
  { exists [48 + n mod 10]%N. rewrite codes_cons, Hd. rewrite N.mod_small by done. split; [done|].
    split_and!; [split| |].
    - constructor; [|constructor]. apply in_range_spec. lia.
    - destruct (decide (n = 0%N)) as [->|]; [by right|left]. apply in_range_spec. lia.
    - unfold digits_value. simpl. lia.
    - intros. apply in_range_spec. simpl. lia. }
  rewrite Nat2N.inj_succ, N.pow_succ_r' in Hn.
  destruct (IH (n / 10)%N (String (Ascii.ascii_of_N (48 + n mod 10)) acc)) as (ds & E & Hds & Hv & Hh).
  { dlia. }
  { destruct fuel; simpl in *; [lia|lia]. }
  rewrite codes_cons, Hd in E. assert (0 < n / 10)%N as Hpos by dlia. specialize (Hh Hpos).
  exists (ds ++ [48 + n mod 10]%N). rewrite E, <-(assoc_L (++)). split; [done|].
  destruct Hds as [Hall Hshape]. destruct ds as [|d ds]; [done|]. simpl in Hh. split_and!; [split| |].
  - apply Forall_app. split; [done|]. constructor; [|constructor]. apply in_range_spec. dlia.
  - by left.
  - rewrite digits_value_snoc, Hv. dlia.
  - done.
Qed.

(** [int.__repr__] is read back as its literal, of the same number. *)
Lemma int_repr_codes z :
  ∃ ds, codes (int_repr z) = (if (z <? 0)%Z then [45%N] else []) ++ ds ∧ int_digits_of ds ∧
    digits_value ds = Z.abs z.
Proof.
  unfold int_repr. set (n := Z.to_N (Z.abs z)).
  destruct (int_digits_spec (S (N.to_nat (N.size n))) n "") as (ds & E & Hd & Hv & _); [|lia|].
  { rewrite Nat2N.inj_succ, N2Nat.id, N.pow_succ_r'. pose proof (N.size_gt n). lia. }
  exists ds. rewrite codes_app, E. change (codes "") with (@nil N). rewrite app_nil_r.
  split_and!; [by destruct (z <? 0)%Z|done|]. rewrite Hv. unfold n. lia.
Qed.

Lemma stops_not_digit t : stops t → span_digits t = ([], t).
Proof. destruct t as [|c t]; [done|]. by intros [->|[->| ->]]. Qed.
Lemma span_digits_all ds t :
  Forall (λ d, is_digit d = true) ds → stops t → span_digits (ds ++ t) = (ds, t).
Proof.
  intros Hd Ht. induction Hd as [|d ds Hd _ IH]; [by apply stops_not_digit|]. simpl. by rewrite Hd, IH.
Qed.
Lemma scan_integer_digits ds t : int_digits_of ds → stops t → scan_integer (ds ++ t) = Some (ds, t).
Proof.
  intros [Hall Hs] Ht. destruct ds as [|d ds]; [done|]. simpl. destruct Hs as [Hd|[-> ->]]; [|done].
  rewrite Hd. apply in_range_spec in Hd. rewrite (proj2 (N.eqb_neq d 48)) by lia.
  f_equal. exact (span_digits_all (d :: ds) t Hall Ht).
Qed.
#[local] Arguments scan_integer : simpl never.
#[local] Arguments scan_fraction : simpl never.
#[local] Arguments scan_exponent : simpl never.
Lemma scan_number_int z t :
  stops t → ∃ ds, scan_number (codes (int_repr z) ++ t) = Some (mkLiteral (z <? 0)%Z ds [] [], t) ∧
    digits_value ds = Z.abs z ∧ int_digits_of ds ∧ length ds ≤ String.length (int_repr z).
Proof.
  intros Ht. destruct (int_repr_codes z) as (ds & E & Hd & Hv). exists ds.
  rewrite <-length_codes, E, <-(assoc_L (++)), length_app. split_and!; [|done|done|lia].
  assert (Hint := scan_integer_digits ds t Hd Ht).
  assert (Hex : scan_fraction t = ([], t) ∧ scan_exponent t = ([], t)).
  { destruct t as [|c t]; [done|]. by destruct Ht as [->|[->| ->]]. }
  destruct Hex as [Hfr Hex].
  unfold scan_number. destruct (z <? 0)%Z; simpl; [by rewrite Hint; simpl; rewrite Hfr, Hex|].
  destruct ds as [|d ds]; [by destruct Hd|].
  assert (d ≠ 45%N).
  { destruct Hd as [Hd _]. apply Forall_cons in Hd as [Hd _]. apply in_range_spec in Hd. lia. }
  simpl. rewrite (proj2 (N.eqb_neq d 45)) by done. simpl in Hint. rewrite Hint. simpl. by rewrite Hfr, Hex.
Qed.
Lemma scan_word_digit `{FloatLiteral} b d t :
  is_digit d = true → scan_word (words strict_hooks) ((if b : bool then [45%N] else []) ++ d :: t) = None.
Proof.
  intros Hd%in_range_spec. destruct b; simpl; repeat (rewrite bool_decide_false by lia); done.
Qed.
Lemma scan_scalar_int `{FloatLiteral} int_max z t :
  stops t → String.length (int_repr z) ≤ int_max →
  scan_scalar int_max strict_hooks (codes (int_repr z) ++ t) = Ok (JInt z, t).
Proof.
  intros Ht Hl. destruct (scan_number_int z t Ht) as (ds & E & Hv & Hd & Hlen).
  unfold scan_scalar. rewrite E. destruct (int_repr_codes z) as (ds' & -> & Hd' & _).
  destruct ds' as [|d ds']; [by destruct Hd'|]. rewrite <-(assoc_L (++)).
  change ((d :: ds') ++ t) with (d :: (ds' ++ t)).
  rewrite scan_word_digit by by destruct Hd' as [[? _]%Forall_cons _].
  unfold number_value. simpl. rewrite decide_False by lia. simpl. rewrite Hv.
  do 3 f_equal. destruct (Z.ltb_spec z 0); lia.
Qed.

Lemma int_repr_ascii z : ascii_only (int_repr z).
Proof.
  unfold ascii_only. destruct (int_repr_codes z) as (ds & -> & [Hd _] & _). apply Forall_app. split.
  - destruct (z <? 0)%Z; repeat (constructor; [lia|]); constructor.
  - eapply Forall_impl; [done|]. intros d Hr%in_range_spec. lia.
Qed.

(** * Values *)

(** A value that the strict parser can give back: no floats, every string valid UTF-8, no
    member name twice in an object, no integer longer than the interpreter converts. *)
Fixpoint strict_value (int_max : nat) (v : json) : Prop :=
  match v with
  | JFloat _ => False
  | JInt z => String.length (int_repr z) ≤ int_max
  | JStr s => wf_str s
  | JArr l => foldr (λ v P, strict_value int_max v ∧ P) True l
  | JObj kvs => NoDup kvs.*1 ∧ foldr (λ kv P, wf_str kv.1 ∧ strict_value int_max kv.2 ∧ P) True kvs
  | _ => True
  end.
(** The members of every object in the order of their names. *)
Fixpoint json_sorted (v : json) : json :=
  match v with
  | JArr l => JArr (json_sorted <$> l)
  | JObj kvs => JObj (sorted_items ((λ kv, (kv.1, json_sorted kv.2)) <$> kvs))
  | v => v
  end.

Lemma insert_item_fmap {A B} (f : A → B) kv (l : list (string * A)) :
  insert_item (kv.1, f kv.2) ((λ kv, (kv.1, f kv.2)) <$> l) =
  (λ kv, (kv.1, f kv.2)) <$> insert_item kv l.
Proof.
  induction l as [|kv' l IH]; [done|]. simpl. destruct (String.leb _ _); [done|].
  rewrite fmap_cons. f_equal. exact IH.
Qed.
(** Sorting looks at the names only. *)
Lemma sorted_items_fmap {A B} (f : A → B) (l : list (string * A)) :
  sorted_items ((λ kv, (kv.1, f kv.2)) <$> l) = (λ kv, (kv.1, f kv.2)) <$> sorted_items l.
Proof.
  induction l as [|kv l IH]; [done|]. etrans; [|apply (insert_item_fmap f kv (sorted_items l))].
  rewrite <-IH. done.
Qed.
Lemma insert_item_Permutation {A} kv (l : list (string * A)) : insert_item kv l ≡ₚ kv :: l.
Proof.
  induction l as [|kv' l IH]; [done|]. simpl. destruct (String.leb _ _); [done|].
  rewrite IH. apply perm_swap.
Qed.
Lemma sorted_items_Permutation {A} (l : list (string * A)) : sorted_items l ≡ₚ l.
Proof. induction l as [|kv l IH]; [done|]. simpl. by rewrite insert_item_Permutation, IH. Qed.

(** The text of the inside of a bracket. *)
Definition joined (l : list string) : string := String.concat ", " l.
Lemma joined_cons x y l : joined (x :: y :: l) = x +:+ ", " +:+ joined (y :: l).
Proof. done. Qed.

Section round_trip.
Context `{FloatLiteral} `{FloatRepr} (int_max : nat).

Lemma json_dumps_ascii v : strict_value int_max v → ascii_only (json_dumps v).
Proof.
  revert v. refine (json_rect' _ _ _ _ _ _ _ _); try (by repeat constructor).
  - intros [] _; by repeat constructor.
  - intros z _. apply int_repr_ascii.
  - intros s Hs. by apply dumps_str_ascii.
  - intros l IH Hv. cbn [json_dumps strict_value] in *. repeat apply ascii_app; try by repeat constructor.
    apply ascii_concat; [by repeat constructor|].
    induction IH as [|v l Hd _ IH]; [constructor|]. destruct Hv. constructor; [by apply Hd|by apply IH].
  - intros l IH [_ Hv]. cbn [json_dumps strict_value] in *. repeat apply ascii_app; try by repeat constructor.
    apply ascii_concat; [by repeat constructor|]. apply Forall_fmap.
    rewrite sorted_items_Permutation. apply Forall_fmap.
    induction IH as [|[k v] l Hd _ IH]; [constructor|]. destruct Hv as (? & ? & ?). constructor; [|by apply IH].
    apply ascii_app; [by apply dumps_str_ascii|]. apply (ascii_app ": "); [by repeat constructor|by apply Hd].
Qed.

(** A rendered value begins with something that is neither a space nor a closing bracket. *)
Lemma json_dumps_head v t :
  strict_value int_max v → ∃ c r, codes (json_dumps v) ++ t = c :: r ∧ is_ws c = false ∧ c ≠ 93%N ∧ c ≠ 125%N.
Proof.
  destruct v as [|[]|z|f|s|l|kvs]; intros Hv;
    try solve [done|eexists _, _; split; [reflexivity|by split_and!]].
  destruct (int_repr_codes z) as (ds & E & [Hd Hs] & _). cbn [json_dumps]. rewrite E.
  destruct ds as [|d ds]; [done|]. apply Forall_cons in Hd as [Hd%in_range_spec _].
  destruct (z <? 0)%Z; [eexists _, _; split; [reflexivity|by split_and!]|]. eexists d, _. split_and!; [done| |lia..].
  apply bool_decide_eq_false. rewrite !elem_of_cons, elem_of_nil. lia.
Qed.

(** The scanner reads [v] back from any text that begins with its rendering. *)
Definition reads_back (v : json) : Prop :=
  ∀ fuel frames t, strict_value int_max v → stops t → (nesting v < Z.of_nat frames)%Z →
    2 * length (codes (json_dumps v) ++ t) + 1 ≤ fuel →
    scan_once int_max strict_hooks fuel frames (codes (json_dumps v) ++ t) = Ok (json_sorted v, t).

Lemma skip_ws_dumps v t :
  strict_value int_max v → skip_ws (codes (json_dumps v) ++ t) = codes (json_dumps v) ++ t.
Proof. intros Hv. destruct (json_dumps_head v t Hv) as (c & r & -> & Hc & _). simpl. by rewrite Hc. Qed.
Lemma next_is_dumps x v t :
  strict_value int_max v → x = 93%N ∨ x = 125%N → next_is x (codes (json_dumps v) ++ t) = None.
Proof.
  intros Hv Hx. unfold next_is. rewrite skip_ws_dumps by done.
  destruct (json_dumps_head v t Hv) as (c & r & -> & _ & ? & ?).
  rewrite (proj2 (N.eqb_neq c x)); [done|]. by destruct Hx as [-> | ->].
Qed.

Lemma codes_joined_cons x y l :
  codes (joined (x :: y :: l)) = codes x ++ [44; 32]%N ++ codes (joined (y :: l)).
Proof. rewrite joined_cons, !codes_app. done. Qed.
Lemma codes_joined_head x l : ∃ r, codes (joined (x :: l)) = codes x ++ r.
Proof.
  destruct l as [|y l]; [exists []; by rewrite app_nil_r|]. rewrite codes_joined_cons. by eexists.
Qed.
(** After the comma and the space of the renderer. *)
Lemma skip_ws_joined w l t :
  strict_value int_max w →
  skip_ws (32%N :: codes (joined (json_dumps <$> w :: l)) ++ t) = codes (joined (json_dumps <$> w :: l)) ++ t.
Proof.
  intros Hw. change (skip_ws (32%N :: ?x)) with (skip_ws x). rewrite fmap_cons.
  destruct (codes_joined_head (json_dumps w) (json_dumps <$> l)) as [r ->].
  rewrite <-(assoc_L (++)). by apply skip_ws_dumps.
Qed.

Lemma scan_elements_dumps l fuel frames t :
  l ≠ [] → Forall reads_back l → Forall (strict_value int_max) l →
  Forall (λ v, nesting v < Z.of_nat frames)%Z l →
  2 * length (codes (joined (json_dumps <$> l)) ++ 93%N :: t) + 2 ≤ fuel →
  scan_elements int_max strict_hooks fuel frames (codes (joined (json_dumps <$> l)) ++ 93%N :: t)
  = Ok (json_sorted <$> l, t).
Proof.
  intros Hne. revert fuel. induction l as [|v l IH]; intros fuel Hr Hs Hn Hf; [done|].
  apply Forall_cons in Hr as [Hr Hrs], Hs as [Hs Hss], Hn as [Hn Hns].
  destruct fuel as [|fuel]; [lia|]. rewrite scan_elements_S.
  destruct l as [|w l].
  { change (joined (json_dumps <$> [v])) with (json_dumps v) in *.
    rewrite Hr by (done || (by right; left) || lia). done. }
  pose proof (skip_ws_joined w l (93%N :: t) ltac:(by apply Forall_cons in Hss as [? _])) as Hskip.
  specialize (IH ltac:(done) fuel Hrs Hss Hns).
  rewrite (fmap_cons json_dumps v) in *. revert Hf IH Hskip. rewrite fmap_cons, codes_joined_cons, <-!(assoc_L (++)).
  set (rest := codes (joined (json_dumps w :: (json_dumps <$> l))) ++ 93%N :: t).
  rewrite !length_app. simpl length. intros Hf IH Hskip.
  rewrite Hr; [|done|by left|done|rewrite !length_app; simpl; lia].
  cbn beta iota zeta delta [rbind].
  change (next_is 93 ([44; 32]%N ++ rest)) with (@None (list N)).
  change (next_is 44 ([44; 32]%N ++ rest)) with (Some (32%N :: rest)). cbn iota.
  rewrite Hskip, IH by lia. done.
Qed.

(** One member of an object, as rendered. *)
Definition member (kv : string * json) : string := dumps_str kv.1 +:+ ": " +:+ json_dumps kv.2.

Lemma scan_member fuel frames k v rest :
  reads_back v → wf_str k → strict_value int_max v → (nesting v < Z.of_nat frames)%Z → stops rest →
  2 * length (codes (member (k, v)) ++ rest) + 2 ≤ S fuel →
  scan_members int_max strict_hooks (S fuel) frames (codes (member (k, v)) ++ rest) =
  match next_is 125 rest with
  | Some r => Ok ([(k, json_sorted v)], r)
  | None =>
      match next_is 44 rest with
      | Some r => push (k, json_sorted v) (scan_members int_max strict_hooks fuel frames (skip_ws r))
      | None => decode_error "Expecting ',' delimiter"
      end
  end.
Proof.
  intros Hr Hk Hs Hn Hrest. destruct (dumps_str_codes k Hk) as (b & Eb & Hscan).
  unfold member. cbn [fst snd]. rewrite !codes_app, Eb. change (codes ": ") with [58; 32]%N.
  set (text := codes (json_dumps v)) in *. rewrite <-!(assoc_L (++)), <-!app_comm_cons, <-!(assoc_L (++)).
  intros Hf. rewrite scan_members_S.
  change (next_is 34 (34 :: ?x)%N) with (Some x). cbn iota. cbn [app].
  rewrite (proj1 (Hscan _)). cbn [rbind]. cbn beta iota.
  change (next_is 58 (58 :: ?x)%N) with (Some x). cbn iota.
  change (skip_ws (32%N :: ?x)) with (skip_ws x). unfold text. rewrite skip_ws_dumps by done.
  rewrite Hr; [|done..|].
  2: { unfold text in Hf. rewrite !length_cons, !length_app, !length_cons, !length_app in Hf. rewrite length_app. lia. }
  cbn [rbind]. cbn beta iota. by rewrite (proj2 (Hscan [])).
Qed.

Lemma scan_members_dumps l fuel frames t :
  l ≠ [] → Forall (λ kv, reads_back kv.2) l →
  Forall (λ kv, wf_str kv.1 ∧ strict_value int_max kv.2) l →
  Forall (λ kv, nesting kv.2 < Z.of_nat frames)%Z l →
  2 * length (codes (joined (member <$> l)) ++ 125%N :: t) + 2 ≤ fuel →
  scan_members int_max strict_hooks fuel frames (codes (joined (member <$> l)) ++ 125%N :: t)
  = Ok ((λ kv, (kv.1, json_sorted kv.2)) <$> l, t).
Proof.
  intros Hne. revert fuel. induction l as [|[k v] l IH]; intros fuel Hr Hs Hn Hf; [done|].
  apply Forall_cons in Hr as [Hr Hrs], Hs as [[Hk Hs] Hss], Hn as [Hn Hns]. simpl in Hr, Hk, Hs, Hn.
  destruct fuel as [|fuel]; [lia|].
  destruct l as [|w l].
  { change (joined (member <$> [(k, v)])) with (member (k, v)) in *.
    rewrite scan_member by (done || (by right; right) || lia). done. }
  assert (Hskip : skip_ws (codes (joined (member <$> w :: l)) ++ 125%N :: t) = codes (joined (member <$> w :: l)) ++ 125%N :: t).
  { rewrite fmap_cons. destruct (codes_joined_head (member w) (member <$> l)) as [r ->].
    unfold member. apply Forall_cons in Hss as [[Hw _] _].
    destruct (dumps_str_codes w.1 Hw) as (b & Eb & _). rewrite codes_app, Eb. done. }
  specialize (IH ltac:(done) fuel Hrs Hss Hns).
  rewrite (fmap_cons member (k, v)) in *. revert Hf IH Hskip. rewrite (fmap_cons member w), codes_joined_cons, <-!(assoc_L (++)).
  set (rest := codes (joined (member w :: (member <$> l))) ++ 125%N :: t).
  rewrite !length_app. simpl length. intros Hf IH Hskip.
  rewrite scan_member; [|done..|by left|rewrite !length_app; simpl; lia].
  change (next_is 125 ([44; 32]%N ++ rest)) with (@None (list N)).
  change (next_is 44 ([44; 32]%N ++ rest)) with (Some (32%N :: rest)). cbn iota.
  change (skip_ws (32%N :: ?x)) with (skip_ws x).
  rewrite Hskip, IH by lia. done.
Qed.

(** [nesting] bounds what is inside. *)
Lemma nesting_arr l m : (nesting (JArr l) ≤ m)%Z ↔ (0 ≤ m)%Z ∧ Forall (λ v, nesting v ≤ m - 1)%Z l.
Proof.
  simpl. induction l as [|v l IH]; simpl; [rewrite Forall_nil; lia|].
  rewrite Forall_cons, Z.max_lub_iff, IH. naive_solver lia.
Qed.
Lemma nesting_obj l m :
  (nesting (JObj l) ≤ m)%Z ↔ (0 ≤ m)%Z ∧ Forall (λ kv, nesting kv.2 ≤ m - 1)%Z l.
Proof.
  simpl. induction l as [|v l IH]; simpl; [rewrite Forall_nil; lia|].
  rewrite Forall_cons, Z.max_lub_iff, IH. naive_solver lia.
Qed.
Lemma nesting_sorted v m : (nesting v ≤ m)%Z → (nesting (json_sorted v) ≤ m)%Z.
Proof.
  revert v m. refine (json_rect' _ _ _ _ _ _ _ _); try done.
  - intros l IH m [? Hl]%nesting_arr. apply nesting_arr. split; [done|]. apply Forall_fmap.
    rewrite Forall_forall in IH, Hl |- *. intros v Hv. by apply IH, Hl.
  - intros l IH m [? Hl]%nesting_obj. apply nesting_obj. split; [done|].
    rewrite sorted_items_Permutation. apply Forall_fmap.
    rewrite Forall_forall in IH, Hl |- *. intros v Hv. by apply IH, Hl.
Qed.

Lemma strict_arr l : strict_value int_max (JArr l) ↔ Forall (strict_value int_max) l.
Proof. simpl. induction l as [|v l IH]; simpl; [done|]. by rewrite Forall_cons, IH. Qed.
Lemma strict_obj l :
  strict_value int_max (JObj l) ↔
  NoDup l.*1 ∧ Forall (λ kv, wf_str kv.1 ∧ strict_value int_max kv.2) l.
Proof.
  simpl. f_equiv. induction l as [|v l IH]; simpl; [done|]. rewrite Forall_cons, IH. naive_solver.
Qed.
Lemma dumps_obj l : json_dumps (JObj l) = "{" +:+ joined (member <$> sorted_items l) +:+ "}".
Proof. cbn [json_dumps]. rewrite sorted_items_fmap, <-list_fmap_compose. done. Qed.

Lemma reject_from_ok seen pairs :
  NoDup pairs.*1 → (∀ k, k ∈ seen → k ∉ pairs.*1) → reject_from seen pairs = Ok tt.
Proof.
  revert seen. induction pairs as [|[k v] pairs IH]; intros seen; [done|].
  rewrite fmap_cons. intros [Hk Hn]%NoDup_cons Hs. simpl.
  rewrite bool_decide_false; [|intros Hi; apply (Hs k Hi); by left].
  apply IH; [done|]. intros j [->|Hj]%elem_of_cons; [done|]. intros Hj'. apply (Hs j Hj). by right.
Qed.
Lemma reject_duplicate_keys_ok pairs : NoDup pairs.*1 → reject_duplicate_keys pairs = Ok (JObj pairs).
Proof.
  intros Hn. unfold reject_duplicate_keys. rewrite reject_from_ok; [done|done|].
  intros k Hk. by apply elem_of_nil in Hk.
Qed.

Lemma reads_back_int z : reads_back (JInt z).
Proof.
  intros [|fuel] frames t Hv Ht _ Hf; [lia|]. rewrite scan_once_S. cbn [json_dumps json_sorted].
  rewrite <-(scan_scalar_int int_max z t Ht Hv).
  destruct (int_repr_codes z) as (ds & -> & [Hd Hs] & _). destruct ds as [|d ds]; [done|].
  apply Forall_cons in Hd as [Hd%in_range_spec _]. destruct (z <? 0)%Z; [done|]. cbn [app].
  rewrite (proj2 (N.eqb_neq d 34)), (proj2 (N.eqb_neq d 123)), (proj2 (N.eqb_neq d 91)) by lia. done.
Qed.
Lemma reads_back_str s : reads_back (JStr s).
Proof.
  intros [|fuel] frames t Hv _ _ Hf; [lia|]. rewrite scan_once_S. cbn [json_dumps json_sorted].
  destruct (dumps_str_codes s Hv) as (b & -> & Hscan). cbn [app N.eqb Pos.eqb]. rewrite <-(assoc_L (++)).
  cbn [app]. rewrite (proj1 (Hscan t)). cbn [rbind]. cbn beta iota. by rewrite (proj2 (Hscan t)).
Qed.
Lemma reads_back_arr l : Forall reads_back l → reads_back (JArr l).
Proof.
  intros IH [|fuel] [|frames] t Hv Ht Hn Hf; [lia|lia| |].
  { assert (Hz : (nesting (JArr l) ≤ -1)%Z) by lia. apply nesting_arr in Hz. lia. }
  assert (Hz : (nesting (JArr l) ≤ Z.of_nat frames)%Z) by lia. apply nesting_arr in Hz as [_ Hz].
  apply strict_arr in Hv. cbn [json_dumps json_sorted] in *. fold (joined (json_dumps <$> l)) in *.
  rewrite !codes_app, <-!(assoc_L (++)) in *. change (codes "[") with [91]%N in *. change (codes "]") with [93]%N in *.
  cbn [app] in *. rewrite scan_once_S. cbn [N.eqb Pos.eqb].
  destruct l as [|v l]; [done|].
  assert (Hhead : ∃ r, codes (joined (json_dumps <$> v :: l)) ++ 93%N :: t = codes (json_dumps v) ++ r).
  { rewrite fmap_cons. destruct (codes_joined_head (json_dumps v) (json_dumps <$> l)) as [r ->].
    rewrite <-(assoc_L (++)). by eexists. }
  destruct Hhead as [r Hhead]. pose proof (Forall_inv Hv) as Hv1.
  rewrite Hhead, next_is_dumps, skip_ws_dumps, <-Hhead by (done || by left).
  rewrite scan_elements_dumps; [done|done|done|done| |rewrite length_cons in Hf; lia].
  eapply Forall_impl; [exact Hz|]. simpl. lia.
Qed.
Lemma reads_back_obj l : Forall (λ kv, reads_back kv.2) l → reads_back (JObj l).
Proof.
  intros IH [|fuel] [|frames] t Hv Ht Hn Hf; [lia|lia| |].
  { assert (Hz : (nesting (JObj l) ≤ -1)%Z) by lia. apply nesting_obj in Hz. lia. }
  assert (Hz : (nesting (JObj l) ≤ Z.of_nat frames)%Z) by lia. apply nesting_obj in Hz as [_ Hz].
  apply strict_obj in Hv as [Hnd Hv]. rewrite dumps_obj in *. cbn [json_sorted].
  rewrite !codes_app, <-!(assoc_L (++)) in Hf |- *. change (codes "{") with [123]%N in *. change (codes "}") with [125]%N in *.
  cbn [app] in *. rewrite scan_once_S. cbn [N.eqb Pos.eqb].
  rewrite sorted_items_fmap. rewrite <-(sorted_items_Permutation l) in IH, Hz, Hv, Hnd.
  destruct (sorted_items l) as [|[k v] l'] eqn:Hl; [done|].
  assert (Hhead : ∃ r, codes (joined (member <$> (k, v) :: l')) ++ 125%N :: t = 34%N :: r).
  { rewrite fmap_cons. destruct (codes_joined_head (member (k, v)) (member <$> l')) as [r ->].
    apply Forall_cons in Hv as [[Hk _] _]. destruct (dumps_str_codes k Hk) as (b & Eb & _).
    unfold member. rewrite codes_app. cbn [fst]. rewrite Eb. by eexists. }
  destruct Hhead as [r Hhead]. rewrite Hhead. change (next_is 125 (34%N :: r)) with (@None (list N)).
  change (skip_ws (34%N :: r)) with (34%N :: r). rewrite <-Hhead.
  rewrite scan_members_dumps; [|done|done|done| |rewrite length_cons in Hf; lia].
  - cbn [rbind]. cbn beta iota. rewrite reject_duplicate_keys_ok; [done|].
    rewrite <-list_fmap_compose. exact Hnd.
  - eapply Forall_impl; [exact Hz|]. simpl. lia.
Qed.

Lemma every_value_reads_back v : reads_back v.
Proof.
  revert v. refine (json_rect' _ _ _ _ _ _ _ _).
  - intros [|fuel] frames t _ _ _ Hf; [lia|]. by rewrite scan_once_S.
  - intros b [|fuel] frames t _ _ _ Hf; [lia|]. rewrite scan_once_S. by destruct b.
  - apply reads_back_int.
  - by intros f fuel frames t Hv.
  - apply reads_back_str.
  - apply reads_back_arr.
  - apply reads_back_obj.
Qed.
End round_trip.

(** C36: the strict parser reads back what the renderer writes.  For every value without
    floats whose strings are valid UTF-8, whose objects repeat no member name, whose integers
    the interpreter converts, that nests at most 64 deep and whose rendering is within the
    size limit, [strict_loads] of [json.dumps(v, sort_keys=True)] is that value, the members
    of its objects in the order of their names. *)
Theorem strict_loads_json_dumps `{FloatLiteral} `{FloatRepr} (int_max frames : nat) (v : json)
  (Hv : strict_value int_max v) (Hn : (nesting v ≤ MAX_NESTING_DEPTH)%Z)
  (Hf : (MAX_NESTING_DEPTH < Z.of_nat frames)%Z)
  (Hs : (Z.of_nat (String.length (json_dumps v)) ≤ MAX_PAYLOAD_BYTES)%Z) :
  strict_loads int_max frames (json_dumps v) = Ok (json_sorted v).
Proof.
  unfold strict_loads. rewrite decide_False by lia.
  rewrite utf8_decode_ascii by by eapply json_dumps_ascii.
  unfold json_loads. rewrite bool_decide_false.
  2: { destruct (json_dumps_head int_max v [] Hv) as (c & r & E & _). rewrite app_nil_r in E.
    pose proof (json_dumps_ascii int_max v Hv) as Ha. unfold ascii_only in Ha.
    rewrite E in *. apply Forall_cons in Ha as [Ha _]. simpl. intros [= ->]. lia. }
  pose proof (skip_ws_dumps int_max v [] Hv) as Hw.
  pose proof (every_value_reads_back int_max v (2 * length (codes (json_dumps v)) + 2) frames [] Hv I ltac:(lia)) as Hr.
  rewrite app_nil_r in *. rewrite Hw, Hr by lia. simpl.
  rewrite check_depth_spec, decide_True; [done| |unfold MAX_NESTING_DEPTH; lia].
  by apply nesting_sorted.
Qed.

(** A reader of floats for the examples: it knows one literal, whose value is beyond the
    largest double. *)
Definition one_float : FloatLiteral :=
  {| read_float := λ s, if bool_decide (s = "1e999") then Some (S754_infinity false) else None |}.

Definition sample : json :=
  JObj [("name", JStr ("a" +:+ dq +:+ "\/" +:+ utf8_encode [233; 10; 128512]%N));
        ("list", JArr [JInt (-120); JBool true; JNull; JObj []; JArr []]);
        ("id", JInt 0)].

(** C36: the round trip of a value with escapes, a character outside the BMP, a negative
    integer and empty brackets. *)
Theorem strict_loads_json_dumps_witness :
  strict_loads (H := one_float) 4300 100 (json_dumps (H := no_floats) sample) = Ok (json_sorted sample)
  ∧ json_sorted sample ≠ sample.
Proof.
  split; [|done].
  apply (strict_loads_json_dumps (H := one_float) (H0 := no_floats) 4300 100 sample).
  - apply strict_obj. split; [apply (bool_decide_unpack _); vm_compute; exact I|].
    unfold wf_str. repeat (apply Forall_cons; split; [split; [by eexists|]|]); [..|by constructor].
    + by eexists.
    + apply strict_arr. repeat (apply Forall_cons; split); simpl; try done.
      * apply Nat.leb_le. vm_compute. reflexivity.
      * split; constructor.
    + apply Nat.leb_le. vm_compute. reflexivity.
  - vm_compute. discriminate.
  - vm_compute. reflexivity.
  - vm_compute. discriminate.
Defined.

(** A literal too large for a double is taken as an infinity, although the constants for
    infinity are refused. *)
Example overflowing_literal_accepted :
  strict_loads (H := one_float) 4300 100 "[1e999]" = Ok (JArr [JFloat (S754_infinity false)]) ∧
  strict_loads (H := one_float) 4300 100 "[Infinity]"
    = err SCHEMA_INVALID "non-finite JSON number not allowed: Infinity".
Proof. split; vm_compute; reflexivity. Qed.
Example strict_errors :
  strict_loads (H := one_float) 4300 100 ("{" +:+ dq +:+ "a" +:+ dq +:+ ":1," +:+ dq +:+ "a" +:+ dq +:+ ":2}")
    = err DUPLICATE_JSON_KEY "duplicate JSON key" ∧
  strict_loads (H := one_float) 4300 3 "[[[[]]]]" = recursion_error ∧
  strict_loads (H := one_float) 2 100 "123"
    = Err (PyExc "ValueError" "Exceeds the limit for integer string conversion") ∧
  strict_loads (H := one_float) 4300 100 (String (byte 255) "") = err SCHEMA_INVALID "invalid UTF-8".
Proof. split_and!; vm_compute; reflexivity. Qed.
