(* ===== verification/HttpApi.v ===== *)
(** The HTTP surface ([cvztte/control_plane/http_api.py]): the reading of a request, the
    route table over the two planes of [Planes], and the mapping of errors to statuses.

    A body is JSON of any shape.  Where the code converts a field it is converted here with
    Python's rules and errors; where it hands a field to a plane unconverted, the field
    must have the type the plane declares for it, and a request of another type is
    [Untyped]: its behaviour is not modelled. *)

From S2P Require Export Planes StrictJson.
From S2P Require Import PyIso Concrete PlaneProps.

(** The functions of the standard library that rest on the tables of Unicode or of
    encodings: [urllib.parse.unquote], whether [\w] matches a code point, [str.lower] and
    [int(s)]; and the pydantic schema of the envelope. *)
Class HttpText := {
  unquote : string → string;
  word_char : N → bool;
  lower : string → string;
  int_of_str : string → option Z
}.
Class EnvelopeSchema := { validate_envelope : json → option SignedEnvelope }.

(** [MAX_BODY_BYTES] *)
Definition MAX_BODY_BYTES : Z := 1 * 1024 * 1024.

(** [status_for] over [_STATUS_BY_CODE] *)
Definition status_for (c : ErrorCode) : Z :=
  match c with
  | SCHEMA_INVALID | DUPLICATE_JSON_KEY | ACTION_HASH_MISMATCH => 400
  | PAYLOAD_TOO_LARGE => 413
  | AGENT_UNKNOWN | KEY_UNKNOWN | SESSION_UNKNOWN => 404
  | OPA_UNAVAILABLE | CRYPTO_PROVIDER_UNAVAILABLE | SECURITY_DEPENDENCY_UNAVAILABLE => 503
  | _ => 403
  end.

(** * Values of any type *)

(** A computation on untyped values: what it returns or raises, or that it leaves the
    types the planes declare. *)
Inductive dyn (A : Type) : Type := Known (r : res A) | Untyped.
Arguments Known {A} r.
Arguments Untyped {A}.
Definition dret {A} (a : A) : dyn A := Known (Ok a).
Definition dthrow {A} (cls msg : string) : dyn A := Known (Err (PyExc cls msg)).
Definition dbind {A B} (d : dyn A) (k : A → dyn B) : dyn B :=
  match d with Known (Ok a) => k a | Known (Err x) => Known (Err x) | Untyped => Untyped end.
#[local] Notation "'let+' p ':=' d 'in' k" := (dbind d (λ p, k))
  (at level 200, p name, d at level 200, k at level 200).

Notation body := (odict string json).
(** [body[k]] and [body.get(k, default)] *)
Definition item (b : body) (k : string) : dyn json :=
  match dget k b with Some v => dret v | None => dthrow "KeyError" k end.
Definition get (b : body) (k : string) (d : json) : json := default d (dget k b).

(** A field a plane declares as [str], [str | None], [int | None], [list[str] | None]. *)
Definition as_str (v : json) : dyn string := match v with JStr s => dret s | _ => Untyped end.
Definition as_opt_str (v : json) : dyn (option string) :=
  match v with JStr s => dret (Some s) | JNull => dret None | _ => Untyped end.
Definition as_opt_int (v : json) : dyn (option Z) :=
  match v with JInt z => dret (Some z) | JNull => dret None | _ => Untyped end.
Definition strings (l : list json) : option (list string) :=
  mapM (λ v, match v with JStr s => Some s | _ => None end) l.
Definition as_opt_strs (v : json) : dyn (option (list string)) :=
  match v with
  | JNull => dret None
  | JArr l => match strings l with Some ss => dret (Some ss) | None => Untyped end
  | _ => Untyped
  end.

(** [set(v)] for a set of strings: of a list, of the characters of a string, of the keys
    of a dict. *)
Definition unhashable (v : json) : bool := match v with JArr _ | JObj _ => true | _ => false end.
Definition py_set (v : json) : dyn (gset string) :=
  match v with
  | JArr l =>
      match strings l with
      | Some ss => dret (list_to_set ss)
      | None => if existsb unhashable l then dthrow "TypeError" "unhashable type" else Untyped
      end
  | JStr s => dret (list_to_set (encode_cp <$> code_points s))
  | JObj kvs => dret (list_to_set kvs.*1)
  | _ => dthrow "TypeError" "object is not iterable"
  end.
(** A status and the members of a JSON object. *)
Notation reply := (Z * list (string * json))%type.

Section http.
Context `{HttpText, EnvelopeSchema, FloatLiteral}.

(** [int(v)] *)
Definition py_int (v : json) : dyn Z := Known (int_value int_of_str v).

(** [E(v)] for an enumeration by value. *)
Definition py_enum {A} (value : A → string) (members : list A) (v : json) : dyn A :=
  match v with
  | JStr s => match list_find (λ a, value a = s) members with
              | Some (_, a) => dret a
              | None => dthrow "ValueError" "not a valid member"
              end
  | _ => dthrow "ValueError" "not a valid member"
  end.
Definition as_dict (v : json) : dyn body :=
  match v with JObj kvs => dret kvs | _ => dthrow "AttributeError" "no attribute 'get'" end.

(** [_grant_from_body] *)
Definition grant_from_body (doc : body) : dyn Grant :=
  let+ capabilities := py_set (get doc "capabilities" (JArr [])) in
  let+ resource_scopes := py_set (get doc "resource_scopes" (JArr [])) in
  let+ clearance := py_enum DataClassification_value [PUBLIC; INTERNAL; CONFIDENTIAL; SECRET]
                      (get doc "clearance" (JStr "INTERNAL")) in
  let allow_external_network := py_bool (get doc "allow_external_network" (JBool false)) in
  let+ network_allowlist := py_set (get doc "network_allowlist" (JArr [])) in
  let shell_permitted := py_bool (get doc "shell_permitted" (JBool false)) in
  let secret_access_permitted := py_bool (get doc "secret_access_permitted" (JBool false)) in
  let+ max_db_rows := py_int (get doc "max_db_rows" (JInt 0)) in
  let+ max_external_bytes := py_int (get doc "max_external_bytes" (JInt 0)) in
  dret (mkGrant capabilities resource_scopes clearance allow_external_network network_allowlist
          shell_permitted secret_access_permitted max_db_rows max_external_bytes).

(** * Routes *)

(** [re.fullmatch(pre + "([...]+)" + post, path)]: the group, if the path matches. *)
Definition path_param (pre post : string) (ok : N → bool) (path : string) : option string :=
  if str_startswith path pre && str_endswith path post
     && (String.length pre + String.length post <=? String.length path) then
    let g := String.substring (String.length pre)
               (String.length path - String.length pre - String.length post) path in
    if negb (bool_decide (g = "")) && forallb ok (code_points g) then Some g else None
  else None.
(** [[\w-]] and [[\w|-]] *)
Definition id_char (c : N) : bool := word_char c || (c =? 45)%N.
Definition subject_char (c : N) : bool := id_char c || (c =? 124)%N.

(** What a method and a path select, in the order of the [if]s of [dispatch]. *)
Inductive route : Set :=
| RLive | RReady | RSessions | REvaluate | REvaluateExecute
| RDecision (id : string) | RContainment (subject : string)
| RApproval (id : string) | RQuarantine (subject : string) | RReset (subject : string)
| RUnknown.

Definition route_of (method path : string) : route :=
  let exact m p := bool_decide (method = m) && bool_decide (path = p) in
  let param m pre post ok := if decide (method = m) then path_param pre post ok path else None in
  if exact "GET" "/health/live" then RLive
  else if exact "GET" "/health/ready" then RReady
  else if exact "POST" "/v3/sessions" then RSessions
  else if exact "POST" "/v3/actions/evaluate" then REvaluate
  else if exact "POST" "/v3/actions/evaluate-execute" then REvaluateExecute
  else match param "GET" "/v3/decisions/" "" id_char with Some id => RDecision id | None =>
  match param "GET" "/v3/agents/" "/containment" subject_char with Some s => RContainment s | None =>
  match param "POST" "/v3/approvals/" "" id_char with Some id => RApproval id | None =>
  match param "POST" "/v3/agents/" "/quarantine" subject_char with Some s => RQuarantine s | None =>
  match param "POST" "/v3/agents/" "/containment/reset" subject_char with Some s => RReset s | None =>
  RUnknown end end end end end.

(** [unquote(path.split("?", 1)[0])] *)
Fixpoint before_query (s : string) : string :=
  match s with
  | EmptyString => ""
  | String c s => if bool_decide (Ascii.N_of_ascii c = 63%N) then "" else String c (before_query s)
  end.

(** [_require_admin_header], of headers in lower case *)
Definition require_admin_header (headers : odict string string) : dyn string :=
  match dget "x-cvztte-admin" headers with
  | Some p => if bool_decide (p = "") then Known (err ENFORCEMENT_DENIED "admin principal header required")
              else dret p
  | None => Known (err ENFORCEMENT_DENIED "admin principal header required")
  end.
Definition headers_principal (headers : odict string string) : string :=
  default "" (dget "x-cvztte-admin" headers).

Definition unknown_route : reply :=
  (404%Z, [("error_code", JStr (code_value SCHEMA_INVALID)); ("error", JStr "unknown route")]).

(** [ControlPlane.health_live], [ControlPlane.health_ready]: every part is wired. *)
Definition health_live : list (string * json) := [("status", JStr "live")].
Definition health_ready : list (string * json) :=
  [("status", JStr "ready");
   ("checks", JObj ((λ k, (k, JBool true)) <$>
      ["authority"; "validator_store"; "opa"; "containment"; "identity"]))].

Definition session_reply (s : Session) : list (string * json) :=
  [("session_id", JStr (session_id s)); ("agent_id", JStr (s_agent_id s));
   ("runtime_id", JStr (s_runtime_id s)); ("expires_at", JStr (isoformat (s_expires_at s)))].
Definition as_object (v : json) : list (string * json) := match v with JObj kvs => kvs | _ => [] end.
End http.

(** What one request draws: the clock, the identifiers, and what the replay guard asks of
    its environment. *)
Record http_draws (E : Type) : Type := mkHttpDraws {
  hd_clock : Z;
  hd_uuid : string;
  hd_env : E;
  hd_plane : plane_draws;
  hd_token : draws
}.
Arguments mkHttpDraws {E}.
Arguments hd_clock {E}. Arguments hd_uuid {E}. Arguments hd_env {E}.
Arguments hd_plane {E}. Arguments hd_token {E}.

Section api.
Context `{Hashlib, Rfc8785, Pydantic, SignatureProvider, IsoParser, OPA, PolicySchema}.
Context {G E K W : Type} `{ReplayGuardProtocol G E} `{ReceiptSink K}.
Context `{HttpText, EnvelopeSchema, FloatLiteral}.
Variable cfg : PlaneConfig.
Variable admins : AdminAuthorizer.
Abbreviation facade := (Facade (G := G) (K := K) (W := W)).
Implicit Types (d : http_draws E) (s : facade).

(** [ControlPlaneAPI.dispatch]: the call a request makes, once its fields are read. *)
Definition dispatch (method path : string) (b : body) (headers : odict string string) d
    : dyn (M facade reply) :=
  match route_of method (unquote (before_query path)) with
  | RLive => dret (cret (200%Z, health_live))
  | RReady => dret (cret (200%Z, health_ready))
  | RSessions =>
      let+ agent := item b "agent_id" in
      let+ runtime := item b "runtime_id" in
      let+ agent := as_str agent in
      let+ runtime := as_str runtime in
      let+ ttl := as_opt_int (get b "ttl_seconds" JNull) in
      dret (let! sess := agent_create_session agent runtime ttl None (hd_clock d) (hd_uuid d) in
            cret (201%Z, session_reply sess))
  | REvaluate =>
      let+ doc := item b "envelope" in
      let+ envelope := match validate_envelope doc with
                       | Some e => dret e | None => dthrow "ValidationError" "envelope" end in
      let+ doc := as_dict (get b "grant" (JObj [])) in
      let+ grant := grant_from_body doc in
      let+ aud := item b "audience" in
      let+ aud := as_str aud in
      let+ dest := as_opt_str (get b "destination_domain" JNull) in
      let+ rows := as_opt_int (get b "row_count" JNull) in
      let+ bytes := as_opt_int (get b "byte_count" JNull) in
      dret (let! r := agent_evaluate cfg envelope grant aud dest rows bytes None
                        (hd_clock d) (hd_env d) (hd_plane d) in
            cret (200%Z, evaluation_public_view r))
  | REvaluateExecute =>
      Known (err SECURITY_DEPENDENCY_UNAVAILABLE "evaluate-execute requires a configured enforcement broker")
  | RDecision id =>
      dret (let! s := cget in
            let! r := clift (agent_get_decision s id) in
            cret (200%Z, evaluation_public_view r))
  | RContainment subject =>
      dret (let! s := cget in cret (200%Z, as_object (agent_containment_status s subject)))
  | RApproval id =>
      let+ principal := require_admin_header headers in
      dret (let! r := admin_approve cfg admins principal id None (hd_clock d) (hd_token d) in
            cret (200%Z, evaluation_public_view r))
  | RQuarantine subject =>
      let+ principal := require_admin_header headers in
      let+ agent := item b "agent_id" in
      let+ target := py_enum ContainmentState_value
                       [NORMAL; SUSPICIOUS; RESTRICTED; QUARANTINED; TERMINATED]
                       (get b "target" (JStr "QUARANTINED")) in
      let+ agent := as_str agent in
      let+ runtime := as_opt_str (get b "runtime_id" JNull) in
      let+ codes := as_opt_strs (get b "reason_codes" JNull) in
      dret (let! v := admin_quarantine admins principal subject agent runtime codes target None (hd_clock d) in
            cret (200%Z, as_object v))
  | RReset subject =>
      let+ principal := require_admin_header headers in
      let+ agent := item b "agent_id" in
      let+ method := item b "method" in
      let+ method := py_enum RecoveryMethod_value
                       [COOLDOWN_CLEAN; FRESH_SESSION; ADMIN_APPROVAL; REONBOARD] method in
      let+ agent := as_str agent in
      let+ runtime := as_opt_str (get b "runtime_id" JNull) in
      dret (let! v := admin_reset_containment admins principal subject agent method runtime None (hd_clock d) in
            cret (200%Z, as_object v))
  | RUnknown => dret (cret unknown_route)
  end.

(** * The handler *)

(** [self.headers.get(k, default)]: the first header of the name, in any case. *)
Definition header_get (raw : list (string * string)) (k dflt : string) : string :=
  match list_find (λ h, lower h.1 = lower k) raw with Some (_, h) => h.2 | None => dflt end.
(** [{k.lower(): v for k, v in self.headers.items()}] *)
Definition lower_headers (raw : list (string * string)) : odict string string :=
  foldl (λ m h, dset (lower h.1) h.2 m) [] raw.

(** [int(self.headers.get("Content-Length", "0") or "0")] *)
Definition content_length (raw : list (string * string)) : res Z :=
  let v := header_get raw "Content-Length" "0" in
  match int_of_str (if bool_decide (v = "") then "0" else v) with
  | Some n => Ok n
  | None => Err (PyExc "ValueError" "invalid literal for int()")
  end.
(** [self.rfile.read(n)] of the bytes the client sends before it closes its end: up to
    [n] of them, and all of them for a negative [n]. *)
Definition read_rfile (stream : string) (n : Z) : string :=
  if decide (n < 0)%Z then stream else String.substring 0 (Z.to_nat n) stream.

(** [_read_body], in an interpreter that converts integers of [int_max] digits and has
    [frames] frames left. *)
Definition read_body (int_max frames : nat) (raw : list (string * string)) (stream : string) : res body :=
  let? length := content_length raw in
  if decide (MAX_BODY_BYTES < length)%Z then err PAYLOAD_TOO_LARGE "request body too large"
  else if decide (length = 0)%Z then Ok []
  else
    match utf8_decode (read_rfile stream length) with
    | None => err SCHEMA_INVALID "malformed JSON body"
    | Some text =>
        match json_loads int_max plain_hooks frames text with
        | Err (PyExc cls m) =>
            if bool_decide (cls ∈ ["JSONDecodeError"; "ValueError"]) then err SCHEMA_INVALID "malformed JSON body"
            else Err (PyExc cls m)
        | Err x => Err x
        | Ok (JObj kvs) => Ok kvs
        | Ok _ => err SCHEMA_INVALID "body must be a JSON object"
        end
    end.

(** The [except] clauses of [_handle]. *)
Definition error_reply (x : exn) : reply :=
  match x with
  | Cvztte e => (status_for (code e), (λ kv, (kv.1, JStr kv.2)) <$> public_dict e)
  | PyExc cls arg =>
      if bool_decide (cls = "KeyError") then
        (400%Z, [("error_code", JStr (code_value SCHEMA_INVALID)); ("error", JStr ("missing field: " +:+ arg))])
      else (500%Z, [("error_code", JStr "INTERNAL"); ("error", JStr "internal error")])
  end.

(** What a request is, on the wire. *)
Record http_request : Set := mkHttpRequest {
  hr_method : string;
  hr_path : string;
  hr_headers : list (string * string);
  hr_stream : string
}.

(** [_handle]: the response and the state after it; [None] for a request of untyped
    fields. *)
Definition handle (int_max frames : nat) (rq : http_request) d s : option (reply * facade) :=
  let b := if bool_decide (hr_method rq = "POST") then read_body int_max frames (hr_headers rq) (hr_stream rq)
           else Ok [] in
  match b with
  | Err x => Some (error_reply x, s)
  | Ok b =>
      match dispatch (hr_method rq) (hr_path rq) b (lower_headers (hr_headers rq)) d with
      | Untyped => None
      | Known (Err x) => Some (error_reply x, s)
      | Known (Ok call) =>
          match call s with
          | (Ok r, s') => Some (r, s')
          | (Err x, s') => Some (error_reply x, s')
          end
      end
  end.

(** One request after another: the responses and the last state. *)
Fixpoint serve (int_max frames : nat) (rqs : list (http_request * http_draws E)) s
    : option (list reply * facade) :=
  match rqs with
  | [] => Some ([], s)
  | (rq, d) :: rqs =>
      '(r, s1) ← handle int_max frames rq d s; '(rs, s2) ← serve int_max frames rqs s1; Some (r :: rs, s2)
  end.

(** * The HTTP layer adds nothing to the planes *)

(** The call on the facades that a route stands for. *)
Definition routed (rt : route) (principal : string) (o : facade_op (E := E) (W := W)) : Prop :=
  match rt, o with
  | RSessions, FAgent (GCreateSession _ _ _ None _ _) => True
  | REvaluate, FAgent (GEvaluate _ _ _ _ _ _ None _ _ _) => True
  | RApproval id, FAdmin who (MApprove id' None _ _) => who = principal ∧ id' = id
  | RQuarantine sb, FAdmin who (MQuarantine sb' _ _ _ _ None _) => who = principal ∧ sb' = sb
  | RReset sb, FAdmin who (MReset sb' _ _ _ None _) => who = principal ∧ sb' = sb
  | _, _ => False
  end.
Definition admin_route (rt : route) : bool :=
  match rt with RApproval _ | RQuarantine _ | RReset _ => true | _ => false end.

Definition request_route (rq : http_request) : route :=
  route_of (hr_method rq) (unquote (before_query (hr_path rq))).
Definition request_principal (rq : http_request) : string :=
  headers_principal (lower_headers (hr_headers rq)).

Lemma dbind_ok {A B} (x : dyn A) (k : A → dyn B) b :
  dbind x k = Known (Ok b) ↔ ∃ a, x = Known (Ok a) ∧ k a = Known (Ok b).
Proof. destruct x as [[a|e]|]; simpl; naive_solver. Qed.
Lemma dret_ok {A} (a b : A) : dret a = Known (Ok b) ↔ a = b.
Proof. unfold dret. naive_solver. Qed.
Lemma require_admin_header_ok headers p :
  require_admin_header headers = Known (Ok p) → p = headers_principal headers.
Proof.
  unfold require_admin_header, headers_principal. destruct (dget _ headers) as [q|]; [|done].
  case_bool_decide; [done|]. by intros [= <-].
Qed.

(** A call on a facade and a reply made of its value. *)
Lemma reply_of {A} (m : M facade A) (f : A → reply) s :
  (let! a := m in cret (f a)) s = (let? a := (m s).1 in Ok (f a), (m s).2).
Proof. unfold cbind, cret. by destruct (m s) as [[a|x] s']. Qed.

Lemma error_reply_status x : (400 ≤ (error_reply x).1)%Z.
Proof.
  destruct x as [e|cls arg]; simpl; [|by case_bool_decide].
  by destruct (code e).
Qed.

(** A request's call is the facade's call of its route, with the principal of its header. *)
Lemma dispatch_routed method path b headers d call s :
  dispatch method path b headers d = Known (Ok call) →
  let rt := route_of method (unquote (before_query path)) in
  let who := headers_principal headers in
  ∃ ops, (call s).2 = run (facade_step cfg admins) s ops ∧
    (ops = [] ∨ ∃ o, ops = [o] ∧ routed rt who o) ∧
    (admin_route rt = true → who ∉ admins → ∃ x, (call s).1 = Err x).
Proof.
  intros Hd rt who. unfold dispatch in Hd. fold rt in Hd.
  destruct rt as [| | | | |id|sb|id|sb|sb|] eqn:Hrt; cbn beta iota in Hd; cbn [admin_route routed];
    repeat match goal with
    | Hd : dbind _ _ = Known (Ok _) |- _ => apply dbind_ok in Hd as (? & ? & Hd)
    | Hd : dret _ = Known (Ok _) |- _ => apply dret_ok in Hd as <-
    | Hp : require_admin_header _ = _ |- _ => apply require_admin_header_ok in Hp; subst
    end; try done.
  - exists []. split_and!; [done|by left|done].
  - exists []. split_and!; [done|by left|done].
  - eexists [FAgent (GCreateSession _ _ _ None _ _)]. rewrite reply_of.
    split_and!; [reflexivity|right; by eexists|done].
  - eexists [FAgent (GEvaluate _ _ _ _ _ _ None _ _ _)]. rewrite reply_of.
    split_and!; [reflexivity|right; by eexists|done].
  - exists []. split_and!; [|by left|done]. unfold cbind, cget, clift, cret. simpl.
    by destruct (agent_get_decision s id).
  - exists []. split_and!; [done|by left|done].
  - eexists [FAdmin who (MApprove id None _ _)]. rewrite reply_of. fold who.
    split_and!; [reflexivity|right; by eexists|].
    intros _ Hn. unfold admin_approve. rewrite as_admin_out by done. by eexists.
  - eexists [FAdmin who (MQuarantine sb _ _ _ _ None _)]. rewrite reply_of. fold who.
    split_and!; [reflexivity|right; by eexists|].
    intros _ Hn. unfold admin_quarantine. rewrite as_admin_out by done. by eexists.
  - eexists [FAdmin who (MReset sb _ _ _ None _)]. rewrite reply_of. fold who.
    split_and!; [reflexivity|right; by eexists|].
    intros _ Hn. unfold admin_reset_containment. rewrite as_admin_out by done. by eexists.
  - exists []. split_and!; [done|by left|done].
Qed.

(** What a request amounts to: no call, or the one its route stands for; and no success
    of an administrative route without an administrator. *)
Definition amounts_to (rq : http_request) (r : reply) (ops : list (facade_op (E := E) (W := W))) : Prop :=
  (ops = [] ∨ ∃ o, ops = [o] ∧ routed (request_route rq) (request_principal rq) o) ∧
  (admin_route (request_route rq) = true → request_principal rq ∉ admins → 400 ≤ r.1)%Z.

Lemma handle_amounts_to int_max frames rq d s r s' :
  handle int_max frames rq d s = Some (r, s') →
  ∃ ops, s' = run (facade_step cfg admins) s ops ∧ amounts_to rq r ops.
Proof.
  unfold handle, amounts_to.
  set (bd := if bool_decide _ then _ else _). destruct bd as [b|x].
  2: { intros [= <- <-]. exists []. split_and!; [done|by left|]. intros. apply error_reply_status. }
  destruct (dispatch _ _ _ _ _) as [[call|x]|] eqn:Hd; [| |done].
  2: { intros [= <- <-]. exists []. split_and!; [done|by left|]. intros. apply error_reply_status. }
  destruct (dispatch_routed _ _ _ _ _ _ s Hd) as (ops & Hs & Hops & Herr).
  intros Hc. exists ops. destruct (call s) as [[r0|x] s1] eqn:Hcall; injection Hc as <- <-; simpl in Hs, Herr.
  - split_and!; [done|done|]. intros Ha Hp. by destruct (Herr Ha Hp).
  - split_and!; [done|done|]. intros. apply error_reply_status.
Qed.

Lemma serve_amounts_to int_max frames rqs s rs s' :
  serve int_max frames rqs s = Some (rs, s') →
  ∃ opss, s' = run (facade_step cfg admins) s (concat opss) ∧
    Forall2 (λ rqd p, amounts_to rqd.1 p.1 p.2) rqs (zip rs opss) ∧ length opss = length rs.
Proof.
  revert s rs. induction rqs as [|[rq d] rqs IH]; intros s rs; simpl.
  { intros [= <- <-]. exists []. split_and!; [done|constructor|done]. }
  destruct (handle int_max frames rq d s) as [[r s1]|] eqn:Hh; [|done]. simpl.
  destruct (serve int_max frames rqs s1) as [[rs1 s2]|] eqn:Hs; [|done]. intros [= <- <-].
  apply handle_amounts_to in Hh as (ops & -> & Ho).
  destruct (IH _ _ Hs) as (opss & -> & Hf & Hl). exists (ops :: opss). simpl.
  split_and!; [by rewrite run_app|by constructor|by rewrite Hl].
Qed.

(** A call that no administrator makes leaves the containment and the contexts alone. *)
Definition unprivileged (o : facade_op (E := E) (W := W)) : Prop :=
  match o with
  | FAgent (GExecute _ _ _ _ _ _ _ _ _ _ _ _) => False
  | FAgent _ => True
  | FAdmin who _ => who ∉ admins
  end.
Lemma unprivileged_run ops s :
  Forall unprivileged ops →
  containment (fa_plane (run (facade_step cfg admins) s ops)) = containment (fa_plane s).
Proof.
  intros Ho. revert s. induction Ho as [|o ops Ho _ IH]; intros s; [done|].
  change (run (facade_step cfg admins) s (o :: ops))
    with (run (facade_step cfg admins) (facade_step cfg admins s o) ops).
  rewrite IH, facade_plane. destruct o as [o|who o]; simpl in Ho |- *.
  - rewrite step_containment. by destruct o.
  - by rewrite decide_False.
Qed.
Lemma routed_unprivileged rq o :
  routed (request_route rq) (request_principal rq) o → request_principal rq ∉ admins → unprivileged o.
Proof.
  intros Hr Hn. destruct (request_route rq), o as [[]|who []]; simpl in *; try done; repeat case_match; naive_solver.
Qed.

(** C21: the HTTP layer refines the two planes.  Whatever requests arrive, the state after
    them is the one after a history of calls on the facades, at most one for each request:
    the call its route stands for, made in the name of the principal of its own
    administrator header.  An administrative route never succeeds for a principal who is
    not an administrator, and while no request bears an administrator's name the
    containment of every subject stays as it was. *)
Theorem http_refines_planes (int_max frames : nat) (rqs : list (http_request * http_draws E))
    (s s' : facade) (rs : list reply)
  (Hs : serve int_max frames rqs s = Some (rs, s')) :
  (∃ opss, s' = run (facade_step cfg admins) s (concat opss) ∧ length opss = length rs ∧
     Forall2 (λ rqd p, amounts_to rqd.1 p.1 p.2) rqs (zip rs opss)) ∧
  ((∀ rq, rq ∈ rqs.*1 → request_principal rq ∉ admins) →
     containment (fa_plane s') = containment (fa_plane s)).
Proof.
  destruct (serve_amounts_to _ _ _ _ _ _ Hs) as (opss & -> & Hf & Hl). split; [by exists opss|].
  intros Hn. apply unprivileged_run.
  apply Forall_concat. rewrite <-(snd_zip rs opss) by lia. apply Forall_fmap.
  clear Hs Hl. revert Hf Hn. generalize (zip rs opss). clear. intros l Hf.
  induction Hf as [|[rq d] [r ops] rqs l [Ho _] _ IH]; intros Hn; [constructor|].
  constructor; [|apply IH; intros; apply Hn; by right].
  simpl in Ho. destruct Ho as [->|(o & -> & Hr)]; simpl; [constructor|]. constructor; [|constructor].
  eapply routed_unprivileged; [exact Hr|]. apply Hn. by left.
Qed.
End api.

(** * A history of requests *)

Import Instances.
#[local] Existing Instances toy_provider iso_instance authz_engine strict_schema.

(** Plain ASCII text, and one envelope, called ["the envelope"] on the wire. *)
Definition ascii_digits (s : string) : option Z :=
  foldl (λ v n, v ← v; if StrictJson.is_digit n then Some (10 * v + Z.of_N (n - 48))%Z else None) (Some 0%Z) (codes s).
Definition ascii_text : HttpText := {|
  unquote := id;
  word_char c := StrictJson.is_digit c || in_range 65 90 c || in_range 97 122 c || (c =? 95)%N;
  lower s := if bool_decide (s = "Content-Length") then "content-length" else s;
  int_of_str s := if str_startswith s "-" then Z.opp <$> ascii_digits (String.substring 1 (String.length s) s)
                  else ascii_digits s
|}.
Definition one_envelope : EnvelopeSchema :=
  {| validate_envelope v := match v with JStr _ => Some ex_request_env | _ => None end |}.
Definition no_literals : FloatLiteral := {| read_float _ := None |}.
#[local] Existing Instances ascii_text one_envelope no_literals no_floats.

Definition post (path who : string) (v : json) : http_request :=
  let text := json_dumps v in
  mkHttpRequest "POST" path [("Content-Length", int_repr (Z.of_nat (String.length text))); ("x-cvztte-admin", who)] text.
Definition at_time (t : Z) (tok : draws) : http_draws unit := mkHttpDraws t "1" () ex_pd tok.

Definition ex_session_rq : http_request :=
  post "/v3/sessions" "" (JObj [("agent_id", JStr "agt_1"); ("runtime_id", JStr "rt_1")]).
Definition ex_evaluate_rq (grant : json) : http_request :=
  post "/v3/actions/evaluate" ""
    (JObj [("envelope", JStr "the envelope"); ("audience", JStr "file"); ("grant", grant)]).
(** The capabilities the agent asks for itself. *)
Definition ex_own_grant : json :=
  JObj [("capabilities", JArr [JStr "fs:read"]); ("resource_scopes", JArr [JStr "/data"])].
Definition ex_http_history : list (http_request * http_draws unit) :=
  [(ex_session_rq, at_time 10 ex_draws);
   (ex_evaluate_rq ex_own_grant, at_time 25000000 ex_draws);
   (post "/v3/approvals/dec_d1" "mallory" (JObj []), at_time 25500000 (mkDraws "t1" "q1" "n1"));
   (post "/v3/approvals/dec_d1" "carol" (JObj []), at_time 26000000 (mkDraws "t2" "q2" "n2"));
   (post "/v3/agents/s|1/quarantine" "carol" (JObj [("agent_id", JStr "agt_1")]), at_time 26000000 ex_draws);
   (post "/v3/agents/s|1/quarantine" "" (JObj [("agent_id", JStr "agt_1")]), at_time 26000000 ex_draws);
   (mkHttpRequest "GET" "/v3/decisions/dec_d1?x=1" [] "", at_time 26000000 ex_draws);
   (post "/v3/actions/evaluate-execute" "" (JObj []), at_time 26000000 ex_draws);
   (post "/v3/nothing" "carol" (JObj []), at_time 26000000 ex_draws)].
Definition ex_serve := serve ex_cautious ex_admins 4300 900 ex_http_history ex_facade0.

Lemma ex_statuses : (λ p, p.1.*1) <$> ex_serve = Some [201; 200; 403; 200; 200; 403; 200; 503; 404]%Z.
Proof. vm_compute. reflexivity. Qed.

(** C21 at the history above: two administrative requests of others fail, two of the
    administrator's succeed. *)
Lemma http_refines_planes_witness :
  ∃ rs s' opss, ex_serve = Some (rs, s') ∧ rs.*1 = [201; 200; 403; 200; 200; 403; 200; 503; 404]%Z ∧
    s' = run (facade_step ex_cautious ex_admins) ex_facade0 (concat opss) ∧ length opss = length rs.
Proof.
  destruct ex_serve as [[rs s']|] eqn:Hs; [|exfalso; pose proof ex_statuses as Hx; rewrite Hs in Hx; discriminate Hx].
  destruct (http_refines_planes ex_cautious ex_admins 4300 900 ex_http_history ex_facade0 s' rs Hs)
    as [(opss & Hrun & Hl & _) _].
  exists rs, s', opss. split; [reflexivity|]. split; [|split; [exact Hrun|exact Hl]].
  pose proof ex_statuses as Hx. rewrite Hs in Hx. injection Hx as Hx. exact Hx.
Defined.

(** How an evaluation is answered: the status, and the decision if there is one. *)
Definition ex_answer (grant : json) : option (option (Z * option json)) :=
  (λ p, (λ r : reply, (r.1, dget "status" r.2)) <$> last p.1) <$>
    serve ex_cfg ex_admins 4300 900
      [(ex_session_rq, at_time 10 ex_draws); (ex_evaluate_rq grant, at_time 25000000 ex_draws)] ex_facade0.
(** The grant that the policy judges an action by is the one in the agent's own request:
    asking for the capability is enough to have it. *)
Example grant_from_the_agent :
  ex_answer (JObj []) = Some (Some (403%Z, None)) ∧
  ex_answer ex_own_grant = Some (Some (200%Z, Some (JStr "ALLOW"))).
Proof. split; vm_compute; reflexivity. Qed.

(** A string where a list is meant is taken as the set of its characters. *)
Example characters_as_capabilities :
  py_set (JStr "net") = dret {["n"; "e"; "t"]}.
Proof. reflexivity. Qed.

(** A negative length passes the limit and reads whatever the client sends. *)
Example negative_length :
  read_body 4300 900 [("Content-Length", "-1")] "{}   " = Ok [] ∧
  read_body 4300 900 [("Content-Length", "2000000")] "{}" = err PAYLOAD_TOO_LARGE "request body too large".
Proof. split; vm_compute; reflexivity. Qed.
