(* ===== verification/Judge.v ===== *)
(** The safety judge ([cvztte/judge]): the deterministic features of an action and of its
    circumstances, the manifest that pins the model, and the verdict with its margin guard.

    The ONNX runtime and the functions of the C library are interfaces. *)

From S2P Require Export Action Policy Containment PyFloat.
From S2P Require Import CACBroker Concrete.

(** [math.log10], [math.exp] and the built-in [sum] of floats. *)
Class FloatMath := {
  log10 : spec_float → spec_float;
  exp : spec_float → spec_float;
  fsum : list spec_float → spec_float
}.
(** The ONNX runtime: whether the bytes of a model load, and the logits it computes in
    single precision. *)
Class OnnxRuntime := {
  onnx_loads : string → bool;
  onnx_run : string → list spec_float → option (list spec_float)
}.
(** * Features ([judge/features.py]) *)

Definition FEATURE_VERSION : Z := 1.
Definition FEATURE_NAMES : list string :=
  [ "act_write"; "act_external_network"; "act_secret_access"; "act_destructive";
    "act_code_or_shell"; "act_message_out"; "data_classification";
    "policy_risk_level"; "policy_require_human_approval"; "policy_require_ezkl";
    "containment_severity"; "destination_external"; "destination_unknown"; "has_delegation";
    "beh_actions_10s"; "beh_actions_60s"; "beh_sensitive_reads_5m"; "beh_external_bytes";
    "beh_secret_access_count"; "beh_policy_denials"; "beh_priv_escalation_attempts";
    "beh_new_external_destination"; "beh_destructive_count"; "beh_message_fanout";
    "beh_bypass_attempts" ].
Definition N_FEATURES : nat := length FEATURE_NAMES.

Definition WRITE_ACTIONS : list ActionType :=
  [FILE_WRITE; FILE_DELETE; MEMORY_WRITE; DB_OPERATION; CLOUD_CONTROL_ACTION].
Definition EXTERNAL_NET_ACTIONS : list ActionType := [NETWORK_REQUEST; API_REQUEST; EXTERNAL_MESSAGE].
Definition DESTRUCTIVE_ACTIONS : list ActionType := [FILE_DELETE].
Definition CODE_SHELL_ACTIONS : list ActionType := [SHELL_EXEC; PROCESS_EXEC; CODE_EXECUTION].
Definition MESSAGE_OUT_ACTIONS : list ActionType := [AGENT_MESSAGE; EXTERNAL_MESSAGE].
Definition CLASSIFICATION_LEVEL (c : DataClassification) : Z :=
  match c with PUBLIC => 0 | INTERNAL => 1 | CONFIDENTIAL => 2 | SECRET => 3 end.

(** [JudgeInput] *)
Record JudgeInput : Type := mkJudgeInput {
  ji_action : AgentAction;
  ji_policy : PolicyDecision;
  ji_containment_state : ContainmentState;
  destination_external : bool;
  destination_known : bool;
  has_delegation : bool;
  actions_last_10s : Z;
  actions_last_60s : Z;
  sensitive_reads_last_5m : Z;
  external_bytes : Z;
  secret_access_count : Z;
  policy_denials : Z;
  privilege_escalation_attempts : Z;
  new_external_destination : Z;
  destructive_action_count : Z;
  agent_message_fanout : Z;
  bypass_attempts : Z
}.

Definition fzero : spec_float := S754_zero false.
Definition fone : spec_float := Eval vm_compute in of_int 1.
Definition fdiv (x y : spec_float) : spec_float := SFdiv 53 1024 x y.
Definition fadd (x y : spec_float) : spec_float := SFadd 53 1024 x y.
(** [min(x, y)] and [max(x, y)]: the second only if it is smaller, larger. *)
Definition py_min (x y : spec_float) : spec_float := if flt y x then y else x.
Definition py_max (x y : spec_float) : spec_float := if flt x y then y else x.
(** An integer where a float is needed. *)
Definition py_float (n : Z) : res spec_float :=
  match of_int n with
  | S754_infinity _ => Err (PyExc "OverflowError" "int too large to convert to float")
  | f => Ok f
  end.

(** [_sat] *)
Definition sat (x : Z) (cap : spec_float) : res spec_float :=
  if fle cap fzero then Ok fzero
  else let? f := py_float x in Ok (py_max fzero (py_min (fdiv f cap) fone)).

(** A list display: its elements are evaluated in order. *)
Fixpoint collect {A} (l : list (res A)) : res (list A) :=
  match l with
  | [] => Ok []
  | r :: l => let? a := r in let? l := collect l in Ok (a :: l)
  end.

Section features.
Context `{FloatMath}.
(** [_log_sat] *)
Definition log_sat (x : Z) (decades : spec_float) : res spec_float :=
  if decide (x ≤ 0)%Z then Ok fzero
  else let? f := py_float x in
       Ok (py_max fzero (py_min (fdiv (log10 (fadd fone f)) decades) fone)).

Definition flag (b : bool) : spec_float := if b then fone else fzero.

(** [extract]: the features in the order of [FEATURE_NAMES]. *)
Definition extract (inp : JudgeInput) : res (list spec_float) :=
  let at_ := action_type (ji_action inp) in
  let among l := flag (bool_decide (at_ ∈ l)) in
  collect
    [ Ok (among WRITE_ACTIONS);
      Ok (among EXTERNAL_NET_ACTIONS);
      Ok (among [SECRET_ACCESS]);
      Ok (among DESTRUCTIVE_ACTIONS);
      Ok (among CODE_SHELL_ACTIONS);
      Ok (among MESSAGE_OUT_ACTIONS);
      Ok (fdiv (of_int (CLASSIFICATION_LEVEL (data_classification (ji_action inp)))) (of_int 3));
      sat (risk_level (ji_policy inp)) (of_int 4);
      Ok (flag (require_human_approval (ji_policy inp)));
      Ok (flag (require_ezkl (ji_policy inp)));
      sat (Z.of_nat (severity (ji_containment_state inp))) (of_int 4);
      Ok (flag (destination_external inp));
      Ok (flag (destination_external inp && negb (destination_known inp)));
      Ok (flag (has_delegation inp));
      sat (actions_last_10s inp) (of_int 20);
      sat (actions_last_60s inp) (of_int 60);
      sat (sensitive_reads_last_5m inp) (of_int 20);
      log_sat (external_bytes inp) (of_int 7);
      sat (secret_access_count inp) (of_int 5);
      sat (policy_denials inp) (of_int 10);
      sat (privilege_escalation_attempts inp) (of_int 3);
      sat (new_external_destination inp) (of_int 5);
      sat (destructive_action_count inp) (of_int 5);
      sat (agent_message_fanout inp) (of_int 10);
      sat (bypass_attempts inp) (of_int 3) ].
End features.

(** * The model and its manifest ([judge/model.py], [judge/manifest.py]) *)

(** [JudgeVerdict], the most restrictive first, and [VERDICT_BY_INDEX] *)
Inductive JudgeVerdict : Set := UNSAFE | REVIEW | SAFE.
#[export] Instance JudgeVerdict_eq_dec : EqDecision JudgeVerdict.
Proof. solve_decision. Defined.
Definition JudgeVerdict_value (v : JudgeVerdict) : string :=
  match v with UNSAFE => "UNSAFE" | REVIEW => "REVIEW" | SAFE => "SAFE" end.
Definition VERDICT_BY_INDEX : list JudgeVerdict := [UNSAFE; REVIEW; SAFE].
(** [VERDICT_BY_INDEX[i]] *)
Definition verdict_at (i : nat) : res JudgeVerdict :=
  match VERDICT_BY_INDEX !! i with
  | Some v => Ok v | None => Err (PyExc "IndexError" "list index out of range") end.

(** [JudgeManifest] *)
Record JudgeManifest : Type := mkJudgeManifest {
  jm_manifest_version : Z;
  judge_version : Z;
  onnx_file : string;
  jm_onnx_opset : Z;
  jm_model_hash : string;
  jm_feature_extractor_version : Z;
  jm_feature_extractor_hash : string;
  jm_n_features : Z;
  jm_feature_names : list string;
  jm_decision_encoding : list string;
  jm_margin : spec_float
}.
(** [JudgeManifest.model_validate_json] *)
Class JudgeManifestSchema := { parse_judge_manifest : string → option JudgeManifest }.

Section judge.
Context `{Hashlib, Rfc8785, FloatMath, OnnxRuntime, JudgeManifestSchema}.

(** [feature_extractor_hash] *)
Definition feature_extractor_hash : res string :=
  commit D_MODEL
    (JObj [("kind", JStr "judge_feature_extractor"); ("version", JInt FEATURE_VERSION);
           ("names", JArr (JStr <$> FEATURE_NAMES))]).

(** [JudgeManifest.manifest_hash], of [model_dump(mode="json")] *)
Definition judge_manifest_json (m : JudgeManifest) : json :=
  JObj [ ("manifest_version", JInt (jm_manifest_version m)); ("judge_version", JInt (judge_version m));
         ("onnx_file", JStr (onnx_file m)); ("onnx_opset", JInt (jm_onnx_opset m));
         ("model_hash", JStr (jm_model_hash m));
         ("feature_extractor_version", JInt (jm_feature_extractor_version m));
         ("feature_extractor_hash", JStr (jm_feature_extractor_hash m));
         ("n_features", JInt (jm_n_features m)); ("feature_names", JArr (JStr <$> jm_feature_names m));
         ("decision_encoding", JArr (JStr <$> jm_decision_encoding m)); ("margin", JFloat (jm_margin m)) ].
Definition judge_manifest_hash (m : JudgeManifest) : res string := commit D_MODEL (judge_manifest_json m).

(** [file_sha256] *)
Definition file_sha256 (f : Files) (path : string) : res string :=
  let? b := read_bytes f path in Ok ("sha256:" +:+ hex (sha256 b)).

(** [JudgeManifest.verify_against_runtime] *)
Definition judge_verify_against_runtime (m : JudgeManifest) (f : Files) (dir : string) : res unit :=
  if decide (jm_feature_extractor_version m ≠ FEATURE_VERSION) then
    err JUDGE_FAILED "feature extractor version drift"
  else if decide (jm_feature_names m ≠ FEATURE_NAMES) then err JUDGE_FAILED "feature name/order drift"
  else
    let? h := feature_extractor_hash in
    if decide (jm_feature_extractor_hash m ≠ h) then err JUDGE_FAILED "feature extractor hash drift"
    else if decide (jm_n_features m ≠ Z.of_nat N_FEATURES) then err JUDGE_FAILED "feature count drift"
    else
      let onnx_path := path_div dir (onnx_file m) in
      if decide (f !! onnx_path = None) then err JUDGE_FAILED "onnx artifact missing"
      else
        let? actual := file_sha256 f onnx_path in
        if decide (actual ≠ jm_model_hash m) then err JUDGE_FAILED "onnx artifact hash drift"
        else Ok tt.

(** * Inference ([judge/judge.py]) *)

(** [JudgeResult] *)
Record JudgeResult : Type := mkJudgeResult {
  jr_verdict : JudgeVerdict;
  probabilities : list spec_float;
  jr_margin : spec_float;
  jr_features : list spec_float;
  jr_feature_extractor_hash : string;
  jr_model_hash : string
}.

(** [SafetyJudge] once constructed: its manifest and the bytes of its model. *)
Record SafetyJudge : Type := mkJudge { sj_manifest : JudgeManifest; sj_model : string }.

(** [SafetyJudge.__init__], of a manifest [name] in the directory [dir] *)
Definition new_judge (f : Files) (dir name : string) : res SafetyJudge :=
  match f !! path_div dir name with
  | None => err JUDGE_FAILED "judge manifest missing"
  | Some text =>
      match parse_judge_manifest text with
      | None => Err (PyExc "ValidationError" "JudgeManifest")
      | Some m =>
          let? _ := judge_verify_against_runtime m f dir in
          let? model := read_bytes f (path_div dir (onnx_file m)) in
          if onnx_loads model then Ok (mkJudge m model) else err JUDGE_FAILED "judge model load failed"
      end
  end.

(** [SafetyJudge.logits] *)
Definition logits (j : SafetyJudge) (features : list spec_float) : res (list spec_float) :=
  match onnx_run (sj_model j) features with
  | Some out => Ok out
  | None => err JUDGE_FAILED "judge inference failed"
  end.

(** [max(l)], the first of the largest *)
Definition py_max_list (l : list spec_float) : res spec_float :=
  match l with
  | [] => Err (PyExc "ValueError" "max() arg is an empty sequence")
  | x :: l => Ok (foldl py_max x l)
  end.
(** [_softmax] *)
Definition softmax (l : list spec_float) : res (list spec_float) :=
  let? m := py_max_list l in
  let exps := (λ x, exp (fsub x m)) <$> l in
  Ok ((λ e, fdiv e (fsum exps)) <$> exps).

(** [list.sort] with comparison [lt], as the insertion sort it is on up to three elements
    whatever the comparison, and on any number if the comparison is consistent: each
    element goes in from the right.  The sorted part is kept reversed. *)
Fixpoint insert_right {A} (lt : A → A → bool) (x : A) (racc : list A) : list A :=
  match racc with
  | y :: r => if lt x y then y :: insert_right lt x r else x :: racc
  | [] => [x]
  end.
Definition sort_rev {A} (lt : A → A → bool) (l : list A) : list A :=
  foldl (λ racc x, insert_right lt x racc) [] l.
(** [sorted(range(len(probs)), key=lambda i: probs[i], reverse=True)]: the list is
    reversed, sorted and reversed. *)
Definition order_of (probs : list spec_float) : list nat :=
  sort_rev (λ i j, flt (default fzero (probs !! i)) (default fzero (probs !! j)))
    (reverse (seq 0 (length probs))).

(** [SafetyJudge.evaluate] *)
Definition judge_evaluate (j : SafetyJudge) (inp : JudgeInput) : res JudgeResult :=
  let? features := extract inp in
  let? ls := logits j features in
  let? probs := softmax ls in
  match order_of probs with
  | top :: second :: _ =>
      let p i := default fzero (probs !! i) in
      let margin := fsub (p top) (p second) in
      let? verdict := if flt margin (jm_margin (sj_manifest j)) then verdict_at (Nat.min top second)
                      else verdict_at top in
      let? h := feature_extractor_hash in
      Ok (mkJudgeResult verdict ((λ p, fround p 6) <$> probs) (fround margin 6) features h
            (jm_model_hash (sj_manifest j)))
  | _ => Err (PyExc "IndexError" "list index out of range")
  end.

(** [SafetyJudge.binding_commitment] *)
Definition binding_commitment (r : JudgeResult) : res string :=
  commit D_MODEL
    (JObj [("verdict", JStr (JudgeVerdict_value (jr_verdict r))); ("features", JArr (JFloat <$> jr_features r));
           ("feature_extractor_hash", JStr (jr_feature_extractor_hash r));
           ("model_hash", JStr (jr_model_hash r))]).
End judge.

(** * The features are bounded *)

(** A number of the closed unit interval. *)
Definition in01 (f : spec_float) : bool := fle fzero f && fle f fone.

Lemma flt_not_nan x y : flt x y = true → x ≠ S754_nan ∧ y ≠ S754_nan.
Proof. by destruct x, y. Qed.
Lemma fle_of_not_flt q : flt fzero q = true → flt fone q = false → fle q fone = true.
Proof.
  destruct q as [s|s| |s m e]; try (by destruct s); [done|]. destruct s; [done|].
  unfold flt, fle, SFltb, SFleb, SFcompare, fone. intros _. rewrite (Z.compare_antisym e).
  generalize 4503599627370496%positive as k. intros k. destruct (e ?= -52)%Z; [|done..].
  rewrite <-(Pos.compare_cont_antisym k m Eq : _ = Pos.compare_cont Eq m k).
  by destruct (Pos.compare_cont Eq k m).
Qed.
Lemma in01_clamp q : in01 (py_max fzero (py_min q fone)) = true.
Proof.
  unfold py_max, py_min. destruct (flt fone q) eqn:H1; [done|].
  destruct (flt fzero q) eqn:H0; [|done]. unfold in01. rewrite (fle_of_not_flt q) by done.
  rewrite andb_true_r. revert H0. unfold flt, fle, SFltb, SFleb. by destruct (SFcompare _ _) as [[]|].
Qed.

Lemma in01_flag b : in01 (flag b) = true.
Proof. by destruct b. Qed.
Lemma in01_level c : in01 (fdiv (of_int (CLASSIFICATION_LEVEL c)) (of_int 3)) = true.
Proof. by destruct c; vm_compute. Qed.

(** A feature, or the overflow of a counter beyond every double. *)
Definition feature_of (n : option Z) (r : res spec_float) : Prop :=
  match r with
  | Ok f => in01 f = true
  | Err x => x = PyExc "OverflowError" "int too large to convert to float" ∧
             ∃ k s, n = Some k ∧ of_int k = S754_infinity s
  end.

Lemma py_float_spec n :
  match py_float n with
  | Ok _ => True
  | Err x => x = PyExc "OverflowError" "int too large to convert to float" ∧ ∃ s, of_int n = S754_infinity s
  end.
Proof. unfold py_float. destruct (of_int n); try done. split; [done|]. by eexists. Qed.

Section bounds.
Context `{FloatMath}.
Lemma sat_feature n cap : feature_of (Some n) (sat n cap).
Proof.
  unfold sat. destruct (fle cap fzero); [done|]. pose proof (py_float_spec n) as Hp.
  destruct (py_float n); simpl; [apply in01_clamp|]. destruct Hp as [-> [s Hs]]. split; [done|].
  by exists n, s.
Qed.
Lemma log_sat_feature n decades : feature_of (Some n) (log_sat n decades).
Proof.
  unfold log_sat. case_decide; [done|]. pose proof (py_float_spec n) as Hp.
  destruct (py_float n); simpl; [apply in01_clamp|]. destruct Hp as [-> [s Hs]]. split; [done|].
  by exists n, s.
Qed.

Lemma collect_spec {A} (P : A → Prop) (Q : exn → Prop) (l : list (res A)) :
  Forall (λ r, match r with Ok a => P a | Err x => Q x end) l →
  match collect l with Ok v => length v = length l ∧ Forall P v | Err x => Q x end.
Proof.
  induction 1 as [|r l Hr _ IH]; simpl; [split; [done|constructor]|].
  destruct r as [a|x]; simpl; [|done]. destruct (collect l); simpl; [|done].
  destruct IH as [-> ?]. split; [done|]. by constructor.
Qed.
End bounds.

(** The counters of an input. *)
Definition counters (inp : JudgeInput) : list Z :=
  [ risk_level (ji_policy inp); Z.of_nat (severity (ji_containment_state inp));
    actions_last_10s inp; actions_last_60s inp; sensitive_reads_last_5m inp; external_bytes inp;
    secret_access_count inp; policy_denials inp; privilege_escalation_attempts inp;
    new_external_destination inp; destructive_action_count inp; agent_message_fanout inp;
    bypass_attempts inp ].

(** The features are bounded.  Whatever the action, the policy result and the counters
    are, and whatever [log10] computes, the extractor returns one feature for each name,
    every one a number between 0 and 1; it fails only with the OverflowError of a counter
    too large for any double. *)
Theorem features_bounded `{FloatMath} (inp : JudgeInput) :
  match extract inp with
  | Ok v => length v = N_FEATURES ∧ Forall (λ f, in01 f = true) v
  | Err x => x = PyExc "OverflowError" "int too large to convert to float" ∧
             ∃ k s, k ∈ counters inp ∧ of_int k = S754_infinity s
  end.
Proof.
  assert (Hf : ∀ n r, feature_of n r → (∀ k, n = Some k → k ∈ counters inp) →
    match r with
    | Ok f => in01 f = true
    | Err x => x = PyExc "OverflowError" "int too large to convert to float" ∧
               ∃ k s, k ∈ counters inp ∧ of_int k = S754_infinity s end).
  { intros n [f|x] Hr Hn; [done|]. destruct Hr as [-> (k & s & Hk & Hs)]. split; [done|].
    exists k, s. split; [by apply Hn|done]. }
  unfold extract. cbv zeta.
  eapply (collect_spec (λ f, in01 f = true) (λ x, x = _ ∧ ∃ k s, k ∈ counters inp ∧ of_int k = S754_infinity s)).
  repeat (constructor; [first
    [ apply in01_flag | apply in01_level
    | eapply Hf; [apply sat_feature|intros ? [= <-]; unfold counters; set_solver]
    | eapply Hf; [apply log_sat_feature|intros ? [= <-]; unfold counters; set_solver] ]|]).
  constructor.
Qed.

(** * Verdicts *)

(** The order of three classes. *)
Lemma order_of_three p0 p1 p2 :
  order_of [p0; p1; p2] =
    if flt p1 p2 then
      (if flt p0 p2 then 2 :: (if flt p0 p1 then [1; 0] else [0; 1]) else [0; 2; 1])
    else (if flt p0 p1 then 1 :: (if flt p0 p2 then [2; 0] else [0; 2]) else [0; 1; 2]).
Proof.
  unfold order_of, sort_rev. simpl.
  destruct (flt p1 p2) eqn:H12; simpl; destruct (flt p0 p2) eqn:H02, (flt p0 p1) eqn:H01; simpl;
    by rewrite ?H12, ?H02, ?H01.
Qed.

Section verdicts.
Context `{Hashlib, Rfc8785, FloatMath, OnnxRuntime, JudgeManifestSchema}.

Lemma judge_evaluate_ok j inp r :
  judge_evaluate j inp = Ok r ↔
  ∃ features ls probs top second rest v h,
    extract inp = Ok features ∧ logits j features = Ok ls ∧ softmax ls = Ok probs ∧
    order_of probs = top :: second :: rest ∧ feature_extractor_hash = Ok h ∧
    (let margin := fsub (default fzero (probs !! top)) (default fzero (probs !! second)) in
     verdict_at (if flt margin (jm_margin (sj_manifest j)) then Nat.min top second else top) = Ok v ∧
     r = mkJudgeResult v ((λ p, fround p 6) <$> probs) (fround margin 6) features h
           (jm_model_hash (sj_manifest j))).
Proof.
  unfold judge_evaluate. rewrite rbind_ok. split.
  - intros (features & Hf & Hr). apply rbind_ok in Hr as (ls & Hl & Hr). apply rbind_ok in Hr as (probs & Hp & Hr).
    destruct (order_of probs) as [|top [|second rest]] eqn:Ho; [done..|].
    apply rbind_ok in Hr as (v & Hv & Hr). apply rbind_ok in Hr as (h & Hh & [= <-]).
    exists features, ls, probs, top, second, rest, v, h. split_and!; try done. by destruct (flt _ _).
  - intros (features & ls & probs & top & second & rest & v & h & Hf & Hl & Hp & Ho & Hh & Hv & ->).
    exists features. split; [done|]. rewrite Hl. simpl. rewrite Hp. simpl. rewrite Ho.
    apply rbind_ok. exists v. split; [by destruct (flt _ _)|]. by rewrite Hh.
Qed.

(** What the manifest pins: the extractor of this code and the bytes of the model. *)
Definition judge_pinned (m : JudgeManifest) (model : string) : Prop :=
  jm_feature_extractor_version m = FEATURE_VERSION ∧ jm_feature_names m = FEATURE_NAMES ∧
  feature_extractor_hash = Ok (jm_feature_extractor_hash m) ∧ jm_n_features m = Z.of_nat N_FEATURES ∧
  jm_model_hash m = "sha256:" +:+ hex (sha256 model).

Lemma judge_verify_iff m f dir :
  judge_verify_against_runtime m f dir = Ok tt ↔
  ∃ model, f !! path_div dir (onnx_file m) = Some model ∧ judge_pinned m model.
Proof.
  unfold judge_verify_against_runtime, judge_pinned, file_sha256, read_bytes, err.
  case_decide; [split; [done|naive_solver]|]. case_decide; [split; [done|naive_solver]|].
  destruct feature_extractor_hash as [h|x]; simpl; [|naive_solver].
  case_decide; [split; [done|naive_solver]|]. case_decide; [split; [done|naive_solver]|].
  destruct (f !! path_div dir (onnx_file m)) as [model|]; simpl; [|naive_solver].
  case_decide; naive_solver.
Qed.

(** A judge is constructed exactly from a manifest that pins the extractor and the model
    that are there. *)
Lemma new_judge_iff f dir name j :
  new_judge f dir name = Ok j ↔
  ∃ text, f !! path_div dir name = Some text ∧ parse_judge_manifest text = Some (sj_manifest j) ∧
    f !! path_div dir (onnx_file (sj_manifest j)) = Some (sj_model j) ∧
    judge_pinned (sj_manifest j) (sj_model j) ∧ onnx_loads (sj_model j) = true.
Proof.
  unfold new_judge. destruct (f !! path_div dir name) as [text|]; [|naive_solver].
  destruct (parse_judge_manifest text) as [m|] eqn:Hm; [|naive_solver]. split.
  - intros (u & Hv & Hj)%rbind_ok. destruct u. apply judge_verify_iff in Hv as (model & Hmodel & Hpin).
    unfold read_bytes in Hj. rewrite Hmodel in Hj. simpl in Hj. destruct (onnx_loads model) eqn:Ho; [|done].
    injection Hj as <-. simpl. by exists text.
  - intros (text' & [= <-] & Hm' & Hmodel & Hpin & Ho). rewrite Hm in Hm'. injection Hm' as ->.
    apply rbind_ok. exists tt. split; [apply judge_verify_iff; by eexists|].
    unfold read_bytes. rewrite Hmodel. simpl. rewrite Ho. by destruct j.
Qed.

(** C33: a doubt is never SAFE.  Of the three class probabilities of a judge that could be
    constructed, the verdict is SAFE exactly if that of SAFE is strictly above both others and
    the lead over the runner-up is not under the margin of the manifest; in particular never
    with a NaN among them.  The result names the extractor and the model it comes from: the
    hash it carries is that of the bytes the logits were computed with. *)
Theorem judge_safe_iff (f : Files) (dir name : string) (j : SafetyJudge) (inp : JudgeInput)
    (r : JudgeResult) (features ls : list spec_float) (p0 p1 p2 : spec_float)
  (Hj : new_judge f dir name = Ok j)
  (Hf : extract inp = Ok features) (Hl : logits j features = Ok ls)
  (Hp : softmax ls = Ok [p0; p1; p2]) (Hr : judge_evaluate j inp = Ok r) :
  (jr_verdict r = SAFE ↔
     flt p0 p2 = true ∧ flt p1 p2 = true ∧
     flt (fsub p2 (if flt p0 p1 then p1 else p0)) (jm_margin (sj_manifest j)) = false) ∧
  (jr_verdict r = SAFE → p0 ≠ S754_nan ∧ p1 ≠ S754_nan ∧ p2 ≠ S754_nan) ∧
  jr_features r = features ∧ jr_model_hash r = "sha256:" +:+ hex (sha256 (sj_model j)) ∧
  jr_feature_extractor_hash r = jm_feature_extractor_hash (sj_manifest j).
Proof.
  apply new_judge_iff in Hj as (_ & _ & _ & _ & (_ & _ & Hfeh & _ & Hmh) & _).
  apply judge_evaluate_ok in Hr as (fs & l & probs & top & second & rest & v & h & Hf' & Hl' & Hp' & Ho & Hh & Hv & ->).
  rewrite Hf in Hf'. injection Hf' as <-. rewrite Hl in Hl'. injection Hl' as <-.
  rewrite Hp in Hp'. injection Hp' as <-. rewrite order_of_three in Ho.
  rewrite Hfeh in Hh. injection Hh as <-.
  assert (Hsafe : v = SAFE ↔ flt p0 p2 = true ∧ flt p1 p2 = true ∧
    flt (fsub p2 (if flt p0 p1 then p1 else p0)) (jm_margin (sj_manifest j)) = false).
  { destruct (flt p1 p2), (flt p0 p2), (flt p0 p1); injection Ho as <- <- _;
      cbn [lookup list_lookup default] in Hv; destruct (flt (fsub _ _) _);
      injection Hv as <-; naive_solver. }
  split_and!; [done| |done|done|done]. cbn [jr_verdict]. intros Hs. apply Hsafe in Hs as (Ha & Hb & _).
  apply flt_not_nan in Ha, Hb. naive_solver.
Qed.
End verdicts.

(** * Witness: three models, told apart by their bytes *)

Import ShortInstances.

Definition table_math : FloatMath := {|
  log10 x := x;
  exp x := match x with S754_nan => S754_nan | S754_zero _ => fone | _ => of_ratio 1 10 false end;
  fsum l := foldl fadd fzero l
|}.
Definition table_onnx : OnnxRuntime := {|
  onnx_loads b := bool_decide (b ∈ ["safe"; "close"; "broken"]);
  onnx_run b fs :=
    if bool_decide (b = "safe") then Some [fzero; fzero; fone]
    else if bool_decide (b = "close") then Some [fone; fzero; fone] else Some [fzero; S754_nan; fone]
|}.
Definition ex_feature_hash : string := Eval vm_compute in
  match feature_extractor_hash with Ok h => h | Err _ => "" end.
Definition ex_manifest (model : string) : JudgeManifest :=
  mkJudgeManifest 1 1 "judge.onnx" 17 ("sha256:" +:+ hex (sha256 model)) 1 ex_feature_hash 25 FEATURE_NAMES
    ["UNSAFE"; "REVIEW"; "SAFE"] (of_ratio 15 100 false).
Definition table_schema : JudgeManifestSchema := {| parse_judge_manifest text := Some (ex_manifest text) |}.
#[local] Existing Instances table_math table_onnx table_schema.

Definition ex_model_files (model pinned : string) : Files :=
  {["/judge/manifest.json" := pinned; "/judge/judge.onnx" := model]}.
Definition ex_judge_input : JudgeInput :=
  mkJudgeInput ex_action (mkPolicyDecision true "ok" 0 false false false false) NORMAL false true true
    3 0 0 1000 0 0 0 0 0 0 0.
Definition ex_verdict (model pinned : string) : res JudgeVerdict :=
  let? j := new_judge (ex_model_files model pinned) "/judge" "manifest.json" in
  let? r := judge_evaluate j ex_judge_input in Ok (jr_verdict r).

(** A clear lead, a tie, a NaN, and a model that is not the pinned one. *)
Example ex_verdicts :
  ex_verdict "safe" "safe" = Ok SAFE ∧ ex_verdict "close" "close" = Ok UNSAFE ∧
  ex_verdict "broken" "broken" = Ok UNSAFE ∧
  res_code (ex_verdict "safe" "close") = Some JUDGE_FAILED.
Proof. split_and!; vm_compute; reflexivity. Qed.

Definition ex_judge : SafetyJudge := mkJudge (ex_manifest "safe") "safe".
Definition ex_features : list spec_float := Eval vm_compute in
  match extract ex_judge_input with Ok l => l | Err _ => [] end.
Definition ex_probs : list spec_float := Eval vm_compute in
  match softmax [fzero; fzero; fone] with Ok l => l | Err _ => [] end.

(** C33 at the clear lead. *)
Lemma judge_safe_iff_witness :
  ∃ r, judge_evaluate ex_judge ex_judge_input = Ok r ∧ jr_verdict r = SAFE ∧ jr_features r = ex_features.
Proof.
  destruct (judge_evaluate ex_judge ex_judge_input) as [r|x] eqn:Hr; [|vm_compute in Hr; discriminate Hr].
  assert (Hj : new_judge (ex_model_files "safe" "safe") "/judge" "manifest.json" = Ok ex_judge)
    by (vm_compute; reflexivity).
  assert (Hf : extract ex_judge_input = Ok ex_features) by (vm_compute; reflexivity).
  assert (Hl : logits ex_judge ex_features = Ok [fzero; fzero; fone]) by (vm_compute; reflexivity).
  assert (Hp : softmax [fzero; fzero; fone] = Ok [nth 0 ex_probs fzero; nth 1 ex_probs fzero; nth 2 ex_probs fzero])
    by (vm_compute; reflexivity).
  destruct (judge_safe_iff _ _ _ _ _ _ _ _ _ _ _ Hj Hf Hl Hp Hr) as (Hsafe & _ & Hfs & _).
  exists r. split; [reflexivity|]. split; [|exact Hfs].
  apply Hsafe. split; [vm_compute; reflexivity|]. split; vm_compute; reflexivity.
Defined.

(** A counter no double can hold leaves the extractor as an OverflowError, not as
    JUDGE_FAILED. *)
Example overflow_escapes :
  extract (mkJudgeInput ex_action (mkPolicyDecision true "ok" 0 false false false false) NORMAL false true true
    (2 ^ 1024) 0 0 0 0 0 0 0 0 0 0) = Err (PyExc "OverflowError" "int too large to convert to float").
Proof. vm_compute. reflexivity. Qed.
