(* ===== verification/Ezkl.v ===== *)
(** Proofs of the judge's computation ([cvztte/ezkl]): the manifest that pins the artifacts,
    the prover, and the verifier with its binding to the features the gateway derived.

    The [ezkl] package is an interface: what it proves and verifies over the contents of the
    files it is given, and its encoding of floats as field elements. *)

From S2P Require Export Judge.
From S2P Require Import PyJson CACBroker Concrete.

(** Whether [import ezkl] succeeds in the installation. *)
Class EzklModule := { ezkl_present : bool }.
Class Ezkl := {
  (** [gen_witness] and [prove] of an input document with the compiled circuit, the keys and
      the SRS: the proof document, or an exception. *)
  ez_prove : ∀ input compiled vk pk srs : option string, option json;
  (** [verify] of a proof with the settings, the verifying key and the SRS. *)
  ez_verify : ∀ proof settings vk srs : option string, option bool;
  float_to_felt : spec_float → Z → string;
  felt_to_float : string → Z → option spec_float
}.

(** [EZKLManifest] *)
Record EZKLManifest : Type := mkEzklManifest {
  em_manifest_version : Z;
  ezkl_version : string;
  em_onnx_opset : Z;
  em_model_hash : string;
  em_feature_extractor_version : Z;
  em_feature_extractor_hash : string;
  em_n_features : Z;
  em_feature_names : list string;
  em_decision_encoding : list string;
  input_scale : Z;
  param_scale : Z;
  output_scale : Z;
  logrows : Z;
  input_visibility : string;
  output_visibility : string;
  param_visibility : string;
  settings_file : string;
  compiled_file : string;
  srs_file : string;
  pk_file : string;
  vk_file : string;
  settings_hash : string;
  compiled_hash : string;
  srs_hash : string;
  pk_hash : string;
  vk_hash : string
}.
(** [EZKLManifest.model_validate_json] *)
Class EZKLManifestSchema := { parse_ezkl_manifest : string → option EZKLManifest }.

(** [EZKLProof] *)
Record EZKLProof : Set := mkEzklProof {
  proof_json : string;
  public_instances : list string;
  input_felts : list string;
  output_felts : list string
}.
(** [EZKLVerification] *)
Record EZKLVerification : Type := mkEzklVerification {
  ev_verified : bool;
  ev_verdict : JudgeVerdict;
  ev_logits : list spec_float;
  ev_is_safe : bool
}.

(** [json.dumps(v)], the members of objects in their own order. *)
Fixpoint dumps_in_order `{FloatRepr} (v : json) : string :=
  match v with
  | JArr l => "[" +:+ String.concat ", " (dumps_in_order <$> l) +:+ "]"
  | JObj kvs =>
      "{" +:+ String.concat ", " ((λ kv, dumps_str kv.1 +:+ ": " +:+ dumps_in_order kv.2) <$> kvs) +:+ "}"
  | v => json_dumps v
  end.

Section ezkl.
Context `{Hashlib, Rfc8785, FloatRepr, EZKLManifestSchema, EzklModule, Ezkl}.

(** [EZKLManifest.manifest_hash], of [model_dump(mode="json")] *)
Definition ezkl_manifest_json (m : EZKLManifest) : json :=
  JObj [ ("manifest_version", JInt (em_manifest_version m)); ("ezkl_version", JStr (ezkl_version m));
         ("onnx_opset", JInt (em_onnx_opset m)); ("model_hash", JStr (em_model_hash m));
         ("feature_extractor_version", JInt (em_feature_extractor_version m));
         ("feature_extractor_hash", JStr (em_feature_extractor_hash m));
         ("n_features", JInt (em_n_features m)); ("feature_names", JArr (JStr <$> em_feature_names m));
         ("decision_encoding", JArr (JStr <$> em_decision_encoding m));
         ("input_scale", JInt (input_scale m)); ("param_scale", JInt (param_scale m));
         ("output_scale", JInt (output_scale m)); ("logrows", JInt (logrows m));
         ("input_visibility", JStr (input_visibility m)); ("output_visibility", JStr (output_visibility m));
         ("param_visibility", JStr (param_visibility m)); ("settings_file", JStr (settings_file m));
         ("compiled_file", JStr (compiled_file m)); ("srs_file", JStr (srs_file m));
         ("pk_file", JStr (pk_file m)); ("vk_file", JStr (vk_file m));
         ("settings_hash", JStr (settings_hash m)); ("compiled_hash", JStr (compiled_hash m));
         ("srs_hash", JStr (srs_hash m)); ("pk_hash", JStr (pk_hash m)); ("vk_hash", JStr (vk_hash m)) ].
Definition ezkl_manifest_hash (m : EZKLManifest) : res string := commit D_CIRCUIT (ezkl_manifest_json m).

(** [EZKLManifest.load] *)
Definition ezkl_manifest_load (f : Files) (path : string) : res EZKLManifest :=
  match f !! path with
  | None => err EZKL_ARTIFACT_UNAPPROVED "ezkl manifest missing"
  | Some text => match parse_ezkl_manifest text with
                 | Some m => Ok m | None => Err (PyExc "ValidationError" "EZKLManifest") end
  end.

(** [EZKLManifest._check_feature_identity] *)
Definition check_feature_identity (m : EZKLManifest) : res unit :=
  if decide (em_feature_extractor_version m ≠ FEATURE_VERSION) then
    err EZKL_ARTIFACT_UNAPPROVED "feature extractor version drift"
  else if decide (em_feature_names m ≠ FEATURE_NAMES) then
    err EZKL_ARTIFACT_UNAPPROVED "feature name/order drift"
  else
    let? h := feature_extractor_hash in
    if decide (em_feature_extractor_hash m ≠ h) then
      err EZKL_ARTIFACT_UNAPPROVED "feature extractor hash drift"
    else if decide (em_n_features m ≠ Z.of_nat N_FEATURES) then
      err EZKL_ARTIFACT_UNAPPROVED "feature count drift"
    else Ok tt.

(** [EZKLManifest._check_file] *)
Definition check_file (f : Files) (dir name pinned : string) : res unit :=
  let path := path_div dir name in
  if decide (f !! path = None) then err EZKL_ARTIFACT_UNAPPROVED ("artifact missing: " +:+ name)
  else
    let? actual := file_sha256 f path in
    if decide (actual ≠ pinned) then err EZKL_ARTIFACT_UNAPPROVED ("artifact hash drift: " +:+ name)
    else Ok tt.

(** [EZKLManifest.verify_against_runtime] *)
Definition ezkl_verify_against_runtime (m : EZKLManifest) (f : Files) (dir : string) (require_pk : bool)
    : res unit :=
  let? _ := check_feature_identity m in
  let? _ := check_file f dir (settings_file m) (settings_hash m) in
  let? _ := check_file f dir (compiled_file m) (compiled_hash m) in
  let? _ := check_file f dir (srs_file m) (srs_hash m) in
  let? _ := check_file f dir (vk_file m) (vk_hash m) in
  if require_pk then check_file f dir (pk_file m) (pk_hash m) else Ok tt.

(** [_ezkl] *)
Definition import_ezkl : res unit :=
  if ezkl_present then Ok tt else err EZKL_PROOF_INVALID "ezkl unavailable".

(** A prover or a verifier: its directory and its manifest. *)
Record EzklParty : Type := mkParty { ep_dir : string; ep_manifest : EZKLManifest }.

(** [EZKLProver.__init__], [EZKLVerifier.__init__] *)
Definition new_party (require_pk : bool) (f : Files) (dir name : string) : res EzklParty :=
  let? m := ezkl_manifest_load f (path_div dir name) in
  let? _ := ezkl_verify_against_runtime m f dir require_pk in
  let? _ := import_ezkl in
  Ok (mkParty dir m).
Definition new_prover : Files → string → string → res EzklParty := new_party true.
Definition new_verifier : Files → string → string → res EzklParty := new_party false.

Definition artifact (p : EzklParty) (f : Files) (name : EZKLManifest → string) : option string :=
  f !! path_div (ep_dir p) (name (ep_manifest p)).

(** [list(proof["instances"][0])], of the field elements as strings; a document of another
    shape raises. *)
Definition instances_of (proof : json) : res (list string) :=
  match proof with
  | JObj kvs =>
      match dget "instances" kvs with
      | Some (JArr (JArr l :: _)) =>
          match mapM (λ v, match v with JStr s => Some s | _ => None end) l with
          | Some felts => Ok felts
          | None => Err (PyExc "ValidationError" "EZKLProof")
          end
      | Some _ => Err (PyExc "TypeError" "instances")
      | None => Err (PyExc "KeyError" "instances")
      end
  | _ => Err (PyExc "TypeError" "instances")
  end.

(** [EZKLProver.prove] *)
Definition prove (p : EzklParty) (f : Files) (features : list spec_float) : res EZKLProof :=
  if decide (length features ≠ N_FEATURES) then err EZKL_PUBLIC_INPUT_MISMATCH "wrong feature length"
  else
    let input := json_dumps (JObj [("input_data", JArr [JArr (JFloat <$> features)])]) in
    match ez_prove (Some input) (artifact p f compiled_file) (artifact p f vk_file)
            (artifact p f pk_file) (artifact p f srs_file) with
    | None => err EZKL_PROOF_INVALID "proof generation failed"
    | Some proof =>
        let? instances := instances_of proof in
        Ok (mkEzklProof (dumps_in_order proof) instances (take N_FEATURES instances)
              (drop N_FEATURES instances))
    end.

(** [EZKLVerifier.expected_input_felts], [EZKLVerifier.decode_logits] *)
Definition expected_input_felts (p : EzklParty) (features : list spec_float) : list string :=
  (λ x, float_to_felt x (input_scale (ep_manifest p))) <$> features.
Definition decode_logits (p : EzklParty) (felts : list string) : res (list spec_float) :=
  match mapM (λ x, felt_to_float x (output_scale (ep_manifest p))) felts with
  | Some l => Ok l
  | None => Err (PyExc "ValueError" "felt")
  end.

(** [max(range(len(l)), key=lambda i: l[i])]: the first of the largest *)
Definition arg_max (l : list spec_float) : res nat :=
  match l with
  | [] => Err (PyExc "ValueError" "max() arg is an empty sequence")
  | _ :: _ => Ok (foldl (λ best i, if flt (default fzero (l !! best)) (default fzero (l !! i)) then i else best)
                   0 (seq 1 (length l - 1)))
  end.

(** [EZKLVerifier.verify] *)
Definition ezkl_verify (p : EzklParty) (f : Files) (proof : EZKLProof) (expected_features : list spec_float)
    (expected_float_verdict : option JudgeVerdict) : res EZKLVerification :=
  if decide (length expected_features ≠ N_FEATURES) then
    err EZKL_PUBLIC_INPUT_MISMATCH "wrong feature length"
  else
    match ez_verify (Some (proof_json proof)) (artifact p f settings_file) (artifact p f vk_file)
            (artifact p f srs_file) with
    | None => err EZKL_PROOF_INVALID "proof verification error"
    | Some false => err EZKL_PROOF_INVALID "proof failed verification"
    | Some true =>
        if decide (input_felts proof ≠ expected_input_felts p expected_features) then
          err EZKL_PUBLIC_INPUT_MISMATCH "proof public inputs do not bind to gateway features"
        else
          let? logits := decode_logits p (output_felts proof) in
          let? verdict_idx := arg_max logits in
          let? verdict := verdict_at verdict_idx in
          if decide (expected_float_verdict ≠ None ∧ expected_float_verdict ≠ Some verdict) then
            err EZKL_QUANTIZATION_GUARD "quantized verdict disagrees with float judge (boundary flip)"
          else
            Ok (mkEzklVerification true verdict ((λ x, fround x 6) <$> logits)
                  (bool_decide (verdict = SAFE)))
    end.

(** The input document of a proof. *)
Definition input_text (features : list spec_float) : string :=
  json_dumps (JObj [("input_data", JArr [JArr (JFloat <$> features)])]).

(** * The pinned artifacts *)

Definition pinned_file (f : Files) (dir name pinned : string) : Prop :=
  ∃ b, f !! path_div dir name = Some b ∧ pinned = "sha256:" +:+ hex (sha256 b).
Lemma check_file_iff f dir name pinned :
  check_file f dir name pinned = Ok tt ↔ pinned_file f dir name pinned.
Proof.
  unfold check_file, pinned_file, file_sha256, read_bytes, err.
  destruct (f !! path_div dir name) as [b|]; simpl; [|naive_solver]. case_decide; naive_solver.
Qed.
Lemma check_feature_identity_iff m :
  check_feature_identity m = Ok tt ↔
  em_feature_extractor_version m = FEATURE_VERSION ∧ em_feature_names m = FEATURE_NAMES ∧
  feature_extractor_hash = Ok (em_feature_extractor_hash m) ∧ em_n_features m = Z.of_nat N_FEATURES.
Proof.
  unfold check_feature_identity, err.
  case_decide; [naive_solver|]. case_decide; [naive_solver|].
  destruct feature_extractor_hash as [h|x]; simpl; [|naive_solver].
  case_decide; [naive_solver|]. case_decide; naive_solver.
Qed.
Lemma import_ezkl_iff : import_ezkl = Ok tt ↔ ezkl_present = true.
Proof. unfold import_ezkl, err. by destruct ezkl_present. Qed.
(** A verifier starts exactly on the files its manifest pins, where the package is installed. *)
Lemma new_verifier_iff f dir name p :
  new_verifier f dir name = Ok p ↔
  ep_dir p = dir ∧ ezkl_manifest_load f (path_div dir name) = Ok (ep_manifest p) ∧
  let m := ep_manifest p in
  check_feature_identity m = Ok tt ∧
  pinned_file f dir (settings_file m) (settings_hash m) ∧ pinned_file f dir (compiled_file m) (compiled_hash m) ∧
  pinned_file f dir (srs_file m) (srs_hash m) ∧ pinned_file f dir (vk_file m) (vk_hash m) ∧ ezkl_present = true.
Proof.
  assert (Hunit : ∀ (r : res unit) {B} (k : unit → res B) b,
    rbind r k = Ok b ↔ r = Ok tt ∧ k tt = Ok b).
  { intros r B k b. rewrite rbind_ok. split; [by intros ([] & ?)|]. intros ?. by exists tt. }
  unfold new_verifier, new_party, ezkl_verify_against_runtime. rewrite rbind_ok. split.
  - intros (m & Hm & Hp). rewrite !Hunit, !check_file_iff, import_ezkl_iff in Hp.
    destruct Hp as ((? & ? & ? & ? & ? & _) & ? & [= <-]). done.
  - intros (<- & Hm & ? & ? & ? & ? & ? & ?). exists (ep_manifest p). split; [done|].
    rewrite !Hunit, !check_file_iff, import_ezkl_iff. split_and!; try done. by destruct p.
Qed.

(** * Verification *)

Lemma ezkl_verify_iff p f proof fs v r :
  ezkl_verify p f proof fs v = Ok r ↔
  length fs = N_FEATURES ∧
  ez_verify (Some (proof_json proof)) (artifact p f settings_file) (artifact p f vk_file)
    (artifact p f srs_file) = Some true ∧
  input_felts proof = expected_input_felts p fs ∧
  ∃ ls idx verdict, decode_logits p (output_felts proof) = Ok ls ∧ arg_max ls = Ok idx ∧
    verdict_at idx = Ok verdict ∧ (v = None ∨ v = Some verdict) ∧
    r = mkEzklVerification true verdict ((λ x, fround x 6) <$> ls) (bool_decide (verdict = SAFE)).
Proof.
  unfold ezkl_verify, err. case_decide as Hlen; [naive_solver|].
  destruct (ez_verify _ _ _ _) as [[]|]; [|naive_solver..].
  case_decide as Hin; [naive_solver|]. rewrite rbind_ok. split.
  - intros (ls & Hls & Hr). apply rbind_ok in Hr as (idx & Hi & Hr). apply rbind_ok in Hr as (verdict & Hv & Hr).
    case_decide as Hd; [done|]. injection Hr as <-. split_and!; try done.
    exists ls, idx, verdict. split_and!; try done.
    destruct v as [w|]; [right|by left]. destruct (decide (w = verdict)); [congruence|]. naive_solver.
  - intros (_ & _ & _ & ls & idx & verdict & Hls & Hi & Hv & Hg & ->). exists ls. split; [done|].
    rewrite Hi. simpl. rewrite Hv. simpl. by rewrite decide_False by naive_solver.
Qed.

(** What ezkl promises of the artifacts a prover and a verifier share: the instances of a
    proof are the field elements of its inputs followed by those of three outputs, and the
    proof verifies. *)
Definition ezkl_complete (p : EzklParty) (f : Files) : Prop :=
  ∀ features doc,
    length features = N_FEATURES →
    ez_prove (Some (input_text features)) (artifact p f compiled_file) (artifact p f vk_file)
      (artifact p f pk_file) (artifact p f srs_file) = Some doc →
    ez_verify (Some (dumps_in_order doc)) (artifact p f settings_file) (artifact p f vk_file)
      (artifact p f srs_file) = Some true ∧
    ∃ o0 o1 o2, instances_of doc = Ok (expected_input_felts p features ++ [o0; o1; o2]) ∧
      is_Some (mapM (λ x, felt_to_float x (output_scale (ep_manifest p))) [o0; o1; o2]).

Lemma arg_max_of_three l0 l1 l2 :
  arg_max [l0; l1; l2] =
    Ok (if flt l0 l1 then (if flt l1 l2 then 2 else 1) else (if flt l0 l2 then 2 else 0)).
Proof. unfold arg_max. simpl. destruct (flt l0 l1); simpl; by destruct (flt _ _). Qed.

(** The verdict of three logits: SAFE only if the last is above both others. *)
Definition three_verdict (l0 l1 l2 : spec_float) : JudgeVerdict :=
  if flt l0 l1 then (if flt l1 l2 then SAFE else REVIEW) else (if flt l0 l2 then SAFE else UNSAFE).
Lemma verdict_of_three l0 l1 l2 :
  ∃ i, arg_max [l0; l1; l2] = Ok i ∧ verdict_at i = Ok (three_verdict l0 l1 l2).
Proof.
  rewrite arg_max_of_three. eexists. split; [done|]. unfold three_verdict.
  destruct (flt l0 l1); by destruct (flt _ _).
Qed.

(** An honest proof is accepted.  Where ezkl proves and verifies as it promises, whatever
    the prover returns for a feature vector is accepted by the verifier for that vector, with
    the verdict of the logits it carries, and is refused for every feature vector whose field
    elements differ. *)
Theorem honest_proof_verifies (p : EzklParty) (f : Files) (features : list spec_float) (proof : EZKLProof)
  (Hc : ezkl_complete p f) (Hp : prove p f features = Ok proof) :
  (∃ l0 l1 l2, decode_logits p (output_felts proof) = Ok [l0; l1; l2] ∧
     ezkl_verify p f proof features None =
       Ok (mkEzklVerification true (three_verdict l0 l1 l2) ((λ x, fround x 6) <$> [l0; l1; l2])
             (bool_decide (three_verdict l0 l1 l2 = SAFE)))) ∧
  (∀ other v, length other = N_FEATURES → expected_input_felts p other ≠ expected_input_felts p features →
     ezkl_verify p f proof other v
     = err EZKL_PUBLIC_INPUT_MISMATCH "proof public inputs do not bind to gateway features").
Proof.
  unfold prove, err in Hp. case_decide as Hlen; [done|].
  destruct (ez_prove _ _ _ _ _) as [doc|] eqn:Hdoc; [|done].
  destruct (Hc features doc Hlen Hdoc) as (Hv & o0 & o1 & o2 & Hi & Hd).
  rewrite Hi in Hp. simpl in Hp. injection Hp as <-.
  assert (Hn : length (expected_input_felts p features) = N_FEATURES).
  { unfold expected_input_felts. by rewrite length_fmap. }
  assert (Hin : take N_FEATURES (expected_input_felts p features ++ [o0; o1; o2])
    = expected_input_felts p features) by (rewrite <-Hn; apply take_app_length).
  assert (Hout : drop N_FEATURES (expected_input_felts p features ++ [o0; o1; o2]) = [o0; o1; o2])
    by (rewrite <-Hn; apply drop_app_length).
  split.
  - destruct Hd as [ls Hls]. pose proof (length_mapM _ _ _ Hls) as Hl3.
    destruct ls as [|l0 [|l1 [|l2 [|? ?]]]]; try done.
    assert (Hdec : decode_logits p (drop N_FEATURES (expected_input_felts p features ++ [o0; o1; o2]))
      = Ok [l0; l1; l2]) by (unfold decode_logits; by rewrite Hout, Hls).
    exists l0, l1, l2. split; [exact Hdec|]. apply ezkl_verify_iff.
    destruct (verdict_of_three l0 l1 l2) as (i & Ha & Hvd).
    split_and!; [done|done|done|]. exists [l0; l1; l2], i, (three_verdict l0 l1 l2).
    split_and!; try done. by left.
  - intros other v Ho Hne. unfold ezkl_verify. cbn [proof_json input_felts]. rewrite decide_False by by intros [].
    rewrite Hv, Hin. by rewrite decide_True.
Qed.

(** What is not bound.  The verifier checks the proof document, and compares the field
    elements that stand next to it: once any proof has been accepted for any features, the
    same document is accepted for all features and with any outputs, if the record names them.
    The documentation says that metadata next to a proof is not binding. *)
Theorem felts_not_bound_to_proof (p : EzklParty) (f : Files) (proof : EZKLProof)
    (fs other : list spec_float) (v : option JudgeVerdict) (r : EZKLVerification)
    (o0 o1 o2 : string) (l0 l1 l2 : spec_float)
  (Hv : ezkl_verify p f proof fs v = Ok r) (Ho : length other = N_FEATURES)
  (Hl : decode_logits p [o0; o1; o2] = Ok [l0; l1; l2]) :
  ∃ r', ezkl_verify p f
          (mkEzklProof (proof_json proof) (public_instances proof) (expected_input_felts p other) [o0; o1; o2])
          other (Some (three_verdict l0 l1 l2)) = Ok r' ∧
        ev_verdict r' = three_verdict l0 l1 l2.
Proof.
  apply ezkl_verify_iff in Hv as (_ & Hz & _).
  exists (mkEzklVerification true (three_verdict l0 l1 l2) ((λ x, fround x 6) <$> [l0; l1; l2])
            (bool_decide (three_verdict l0 l1 l2 = SAFE))).
  split; [|done]. apply ezkl_verify_iff. destruct (verdict_of_three l0 l1 l2) as (i & Ha & Hvd).
  split_and!; [done|done|done|]. exists [l0; l1; l2], i, (three_verdict l0 l1 l2).
  split_and!; try done. by right.
Qed.
End ezkl.

(** * Witnesses: a prover that ignores the features *)

Import ShortInstances.

(** A prover of the model that says SAFE of everything. *)
Definition table_ezkl (felt : spec_float → string) : Ezkl := {|
  ez_prove i c v p s := match i with
    | Some _ => Some (JObj [("instances", JArr [JArr (JStr <$> repeat "0" 25 ++ ["0"; "0"; "1"])])])
    | None => None end;
  ez_verify pf st vk srs := Some (bool_decide (vk = Some "vk"));
  float_to_felt x scale := felt x;
  felt_to_float s scale := if bool_decide (s = "0") then Some fzero
    else if bool_decide (s = "1") then Some fone else None
|}.
Definition ex_hash_of (b : string) : string := "sha256:" +:+ hex (sha256 b).
Definition ex_ezkl_manifest : EZKLManifest :=
  mkEzklManifest 1 "22" 17 "sha256:m" 1 ex_feature_hash 25 FEATURE_NAMES ["UNSAFE"; "REVIEW"; "SAFE"]
    13 13 13 17 "public" "public" "fixed" "settings.json" "model.compiled" "kzg.srs" "pk.key" "vk.key"
    (ex_hash_of "settings") (ex_hash_of "compiled") (ex_hash_of "srs") (ex_hash_of "pk") (ex_hash_of "vk").
Definition ezkl_schema : EZKLManifestSchema := {| parse_ezkl_manifest _ := Some ex_ezkl_manifest |}.
Definition one_felt : Ezkl := table_ezkl (λ _, "0").
Definition ezkl_here : EzklModule := {| ezkl_present := true |}.
#[local] Existing Instances one_felt ezkl_schema no_floats ezkl_here.

Definition ex_artifacts : Files :=
  {["/ezkl/ezkl_manifest.json" := "{}"; "/ezkl/settings.json" := "settings"; "/ezkl/model.compiled" := "compiled";
    "/ezkl/kzg.srs" := "srs"; "/ezkl/pk.key" := "pk"; "/ezkl/vk.key" := "vk"]}.
Definition ex_party : EzklParty := mkParty "/ezkl" ex_ezkl_manifest.
Definition low_features : list spec_float := repeat fzero 25.

Example ex_verifier_starts :
  new_verifier ex_artifacts "/ezkl" "ezkl_manifest.json" = Ok ex_party ∧
  res_code (new_verifier (<["/ezkl/vk.key" := "other"]> ex_artifacts) "/ezkl" "ezkl_manifest.json")
    = Some EZKL_ARTIFACT_UNAPPROVED ∧
  is_ok (new_verifier (delete "/ezkl/pk.key" ex_artifacts) "/ezkl" "ezkl_manifest.json") = true ∧
  is_ok (new_prover (delete "/ezkl/pk.key" ex_artifacts) "/ezkl" "ezkl_manifest.json") = false ∧
  res_code (new_prover (H3 := {| ezkl_present := false |}) ex_artifacts "/ezkl" "ezkl_manifest.json")
    = Some EZKL_PROOF_INVALID.
Proof. split_and!; vm_compute; reflexivity. Qed.

Lemma table_complete : ezkl_complete ex_party ex_artifacts.
Proof.
  intros features doc Hl Hd. cbn [ez_prove one_felt table_ezkl] in Hd. injection Hd as <-. split; [vm_compute; reflexivity|].
  exists "0", "0", "1". split; [|by eexists]. unfold expected_input_felts. cbn [float_to_felt one_felt table_ezkl].
  assert (Hc : (λ _ : spec_float, "0") <$> features = repeat "0" 25).
  { unfold N_FEATURES in Hl. simpl in Hl. clear -Hl.
    do 25 (destruct features as [|? features]; [done|]). by destruct features. }
  rewrite Hc. vm_compute. reflexivity.
Qed.

(** At the features of no risk. *)
Lemma honest_proof_verifies_witness :
  ∃ proof, prove ex_party ex_artifacts low_features = Ok proof ∧
    is_ok (ezkl_verify ex_party ex_artifacts proof low_features None) = true.
Proof.
  destruct (prove ex_party ex_artifacts low_features) as [proof|x] eqn:Hp; [|vm_compute in Hp; discriminate Hp].
  destruct (honest_proof_verifies ex_party ex_artifacts low_features proof table_complete Hp)
    as [(l0 & l1 & l2 & _ & Hv) _].
  exists proof. split; [reflexivity|]. rewrite Hv. reflexivity.
Defined.

(** At a proof for no risk, turned into one of SAFE for every risk at once: the two
    vectors have different field elements. *)
Definition two_felts : Ezkl := table_ezkl (λ x, match x with S754_zero _ => "0" | _ => "1" end).
Definition high_features : list spec_float := repeat fone 25.
Lemma felts_not_bound_to_proof_witness :
  expected_input_felts (H4 := two_felts) ex_party low_features
    ≠ expected_input_felts (H4 := two_felts) ex_party high_features ∧
  ∃ r, ezkl_verify (H4 := two_felts) ex_party ex_artifacts
         (mkEzklProof "a proof for no risk" [] (expected_input_felts (H4 := two_felts) ex_party high_features) ["0"; "0"; "1"])
         high_features (Some SAFE) = Ok r ∧ ev_verdict r = SAFE.
Proof.
  split; [vm_compute; discriminate|].
  destruct (ezkl_verify (H4 := two_felts) ex_party ex_artifacts
    (mkEzklProof "a proof for no risk" [] (repeat "0" 25) ["1"; "0"; "0"]) low_features None) as [r|x] eqn:Hv;
    [|vm_compute in Hv; discriminate Hv].
  exact (felts_not_bound_to_proof (H4 := two_felts) ex_party ex_artifacts _ low_features high_features None r
    "0" "0" "1" fzero fzero fone Hv eq_refl eq_refl).
Defined.
