(* ===== verification/ZkAuthz.v ===== *)
(** Zero-knowledge authorization ([cvztte/zkauthz]): the bridge from SHA-256 commitments to
    elements of the BN254 scalar field, the registry that pins a verification key, and the
    client of the zk-authz service, which is an interface. *)

From S2P Require Export Canonical StrictJson.
From S2P Require Import JsonRoundTrip CACBroker Concrete.

(** * The bridge ([zkauthz/bridge.py]) *)

Definition CAP_DOMAIN : string := "cvztte.cap.v3".
(** The order of the scalar field of BN254. *)
Definition BN254_r : Z :=
  21888242871839275222246405745257275088548364400416034343698204186575808495617.

(** [int.from_bytes(b, "big")] *)
Definition int_be (b : string) : Z := foldl (λ v n, (256 * v + Z.of_N n)%Z) 0%Z (codes b).

(** [digest_to_limbs] *)
Definition digest_to_limbs (digest : string) : res (Z * Z) :=
  if decide (String.length digest ≠ 32) then err SCHEMA_INVALID "digest must be 32 bytes"
  else Ok (int_be (String.substring 0 16 digest), int_be (String.substring 16 (String.length digest) digest)).

(** [bytes.fromhex]: pairs of hexadecimal digits of either case, with ASCII whitespace
    between the pairs. *)
Definition hex_space (c : Ascii.ascii) : bool :=
  bool_decide (Ascii.N_of_ascii c ∈ [32; 9; 10; 11; 12; 13]%N).
Fixpoint from_hex (s : string) : option string :=
  match s with
  | EmptyString => Some ""
  | String a r =>
      if hex_space a then from_hex r
      else match r with
           | String b r =>
               x ← hex_value (Ascii.N_of_ascii a); y ← hex_value (Ascii.N_of_ascii b);
               String (Ascii.ascii_of_N (16 * x + y)) <$> from_hex r
           | EmptyString => None
           end
  end.

(** [sha256_to_field_pair] *)
Definition sha256_to_field_pair (commit : string) : res (Z * Z) :=
  let raw := if str_startswith commit "sha256:" then String.substring 7 (String.length commit) commit
             else commit in
  match from_hex raw with
  | None => err SCHEMA_INVALID "invalid sha256 hex"
  | Some digest => digest_to_limbs digest
  end.

(** [capability_field] *)
Definition capability_field `{Hashlib} (name : string) : Z :=
  let d := sha256 (CAP_DOMAIN +:+ NUL +:+ name) in int_be (String.substring 16 (String.length d) d).

(** ** Limbs *)

Lemma int_be_app a b : int_be (a +:+ b) = (int_be a * 256 ^ Z.of_nat (String.length b) + int_be b)%Z.
Proof.
  unfold int_be. rewrite codes_app, foldl_app. generalize (foldl (λ v n, (256 * v + Z.of_N n)%Z) 0%Z (codes a)).
  rewrite <-length_codes. induction (codes b) as [|n l IH] using rev_ind; intros v; simpl; [lia|].
  rewrite !foldl_app, length_app, Nat2Z.inj_add. simpl. rewrite IH.
  rewrite Z.pow_add_r by lia. change (256 ^ Z.of_nat 1)%Z with 256%Z. lia.
Qed.
Lemma int_be_bounds b : (0 ≤ int_be b < 256 ^ Z.of_nat (String.length b))%Z.
Proof.
  unfold int_be. rewrite <-length_codes. unfold codes. rewrite length_fmap.
  induction (String.list_ascii_of_string b) as [|c l IH] using rev_ind; [simpl; lia|].
  rewrite fmap_app, foldl_app, length_app, Nat2Z.inj_add, Z.pow_add_r by lia. simpl.
  change (256 ^ 1)%Z with 256%Z. pose proof (Ascii.N_ascii_bounded c). lia.
Qed.
Lemma int_be_inj a b : String.length a = String.length b → int_be a = int_be b → a = b.
Proof.
  revert b. induction a as [|x a IH]; intros [|y b]; simpl; try done. intros [= Hl] He.
  change (String x a) with (String x "" +:+ a) in He. change (String y b) with (String y "" +:+ b) in He.
  rewrite !int_be_app, Hl in He. pose proof (int_be_bounds a) as Ha. pose proof (int_be_bounds b) as Hb.
  rewrite Hl in Ha. unfold int_be at 1 3 in He. simpl in He.
  assert (Hxy : Z.of_N (Ascii.N_of_ascii x) = Z.of_N (Ascii.N_of_ascii y)) by nia.
  f_equal; [|apply IH; [done|nia]].
  rewrite <-(Ascii.ascii_N_embedding x), <-(Ascii.ascii_N_embedding y). f_equal. lia.
Qed.

Lemma substring_all m s : String.length s ≤ m → String.substring 0 m s = s.
Proof.
  revert m. induction s as [|c s IH]; intros [|m]; simpl; try done; [lia|]. intros. f_equal. apply IH. lia.
Qed.
(** Cutting a string in two. *)
Lemma substring_split n m s :
  n ≤ String.length s ≤ m →
  s = String.substring 0 n s +:+ String.substring n m s ∧
  String.length (String.substring 0 n s) = n ∧
  String.length (String.substring n m s) = String.length s - n.
Proof.
  revert s. induction n as [|n IH]; intros s [Hn Hm].
  - rewrite (substring_all m) by done. destruct s; simpl; split_and!; done || lia.
  - destruct s as [|c s]; simpl in *; [lia|]. destruct (IH s ltac:(lia)) as (He & H1 & H2).
    split_and!; [|simpl; lia|lia].
    change (String c s = String c (String.substring 0 n s +:+ String.substring n m s)). by rewrite <-He.
Qed.

Lemma digest_to_limbs_ok d :
  String.length d = 32 →
  ∃ hi lo, digest_to_limbs d = Ok (hi, lo) ∧ (0 ≤ hi < 2 ^ 128)%Z ∧ (0 ≤ lo < 2 ^ 128)%Z ∧
    int_be d = (hi * 2 ^ 128 + lo)%Z.
Proof.
  intros Hl. unfold digest_to_limbs. rewrite decide_False by by intros [].
  destruct (substring_split 16 (String.length d) d ltac:(lia)) as (He & H1 & H2).
  eexists _, _. split; [done|].
  pose proof (int_be_bounds (String.substring 0 16 d)) as Hb1. rewrite H1 in Hb1.
  pose proof (int_be_bounds (String.substring 16 (String.length d) d)) as Hb2. rewrite H2 in Hb2.
  replace (String.length d - 16) with 16 in Hb2, H2 by lia.
  split; [exact Hb1|]. split; [exact Hb2|]. rewrite He at 1. rewrite int_be_app, H2. done.
Qed.

(** ** Hexadecimal commitments *)

Lemma from_hex_byte c t : from_hex (hex_byte c +:+ t) = String c <$> from_hex t.
Proof. by destruct c as [[] [] [] [] [] [] [] []]. Qed.
Lemma from_hex_hex d : from_hex (hex d) = Some d.
Proof. induction d as [|c d IH]; [done|]. cbn [hex]. by rewrite from_hex_byte, IH. Qed.

(** Commitments as field elements.  The pair of a SHA-256 commitment is the pair of
    limbs of the digest, each below 2^128 and so below the order of the field, where no
    reduction touches it; the pair determines the digest; a bare digest in hexadecimal has
    the same pair; and everything else that is not 32 bytes is refused as SCHEMA_INVALID. *)
Theorem field_pair_exact (d : string) :
  (String.length d = 32 →
     ∃ hi lo, sha256_to_field_pair ("sha256:" +:+ hex d) = Ok (hi, lo) ∧
       sha256_to_field_pair (hex d) = Ok (hi, lo) ∧
       (0 ≤ hi < 2 ^ 128 ∧ 0 ≤ lo < 2 ^ 128 ∧ 2 ^ 128 < BN254_r ∧ int_be d = hi * 2 ^ 128 + lo)%Z ∧
       ∀ commit d', from_hex commit = Some d' → str_startswith commit "sha256:" = false →
         sha256_to_field_pair commit = Ok (hi, lo) → d' = d) ∧
  (∀ commit, (∀ d', from_hex commit = Some d' → String.length d' ≠ 32) →
     str_startswith commit "sha256:" = false → res_code (sha256_to_field_pair commit) = Some SCHEMA_INVALID).
Proof.
  split.
  - intros Hl. destruct (digest_to_limbs_ok d Hl) as (hi & lo & He & Hhi & Hlo & Hd). exists hi, lo.
    assert (Hbare : sha256_to_field_pair (hex d) = Ok (hi, lo)).
    { unfold sha256_to_field_pair. destruct (str_startswith (hex d) "sha256:") eqn:Hs; [|by rewrite from_hex_hex].
      exfalso. clear -Hs. unfold str_startswith in Hs.
      destruct d as [|c d]; [done|]. by destruct c as [[] [] [] [] [] [] [] []]. }
    destruct Hhi, Hlo. split_and!; try done.
    + unfold sha256_to_field_pair. assert (Hs : str_startswith ("sha256:" +:+ hex d) "sha256:" = true).
      { unfold str_startswith. simpl. by destruct (hex d). }
      rewrite Hs.
      assert (E : String.substring 7 (String.length ("sha256:" +:+ hex d)) ("sha256:" +:+ hex d) = hex d)
        by exact (substring_all (7 + String.length (hex d)) (hex d) ltac:(lia)).
      by rewrite E, from_hex_hex.
    + intros commit d' Hc Hs Hp. unfold sha256_to_field_pair in Hp. rewrite Hs, Hc in Hp.
      assert (Hl' : String.length d' = 32).
      { unfold digest_to_limbs, err in Hp. by case_decide as Hd'. }
      destruct (digest_to_limbs_ok d' Hl') as (hi' & lo' & He' & _ & _ & Hd'). rewrite He' in Hp.
      injection Hp as -> ->. apply int_be_inj; [lia|]. lia.
  - intros commit Hc Hs. unfold sha256_to_field_pair. rewrite Hs. destruct (from_hex commit) as [d'|]; [|done].
    unfold digest_to_limbs. rewrite decide_True by by apply Hc. done.
Qed.

(** At one digest, and for a commitment that is cut short. *)
Lemma field_pair_exact_witness :
  (∃ hi lo, sha256_to_field_pair "sha256:3030303030303030303030303030303030303030303030303030303030303031" = Ok (hi, lo)) ∧
  res_code (sha256_to_field_pair "3030") = Some SCHEMA_INVALID.
Proof.
  split.
  - pose proof (field_pair_exact "00000000000000000000000000000001") as [Hd _].
    destruct (Hd eq_refl) as (hi & lo & He & _). exists hi, lo. exact He.
  - apply (field_pair_exact "00000000000000000000000000000001").
    + intros d' Hd'. vm_compute in Hd'. injection Hd' as <-. discriminate.
    + reflexivity.
Defined.

(** * The registry ([zkauthz/registry.py]) *)

Definition EXPECTED_PROVING_SYSTEM : string := "groth16".
Definition EXPECTED_CURVE : string := "BN254".
Definition EXPECTED_SCHEMA_VERSION : Z := 3.

(** [v == s], [v == n] for a JSON value. *)
Definition is_str (v : json) (s : string) : bool := match v with JStr t => bool_decide (t = s) | _ => false end.
Definition is_int (v : json) (n : Z) : bool :=
  match v with
  | JInt z => bool_decide (z = n)
  | JBool b => bool_decide ((if b then 1 else 0)%Z = n)
  | JFloat f => SFeqb f (binary_normalize 53 1024 n 0 false)
  | _ => false
  end.

(** [ZKRegistry]: its directory and its manifest. *)
Record ZKRegistry : Type := mkZkRegistry { zr_dir : string; zr_manifest : odict string json }.
(** [ZKRegistry.verification_key_hash]: [str()] of what validation found to be a string. *)
Definition zr_verification_key_hash (r : ZKRegistry) : string :=
  match dget "verification_key_hash" (zr_manifest r) with Some (JStr s) => s | _ => "" end.

Section zkauthz.
Context `{Hashlib, FloatLiteral}.
(** The interpreter's limit on integers and the frames it has left. *)
Variables int_max frames : nat.

Definition gnark_unapproved {A} (msg : string) : res A := err GNARK_ARTIFACT_UNAPPROVED msg.

(** [ZKRegistry._validate] *)
Definition zk_validate (f : Files) (dir : string) (m : odict string json) : res unit :=
  let get k := default JNull (dget k m) in
  if negb (is_str (get "proving_system") EXPECTED_PROVING_SYSTEM) then
    gnark_unapproved "unexpected proving system"
  else if negb (is_str (get "curve") EXPECTED_CURVE) then gnark_unapproved "unexpected curve"
  else if negb (is_int (get "schema_version") EXPECTED_SCHEMA_VERSION) then
    gnark_unapproved "unexpected schema version"
  else
    match f !! path_div dir "vk.bin" with
    | None => gnark_unapproved "verification key missing"
    | Some vk =>
        if is_str (get "verification_key_hash") ("sha256:" +:+ hex (sha256 vk)) then Ok tt
        else gnark_unapproved "verification key hash mismatch"
    end.

(** [json.loads] of bytes read as UTF-8, its ValueErrors told apart from the rest. *)
Definition loads_text (text : option (list N)) : res (option json) :=
  match text with
  | None => Ok None
  | Some t =>
      match json_loads int_max plain_hooks frames t with
      | Ok v => Ok (Some v)
      | Err (PyExc cls m) =>
          if bool_decide (cls ∈ ["JSONDecodeError"; "ValueError"]) then Ok None else Err (PyExc cls m)
      | Err x => Err x
      end
  end.

(** [ZKRegistry.__init__] *)
Definition new_zk_registry (f : Files) (dir : string) : res ZKRegistry :=
  match f !! path_div dir "manifest.json" with
  | None => gnark_unapproved "manifest missing"
  | Some raw =>
      let? v := loads_text (utf8_decode raw) in
      match v with
      | None => gnark_unapproved "manifest unreadable"
      | Some (JObj m) => let? _ := zk_validate f dir m in Ok (mkZkRegistry dir m)
      | Some _ => Err (PyExc "AttributeError" "get")
      end
  end.

(** * The client ([zkauthz/client.py]) *)

(** [Assignment] *)
Record Assignment : Set := mkAssignment {
  agent_hi : Z; agent_lo : Z; credential_commitment : Z; required_capability : Z;
  required_clearance : Z; current_epoch : Z; action_hi : Z; action_lo : Z; policy_hi : Z;
  policy_lo : Z; scope_hi : Z; scope_lo : Z; circuit_ver : Z; session_binding : Z;
  as_capability : Z; as_clearance : Z; expiry_epoch : Z; salt : Z
}.
(** [Assignment._payload] *)
Definition assignment_payload (a : Assignment) (dir : string) : odict string json :=
  ((λ kv : string * Z, (kv.1, JStr (int_repr kv.2))) <$>
     [ ("agent_hi", agent_hi a); ("agent_lo", agent_lo a);
       ("credential_commitment", credential_commitment a);
       ("required_capability", required_capability a); ("required_clearance", required_clearance a);
       ("current_epoch", current_epoch a); ("action_hi", action_hi a); ("action_lo", action_lo a);
       ("policy_hi", policy_hi a); ("policy_lo", policy_lo a); ("scope_hi", scope_hi a);
       ("scope_lo", scope_lo a); ("circuit_ver", circuit_ver a); ("session_binding", session_binding a);
       ("capability", as_capability a); ("clearance", as_clearance a); ("expiry_epoch", expiry_epoch a);
       ("salt", salt a) ])
  ++ [("artifact_dir", JStr dir)].

(** What a run of the service ends in: no answer (it cannot be started, or times out), or an
    exit code and the last line of its output, as [decode], [strip] and [splitlines] give
    it; empty if there is none. *)
Inductive zk_answer : Set := ZkNoAnswer | ZkExited (code : Z) (last_line : string).
(** The service as the client sees it: a subcommand and a payload. *)
Variable zk_service : string → odict string json → zk_answer.

(** [_resolve_binary]: the path given, the environment's, the one on the PATH, or the first
    build in a directory above the module; [parents] are those directories, the nearest
    first, and [is_file] what the disk says. *)
Definition zk_build (dir : string) : string :=
  path_div (path_div (path_div (path_div dir "services") "zk-authz") "bin") "zk-authz".
Definition zk_resolve_binary (explicit env which : option string) (parents : list string) (is_file : string → bool)
    : res string :=
  let given o := match o with Some s => negb (bool_decide (s = "")) | None => false end in
  if given explicit then Ok (default "" explicit)
  else if given env then Ok (default "" env)
  else if given which then Ok (default "" which)
  else match list_find (λ p, is_file p = true) (zk_build <$> parents) with
       | Some (_, p) => Ok p
       | None => err SECURITY_DEPENDENCY_UNAVAILABLE "zk-authz binary not found"
       end.

(** A resolved binary was named or is a file that is there. *)
Lemma zk_resolve_binary_ok explicit env which parents is_file b :
  zk_resolve_binary explicit env which parents is_file = Ok b →
  explicit = Some b ∨ env = Some b ∨ which = Some b ∨ (is_file b = true ∧ b ∈ zk_build <$> parents).
Proof.
  unfold zk_resolve_binary. destruct explicit as [e|], env as [n|], which as [w|]; repeat case_bool_decide;
    simpl; try (intros [= <-]; by auto); destruct (list_find _ _) as [[i p]|] eqn:Hl; try done; intros [= <-];
    apply list_find_Some in Hl as (Hi & Hp & _); apply list_elem_of_lookup_2 in Hi; auto 6.
Qed.

(** ["error" in v] *)
Definition has_error (v : json) : res bool :=
  match v with
  | JObj kvs => Ok (bool_decide (dget "error" kvs ≠ None))
  | JArr l => Ok (existsb (λ v, is_str v "error") l)
  | JStr s => Ok (str_in "error" s)
  | _ => Err (PyExc "TypeError" "argument is not iterable")
  end.

(** [ZKAuthzClient._run] *)
Definition zk_run (subcommand : string) (payload : odict string json) : res json :=
  match zk_service subcommand payload with
  | ZkNoAnswer => err SECURITY_DEPENDENCY_UNAVAILABLE "zk-authz invocation failed"
  | ZkExited code last =>
      let? v := if bool_decide (last = "") then Ok (Some (JObj [])) else loads_text (Some (code_points last)) in
      match v with
      | None => err SECURITY_DEPENDENCY_UNAVAILABLE "zk-authz produced non-JSON output"
      | Some result =>
          let? failed := if decide (code ≠ 0)%Z then Ok true else has_error result in
          if failed then
            (* the detail of the error asks the result for its "error" *)
            let? _ := json_get "error" result in
            err SECURITY_DEPENDENCY_UNAVAILABLE "zk-authz reported an error"
          else Ok result
      end
  end.

(** [ZKAuthzClient.issue] *)
Definition zk_issue (payload : odict string Z) : res json :=
  zk_run "issue" ((λ kv, (kv.1, JStr (int_repr kv.2))) <$> payload).
(** [ZKAuthzClient.prove] *)
Definition zk_prove (r : ZKRegistry) (a : Assignment) : res (json * json) :=
  let? result := zk_run "prove" (assignment_payload a (zr_dir r)) in
  let? proof := json_item "proof" result in
  let? witness := json_item "public_witness" result in
  Ok (proof, witness).
Definition verify_payload (r : ZKRegistry) (proof witness : string) : odict string json :=
  [("artifact_dir", JStr (zr_dir r)); ("proof", JStr proof); ("public_witness", JStr witness)].
(** [ZKAuthzClient.verify] *)
Definition zk_verify (r : ZKRegistry) (proof witness : string) : res bool :=
  let? result := zk_run "verify" (verify_payload r proof witness) in
  let? reported := json_get "verification_key_hash" result in
  if negb (is_str reported (zr_verification_key_hash r)) then
    gnark_unapproved "verification key hash does not match registry pin"
  else
    match result with
    | JObj kvs => Ok (py_bool (default (JBool false) (dget "verified" kvs)))
    | _ => Err (PyExc "AttributeError" "get")
    end.
(** [ZKAuthzClient.authorize] *)
Definition zk_authorize (r : ZKRegistry) (proof witness : string) : res unit :=
  let? ok := zk_verify r proof witness in
  if ok then Ok tt else err GNARK_PROOF_INVALID "authorization proof did not verify".

(** * What is authorized *)

Lemma is_str_iff v s : is_str v s = true ↔ v = JStr s.
Proof. destruct v; simpl; rewrite ?bool_decide_eq_true; naive_solver. Qed.

(** A registry is loaded exactly from a manifest of the expected kind that pins the key file
    beside it. *)
Lemma new_zk_registry_pins f dir r :
  new_zk_registry f dir = Ok r →
  zr_dir r = dir ∧ ∃ vk, f !! path_div dir "vk.bin" = Some vk ∧
    zr_verification_key_hash r = "sha256:" +:+ hex (sha256 vk).
Proof.
  unfold new_zk_registry, gnark_unapproved, err. destruct (f !! path_div dir "manifest.json") as [raw|]; [|done].
  intros (v & _ & Hv)%rbind_ok. destruct v as [[| | | | | |m]|]; try done.
  apply rbind_ok in Hv as ([] & Hv & [= <-]). split; [done|]. unfold zk_validate, gnark_unapproved, err in Hv.
  do 3 (destruct (negb _); [done|]). destruct (f !! path_div dir "vk.bin") as [vk|]; [|done].
  exists vk. split; [done|]. destruct (is_str _ _) eqn:Hs; [|done]. apply is_str_iff in Hs.
  unfold zr_verification_key_hash. simpl. by destruct (dget "verification_key_hash" m) as [[]|]; simplify_eq/=.
Qed.

(** What the service says when it vouches for a proof. *)
Definition vouches (r : ZKRegistry) (answer : zk_answer) : Prop :=
  ∃ last kvs v, answer = ZkExited 0 last ∧ last ≠ "" ∧
    json_loads int_max plain_hooks frames (code_points last) = Ok (JObj kvs) ∧
    dget "error" kvs = None ∧
    dget "verification_key_hash" kvs = Some (JStr (zr_verification_key_hash r)) ∧
    dget "verified" kvs = Some v ∧ py_bool v = true.

Lemma loads_text_ok t v : loads_text (Some t) = Ok (Some v) ↔ json_loads int_max plain_hooks frames t = Ok v.
Proof.
  unfold loads_text. destruct (json_loads int_max plain_hooks frames t) as [w|[e|cls m]]; [naive_solver|done|].
  case_bool_decide; naive_solver.
Qed.

Lemma zk_run_object sub payload kvs :
  zk_run sub payload = Ok (JObj kvs) ↔
  ∃ last, zk_service sub payload = ZkExited 0 last ∧ dget "error" kvs = None ∧
    (last = "" ∧ kvs = [] ∨ last ≠ "" ∧ json_loads int_max plain_hooks frames (code_points last) = Ok (JObj kvs)).
Proof.
  unfold zk_run, err. destruct (zk_service sub payload) as [|code last]; [naive_solver|].
  assert (Hv : ∀ w, (if bool_decide (last = "") then Ok (Some (JObj [])) else loads_text (Some (code_points last)))
      = Ok (Some w) ↔ (last = "" ∧ w = JObj [] ∨ last ≠ "" ∧ json_loads int_max plain_hooks frames (code_points last) = Ok w)).
  { intros w. case_bool_decide as Hl; [naive_solver|]. rewrite loads_text_ok. naive_solver. }
  rewrite rbind_ok. split.
  - intros (ov & Hov & Hr). destruct ov as [w|]; [|done]. apply Hv in Hov.
    apply rbind_ok in Hr as (failed & Hf & Hr). destruct failed; [by destruct (json_get "error" w)|].
    injection Hr as ->. case_decide as Hc; [done|]. simpl in Hf. injection Hf as Hf.
    apply bool_decide_eq_false in Hf. apply dec_stable in Hf.
    exists last. split_and!; [f_equal; lia|done|]. naive_solver.
  - intros (last' & [= -> <-] & He & Hw). exists (Some (JObj kvs)). split; [apply Hv; naive_solver|].
    rewrite decide_False by lia. simpl. rewrite He. by rewrite bool_decide_false by naive_solver.
Qed.

(** C37: authorization.  With a registry loaded from an artifact directory, a proof is
    authorized exactly if the service, run on the pinned directory and on the caller's proof
    and witness, exits with success and reports, in an object without an error, the hash of the
    verifying key that was in the directory when the registry was loaded, and a true
    [verified]; a service that cannot be run or exits with a failure and an object authorizes
    nothing and is SECURITY_DEPENDENCY_UNAVAILABLE. *)
Theorem zk_authorize_iff (f : Files) (dir proof witness : string) (r : ZKRegistry)
  (Hr : new_zk_registry f dir = Ok r) :
  (zk_authorize r proof witness = Ok tt ↔ vouches r (zk_service "verify" (verify_payload r proof witness))) ∧
  (zk_service "verify" (verify_payload r proof witness) = ZkNoAnswer →
     res_code (zk_authorize r proof witness) = Some SECURITY_DEPENDENCY_UNAVAILABLE) ∧
  (∀ code last kvs, zk_service "verify" (verify_payload r proof witness) = ZkExited code last → code ≠ 0%Z →
     json_loads int_max plain_hooks frames (code_points last) = Ok (JObj kvs) →
     res_code (zk_authorize r proof witness) = Some SECURITY_DEPENDENCY_UNAVAILABLE) ∧
  (∃ vk, f !! path_div dir "vk.bin" = Some vk ∧
     zr_verification_key_hash r = "sha256:" +:+ hex (sha256 vk) ∧ zr_dir r = dir).
Proof.
  destruct (new_zk_registry_pins _ _ _ Hr) as (Hdir & vk & Hvk & Hpin). split_and!; [| | |by exists vk].
  - unfold zk_authorize, zk_verify, gnark_unapproved, err. split.
    + intros (ok & Hv & Hok)%rbind_ok. destruct ok; [|done]. apply rbind_ok in Hv as (res & Hrun & Hv).
      apply rbind_ok in Hv as (rep & Hrep & Hv). destruct (is_str rep _) eqn:Hs; [|done]. cbn [negb] in Hv.
      apply is_str_iff in Hs as ->. destruct res as [| | | | | |kvs]; try done.
      apply zk_run_object in Hrun as (last & Hsvc & He & Hw). simpl in Hrep. injection Hrep as Hrep.
      injection Hv as Hv. destruct (dget "verified" kvs) as [v|] eqn:Hver; [|done].
      destruct Hw as [[-> ->]|[Hne Hw]]; [done|]. exists last, kvs, v. split_and!; try done.
      by destruct (dget "verification_key_hash" kvs); simplify_eq/=.
    + intros (last & kvs & v & Hsvc & Hne & Hw & He & Hk & Hver & Hb).
      apply rbind_ok. exists true. split; [|done]. apply rbind_ok. exists (JObj kvs). split.
      { apply zk_run_object. exists last. split_and!; [done|done|by right]. }
      simpl. rewrite Hk. simpl. rewrite bool_decide_true by done. simpl. by rewrite Hver, <-Hb.
  - intros Hsvc. unfold zk_authorize, zk_verify, zk_run. by rewrite Hsvc.
  - intros code last kvs Hsvc Hc Hw. unfold zk_authorize, zk_verify, zk_run. rewrite Hsvc.
    case_bool_decide as Hl.
    + simpl. by rewrite decide_True by done.
    + apply loads_text_ok in Hw. rewrite Hw. simpl. by rewrite decide_True by done.
Qed.
End zkauthz.

(** * Witness: a service that verifies one proof *)

Import ShortInstances.
#[local] Existing Instance one_float.

Definition ex_zk_manifest : string :=
  json_dumps (H := no_floats) (JObj [("proving_system", JStr "groth16"); ("curve", JStr "BN254");
    ("schema_version", JInt 3); ("verification_key_hash", JStr ("sha256:" +:+ hex (sha256 "vk")))]).
Definition ex_zk_files : Files := {["/zk/manifest.json" := ex_zk_manifest; "/zk/vk.bin" := "vk"]}.
Definition ex_zk_service (sub : string) (payload : odict string json) : zk_answer :=
  let proof s := is_str (default JNull (dget "proof" payload)) s in
  if proof "good" then
    ZkExited 0 (json_dumps (H := no_floats) (JObj [("verified", JBool true);
      ("verification_key_hash", JStr ("sha256:" +:+ hex (sha256 "vk")))]))
  else if proof "odd" then ZkExited 0 "[]"
  else ZkExited 0 (json_dumps (H := no_floats) (JObj [("verified", JBool false);
      ("verification_key_hash", JStr ("sha256:" +:+ hex (sha256 "vk")))])).
Definition ex_zk_registry : ZKRegistry := Eval vm_compute in
  match new_zk_registry 4300 900 ex_zk_files "/zk" with Ok r => r | Err _ => mkZkRegistry "" [] end.

(** C37 at that proof and at another. *)
Lemma zk_authorize_iff_witness :
  zk_authorize 4300 900 ex_zk_service ex_zk_registry "good" "w" = Ok tt ∧
  ¬ vouches 4300 900 ex_zk_registry (ex_zk_service "verify" (verify_payload ex_zk_registry "bad" "w")).
Proof.
  assert (Hr : new_zk_registry 4300 900 ex_zk_files "/zk" = Ok ex_zk_registry) by (vm_compute; reflexivity).
  split.
  - apply (zk_authorize_iff 4300 900 ex_zk_service ex_zk_files "/zk" "good" "w" ex_zk_registry Hr).
    eexists _, _, _. split; [vm_compute; reflexivity|]. split; [discriminate|].
    split; [vm_compute; reflexivity|]. split; [reflexivity|]. split; [vm_compute; reflexivity|].
    split; reflexivity.
  - intros Hv. apply (zk_authorize_iff 4300 900 ex_zk_service ex_zk_files "/zk" "bad" "w" ex_zk_registry Hr) in Hv.
    vm_compute in Hv. discriminate Hv.
Defined.

(** Output that is not an object leaves the client as an exception of the interpreter, where
    the error for a failed dependency is documented. *)
Example odd_output_escapes :
  zk_authorize 4300 900 ex_zk_service ex_zk_registry "odd" "w" = Err (PyExc "AttributeError" "get").
Proof. vm_compute. reflexivity. Qed.

