(* ===== verification/Signer.v ===== *)
(** The ML-DSA signer over the OpenSSL command line
    ([cvztte/identity/openssl_signer.py]) and the disabled fallback of [provider.py].

    The host holds files with their permission bits; it records every process the signer
    starts with its arguments, its input and the files at that moment.  The [openssl]
    executable is an interface: what it may do to the files and what its signatures promise
    are named hypotheses. *)

From S2P Require Export Identity.
From S2P Require Import CACBroker.

#[export] Instance Algorithm_eq_dec : EqDecision Algorithm.
Proof. solve_decision. Defined.

(** A file and its permission bits; a finished process. *)
Record file : Set := mkFile { mode : Z; data : string }.
Notation FS := (gmap string file).
Record process : Set := mkProcess { returncode : Z; stdout : string }.
(** A process that was started. *)
Record process_call : Type := mkCall { c_argv : list string; c_stdin : option string; c_files : FS }.
(** The host: files, permission bits of directories, processes so far. *)
Record host : Type := mkHost { h_files : FS; h_dirs : gmap string Z; h_calls : list process_call }.
Definition set_h_files (f : FS) (s : host) : host := mkHost f (h_dirs s) (h_calls s).

(** The executable: what it draws, its arguments, its input and the files; [None] if it
    cannot be started. *)
Class OpenSSL := {
  openssl_run : string → list string → option string → FS → option (process * FS)
}.

(** * The calls of [os] and [pathlib] *)

Section os.
(** The process's file mode creation mask. *)
Variable umask : Z.
(** [mode] under the mask *)
Definition masked (mode : Z) : Z := Z.land mode (Z.lnot umask).

(** [path.is_file()] *)
Definition is_file (s : host) (path : string) : bool := bool_decide (h_files s !! path ≠ None).
(** [os.close(os.open(path, O_CREAT | O_WRONLY | O_EXCL, mode))] *)
Definition os_create_excl (path : string) (mode : Z) : M host unit := λ s,
  if is_file s path || bool_decide (h_dirs s !! path ≠ None) then (Err (PyExc "FileExistsError" path), s)
  else (Ok tt, set_h_files (<[path := mkFile (masked mode) ""]> (h_files s)) s).
(** [path.write_bytes(b)] *)
Definition write_bytes (path b : string) : M host unit := λ s,
  (Ok tt, set_h_files
     (<[path := mkFile (match h_files s !! path with Some f => mode f | None => masked 438 end) b]>
        (h_files s)) s).
(** [path.read_bytes()] *)
Definition read_file (path : string) : M host string := λ s,
  (match h_files s !! path with
   | Some f => Ok (data f) | None => Err (PyExc "FileNotFoundError" path) end, s).
(** [os.chmod(path, mode)] *)
Definition os_chmod (path : string) (m : Z) : M host unit := λ s,
  if decide (h_dirs s !! path ≠ None) then
    (Ok tt, mkHost (h_files s) (<[path := m]> (h_dirs s)) (h_calls s))
  else match h_files s !! path with
       | Some f => (Ok tt, set_h_files (<[path := mkFile m (data f)]> (h_files s)) s)
       | None => (Err (PyExc "FileNotFoundError" path), s)
       end.
(** [path.unlink(missing_ok=True)] *)
Definition unlink (path : string) : M host unit := λ s,
  (Ok tt, set_h_files (delete path (h_files s)) s).
(** [path.mkdir(parents=True, exist_ok=True)]; parents are not recorded. *)
Definition os_mkdir (path : string) : M host unit := λ s,
  if is_file s path then (Err (PyExc "FileExistsError" path), s)
  else (Ok tt, mkHost (h_files s)
                 (match h_dirs s !! path with
                  | Some _ => h_dirs s | None => <[path := masked 511]> (h_dirs s) end) (h_calls s)).

(** A path inside a directory. *)
Definition under (dir path : string) : bool := str_startswith path (dir +:+ "/").
(** [with tempfile.TemporaryDirectory() as tmp: m]: the directory goes whatever happens. *)
Definition with_tmp {A} (tmp : string) (m : M host A) : M host A := λ s,
  let '(r, s') := m s in
  (r, set_h_files (filter (λ kv, under tmp kv.1 = false) (h_files s')) s').
End os.

(** * The provider ([identity/openssl_signer.py]) *)

Section signer.
Context `{OpenSSL}.
Variable umask : Z.

(** [_resolve_openssl], of [CVZTTE_OPENSSL_HOME] and of what [shutil.which] finds *)
Definition resolve_openssl (home which : option string) (s : host) : res string :=
  let fallback := match which with
                  | Some found => Ok found
                  | None => err CRYPTO_PROVIDER_UNAVAILABLE "openssl binary not found"
                  end in
  match home with
  | Some h =>
      let candidate := path_div (path_div h "bin") "openssl" in
      if negb (bool_decide (h = "")) && is_file s candidate then Ok candidate else fallback
  | None => fallback
  end.

(** [OpenSSLMLDSAProvider]: its fields do not change. *)
Record OpenSSLMLDSAProvider : Set := mkSigner {
  algorithm : Algorithm;
  openssl_bin : string;
  keystore : string
}.
Implicit Types pr : OpenSSLMLDSAProvider.

(** [OpenSSLMLDSAProvider._run]; [e] is what the executable draws *)
Definition openssl_exec pr (e : string) (args : list string) (stdin : option string) : M host process :=
  λ s,
    let argv := openssl_bin pr :: args in
    let s1 := mkHost (h_files s) (h_dirs s) (h_calls s ++ [mkCall argv stdin (h_files s)]) in
    match openssl_run e argv stdin (h_files s) with
    | Some (p, f) => (Ok p, set_h_files f s1)
    | None => (err CRYPTO_PROVIDER_UNAVAILABLE "failed to invoke openssl", s1)
    end.

(** [OpenSSLMLDSAProvider._verify_algorithm_available] *)
Definition verify_algorithm_available pr (e : string) : M host unit :=
  let! proc := openssl_exec pr e ["list"; "-signature-algorithms"] None in
  if decide (returncode proc ≠ 0)%Z then
    raise CRYPTO_PROVIDER_UNAVAILABLE "openssl does not support listing signature algorithms"
  else if negb (str_in (Algorithm_value (algorithm pr)) (stdout proc)) then
    raise CRYPTO_PROVIDER_UNAVAILABLE "not offered by native OpenSSL provider"
  else cret tt.

(** [OpenSSLMLDSAProvider.__init__] *)
Definition new_signer (keystore_dir : string) (a : Algorithm) (bin : option string)
    (home which : option string) (e : string) : M host OpenSSLMLDSAProvider :=
  let! s := cget in
  let! bin := clift (match bin with
                     | Some b => if decide (b = "") then resolve_openssl home which s else Ok b
                     | None => resolve_openssl home which s
                     end) in
  let pr := mkSigner a bin keystore_dir in
  let! _ := os_mkdir umask keystore_dir in
  let! _ := os_chmod keystore_dir 448 in
  let! _ := verify_algorithm_available pr e in
  cret pr.

(** [OpenSSLMLDSAProvider._new_key_path], of the hexadecimal UUID it draws *)
Definition key_path pr (uuid : string) : string := path_div (keystore pr) (uuid +:+ ".priv.pem").
Definition new_key_path pr (uuid : string) : M host string :=
  let! _ := os_create_excl umask (key_path pr uuid) 384 in cret (key_path pr uuid).

(** [OpenSSLMLDSAProvider._derive_public_pem] *)
Definition derive_public_pem pr (e private_path : string) : M host string :=
  let! proc := openssl_exec pr e ["pkey"; "-in"; private_path; "-pubout"] None in
  if decide (returncode proc ≠ 0)%Z then raise CRYPTO_PROVIDER_UNAVAILABLE "failed to derive public key"
  else cret (stdout proc).

(** [OpenSSLMLDSAProvider.generate_key] *)
Definition signer_generate_key pr (uuid e : string) : M host (PrivateKeyHandle * PublicKey) :=
  let! path := new_key_path pr uuid in
  let! proc := openssl_exec pr e
                 ["genpkey"; "-algorithm"; Algorithm_value (algorithm pr); "-out"; path] None in
  if decide (returncode proc ≠ 0)%Z then
    let! _ := unlink path in raise CRYPTO_PROVIDER_UNAVAILABLE "ML-DSA key generation failed"
  else
    let! _ := os_chmod path 384 in
    let! pem := derive_public_pem pr e path in
    cret (mkHandle (algorithm pr) path, mkPublicKey (algorithm pr) pem).

(** [OpenSSLMLDSAProvider.import_private_key] *)
Definition import_private_key pr (uuid e private_pem : string) : M host PrivateKeyHandle :=
  let! path := new_key_path pr uuid in
  let! _ := write_bytes umask path private_pem in
  let! _ := os_chmod path 384 in
  let! proc := openssl_exec pr e ["pkey"; "-in"; path; "-noout"] None in
  if decide (returncode proc ≠ 0)%Z then
    let! _ := unlink path in
    raise MLDSA_INVALID "imported private key is not a valid key for this provider"
  else cret (mkHandle (algorithm pr) path).

(** [OpenSSLMLDSAProvider.import_public_key] *)
Definition import_public_key pr (e public_pem : string) : M host PublicKey :=
  let! proc := openssl_exec pr e ["pkey"; "-pubin"; "-pubout"] (Some public_pem) in
  if decide (returncode proc ≠ 0)%Z then raise MLDSA_INVALID "imported public key is not a valid SPKI"
  else cret (mkPublicKey (algorithm pr) (stdout proc)).

(** [OpenSSLMLDSAProvider.sign], of the temporary directory it is given *)
Definition signer_sign pr (tmp e : string) (handle : PrivateKeyHandle) (message : string) : M host string :=
  if decide (ph_algorithm handle ≠ algorithm pr) then
    raise MLDSA_INVALID "key/provider algorithm mismatch (downgrade forbidden)"
  else
    let! s := cget in
    if negb (is_file s (ph_path handle)) then raise KEY_UNKNOWN "private key not present"
    else
      with_tmp tmp
        (let msg_path := path_div tmp "msg.bin" in
         let sig_path := path_div tmp "sig.bin" in
         let! _ := write_bytes umask msg_path message in
         let! proc := openssl_exec pr e
           ["pkeyutl"; "-sign"; "-rawin"; "-inkey"; ph_path handle; "-in"; msg_path; "-out"; sig_path] None in
         let! s := cget in
         if bool_decide (returncode proc ≠ 0)%Z || negb (is_file s sig_path) then
           raise MLDSA_INVALID "signing failed"
         else read_file sig_path).

(** [OpenSSLMLDSAProvider.verify] *)
Definition signer_verify pr (tmp e : string) (public_key : PublicKey) (message signature : string)
    : M host bool :=
  with_tmp tmp
    (let pub_path := path_div tmp "pub.pem" in
     let msg_path := path_div tmp "msg.bin" in
     let sig_path := path_div tmp "sig.bin" in
     let! _ := write_bytes umask pub_path (pem public_key) in
     let! _ := write_bytes umask msg_path message in
     let! _ := write_bytes umask sig_path signature in
     let! proc := openssl_exec pr e
       ["pkeyutl"; "-verify"; "-rawin"; "-pubin"; "-inkey"; pub_path; "-in"; msg_path; "-sigfile"; sig_path]
       None in
     cret (bool_decide (returncode proc = 0%Z))).

(** [OpenSSLMLDSAProvider.provider_metadata]; [text] decodes and strips what [version]
    prints. *)
Definition provider_metadata (text : string → string) pr (e : string) : M host (odict string json) :=
  let! proc := openssl_exec pr e ["version"] None in
  cret [ ("name", JStr "openssl-native"); ("algorithm", JStr (Algorithm_value (algorithm pr)));
         ("production_equivalent", JBool true); ("backend", JStr "openssl-default-provider");
         ("openssl_version", JStr (text (stdout proc)));
         ("note", JStr "ML-DSA algorithm conformance, not FIPS 140-3 module validation") ].
End signer.

(** * The fallback ([identity/provider.py]) *)

(** [LibOQSFallbackProvider]: every operation goes through its guard, which raises. *)
Record LibOQSFallbackProvider : Set := mkLibOQS { oqs_algorithm : Algorithm; oqs_enabled : bool }.
(** [LibOQSFallbackProvider._guard] *)
Definition oqs_guard {A} (p : LibOQSFallbackProvider) : res A :=
  err CRYPTO_PROVIDER_UNAVAILABLE "liboqs fallback is disabled".
Definition oqs_generate_key (p : LibOQSFallbackProvider) : res (PrivateKeyHandle * PublicKey) := oqs_guard p.
Definition oqs_import_private_key (p : LibOQSFallbackProvider) (private_pem : string)
  : res PrivateKeyHandle := oqs_guard p.
Definition oqs_import_public_key (p : LibOQSFallbackProvider) (public_pem : string) : res PublicKey :=
  oqs_guard p.
Definition oqs_sign (p : LibOQSFallbackProvider) (h : PrivateKeyHandle) (message : string) : res string :=
  oqs_guard p.
Definition oqs_verify (p : LibOQSFallbackProvider) (k : PublicKey) (message signature : string) : res bool :=
  oqs_guard p.
(** [LibOQSFallbackProvider.provider_metadata] *)
Definition oqs_provider_metadata (p : LibOQSFallbackProvider) : odict string json :=
  [ ("name", JStr "liboqs-fallback"); ("algorithm", JStr (Algorithm_value (oqs_algorithm p)));
    ("production_equivalent", JBool false); ("enabled", JBool (oqs_enabled p));
    ("warning", JStr "liboqs fallback is development-only and disabled by default") ].

(** * What OpenSSL promises *)

(** The command lines of the signer, and the file each names for its output. *)
Inductive command : Set :=
| CList | CVersion | CGenerate (alg out : string) | CPublic (key : string) | CCheck (key : string)
| CReadPublic | CSign (key msg sig : string) | CVerify (pub msg sig : string).
Definition command_args (c : command) : list string :=
  match c with
  | CList => ["list"; "-signature-algorithms"]
  | CVersion => ["version"]
  | CGenerate alg out => ["genpkey"; "-algorithm"; alg; "-out"; out]
  | CPublic key => ["pkey"; "-in"; key; "-pubout"]
  | CCheck key => ["pkey"; "-in"; key; "-noout"]
  | CReadPublic => ["pkey"; "-pubin"; "-pubout"]
  | CSign key msg sig => ["pkeyutl"; "-sign"; "-rawin"; "-inkey"; key; "-in"; msg; "-out"; sig]
  | CVerify pub msg sig =>
      ["pkeyutl"; "-verify"; "-rawin"; "-pubin"; "-inkey"; pub; "-in"; msg; "-sigfile"; sig]
  end.
Definition command_out (c : command) : option string :=
  match c with CGenerate _ out => Some out | CSign _ _ sig => Some sig | _ => None end.

(** Nobody but the owner may do anything with a file. *)
Definition private_mode (m : Z) : bool := bool_decide (Z.land m 63 = 0)%Z.
Definition private_store (dir : string) (fs : FS) : Prop :=
  ∀ path f, under dir path = true → fs !! path = Some f → private_mode (mode f) = true.

Section laws.
Context `{OpenSSL}.

(** The executable writes to no file but the one named for its output, and leaves the
    permission bits of an existing file alone. *)
Definition openssl_contained : Prop :=
  ∀ e bin c stdin fs p fs', openssl_run e (bin :: command_args c) stdin fs = Some (p, fs') →
    (∀ path, command_out c ≠ Some path → fs' !! path = fs !! path) ∧
    (∀ path f f', fs !! path = Some f → fs' !! path = Some f' → mode f' = mode f).

(** The signature scheme behind the command lines: the public key of a private key file, and
    the signatures a public key accepts.  What is signed with a private key, its public key
    accepts; verifying exits with success exactly for the signatures accepted. *)
Record openssl_scheme (public_of : string → option string) (accepts : string → string → string → Prop)
  : Prop := {
  scheme_derive e bin path fs p fs' :
    openssl_run e (bin :: command_args (CPublic path)) None fs = Some (p, fs') → returncode p = 0%Z →
    ∃ f, fs !! path = Some f ∧ public_of (data f) = Some (stdout p);
  scheme_sign e bin key msg sig fs p fs' sf :
    openssl_run e (bin :: command_args (CSign key msg sig)) None fs = Some (p, fs') →
    returncode p = 0%Z → fs' !! sig = Some sf →
    ∃ kf mf, fs !! key = Some kf ∧ fs !! msg = Some mf ∧
      ∀ pub, public_of (data kf) = Some pub → accepts pub (data mf) (data sf);
  scheme_verify e bin pub msg sig fs pf mf sf :
    fs !! pub = Some pf → fs !! msg = Some mf → fs !! sig = Some sf →
    ∃ p fs', openssl_run e (bin :: command_args (CVerify pub msg sig)) None fs = Some (p, fs') ∧
      (returncode p = 0%Z ↔ accepts (data pf) (data mf) (data sf))
}.
End laws.

(** * Histories *)

(** The operations of a signer, with what each draws. *)
Inductive signer_op : Set :=
| SGenerate (uuid e : string)
| SImportPrivate (uuid e private_pem : string)
| SImportPublic (e public_pem : string)
| SSign (tmp e : string) (h : PrivateKeyHandle) (message : string)
| SVerify (tmp e : string) (k : PublicKey) (message signature : string)
| SMetadata (e : string).

Section histories.
Context `{OpenSSL}.
Variables (umask : Z) (pr : OpenSSLMLDSAProvider).
Implicit Types s : host.

Definition signer_step s (o : signer_op) : host :=
  match o with
  | SGenerate uuid e => (signer_generate_key umask pr uuid e s).2
  | SImportPrivate uuid e k => (import_private_key umask pr uuid e k s).2
  | SImportPublic e k => (import_public_key pr e k s).2
  | SSign tmp e h m => (signer_sign umask pr tmp e h m s).2
  | SVerify tmp e k m sig => (signer_verify umask pr tmp e k m sig s).2
  | SMetadata e => (provider_metadata id pr e s).2
  end.

(** A temporary directory is a fresh one: no file is in it, and it is not in the keystore
    nor around it. *)
Definition fresh_tmp s (tmp : string) : Prop :=
  ∀ path, under tmp path = true → h_files s !! path = None ∧ under (keystore pr) path = false.
(** What the operations draw: names are names, temporary directories are new. *)
Definition fresh_draw s (o : signer_op) : Prop :=
  match o with
  | SSign tmp _ _ _ | SVerify tmp _ _ _ _ => fresh_tmp s tmp
  | SGenerate uuid _ | SImportPrivate uuid _ _ => str_startswith uuid "/" = false
  | _ => True
  end.

(** A process was started with one of the command lines, without any other input than a
    public key to import, while the keystore was private. *)
Definition discreet (c : process_call) : Prop :=
  private_store (keystore pr) (c_files c) ∧
  ∃ cmd, c_argv c = openssl_bin pr :: command_args cmd ∧ (cmd ≠ CReadPublic → c_stdin c = None).

(** What every operation leaves: the directories, every file there was, every file outside
    the keystore; and the keystore is private, whenever a process looks and in the end. *)
Record kept s s' : Prop := {
  kept_dirs : h_dirs s' = h_dirs s;
  kept_old path f : h_files s !! path = Some f → h_files s' !! path = Some f;
  kept_out path : under (keystore pr) path = false → h_files s' !! path = h_files s !! path;
  kept_private : private_store (keystore pr) (h_files s) → private_store (keystore pr) (h_files s');
  kept_calls : private_store (keystore pr) (h_files s) →
    ∃ new, h_calls s' = h_calls s ++ new ∧ Forall discreet new
}.
#[global] Instance kept_preorder : PreOrder kept.
Proof.
  split.
  - intros s. split; try done. intros _. exists []. by rewrite app_nil_r.
  - intros s1 s2 s3 [] []. split; try (by eauto || congruence).
    + intros path Hu. rewrite kept_out1 by done. auto.
    + intros Hp. destruct (kept_calls0 Hp) as (n1 & E1 & Hn1).
      destruct (kept_calls1 (kept_private0 Hp)) as (n2 & E2 & Hn2).
      exists (n1 ++ n2). rewrite E2, E1, app_assoc. split; [done|]. by apply Forall_app.
Qed.

(** ** Inside an operation *)

(** Only the paths of [T] have changed since [s0], and those in the keystore are private. *)
Record tracked (T : string → Prop) s0 s : Prop := {
  tr_dirs : h_dirs s = h_dirs s0;
  tr_out path : ¬ T path → h_files s !! path = h_files s0 !! path;
  tr_in path f : T path → under (keystore pr) path = true → h_files s !! path = Some f →
    private_mode (mode f) = true;
  tr_calls : private_store (keystore pr) (h_files s0) →
    ∃ new, h_calls s = h_calls s0 ++ new ∧ Forall discreet new
}.

(** Whatever happens in [m], from states of [P] on [Q] holds. *)
Definition within {A} (P : host → Prop) (m : M host A) (Q : host → Prop) : Prop := ∀ s, P s → Q (m s).2.
Lemma within_bind {A B} (P Q : host → Prop) (m : M host A) (k : A → M host B) :
  within P m Q → (∀ a, within Q (k a) Q) → within P (cbind m k) Q.
Proof.
  intros Hm Hk s Hs. specialize (Hm s Hs). unfold cbind. destruct (m s) as [[a|x] s']; [|done]. by apply Hk.
Qed.
Lemma within_same {A} (P : host → Prop) (m : M host A) : (∀ s, (m s).2 = s) → within P m P.
Proof. intros Hm s Hs. by rewrite Hm. Qed.

Section tracked.
Context (Hc : openssl_contained) (T : string → Prop) (s0 : host).
Abbreviation I := (tracked T s0).
Hypothesis T_dec : ∀ path, Decision (T path).

Lemma tracked_private s :
  private_store (keystore pr) (h_files s0) → I s → private_store (keystore pr) (h_files s).
Proof.
  intros Hp [] path f Hu Hf. destruct (T_dec path) as [Ht|Ht]; [eauto|].
  rewrite tr_out0 in Hf by done. eauto.
Qed.

(** A file to write exists already if it is in the keystore. *)
Definition ready (path : string) s : Prop := under (keystore pr) path = true → h_files s !! path ≠ None.

Lemma tracked_exec e c stdin :
  (∀ path, command_out c = Some path → T path) → (c ≠ CReadPublic → stdin = None) →
  within (λ s, I s ∧ ∀ path, command_out c = Some path → ready path s)
    (openssl_exec pr e (command_args c) stdin) I.
Proof.
  intros Ho Hin s [HI Hex]. unfold openssl_exec.
  set (s1 := mkHost _ _ _).
  assert (H1 : I s1).
  { pose proof HI as []. split; try done. intros Hp. destruct (tr_calls0 Hp) as (new & En & Hn). subst s1. simpl.
    exists (new ++ [mkCall (openssl_bin pr :: command_args c) stdin (h_files s)]).
    rewrite En, <-app_assoc. split; [done|]. apply Forall_app. split; [done|]. constructor; [|done].
    split; [by apply tracked_private|]. by exists c. }
  destruct (openssl_run _ _ _ _) as [[p fs']|] eqn:Hr; [|done]. destruct (Hc _ _ _ _ _ _ _ Hr) as [Hout Hmode].
  destruct H1 as [H1d H1o H1i H1c]. split; try done; simpl.
  - intros path Ht. rewrite Hout; [by apply H1o|]. intros E. apply Ht, Ho, E.
  - intros path f Ht Hu Hf. destruct (decide (command_out c = Some path)) as [E|E].
    + destruct (h_files s !! path) as [g|] eqn:Hg; [|by destruct (Hex path E Hu)].
      rewrite (Hmode path g f Hg Hf). by apply (H1i path).
    + rewrite Hout in Hf by done. by apply (H1i path).
Qed.
Lemma tracked_query e c stdin :
  command_out c = None → (c ≠ CReadPublic → stdin = None) →
  within I (openssl_exec pr e (command_args c) stdin) I.
Proof. intros Ho Hin s HI. apply tracked_exec; [by rewrite Ho|done|]. split; [done|]. by rewrite Ho. Qed.

Lemma tracked_files path fs s :
  T path → (∀ q, q ≠ path → fs !! q = h_files s !! q) →
  (∀ f, under (keystore pr) path = true → fs !! path = Some f → private_mode (mode f) = true) →
  I s → I (set_h_files fs s).
Proof.
  intros Ht Hne Hp []. split; try done; simpl.
  - intros q Hq. rewrite Hne by congruence. auto.
  - intros q f Hq Hu Hf. destruct (decide (q = path)) as [->|]; [auto|]. rewrite Hne in Hf by done. eauto.
Qed.
Lemma tracked_write umask' path b :
  T path → within (λ s, I s ∧ ready path s) (write_bytes umask' path b) I.
Proof.
  intros Ht s [HI Hr]. apply (tracked_files path); [done| | |done].
  - intros q Hq. by rewrite lookup_insert_ne.
  - intros f Hu. rewrite lookup_insert_eq. intros [= <-]. simpl.
    destruct (h_files s !! path) as [g|] eqn:Hg; [|by destruct (Hr Hu)]. by eapply tr_in.
Qed.
Lemma tracked_chmod path m :
  T path → h_dirs s0 !! path = None → private_mode m = true → within I (os_chmod path m) I.
Proof.
  intros Ht Hd Hm s HI. unfold os_chmod. rewrite decide_False by (rewrite (tr_dirs _ _ _ HI), Hd; by intros []).
  destruct (h_files s !! path) as [f|]; [|done]. apply (tracked_files path); [done| | |done].
  - intros q Hq. by rewrite lookup_insert_ne.
  - intros g _. rewrite lookup_insert_eq. by intros [= <-].
Qed.
Lemma tracked_unlink path : T path → within I (unlink path) I.
Proof.
  intros Ht s HI. apply (tracked_files path); [done| | |done].
  - intros q Hq. by rewrite lookup_delete_ne.
  - intros f _. by rewrite lookup_delete_eq.
Qed.
Lemma tracked_start : (∀ path f, T path → under (keystore pr) path = true → h_files s0 !! path = Some f →
  private_mode (mode f) = true) → I s0.
Proof. intros Ht. split; [done|done|exact Ht|]. intros _. exists []. by rewrite app_nil_r. Qed.
End tracked.

(** ** The operations keep what they must *)

Context (Hc : openssl_contained).

Lemma masked_private : private_mode (masked umask 384) = true.
Proof.
  unfold private_mode, masked. apply bool_decide_eq_true.
  by rewrite <-Z.land_assoc, (Z.land_comm (Z.lnot umask)), Z.land_assoc.
Qed.
Lemma under_div dir name : str_startswith name "/" = false → under dir (path_div dir name) = true.
Proof.
  intros Hn. unfold under, path_div. rewrite Hn. apply prefix_spec. exists name. by rewrite str_app_assoc.
Qed.
Lemma key_path_under uuid : str_startswith uuid "/" = false → under (keystore pr) (key_path pr uuid) = true.
Proof.
  intros Hu. apply under_div. apply not_true_is_false. intros (r & E)%prefix_spec.
  destruct uuid as [|c u]; [discriminate E|]. injection E as -> _. by destruct u.
Qed.

(** An operation that starts by creating a key file and then minds only that one. *)
Lemma creates_kept {A} uuid (k : string → M host A) s :
  let kp := key_path pr uuid in
  str_startswith uuid "/" = false →
  (h_files s !! kp = None → h_dirs s !! kp = None →
   within (λ s', tracked (eq kp) s s' ∧ ready kp s') (k kp) (tracked (eq kp) s)) →
  kept s ((let! path := new_key_path umask pr uuid in k path) s).2.
Proof.
  intros kp Hu Hk. unfold new_key_path, os_create_excl, cbind, cret, is_file. fold kp.
  destruct (h_files s !! kp) as [f|] eqn:Hf; [reflexivity|].
  destruct (h_dirs s !! kp) as [d|] eqn:Hd; [reflexivity|]. simpl.
  destruct (Hk eq_refl eq_refl (set_h_files (<[kp := mkFile (masked umask 384) ""]> (h_files s)) s)) as [E1 E2 E3 E4].
  - split; [|intros _; simpl; by rewrite lookup_insert_eq].
    apply (tracked_files _ _ kp); [done| | |].
    + intros q Hq. by rewrite lookup_insert_ne.
    + intros g _. rewrite lookup_insert_eq. intros [= <-]. apply masked_private.
    + apply tracked_start. intros path g <- _. by rewrite Hf.
  - split; [done| | | |done].
    + intros path g Hg. rewrite E2 by congruence. done.
    + intros path Hp. apply E2. intros <-. pose proof (key_path_under uuid Hu) as Hk'. fold kp in Hk'. congruence.
    + intros Hp path g Hg Hl. destruct (decide (kp = path)) as [<-|Hne]; [by eapply E3|].
      rewrite E2 in Hl by done. eauto.
Qed.

(** An operation that works in a fresh temporary directory. *)
Lemma tmp_kept {A} tmp (m : M host A) s :
  fresh_tmp s tmp →
  within (tracked (λ q, under tmp q = true) s) m (tracked (λ q, under tmp q = true) s) →
  kept s (with_tmp tmp m s).2 ∧ h_files (with_tmp tmp m s).2 = h_files s.
Proof.
  intros Hf Hm. specialize (Hm s). unfold with_tmp. destruct (m s) as [r s']. simpl in *.
  destruct Hm as [E1 E2 E3 E4]; [by apply tracked_start; intros path f Ht Hu; rewrite (proj1 (Hf _ Ht))|].
  assert (E : filter (λ kv : string * file, under tmp kv.1 = false) (h_files s') = h_files s).
  { apply map_eq. intros path. destruct (under tmp path) eqn:Hu.
    - rewrite (proj1 (Hf _ Hu)). apply map_lookup_filter_None. right. intros f _. simpl. by rewrite Hu.
    - rewrite <-E2 by by rewrite Hu. apply option_eq. intros f. rewrite map_lookup_filter_Some. naive_solver. }
  rewrite E. by split.
Qed.
Lemma within_raise {A} (P : host → Prop) c m : within P (raise (A := A) c m) P.
Proof. by apply within_same. Qed.
Lemma within_ret {A} (P : host → Prop) (a : A) : within P (cret a) P.
Proof. by apply within_same. Qed.

Lemma generate_kept uuid e s :
  str_startswith uuid "/" = false → kept s (signer_generate_key umask pr uuid e s).2.
Proof.
  intros Hu. apply (creates_kept uuid (λ path, _)); [done|]. intros Hf Hd.
  eapply within_bind.
  - intros s' [HI Hr]. apply (tracked_exec Hc _ _ _ e (CGenerate _ _)); [by intros path [= <-]|done|].
    split; [done|]. by intros path [= <-].
  - intros proc. case_decide.
    + eapply within_bind; [by apply tracked_unlink|]. intros []. apply within_raise.
    + eapply within_bind; [by apply tracked_chmod|]. intros [].
      eapply within_bind; [|intros pem; apply within_ret]. unfold derive_public_pem.
      eapply within_bind; [by apply (tracked_query Hc _ _ _ e (CPublic _))|]. intros p.
      case_decide; [apply within_raise|apply within_ret].
Qed.
Lemma import_private_kept uuid e k s :
  str_startswith uuid "/" = false → kept s (import_private_key umask pr uuid e k s).2.
Proof.
  intros Hu. apply (creates_kept uuid (λ path, _)); [done|]. intros Hf Hd.
  eapply within_bind; [by apply tracked_write|]. intros [].
  eapply within_bind; [by apply tracked_chmod|]. intros [].
  eapply within_bind; [by apply (tracked_query Hc _ _ _ e (CCheck _))|]. intros proc. case_decide.
  - eapply within_bind; [by apply tracked_unlink|]. intros []. apply within_raise.
  - apply within_ret.
Qed.

(** A run of the executable that writes nothing. *)
Lemma query_kept e c stdin s :
  command_out c = None → (c ≠ CReadPublic → stdin = None) →
  kept s (openssl_exec pr e (command_args c) stdin s).2.
Proof.
  intros Ho Hin. assert (Hf : ∀ path : string, Decision (False)) by (intros; right; tauto).
  edestruct (tracked_query Hc (λ _, False) s Hf e c stdin Ho Hin s) as [E1 E2 E3 E4].
  { by apply tracked_start. }
  split; try done.
  - intros path f Hp. by rewrite E2 by tauto.
  - intros path _. apply E2. tauto.
  - intros Hp path f Hu Hl. rewrite E2 in Hl by tauto. eauto.
Qed.
Lemma kept_bind {A B} (m : M host A) (k : A → M host B) s :
  kept s (m s).2 → (∀ a s', (k a s').2 = s') → kept s (cbind m k s).2.
Proof. intros Hm Hk. unfold cbind. destruct (m s) as [[a|x] s']; [|done]. simpl in Hm. by rewrite Hk. Qed.

Lemma tmp_write s tmp name b :
  fresh_tmp s tmp → str_startswith name "/" = false →
  within (tracked (λ q, under tmp q = true) s) (write_bytes umask (path_div tmp name) b)
    (tracked (λ q, under tmp q = true) s).
Proof.
  intros Hf Hn s' HI. apply tracked_write; [by apply under_div|]. split; [done|]. intros Hu.
  by rewrite (proj2 (Hf _ (under_div tmp name Hn))) in Hu.
Qed.
Lemma sign_kept tmp e h m s :
  fresh_tmp s tmp →
  kept s (signer_sign umask pr tmp e h m s).2 ∧ h_files (signer_sign umask pr tmp e h m s).2 = h_files s.
Proof.
  intros Hf. unfold signer_sign. case_decide; [by split|].
  match goal with |- context [cbind cget ?k s] => change (cbind cget k s) with (k s s) end. cbv beta.
  destruct (negb _); [by split|]. apply tmp_kept; [done|].
  eapply within_bind; [by apply tmp_write|]. intros []. eapply within_bind.
  { intros s' HI. apply (tracked_exec Hc _ _ _ e (CSign _ _ _)); [by intros path [= <-]; apply under_div|done|].
    split; [done|]. intros path [= <-] Hu. by rewrite (proj2 (Hf _ (under_div tmp "sig.bin" eq_refl))) in Hu. }
  intros proc. eapply within_bind; [by apply within_same|]. intros s'.
  destruct (_ || _); [apply within_raise|by apply within_same].
Qed.
Lemma verify_kept tmp e k m sig s :
  fresh_tmp s tmp →
  kept s (signer_verify umask pr tmp e k m sig s).2 ∧ h_files (signer_verify umask pr tmp e k m sig s).2 = h_files s.
Proof.
  intros Hf. apply tmp_kept; [done|]. do 3 (eapply within_bind; [by apply tmp_write|]; intros []).
  eapply within_bind; [by apply (tracked_query Hc _ _ _ e (CVerify _ _ _))|]. intros p. apply within_ret.
Qed.
Lemma step_kept s o : fresh_draw s o → kept s (signer_step s o).
Proof.
  destruct o; simpl; intros Hf.
  - by apply generate_kept.
  - by apply import_private_kept.
  - apply kept_bind; [by apply (query_kept e CReadPublic)|]. intros p s'. by case_decide.
  - by apply sign_kept.
  - by apply verify_kept.
  - apply kept_bind; [by apply (query_kept e CVersion)|done].
Qed.
Lemma history_kept ops s : guarded signer_step fresh_draw s ops → kept s (run signer_step s ops).
Proof.
  intros Hg. apply (run_invariant_guarded signer_step fresh_draw (kept s)); [|done|reflexivity].
  intros s' o Hf Hk. etrans; [exact Hk|by apply step_kept].
Qed.
End histories.

(** ** What signing and verifying return *)

Section scheme.
Context `{OpenSSL} (Hc : openssl_contained).
Context (public_of : string → option string) (accepts : string → string → string → Prop).
Context (Hs : openssl_scheme public_of accepts).
Variables (umask : Z) (pr : OpenSSLMLDSAProvider).

Lemma generate_key_ok uuid e s h pub s' :
  signer_generate_key umask pr uuid e s = (Ok (h, pub), s') →
  ph_algorithm h = algorithm pr ∧ pk_algorithm pub = algorithm pr ∧
  ∃ kf, h_files s' !! ph_path h = Some kf ∧ public_of (data kf) = Some (pem pub).
Proof.
  unfold signer_generate_key. intros (path & s1 & _ & Hg)%cbind_ok. apply cbind_ok in Hg as (proc & s2 & _ & Hg).
  case_decide; [by apply cbind_ok in Hg as (? & ? & _ & ?)|].
  apply cbind_ok in Hg as ([] & s3 & _ & Hg). apply cbind_ok in Hg as (p & s4 & Hd & Hg).
  unfold cret in Hg. simplify_eq/=. split; [done|]. split; [done|].
  unfold derive_public_pem in Hd. apply cbind_ok in Hd as (q & s5 & Hx & Hd). case_decide as Hq; [done|].
  unfold cret in Hd. simplify_eq. unfold openssl_exec in Hx.
  destruct (openssl_run _ _ _ _) as [[q' fs]|] eqn:Hr; [|done]. injection Hx as -> <-. simpl.
  destruct (scheme_derive _ _ Hs _ _ path _ _ _ Hr ltac:(lia)) as (f & Hf & Hp). exists f. split; [|done].
  by rewrite (proj1 (Hc _ _ (CPublic path) _ _ _ _ Hr)).
Qed.

Lemma signer_sign_ok tmp e h m s sig s' kf :
  fresh_tmp pr s tmp → h_files s !! ph_path h = Some kf →
  signer_sign umask pr tmp e h m s = (Ok sig, s') →
  ∀ pub, public_of (data kf) = Some pub → accepts pub m sig.
Proof.
  intros Hf Hk. unfold signer_sign. case_decide; [done|].
  intros (s1 & s2 & [= <- <-] & Hsig)%cbind_ok. destruct (negb _); [done|].
  unfold with_tmp in Hsig. destruct (cbind _ _ s) as [r s2] eqn:Hb. injection Hsig as -> <-.
  apply cbind_ok in Hb as ([] & s3 & [= <-] & Hb). apply cbind_ok in Hb as (proc & s4 & Hx & Hb).
  apply cbind_ok in Hb as (s5 & s6 & [= <- <-] & Hb). destruct (_ || _) eqn:Hbad; [done|].
  apply orb_false_elim in Hbad as [Hrc%bool_decide_eq_false _]. unfold read_file in Hb.
  unfold openssl_exec in Hx. destruct (openssl_run _ _ _ _) as [[q fs]|] eqn:Hr; [|done]. injection Hx as <- <-.
  simpl in Hb. destruct (fs !! path_div tmp "sig.bin") as [sf|] eqn:Hsf; [|done]. injection Hb as <-.
  destruct (scheme_sign _ _ Hs _ _ _ _ _ _ _ _ _ Hr ltac:(lia) Hsf) as (kf' & mf & Hk' & Hm & Hacc).
  simpl in Hk', Hm. rewrite lookup_insert_eq in Hm. injection Hm as <-.
  assert (Hne : path_div tmp "msg.bin" ≠ ph_path h).
  { intros E. rewrite <-E, (proj1 (Hf _ (under_div tmp "msg.bin" eq_refl))) in Hk. done. }
  rewrite lookup_insert_ne in Hk' by done. rewrite Hk in Hk'. injection Hk' as <-. exact Hacc.
Qed.

Lemma signer_verify_spec tmp e k m sig s :
  ∃ b, (signer_verify umask pr tmp e k m sig s).1 = Ok b ∧ (b = true ↔ accepts (pem k) m sig).
Proof.
  pose proof (path_div_ne tmp "pub.pem" "msg.bin" eq_refl eq_refl ltac:(done)) as N1.
  pose proof (path_div_ne tmp "pub.pem" "sig.bin" eq_refl eq_refl ltac:(done)) as N2.
  pose proof (path_div_ne tmp "msg.bin" "sig.bin" eq_refl eq_refl ltac:(done)) as N3.
  unfold signer_verify, with_tmp, cbind, write_bytes, openssl_exec, cret. cbn -[path_div openssl_run String.append].
  match goal with |- context [openssl_run _ _ _ ?fs] => set (fs0 := fs) end.
  edestruct (scheme_verify _ _ Hs e (openssl_bin pr) (path_div tmp "pub.pem") (path_div tmp "msg.bin")
    (path_div tmp "sig.bin") fs0) as (p & fs' & Hr & Hiff).
  - do 2 (etrans; [apply lookup_insert_ne; congruence|]). apply lookup_insert_eq.
  - etrans; [apply lookup_insert_ne; congruence|]. apply lookup_insert_eq.
  - apply lookup_insert_eq.
  - simpl in Hr. rewrite Hr. simpl. eexists. split; [done|]. rewrite bool_decide_eq_true. exact Hiff.
Qed.
End scheme.

(** C34: the keystore.  Take any signer and any history of its operations, in which UUIDs are
    names and temporary directories new, over an executable that writes only the file named
    for its output.  The keystore directory is 0700 and nobody but the owner has access to a
    file in it, in the end and whenever a process is started; no file that was there is
    changed or lost, and nothing outside the keystore is left changed; the processes started
    are the documented command lines, which carry paths and no key material, and their input
    is empty except for a public key to import. *)
Theorem keystore_stays_private `{OpenSSL} (umask : Z) (s0 s1 : host) (dir : string) (a : Algorithm)
  (bin home which : option string) (e : string) (pr : OpenSSLMLDSAProvider) (ops : list signer_op)
  (Hc : openssl_contained)
  (Hnew : new_signer umask dir a bin home which e s0 = (Ok pr, s1))
  (Hp : private_store dir (h_files s0))
  (Hops : guarded (signer_step umask pr) (fresh_draw pr) s1 ops) :
  let s := run (signer_step umask pr) s1 ops in
  h_dirs s !! dir = Some 448%Z ∧ private_store dir (h_files s) ∧
  (∀ path f, h_files s0 !! path = Some f → h_files s !! path = Some f) ∧
  (∀ path, under dir path = false → h_files s !! path = h_files s0 !! path) ∧
  ∃ new, h_calls s = h_calls s0 ++ new ∧ Forall (discreet pr) new.
Proof.
  intros s.
  assert (keystore pr = dir ∧ ∃ d, d !! dir = Some 448%Z ∧
    kept pr (mkHost (h_files s0) d (h_calls s0)) s1) as (<- & d & Hd & K1).
  { unfold new_signer in Hnew. apply cbind_ok in Hnew as (? & ? & [= <- <-] & Hnew).
    apply cbind_ok in Hnew as (b & ? & Hb & Hnew). unfold clift in Hb. injection Hb as _ <-.
    apply cbind_ok in Hnew as ([] & s2 & Hmk & Hnew). apply cbind_ok in Hnew as ([] & s3 & Hch & Hnew).
    apply cbind_ok in Hnew as ([] & s4 & Hv & [= <- <-]). split; [done|]. unfold os_mkdir in Hmk.
    destruct (is_file s0 dir); [done|]. injection Hmk as <-. unfold os_chmod in Hch. cbn [h_dirs] in Hch.
    rewrite decide_True in Hch by (destruct (h_dirs s0 !! dir) eqn:E; rewrite ?E, ?lookup_insert_eq; done).
    injection Hch as <-. cbn [h_files h_calls] in Hv. eexists. split; [apply lookup_insert_eq|].
    match type of Hv with ?x = _ => replace s4 with (x.2) by (by rewrite Hv) end.
    apply kept_bind; [by apply (query_kept (mkSigner a b dir) Hc e CList)|].
    intros p s'. by repeat case_match. }
  pose proof (history_kept umask pr Hc ops s1 Hops) as K2. fold s in K2.
  assert (K : kept pr (mkHost (h_files s0) d (h_calls s0)) s) by (etrans; [exact K1|exact K2]).
  destruct K as [E1 E2 E3 E4 E5]. simpl in *. rewrite E1. auto 10.
Qed.

(** Signing and verifying.  A key is generated, any operations follow, and the signer
    signs with the handle it returned: whoever verifies the signature under the public key
    that was returned with it, on any host and at any time, gets true.  In general verifying
    never raises and is true exactly for the signatures the scheme accepts; and a signer of
    another algorithm refuses the handle and touches nothing. *)
Theorem signature_round_trip `{OpenSSL} (public_of : string → option string)
  (accepts : string → string → string → Prop) (umask : Z) (pr : OpenSSLMLDSAProvider)
  (uuid e : string) (s1 s2 s4 : host) (h : PrivateKeyHandle) (pub : PublicKey) (ops : list signer_op)
  (tmp e' m sig : string)
  (Hc : openssl_contained) (Hs : openssl_scheme public_of accepts)
  (Hgen : signer_generate_key umask pr uuid e s1 = (Ok (h, pub), s2))
  (Hops : guarded (signer_step umask pr) (fresh_draw pr) s2 ops)
  (Htmp : fresh_tmp pr (run (signer_step umask pr) s2 ops) tmp)
  (Hsig : signer_sign umask pr tmp e' h m (run (signer_step umask pr) s2 ops) = (Ok sig, s4)) :
  (∀ umask pr tmp e s, (signer_verify umask pr tmp e pub m sig s).1 = Ok true) ∧
  (∀ umask pr tmp e k m' sig' s, ∃ b, (signer_verify umask pr tmp e k m' sig' s).1 = Ok b ∧
     (b = true ↔ accepts (pem k) m' sig')) ∧
  (∀ pr' tmp e m' s, algorithm pr' ≠ algorithm pr →
     res_code (signer_sign umask pr' tmp e h m' s).1 = Some MLDSA_INVALID ∧
     (signer_sign umask pr' tmp e h m' s).2 = s).
Proof.
  destruct (generate_key_ok Hc _ _ Hs _ _ _ _ _ _ _ _ Hgen) as (Ha & _ & kf & Hkf & Hpub).
  pose proof (kept_old _ _ _ (history_kept umask pr Hc ops s2 Hops) _ _ Hkf) as Hkf'.
  pose proof (signer_sign_ok _ _ Hs _ _ _ _ _ _ _ _ _ _ Htmp Hkf' Hsig _ Hpub) as Hacc.
  split_and!.
  - intros umask' pr' tmp' e2 s.
    destruct (signer_verify_spec _ _ Hs umask' pr' tmp' e2 pub m sig s) as (b & -> & Hb).
    f_equal. by apply Hb.
  - intros. by apply (signer_verify_spec public_of accepts).
  - intros pr' tmp' e2 m' s Hne. unfold signer_sign. rewrite decide_True by congruence. done.
Qed.

(** * Witnesses: an executable whose signatures name the key and the message *)

Definition toy_mode (fs : FS) (path : string) : Z :=
  match fs !! path with Some f => mode f | None => 384%Z end.
Definition toy_public (key : string) : option string := Some ("PUB:" +:+ key).
Definition toy_accepts (pub m sig : string) : Prop := sig = pub +:+ m.
Definition toy_data (fs : FS) (path : string) : string :=
  match fs !! path with Some f => data f | None => "" end.
Definition toy_openssl : OpenSSL := {| openssl_run e argv stdin fs :=
  match argv with
  | [_; "version"] => Some (mkProcess 0 "OpenSSL 3.5.0", fs)
  | [_; "list"; _] => Some (mkProcess 0 "{ ML-DSA-44, ML-DSA-65, ML-DSA-87 }", fs)
  | [_; _; _] => Some (mkProcess 0 "", fs)
  | [_; "pkey"; _; _] => Some (mkProcess 0 (default "" stdin), fs)
  | [_; "pkey"; _; key; _] =>
      if bool_decide (fs !! key = None) then Some (mkProcess 1 "", fs)
      else Some (mkProcess 0 ("PUB:" +:+ toy_data fs key), fs)
  | [_; "genpkey"; _; _; _; out] => Some (mkProcess 0 "", <[out := mkFile (toy_mode fs out) e]> fs)
  | [_; _; _; _; _; key; _; msg; _; sig] =>
      match fs !! key with
      | Some kf => match fs !! msg with
                   | Some mf => Some (mkProcess 0 "", <[sig := mkFile (toy_mode fs sig)
                                                          ("PUB:" +:+ data kf +:+ data mf)]> fs)
                   | None => None
                   end
      | None => None
      end
  | [_; _; _; _; _; _; pub; _; msg; _; sig] =>
      Some (mkProcess (if decide (toy_data fs sig = toy_data fs pub +:+ toy_data fs msg) then 0 else 1) "", fs)
  | _ => None
  end%Z |}.
#[local] Existing Instance toy_openssl.

Lemma toy_contained : openssl_contained.
Proof.
  intros e bin c stdin fs p fs' Hr.
  assert (Hsame : fs' = fs → (∀ path, command_out c ≠ Some path → fs' !! path = fs !! path) ∧
    (∀ path f f', fs !! path = Some f → fs' !! path = Some f' → mode f' = mode f)) by naive_solver.
  assert (Hput : ∀ out b, command_out c = Some out → fs' = <[out := mkFile (toy_mode fs out) b]> fs →
    (∀ path, command_out c ≠ Some path → fs' !! path = fs !! path) ∧
    (∀ path f f', fs !! path = Some f → fs' !! path = Some f' → mode f' = mode f)).
  { intros out b Ho ->. split; [intros path Hp; apply lookup_insert_ne; congruence|].
    intros path f f' Hf. destruct (decide (out = path)) as [<-|Hne].
    - rewrite lookup_insert_eq. intros [= <-]. simpl. unfold toy_mode. by rewrite Hf.
    - rewrite lookup_insert_ne by done. naive_solver. }
  destruct c; simpl in Hr; repeat case_match; simplify_eq; eauto.
Qed.
Lemma toy_scheme : openssl_scheme toy_public toy_accepts.
Proof.
  split.
  - intros e bin path fs p fs' Hr Hp. simpl in Hr. unfold toy_data in Hr.
    destruct (fs !! path) as [f|]; [|by simplify_eq/=]. exists f. by simplify_eq/=.
  - intros e bin key msg sig fs p fs' sf Hr _ Hsf. simpl in Hr.
    destruct (fs !! key) as [kf|]; [|done]. destruct (fs !! msg) as [mf|]; [|done]. simplify_eq.
    rewrite lookup_insert_eq in Hsf. injection Hsf as <-. exists kf, mf. split_and!; try done.
    intros pub [= <-]. unfold toy_accepts. simpl. by rewrite str_app_assoc.
  - intros e bin pub msg sig fs pf mf sf Hp Hm Hs. eexists _, _. split; [reflexivity|].
    unfold toy_data. rewrite Hp, Hm, Hs. simpl. unfold toy_accepts. by case_decide.
Qed.

Definition no_host : host := mkHost ∅ ∅ [].
Definition ex_signer : OpenSSLMLDSAProvider := mkSigner ML_DSA_65 "/usr/bin/openssl" "/keys".
Definition ex_signer_host : host := Eval vm_compute in
  (new_signer 18 "/keys" ML_DSA_65 None None (Some "/usr/bin/openssl") "" no_host).2.
Definition ex_handle : PrivateKeyHandle := mkHandle ML_DSA_65 "/keys/k1.priv.pem".
Definition ex_pub : PublicKey := mkPublicKey ML_DSA_65 "PUB:seed".
Definition ex_signer_ops : list signer_op :=
  [SGenerate "k1" "seed"; SSign "/tmp/t1" "" ex_handle "msg"; SVerify "/tmp/t1" "" ex_pub "msg" "PUB:seedmsg"].

(** A new directory under [/tmp]. *)
Lemma fresh_tmp_intro s name :
  forallb (λ kv : string * file, negb (under ("/tmp/" +:+ name) kv.1)) (map_to_list (h_files s)) = true →
  fresh_tmp ex_signer s ("/tmp/" +:+ name).
Proof.
  intros Hf path Hu. split.
  - destruct (h_files s !! path) as [f|] eqn:Hl; [|done]. apply elem_of_map_to_list, list_elem_of_In in Hl.
    pose proof (proj1 (forallb_forall _ _) Hf _ Hl) as Hn. simpl in Hn. by rewrite Hu in Hn.
  - apply not_true_is_false. intros Hk. apply prefix_spec in Hu as (r & ->). apply prefix_spec in Hk as (r' & E).
    discriminate E.
Qed.

(** C34 at a new signer that generates a key, signs and verifies. *)
Lemma keystore_stays_private_witness :
  private_store "/keys" (h_files (run (signer_step 18 ex_signer) ex_signer_host ex_signer_ops)).
Proof.
  assert (Hnew : new_signer 18 "/keys" ML_DSA_65 None None (Some "/usr/bin/openssl") "" no_host
    = (Ok ex_signer, ex_signer_host)) by (vm_compute; reflexivity).
  apply (keystore_stays_private 18 no_host ex_signer_host "/keys" ML_DSA_65 None None (Some "/usr/bin/openssl") ""
    ex_signer ex_signer_ops toy_contained Hnew).
  - intros path f _. unfold no_host. simpl. rewrite lookup_empty. discriminate.
  - split; [vm_compute; reflexivity|]. split; [apply (fresh_tmp_intro _ "t1"); vm_compute; reflexivity|].
    split; [apply (fresh_tmp_intro _ "t1"); vm_compute; reflexivity|]. exact I.
Defined.

Definition ex_keyed_host : host := Eval vm_compute in (signer_generate_key 18 ex_signer "k1" "seed" ex_signer_host).2.
Definition ex_signed_host : host := Eval vm_compute in
  (signer_sign 18 ex_signer "/tmp/t1" "" ex_handle "msg" ex_keyed_host).2.

(** At that key. *)
Lemma signature_round_trip_witness :
  (signer_verify 18 ex_signer "/tmp/t2" "" ex_pub "msg" "PUB:seedmsg" no_host).1 = Ok true.
Proof.
  assert (Hgen : signer_generate_key 18 ex_signer "k1" "seed" ex_signer_host = (Ok (ex_handle, ex_pub), ex_keyed_host))
    by (vm_compute; reflexivity).
  assert (Hsig : signer_sign 18 ex_signer "/tmp/t1" "" ex_handle "msg" (run (signer_step 18 ex_signer) ex_keyed_host [])
    = (Ok "PUB:seedmsg", ex_signed_host)) by (vm_compute; reflexivity).
  apply (signature_round_trip toy_public toy_accepts 18 ex_signer "k1" "seed" ex_signer_host ex_keyed_host
    ex_signed_host ex_handle ex_pub [] "/tmp/t1" "" "msg" "PUB:seedmsg" toy_contained toy_scheme Hgen).
  - exact I.
  - apply (fresh_tmp_intro _ "t1"). vm_compute. reflexivity.
  - exact Hsig.
Defined.

(** ** What the provider does not check *)

(** Any key the executable can parse is taken for a key of the provider's algorithm, though
    the code says that the import checks that it matches. *)
Example foreign_key_accepted :
  (import_public_key ex_signer "" "an RSA key" ex_signer_host).1 = Ok (mkPublicKey ML_DSA_65 "an RSA key").
Proof. reflexivity. Qed.

(** A key whose public half cannot be derived stays in the keystore without a handle. *)
Example orphan_key :
  let broken := {| openssl_run e argv stdin fs :=
    match argv with [_; "pkey"; _; _; _] => Some (mkProcess 1 "", fs) | _ => openssl_run e argv stdin fs end |} in
  let '(r, s) := signer_generate_key (H := broken) 18 ex_signer "k1" "seed" ex_signer_host in
  res_code r = Some CRYPTO_PROVIDER_UNAVAILABLE ∧ h_files s !! "/keys/k1.priv.pem" = Some (mkFile 384 "seed").
Proof. vm_compute. split; reflexivity. Qed.

(** The fallback refuses to work whether it is enabled or not. *)
Example fallback_never_works :
  res_code (oqs_generate_key (mkLibOQS ML_DSA_65 true)) = Some CRYPTO_PROVIDER_UNAVAILABLE.
Proof. reflexivity. Qed.
