(* ===== verification/EzklBuild.v ===== *)
(** The one-time ceremony of the proof system ([build] of [cvztte/ezkl/prover.py]): the calls
    of the [ezkl] package that produce the artifacts, and the manifest that pins them.

    The calls are an interface over the files; the resolved settings are read with the
    model of the JSON parser. *)

From S2P Require Export Ezkl StrictJson.
From S2P Require Import PyJson CACBroker JsonRoundTrip Concrete.

(** [ezkl.PyRunArgs], as far as it is set. *)
Record RunArgs : Set := mkRunArgs {
  ra_input_visibility : string; ra_output_visibility : string; ra_param_visibility : string;
  ra_input_scale : Z; ra_param_scale : Z
}.
(** The calls of the ceremony: whether they return, and the files they leave. *)
Class EzklCeremony := {
  ezkl_module_version : string;
  gen_settings (onnx settings : string) (args : RunArgs) : Files → bool * Files;
  calibrate_settings (calibration onnx settings : string) : Files → bool * Files;
  compile_circuit (onnx compiled settings : string) : Files → bool * Files;
  gen_srs (srs : string) (logrows : Z) : Files → bool * Files;
  setup (compiled vk pk srs : string) : Files → bool * Files
}.
(** [str] of JSON values that are not strings, and [int] of strings. *)
Class SettingsText := { other_str : json → string; read_int : string → option Z }.

Definition SETTINGS_FILE : string := "settings.json".
Definition COMPILED_FILE : string := "model.compiled".
Definition SRS_FILE : string := "kzg.srs".
Definition PK_FILE : string := "pk.key".
Definition VK_FILE : string := "vk.key".
Definition MANIFEST_FILE : string := "ezkl_manifest.json".

(** [json.dumps(v, indent=2, sort_keys=True)], [ind] the indentation reached. *)
Definition line_feed : string := String (Ascii.ascii_of_nat 10) "".
Fixpoint dumps_indent `{FloatRepr} (ind : string) (v : json) : string :=
  let ind' := ind +:+ "  " in
  let block op cl items :=
    op +:+ line_feed +:+ ind' +:+ String.concat ("," +:+ line_feed +:+ ind') items +:+ line_feed +:+ ind +:+ cl in
  match v with
  | JArr [] => "[]"
  | JArr l => block "[" "]" (dumps_indent ind' <$> l)
  | JObj [] => "{}"
  | JObj kvs =>
      block "{" "}" ((λ kv, dumps_str kv.1 +:+ ": " +:+ kv.2) <$>
                       sorted_items ((λ kv, (kv.1, dumps_indent ind' kv.2)) <$> kvs))
  | v => json_dumps v
  end.

(** A call of the package: an exception if it does not return. *)
Definition ez_call (m : Files → bool * Files) : M Files unit := λ f,
  let '(ok, f) := m f in ((if ok then Ok tt else Err (PyExc "RuntimeError" "ezkl")), f).
(** [try: m except Exception as exc: raise CVZTTEError(code, msg)] *)
Definition reraise {A} (c : ErrorCode) (msg : string) (m : M Files A) : M Files A :=
  ccatch m (λ _, raise c msg).

Section build.
Context `{Hashlib, Rfc8785, FloatRepr, FloatLiteral, EzklModule, EzklCeremony, SettingsText}.
(** The interpreter's limit on integers and the frames it has left. *)
Variables int_max frames : nat.

(** [EZKLManifest.write] and [JudgeManifest.write] *)
Definition ezkl_manifest_text (m : EZKLManifest) : string := dumps_indent "" (ezkl_manifest_json m).
Definition ezkl_manifest_write (m : EZKLManifest) (path : string) : M Files unit :=
  cmodify <[path := ezkl_manifest_text m]>.
Definition judge_manifest_write (m : JudgeManifest) (path : string) : M Files unit :=
  cmodify <[path := dumps_indent "" (judge_manifest_json m)]>.

(** [json.loads(path.read_text())] *)
Definition read_json (path : string) : M Files json :=
  let! f := cget in
  clift (let? raw := read_bytes f path in
         match utf8_decode raw with
         | Some t => json_loads int_max plain_hooks frames t
         | None => Err (PyExc "UnicodeDecodeError" path)
         end).
Definition json_int (v : json) : res Z := int_value read_int v.
Definition json_str (v : json) : string := match v with JStr s => s | v => other_str v end.

(** [settings_doc.get("model_output_scales") or [int(resolved["input_scale"])]] *)
Definition output_scales (settings_doc resolved : json) : res json :=
  let? scales := json_get "model_output_scales" settings_doc in
  if py_bool scales then Ok scales
  else let? scale := json_item "input_scale" resolved in
       let? n := json_int scale in Ok (JArr [JInt n]).
(** [scales[0]], of a value that is true *)
Definition json_first (scales : json) : res json :=
  match scales with
  | JArr (x :: _) => Ok x
  | JStr s => Ok (JStr (String.substring 0 1 s))
  | JObj _ => Err (PyExc "KeyError" "0")
  | _ => Err (PyExc "TypeError" "object is not subscriptable")
  end.

(** The calls of the ceremony, up to [setup]. *)
Definition ceremony (onnx_path : string) (calibration_features : list (list spec_float))
    (settings compiled srs pk vk : string) (run : RunArgs) : M Files unit :=
  let calib := json_dumps (JObj [("input_data", JArr ((λ f, JArr (JFloat <$> f)) <$> calibration_features))]) in
  reraise EZKL_ARTIFACT_UNAPPROVED "ezkl build failed"
    (let! _ := ez_call (gen_settings onnx_path settings run) in
     let! _ := ez_call (calibrate_settings calib onnx_path settings) in
     let! _ := ez_call (compile_circuit onnx_path compiled settings) in
     let! doc := read_json settings in
     let! resolved := clift (json_item "run_args" doc) in
     let! logrows := clift (let? v := json_item "logrows" resolved in json_int v) in
     let! _ := ez_call (gen_srs srs logrows) in
     ez_call (setup compiled vk pk srs)).

(** [build]; directories are not recorded. *)
Definition build (onnx_path : string) (calibration_features : list (list spec_float)) (out_dir : string)
    (onnx_opset input_scale param_scale : Z) : M Files EZKLManifest :=
  let settings := path_div out_dir SETTINGS_FILE in
  let compiled := path_div out_dir COMPILED_FILE in
  let srs := path_div out_dir SRS_FILE in
  let pk := path_div out_dir PK_FILE in
  let vk := path_div out_dir VK_FILE in
  let run := mkRunArgs "public" "public" "fixed" input_scale param_scale in
  let! _ := clift import_ezkl in
  let! _ := ceremony onnx_path calibration_features settings compiled srs pk vk run in
  let! settings_doc := read_json settings in
  let! resolved := clift (json_item "run_args" settings_doc) in
  let! scales := clift (output_scales settings_doc resolved) in
  let! f := cget in
  let! m := clift (
    let? model := file_sha256 f onnx_path in
    let? extractor := feature_extractor_hash in
    let field k := json_item k resolved in
    let? in_scale := (let? v := field "input_scale" in json_int v) in
    let? p_scale := (let? v := field "param_scale" in json_int v) in
    let? o_scale := (let? v := json_first scales in json_int v) in
    let? logrows := (let? v := field "logrows" in json_int v) in
    let? in_vis := field "input_visibility" in
    let? out_vis := field "output_visibility" in
    let? p_vis := field "param_visibility" in
    let? h_settings := file_sha256 f settings in
    let? h_compiled := file_sha256 f compiled in
    let? h_srs := file_sha256 f srs in
    let? h_pk := file_sha256 f pk in
    let? h_vk := file_sha256 f vk in
    Ok (mkEzklManifest 1 ezkl_module_version onnx_opset model FEATURE_VERSION extractor
          (Z.of_nat N_FEATURES) FEATURE_NAMES (JudgeVerdict_value <$> VERDICT_BY_INDEX)
          in_scale p_scale o_scale logrows (json_str in_vis) (json_str out_vis) (json_str p_vis)
          SETTINGS_FILE COMPILED_FILE SRS_FILE PK_FILE VK_FILE
          h_settings h_compiled h_srs h_pk h_vk)) in
  let! _ := ezkl_manifest_write m (path_div out_dir MANIFEST_FILE) in
  cret m.

(** [cvztte/ezkl/build.py]: [calibration_set], and [main] up to what it prints; [judge_dir] is
    the directory of the judge's artifacts. *)
Definition fhalf : spec_float := Eval vm_compute in fdiv fone (of_int 2).
Definition calibration_set : list (list spec_float) :=
  [repeat fzero N_FEATURES; repeat fone N_FEATURES; repeat fhalf N_FEATURES;
   (λ i, fdiv (of_int (Z.of_nat i)) (of_int (Z.of_nat (Nat.max (N_FEATURES - 1) 1)))) <$> seq 0 N_FEATURES].
Definition build_main (judge_dir out_dir : string) : M Files EZKLManifest :=
  build (path_div judge_dir "judge_mlp.onnx") calibration_set out_dir 17 13 13.

(** The circuit is calibrated on vectors of features: of their number, each between 0 and 1. *)
Lemma calibration_set_features :
  Forall (λ v, length v = N_FEATURES ∧ Forall (λ f, in01 f = true) v) calibration_set.
Proof. repeat constructor. Qed.

(** * What the manifest of a ceremony pins *)

(** Reading back a manifest gives the manifest that was written. *)
Definition manifest_reads_back `{EZKLManifestSchema} (m : EZKLManifest) : Prop :=
  parse_ezkl_manifest (ezkl_manifest_text m) = Some m.

Lemma file_sha256_ok f path h :
  file_sha256 f path = Ok h ↔ ∃ b, f !! path = Some b ∧ h = "sha256:" +:+ hex (sha256 b).
Proof. unfold file_sha256, read_bytes. destruct (f !! path) as [b|]; naive_solver. Qed.

(** The manifest is of the files as the ceremony left them. *)
Lemma build_ok onnx feats dir opset isc psc f m f' :
  build onnx feats dir opset isc psc f = (Ok m, f') →
  ezkl_present = true ∧ ∃ f1, f' = <[path_div dir MANIFEST_FILE := ezkl_manifest_text m]> f1 ∧
    feature_extractor_hash = Ok (em_feature_extractor_hash m) ∧
    file_sha256 f1 onnx = Ok (em_model_hash m) ∧
    em_feature_extractor_version m = FEATURE_VERSION ∧ em_n_features m = Z.of_nat N_FEATURES ∧
    em_feature_names m = FEATURE_NAMES ∧ em_decision_encoding m = (JudgeVerdict_value <$> VERDICT_BY_INDEX) ∧
    (settings_file m, compiled_file m, srs_file m, pk_file m, vk_file m)
      = (SETTINGS_FILE, COMPILED_FILE, SRS_FILE, PK_FILE, VK_FILE) ∧
    pinned_file f1 dir SETTINGS_FILE (settings_hash m) ∧ pinned_file f1 dir COMPILED_FILE (compiled_hash m) ∧
    pinned_file f1 dir SRS_FILE (srs_hash m) ∧ pinned_file f1 dir PK_FILE (pk_hash m) ∧
    pinned_file f1 dir VK_FILE (vk_hash m).
Proof.
  unfold build. intros ([] & f0 & He & Hb)%cbind_ok. injection He as He%import_ezkl_iff <-. split; [done|].
  apply cbind_ok in Hb as ([] & f1 & _ & Hb). apply cbind_ok in Hb as (doc & f2 & _ & Hb). apply cbind_ok in Hb as (resolved & f3 & _ & Hb).
  apply cbind_ok in Hb as (scales & f4 & _ & Hb). apply cbind_ok in Hb as (f5 & f6 & [= <- <-] & Hb).
  apply cbind_ok in Hb as (m' & f7 & Hm & Hb). apply cbind_ok in Hb as ([] & f8 & [= <-] & [= <- <-]).
  unfold clift in Hm. injection Hm as Hm <-. exists f4. split; [done|].
  repeat (apply rbind_ok in Hm as (? & ? & Hm)). injection Hm as <-. simpl.
  unfold pinned_file. by setoid_rewrite <-file_sha256_ok.
Qed.

(** A prover starts where a verifier does and the proving key is the pinned one. *)
Lemma new_prover_iff `{EZKLManifestSchema} f dir name p :
  new_prover f dir name = Ok p ↔
  new_verifier f dir name = Ok p ∧ pinned_file f dir (pk_file (ep_manifest p)) (pk_hash (ep_manifest p)).
Proof.
  unfold new_prover, new_verifier, new_party, ezkl_verify_against_runtime.
  destruct (ezkl_manifest_load f (path_div dir name)) as [m|x]; simpl; [|naive_solver].
  destruct (check_feature_identity m) as [[]|x]; simpl; [|naive_solver].
  do 4 (destruct (check_file f dir _ _) as [[]|?]; simpl; [|naive_solver]).
  split.
  - intros ([] & Hpk & ([] & Hi & [= <-])%rbind_ok)%rbind_ok. rewrite Hi. split; [done|]. by apply check_file_iff.
  - intros (([] & Hi & [= <-])%rbind_ok & Hpk). apply check_file_iff in Hpk. simpl in Hpk. by rewrite Hpk, Hi.
Qed.

(** Two files pinned by one hash are one file. *)
Lemma pinned_same f1 f2 dir name h :
  pinned_file f1 dir name h → pinned_file f2 dir name h →
  sha_collision ∨ f2 !! path_div dir name = f1 !! path_div dir name.
Proof.
  intros (b1 & -> & ->) (b2 & -> & Hh). simpl in Hh. injection Hh as Hh.
  apply hex_inj, sha256_inj in Hh as [->|Hcol]; [by right|by left].
Qed.

(** C39: the ceremony pins its artifacts.  After a successful ceremony a prover and a
    verifier start from its directory with the manifest it returned; and whatever happens to
    the files afterwards, as long as the manifest is the same file, a verifier starts only
    on the settings, the circuit, the SRS and the verifying key of the ceremony, a prover
    only on its proving key too, or SHA-256 collides. *)
Theorem ceremony_pins_artifacts `{EZKLManifestSchema} (onnx_path : string)
  (calibration_features : list (list spec_float)) (out_dir : string) (opset in_scale p_scale : Z)
  (f f' : Files) (m : EZKLManifest) (Hlaw : manifest_reads_back m)
  (Hb : build onnx_path calibration_features out_dir opset in_scale p_scale f = (Ok m, f')) :
  let manifest := path_div out_dir MANIFEST_FILE in
  (new_prover f' out_dir MANIFEST_FILE = Ok (mkParty out_dir m) ∧
   new_verifier f' out_dir MANIFEST_FILE = Ok (mkParty out_dir m)) ∧
  (∀ f2 p, f2 !! manifest = f' !! manifest → new_verifier f2 out_dir MANIFEST_FILE = Ok p →
     p = mkParty out_dir m ∧
     ∀ name, name ∈ [SETTINGS_FILE; COMPILED_FILE; SRS_FILE; VK_FILE] →
       sha_collision ∨ f2 !! path_div out_dir name = f' !! path_div out_dir name) ∧
  (∀ f2 p, f2 !! manifest = f' !! manifest → new_prover f2 out_dir MANIFEST_FILE = Ok p →
     sha_collision ∨ f2 !! path_div out_dir PK_FILE = f' !! path_div out_dir PK_FILE).
Proof.
  intros manifest. apply build_ok in Hb as (He & f1 & -> & Hx & _ & Hv & Hn & Hnames & _ & Hfiles & P1 & P2 & P3 & P4 & P5).
  injection Hfiles as F1 F2 F3 F4 F5.
  assert (Hpin : ∀ name h, str_startswith name "/" = false → name ≠ MANIFEST_FILE → pinned_file f1 out_dir name h →
    pinned_file (<[manifest := ezkl_manifest_text m]> f1) out_dir name h).
  { intros name h Hs Hne (b & Hf & ->). exists b. split; [|done]. by rewrite lookup_insert_ne by (by apply path_div_ne). }
  apply Hpin in P1, P2, P3, P4, P5; try done.
  assert (Hload : ∀ f2, f2 !! manifest = Some (ezkl_manifest_text m) → ezkl_manifest_load f2 manifest = Ok m).
  { intros f2 Hf. unfold ezkl_manifest_load. by rewrite Hf, Hlaw. }
  assert (Hver : new_verifier (<[manifest := ezkl_manifest_text m]> f1) out_dir MANIFEST_FILE = Ok (mkParty out_dir m)).
  { apply new_verifier_iff. split; [done|]. split; [apply Hload, lookup_insert_eq|]. simpl.
    rewrite F1, F2, F3, F5. split; [by apply check_feature_identity_iff|done]. }
  assert (Hsame : ∀ f2 p, f2 !! manifest = <[manifest := ezkl_manifest_text m]> f1 !! manifest →
    new_verifier f2 out_dir MANIFEST_FILE = Ok p → p = mkParty out_dir m).
  { intros f2 [d m2] Hf (Hd & Hm2 & _)%new_verifier_iff. rewrite lookup_insert_eq in Hf. simpl in *.
    change (ezkl_manifest_load f2 manifest = Ok m2) in Hm2. rewrite (Hload _ Hf) in Hm2. congruence. }
  split_and!.
  - apply new_prover_iff. split; [done|]. simpl. by rewrite F4.
  - done.
  - intros f2 p Hf Hp. pose proof (Hsame _ _ Hf Hp) as ->. split; [done|].
    apply new_verifier_iff in Hp as (_ & _ & _ & Q1 & Q2 & Q3 & Q4 & _). simpl in *.
    rewrite F1 in Q1. rewrite F2 in Q2. rewrite F3 in Q3. rewrite F5 in Q4.
    intros name Hin. repeat (apply elem_of_cons in Hin as [->|Hin]; [by eapply pinned_same|]).
    by apply not_elem_of_nil in Hin.
  - intros f2 p Hf (Hp & Q)%new_prover_iff. rewrite (Hsame _ _ Hf Hp) in Q. simpl in Q. rewrite F4 in Q.
    by eapply pinned_same.
Qed.
End build.

(** * Witness: a ceremony that writes the names of its artifacts *)

Import ShortInstances.
#[local] Existing Instances no_floats one_float.

Definition ex_settings_doc : string :=
  json_dumps (JObj [("run_args", JObj [("input_scale", JInt 13); ("param_scale", JInt 13); ("logrows", JStr "17");
     ("input_visibility", JStr "public"); ("output_visibility", JStr "public"); ("param_visibility", JStr "fixed")]);
   ("model_output_scales", JArr [JInt 26])]).
Definition ex_ceremony : EzklCeremony := {|
  ezkl_module_version := "22";
  gen_settings _ settings _ f := (true, <[settings := "first settings"]> f);
  calibrate_settings _ _ settings f := (true, <[settings := ex_settings_doc]> f);
  compile_circuit _ compiled _ f := (true, <[compiled := "circuit"]> f);
  gen_srs srs logrows f := (bool_decide (logrows = 17%Z), <[srs := "srs"]> f);
  setup _ vk pk _ f := (true, <[vk := "vk"]> (<[pk := "pk"]> f))
|}.
Definition ex_settings_text : SettingsText :=
  {| other_str _ := ""; read_int s := if bool_decide (s = "17") then Some 17%Z else None |}.
#[local] Existing Instances ezkl_here ex_ceremony ex_settings_text.
Definition ex_build : res EZKLManifest * Files := Eval vm_compute in
  build 4300 900 "/judge/judge.onnx" [] "/ezkl" 17 13 13 {["/judge/judge.onnx" := "model"]}.
Definition ex_built : EZKLManifest := Eval vm_compute in
  match ex_build.1 with Ok m => m | Err _ => ex_ezkl_manifest end.
Definition ex_built_schema : EZKLManifestSchema := {| parse_ezkl_manifest _ := Some ex_built |}.
#[local] Existing Instance ex_built_schema.

Example ex_built_scales : (logrows ex_built, output_scale ex_built, output_visibility ex_built) = (17%Z, 26%Z, "public").
Proof. reflexivity. Qed.

(** C39 at that ceremony, and on its directory with another file in it. *)
Lemma ceremony_pins_artifacts_witness :
  new_prover ex_build.2 "/ezkl" MANIFEST_FILE = Ok (mkParty "/ezkl" ex_built) ∧
  new_verifier (<["/ezkl/notes" := "x"]> ex_build.2) "/ezkl" MANIFEST_FILE = Ok (mkParty "/ezkl" ex_built).
Proof.
  assert (Hb : build 4300 900 "/judge/judge.onnx" [] "/ezkl" 17 13 13 {["/judge/judge.onnx" := "model"]}
    = (Ok ex_built, ex_build.2)) by (vm_compute; reflexivity).
  assert (Hlaw : manifest_reads_back ex_built) by reflexivity.
  destruct (ceremony_pins_artifacts 4300 900 "/judge/judge.onnx" [] "/ezkl" 17 13 13 _ ex_build.2 ex_built Hlaw Hb)
    as ((Hp & _) & Hv & _).
  split; [exact Hp|].
  assert (Hm : <["/ezkl/notes" := "x"]> ex_build.2 !! path_div "/ezkl" MANIFEST_FILE
    = ex_build.2 !! path_div "/ezkl" MANIFEST_FILE) by (vm_compute; reflexivity).
  destruct (new_verifier (<["/ezkl/notes" := "x"]> ex_build.2) "/ezkl" MANIFEST_FILE) as [p|x] eqn:Hnew.
  - destruct (Hv _ p Hm Hnew) as [-> _]. reflexivity.
  - vm_compute in Hnew. discriminate Hnew.
Defined.
(** Another verifying key is refused. *)
Example ex_other_key :
  res_code (new_verifier (<["/ezkl/vk.key" := "other"]> ex_build.2) "/ezkl" MANIFEST_FILE)
  = Some EZKL_ARTIFACT_UNAPPROVED.
Proof. vm_compute. reflexivity. Qed.

(** What a load does not look at: the hash of the model, the scales, the visibility. *)
Example unchecked_drift :
  let m := ex_built in
  let drifted := mkEzklManifest 1 "1" 1 "sha256:another model" (em_feature_extractor_version m)
    (em_feature_extractor_hash m) (em_n_features m) (em_feature_names m) ["SAFE"] 0 0 0 0
    "private" "private" "private" SETTINGS_FILE COMPILED_FILE SRS_FILE PK_FILE VK_FILE
    (settings_hash m) (compiled_hash m) (srs_hash m) (pk_hash m) (vk_hash m) in
  ezkl_verify_against_runtime drifted ex_build.2 "/ezkl" true = Ok tt.
Proof. vm_compute. reflexivity. Qed.
