(* ===== verification/FloatOrder.v ===== *)
(** Order facts of binary64 rounding and division: a quotient of numbers that is at least
    one is rounded to at least one. *)

From S2P Require Export PyFloat.

#[local] Open Scope Z_scope.

(** * Digits and shifts *)

Lemma digits2_log2 p : Z.pos (digits2_pos p) = Z.log2 (Z.pos p) + 1.
Proof.
  induction p as [p IH|p IH|]; [| |done]; cbn [digits2_pos]; rewrite Pos2Z.inj_succ, IH.
  - rewrite Pos2Z.inj_xI, Z.log2_succ_double by lia. lia.
  - rewrite Pos2Z.inj_xO, Z.log2_double by lia. lia.
Qed.
Lemma Zdigits2_log2 m : 0 < m → Zdigits2 m = Z.log2 m + 1.
Proof. destruct m; [lia|intros _; apply digits2_log2|lia]. Qed.

Lemma shr_1_div mrs : 0 ≤ shr_m mrs → shr_m (shr_1 mrs) = shr_m mrs / 2.
Proof.
  destruct mrs as [[|[p|p|]|p] r s]; simpl; try done.
  - intros _. rewrite Pos2Z.inj_xI. apply Z.div_unique with 1; lia.
  - intros _. rewrite Pos2Z.inj_xO. apply Z.div_unique with 0; lia.
Qed.
Lemma shr_iter_div p mrs : 0 ≤ shr_m mrs → shr_m (iter_pos shr_1 p mrs) = shr_m mrs / 2 ^ Z.pos p.
Proof.
  revert mrs. induction p as [p IH|p IH|]; intros mrs Hm; cbn [iter_pos].
  - assert (H1 : 0 ≤ shr_m (shr_1 mrs)) by (rewrite shr_1_div by done; apply Z.div_pos; lia).
    assert (H2 : 0 ≤ shr_m (iter_pos shr_1 p (shr_1 mrs))) by (rewrite IH by done; apply Z.div_pos; lia).
    rewrite IH, IH, shr_1_div by done. rewrite !Z.div_div by lia. f_equal.
    rewrite (Pos2Z.inj_xI p). replace (2 * Z.pos p + 1) with (1 + Z.pos p + Z.pos p) by lia.
    rewrite !Z.pow_add_r, Z.pow_1_r by lia. lia.
  - assert (H2 : 0 ≤ shr_m (iter_pos shr_1 p mrs)) by (rewrite IH by done; apply Z.div_pos; lia).
    rewrite IH, IH by done. rewrite Z.div_div by lia. f_equal.
    rewrite (Pos2Z.inj_xO p). replace (2 * Z.pos p) with (Z.pos p + Z.pos p) by lia. by rewrite Z.pow_add_r by lia.
  - rewrite shr_1_div by done. f_equal.
Qed.
Lemma shr_of_loc m l : shr_m (shr_record_of_loc m l) = m.
Proof. by destruct l as [|[]]. Qed.
Lemma round_nearest_even_ge m l : m ≤ round_nearest_even m l.
Proof. destruct l as [|[]]; simpl; try lia. destruct (Z.even m); lia. Qed.

(** * Rounding keeps a lower bound *)

(** [m * 2^e] is at least [tm * 2^te]. *)
Definition at_least (tm te m e : Z) : Prop := 0 < m ∧ tm * 2 ^ Z.max 0 (te - e) ≤ m * 2 ^ Z.max 0 (e - te).

Section threshold.
(** A normal number. *)
Context (tm te : Z) (Htm : 2 ^ 52 ≤ tm < 2 ^ 53) (Hte : -1074 ≤ te).
Abbreviation P := (at_least tm te).

Lemma at_least_digits m e : P m e → te + 52 ≤ Z.log2 m + e.
Proof.
  intros [Hm Hle]. pose proof (Z.log2_spec m Hm) as [_ Hlt]. pose proof (Z.log2_nonneg m).
  destruct (Z.le_gt_cases e te) as [He|He].
  - rewrite (Z.max_r 0 (te - e)), (Z.max_l 0 (e - te)), Z.mul_1_r in Hle by lia.
    assert (Hp : 2 ^ (52 + (te - e)) < 2 ^ Z.succ (Z.log2 m)).
    { rewrite Z.pow_add_r by lia. nia. }
    apply Z.pow_lt_mono_r_iff in Hp; lia.
  - rewrite (Z.max_l 0 (te - e)), (Z.max_r 0 (e - te)), Z.mul_1_r in Hle by lia.
    assert (Hp : 2 ^ 52 < 2 ^ (Z.succ (Z.log2 m) + (e - te))).
    { rewrite Z.pow_add_r by lia. nia. }
    apply Z.pow_lt_mono_r_iff in Hp; lia.
Qed.

Lemma shr_fexp_at_least m e l mrs e' :
  P m e → shr_fexp 53 1024 m e l = (mrs, e') → P (shr_m mrs) e' ∧ te ≤ e'.
Proof.
  intros HP. pose proof (at_least_digits m e HP) as Hd. pose proof HP as [Hm Hle].
  unfold shr_fexp. rewrite Zdigits2_log2 by done. unfold fexp, emin.
  set (x := Z.max _ _). assert (Hx : x = Z.log2 m + 1 + e - 53 ∧ te ≤ x) by lia. destruct Hx as [Hx Hxt].
  clearbody x. unfold shr. destruct (x - e) as [|p|p] eqn:Hs.
  - intros [= <- <-]. rewrite shr_of_loc. split; [done|lia].
  - intros [= <- <-]. rewrite shr_iter_div; rewrite shr_of_loc; [|lia].
    replace (e + Z.pos p) with x by lia. split; [|done].
    pose proof (Z.log2_spec m Hm) as [Hlo _].
    assert (H52 : 2 ^ 52 ≤ m / 2 ^ Z.pos p).
    { apply Z.div_le_lower_bound; [lia|]. rewrite <-Z.pow_add_r by lia.
      by replace (Z.pos p + 52) with (Z.log2 m) by lia. }
    split; [lia|]. destruct (Z.eq_dec x te) as [->|Hne].
    + rewrite !Z.max_l, !Z.mul_1_r by lia. apply Z.div_le_lower_bound; [lia|].
      rewrite (Z.max_r 0 (te - e)), (Z.max_l 0 (e - te)), Z.mul_1_r in Hle by lia.
      rewrite Hs in Hle. lia.
    + rewrite (Z.max_l 0 (te - x)), (Z.max_r 0 (x - te)), Z.mul_1_r by lia.
      assert (2 ^ 1 ≤ 2 ^ (x - te)) by (apply Z.pow_le_mono_r; lia). nia.
  - intros [= <- <-]. rewrite shr_of_loc. split; [done|lia].
Qed.

Lemma at_least_ge m m' e : P m e → m ≤ m' → P m' e.
Proof. intros [Hm Hle] Hm'. split; [lia|]. pose proof (Z.pow_pos_nonneg 2 (Z.max 0 (e - te))). nia. Qed.

(** A rounded number is infinite or at least the threshold. *)
Lemma round_at_least m e l :
  P m e →
  binary_round_aux 53 1024 false m e l = S754_infinity false ∨
  ∃ p e', binary_round_aux 53 1024 false m e l = S754_finite false p e' ∧ P (Z.pos p) e' ∧ te ≤ e'.
Proof.
  intros HP. unfold binary_round_aux.
  destruct (shr_fexp 53 1024 m e l) as [mrs e1] eqn:H1.
  destruct (shr_fexp_at_least _ _ _ _ _ HP H1) as [HP1 _].
  destruct (shr_fexp 53 1024 (round_nearest_even _ _) e1 loc_Exact) as [mrs2 e2] eqn:H2.
  destruct (shr_fexp_at_least _ _ _ _ _ (at_least_ge _ _ _ HP1 (round_nearest_even_ge _ _)) H2) as [HP2 He2].
  destruct (shr_m mrs2) as [|p|p] eqn:Hp; [by destruct HP2|..|by destruct HP2].
  destruct (e2 <=? 1024 - 53); [right; by exists p, e2|by left].
Qed.

Lemma at_least_scale m e d : 0 ≤ d → P m e → P (m * 2 ^ d) (e - d).
Proof.
  intros Hd [Hm Hle]. pose proof (Z.pow_pos_nonneg 2 d). split; [nia|].
  destruct (Z.le_gt_cases e te) as [He|He].
  - rewrite !Z.max_r, !Z.max_l, !Z.mul_1_r in * by lia.
    replace (te - (e - d)) with (te - e + d) by lia. rewrite Z.pow_add_r by lia. nia.
  - rewrite (Z.max_l 0 (te - e)), (Z.max_r 0 (e - te)), Z.mul_1_r in Hle by lia.
    destruct (Z.le_gt_cases (e - d) te) as [He'|He'].
    + rewrite !Z.max_r, !Z.max_l, !Z.mul_1_r by lia.
      assert (E : 2 ^ d = 2 ^ (e - te) * 2 ^ (te - (e - d))) by (rewrite <-Z.pow_add_r by lia; f_equal; lia).
      rewrite E. pose proof (Z.pow_pos_nonneg 2 (te - (e - d))). nia.
    + rewrite !Z.max_l, !Z.max_r, !Z.mul_1_r by lia.
      assert (E : 2 ^ (e - te) = 2 ^ d * 2 ^ (e - d - te)) by (rewrite <-Z.pow_add_r by lia; f_equal; lia).
      rewrite E in Hle. lia.
Qed.
Lemma iter_xO m d : Z.pos (Pos.iter xO m d) = Z.pos m * 2 ^ Z.pos d.
Proof.
  induction d as [|d IH] using Pos.peano_ind; [simpl; lia|].
  rewrite Pos.iter_succ, Pos2Z.inj_xO, IH, Pos2Z.inj_succ, Z.pow_succ_r by lia. lia.
Qed.
Lemma normalize_at_least p e :
  P (Z.pos p) e →
  nearest (Z.pos p) e false = S754_infinity false ∨
  ∃ q e', nearest (Z.pos p) e false = S754_finite false q e' ∧ P (Z.pos q) e' ∧ te ≤ e'.
Proof.
  intros HP. unfold nearest, binary_normalize, binary_round, shl_align.
  destruct (fexp _ _ _ - e) as [|d|d] eqn:Hd; apply round_at_least; try done.
  rewrite iter_xO. replace (fexp _ _ _) with (e - Z.pos d) by lia. by apply at_least_scale.
Qed.
Lemma at_least_fle p e : P (Z.pos p) e → te ≤ e → fle (S754_finite false (Z.to_pos tm) te) (S754_finite false p e) = true.
Proof.
  intros [_ Hle] He. unfold fle, SFleb, SFcompare. destruct (Z.compare_spec te e) as [<-|Hlt|Hgt]; [|done|lia].
  rewrite Z.sub_diag, Z.max_id, !Z.mul_1_r in Hle.
  change (Pos.compare_cont Eq (Z.to_pos tm) p) with (Pos.compare (Z.to_pos tm) p).
  by destruct (Pos.compare_spec (Z.to_pos tm) p); [| |lia].
Qed.
End threshold.

(** * A quotient of at least one *)

Lemma quotient_at_least_one tm te mx ex :
  2 ^ 52 ≤ tm < 2 ^ 53 → at_least tm te mx ex → te ≤ ex →
  let '(q, e, _) := SFdiv_core_binary 53 1024 mx ex tm te in at_least (2 ^ 52) (-52) q e.
Proof.
  intros Htm [Hm Hle] He. rewrite (Z.max_l 0 (te - ex)), (Z.max_r 0 (ex - te)), Z.mul_1_r in Hle by lia.
  unfold SFdiv_core_binary. rewrite !Zdigits2_log2 by lia.
  assert (Hl2 : Z.log2 tm = 52) by (apply Z.log2_unique; lia). rewrite Hl2.
  pose proof (Z.log2_spec mx Hm) as [Hlo _]. pose proof (Z.log2_nonneg mx) as Hnn.
  set (e' := Z.min _ _).
  assert (He' : e' ≤ ex - te ∧ e' ≤ Z.max (Z.log2 mx + ex - te - 105) (-1074)) by (unfold e', fexp, emin; lia).
  clearbody e'. set (s := ex - te - e').
  assert (Hm' : match s with 0 => mx | Z.pos _ => Z.shiftl mx s | Z.neg _ => 0 end = mx * 2 ^ s).
  { destruct s eqn:Es; [simpl; lia| |lia]. by rewrite Z.shiftl_mul_pow2 by lia. }
  rewrite Hm'. pose proof (Z.div_eucl_eq (mx * 2 ^ s) tm ltac:(lia)) as Hq.
  change (Z.div_eucl (mx * 2 ^ s) tm) with (Z.div_eucl (mx * 2 ^ s) tm).
  assert (Hdiv : (let '(q, _) := Z.div_eucl (mx * 2 ^ s) tm in q) = mx * 2 ^ s / tm) by done.
  destruct (Z.div_eucl (mx * 2 ^ s) tm) as [q r]. subst q. clear Hq.
  destruct (Z.le_gt_cases e' 0) as [Hneg|Hpos].
  - assert (Hq : 2 ^ (- e') ≤ mx * 2 ^ s / tm).
    { apply Z.div_le_lower_bound; [lia|]. unfold s. replace (ex - te - e') with (ex - te + - e') by lia.
      rewrite Z.pow_add_r by lia. pose proof (Z.pow_pos_nonneg 2 (- e')). nia. }
    pose proof (Z.pow_pos_nonneg 2 (- e')). split; [lia|].
    destruct (Z.le_gt_cases e' (-52)).
    + rewrite (Z.max_r 0 (-52 - e')), (Z.max_l 0 (e' - -52)), <-Z.pow_add_r, Z.mul_1_r by lia.
      by replace (52 + (-52 - e')) with (- e') by lia.
    + rewrite (Z.max_l 0 (-52 - e')), (Z.max_r 0 (e' - -52)), Z.mul_1_r by lia.
      replace 52 with (- e' + (e' - -52)) at 1 by lia. rewrite Z.pow_add_r by lia.
      apply Z.mul_le_mono_nonneg_r; lia.
  - assert (Hq : 1 ≤ mx * 2 ^ s / tm).
    { apply Z.div_le_lower_bound; [lia|].
      assert (Hs : 106 - Z.log2 mx - 1 ≤ s) by lia.
      assert (2 ^ 53 ≤ 2 ^ (Z.log2 mx + s)) by (apply Z.pow_le_mono_r; lia).
      rewrite Z.pow_add_r in H by lia. pose proof (Z.pow_pos_nonneg 2 s). nia. }
    split; [lia|]. rewrite (Z.max_l 0 (-52 - e')), (Z.max_r 0 (e' - -52)), Z.mul_1_r by lia.
    assert (2 ^ 52 ≤ 2 ^ (e' - -52)) by (apply Z.pow_le_mono_r; lia). nia.
Qed.

Lemma fle_infinity : fle (S754_finite false 4503599627370496 (-52)) (S754_infinity false) = true.
Proof. done. Qed.

(** [n / c] for an integer [c] that is a normal number and [n ≥ c]: at least one. *)
Lemma ratio_at_least_one n c tm te x :
  0 < c → c ≤ n → 2 ^ 52 ≤ tm < 2 ^ 53 → -1074 ≤ te ≤ 0 → tm = c * 2 ^ (- te) →
  of_int c = S754_finite false (Z.to_pos tm) te → of_int n = x → x ≠ S754_infinity false →
  fle (S754_finite false 4503599627370496 (-52)) (SFdiv 53 1024 x (of_int c)) = true.
Proof.
  intros Hc Hn Htm Hte Etm Ec <- Hinf. rewrite Ec.
  destruct tm as [|tp|tp]; [lia| |lia]. simpl Z.to_pos.
  destruct n as [|p|p]; try lia.
  assert (HP : at_least (Z.pos tp) te (Z.pos p) 0).
  { split; [lia|]. rewrite (Z.max_l 0 (te - 0)), (Z.max_r 0 (0 - te)), Z.mul_1_r by lia.
    rewrite Etm. replace (0 - te) with (- te) by lia. apply Z.mul_le_mono_nonneg_r; lia. }
  destruct (normalize_at_least (Z.pos tp) te Htm ltac:(lia) p 0 HP) as [E|(q & e & E & HPq & He)]; [done|].
  unfold of_int. rewrite E. unfold SFdiv.
  pose proof (quotient_at_least_one (Z.pos tp) te (Z.pos q) e Htm HPq He) as Hquo.
  destruct (SFdiv_core_binary _ _ _ _ _ _) as [[mz ez] lz].
  destruct (round_at_least (2 ^ 52) (-52) ltac:(lia) ltac:(lia) mz ez lz Hquo) as [E1|(q1 & e1 & E1 & HP1 & He1)];
    simpl xorb; rewrite E1; [done|].
  by apply (at_least_fle (2 ^ 52) (-52)).
Qed.
