(* ===== verification/JudgeData.v ===== *)
(** The training data of the safety judge ([cvztte/judge/synthetic.py]) and the export of
    the trained model ([export] of [cvztte/judge/train.py]): the rule that labels inputs,
    what it depends on, and the data set.  The generator of random numbers, the trained
    network and its conversion are interfaces. *)

From S2P Require Export Judge FloatOrder.
From S2P Require Import CACBroker PyJson EzklBuild.

(** * The rule ([judge/synthetic.py]) *)

(** [label] *)
Definition label (inp : JudgeInput) : JudgeVerdict :=
  let at_ := action_type (ji_action inp) in
  let is_write := bool_decide (at_ ∈ [FILE_WRITE; FILE_DELETE; MEMORY_WRITE; DB_OPERATION; CLOUD_CONTROL_ACTION]) in
  let is_external := bool_decide (at_ ∈ [NETWORK_REQUEST; API_REQUEST; EXTERNAL_MESSAGE])
                     || destination_external inp in
  let is_secret := bool_decide (at_ = SECRET_ACCESS) in
  let is_code_shell := bool_decide (at_ ∈ [SHELL_EXEC; PROCESS_EXEC; CODE_EXECUTION]) in
  let contain := severity (ji_containment_state inp) in
  if bool_decide (1 ≤ bypass_attempts inp)%Z then UNSAFE
  else if bool_decide (1 ≤ privilege_escalation_attempts inp)%Z then UNSAFE
  else if bool_decide (severity RESTRICTED ≤ contain) && (is_write || is_external || is_secret) then UNSAFE
  else if is_secret && destination_external inp then UNSAFE
  else if is_secret && negb (has_delegation inp) then UNSAFE
  else if bool_decide (5 ≤ sensitive_reads_last_5m inp)%Z
          && (bool_decide (1000000 ≤ external_bytes inp)%Z || bool_decide (2 ≤ new_external_destination inp)%Z) then UNSAFE
  else if bool_decide (3 ≤ destructive_action_count inp)%Z then UNSAFE
  else if is_code_shell && is_external then UNSAFE
  else if require_human_approval (ji_policy inp) then REVIEW
  else if bool_decide (severity SUSPICIOUS ≤ contain) then REVIEW
  else if bool_decide (3 ≤ risk_level (ji_policy inp))%Z && (is_write || is_external) then REVIEW
  else if destination_external inp && negb (destination_known inp) then REVIEW
  else if is_secret then REVIEW
  else if bool_decide (40 ≤ actions_last_60s inp)%Z then REVIEW
  else if is_code_shell then REVIEW
  else SAFE.

(** * Saturation forgets only what is beyond its bounds *)

(** The caps of the extractor. *)
Definition caps : list Z := [3; 4; 5; 10; 20; 60]%Z.

(** Neither a positive number nor infinity. *)
Definition not_positive (f : spec_float) : Prop :=
  match f with S754_infinity s | S754_finite s _ _ => s = true | _ => True end.
Lemma round_not_positive m e l : not_positive (binary_round_aux 53 1024 true m e l).
Proof.
  unfold binary_round_aux. destruct (shr_fexp _ _ _ _ _) as [mrs e1]. destruct (shr_fexp _ _ _ _ _) as [mrs2 e2].
  destruct (shr_m mrs2); [done| |done]. by destruct (_ <=? _)%Z.
Qed.
Lemma of_negative p : not_positive (of_int (Z.neg p)).
Proof.
  unfold of_int, nearest, binary_normalize, binary_round. destruct (shl_align _ _ _). apply round_not_positive.
Qed.
Lemma clamp_not_positive q : not_positive q → py_max fzero (py_min q fone) = fzero.
Proof. by destruct q as [s|[]| |[] m e]. Qed.

(** Each cap as a normal number. *)
Lemma cap_normal c : c ∈ caps → ∃ tm te, (2 ^ 52 ≤ tm < 2 ^ 53 ∧ -1074 ≤ te ≤ 0 ∧ tm = c * 2 ^ (- te))%Z ∧
  of_int c = S754_finite false (Z.to_pos tm) te.
Proof.
  intros Hc. repeat (apply elem_of_cons in Hc as [->|Hc]; [|]); [..|by apply not_elem_of_nil in Hc].
  - exists 6755399441055744%Z, (-51)%Z. split; [split_and!; by vm_compute|reflexivity].
  - exists 4503599627370496%Z, (-50)%Z. split; [split_and!; by vm_compute|reflexivity].
  - exists 5629499534213120%Z, (-50)%Z. split; [split_and!; by vm_compute|reflexivity].
  - exists 5629499534213120%Z, (-49)%Z. split; [split_and!; by vm_compute|reflexivity].
  - exists 5629499534213120%Z, (-48)%Z. split; [split_and!; by vm_compute|reflexivity].
  - exists 8444249301319680%Z, (-47)%Z. split; [split_and!; by vm_compute|reflexivity].
Qed.

Lemma fle_one_eq q : fle fone q = true → py_max fzero (py_min q fone) = fone.
Proof.
  unfold py_max, py_min. destruct (flt fone q) eqn:Hlt; [done|]. revert Hlt. unfold fle, flt, SFleb, SFltb.
  destruct (SFcompare fone q) as [[]|] eqn:Hc; try done. intros _ _.
  destruct q as [s|[]| |[] m e]; try done. unfold SFcompare, fone in Hc.
  destruct (-52 ?= e)%Z eqn:He; try discriminate Hc. apply Z.compare_eq in He.
  assert (Hm : Pos.compare_cont Eq 4503599627370496 m = Eq) by congruence.
  apply Pos.compare_eq in Hm. by subst.
Qed.

Definition clamp (c n : Z) : Z := Z.max 0 (Z.min n c).

Lemma sat_clamp c n f : c ∈ caps → sat n (of_int c) = Ok f → sat (clamp c n) (of_int c) = Ok f.
Proof.
  intros Hc Hf. destruct (cap_normal c Hc) as (tm & te & (Htm & Hte & Etm) & Ec).
  assert (Hends : sat 0 (of_int c) = Ok fzero ∧ sat c (of_int c) = Ok fone ∧ (0 < c)%Z ∧ fle (of_int c) fzero = false).
  { clear -Hc. repeat (apply elem_of_cons in Hc as [->|Hc]; [vm_compute; done|]). by apply not_elem_of_nil in Hc. }
  destruct Hends as (H0 & H1 & Hpos & Hcap).
  assert (Hsat : ∃ x, of_int n = x ∧ x ≠ S754_infinity false ∧ x ≠ S754_infinity true ∧
    f = py_max fzero (py_min (fdiv x (of_int c)) fone)).
  { unfold sat in Hf. rewrite Hcap in Hf. unfold py_float in Hf. exists (of_int n).
    destruct (of_int n) as [s|s| |s m e]; simplify_eq/=; by split_and!. }
  destruct Hsat as (x & Hx & Hinf & Hninf & ->).
  destruct (Z.le_gt_cases n 0) as [Hn|Hn].
  - unfold clamp. rewrite Z.max_l by lia. rewrite H0. f_equal. symmetry. apply clamp_not_positive.
    destruct n as [|p|p]; [|lia|].
    + subst x. rewrite Ec. by vm_compute.
    + pose proof (of_negative p) as Hs. rewrite Hx in Hs. rewrite Ec.
      destruct x as [s|s| |s m e]; simpl in Hs; subst; try done. unfold fdiv, SFdiv. simpl xorb.
      destruct (SFdiv_core_binary _ _ _ _ _ _) as [[mz ez] lz]. apply round_not_positive.
  - destruct (Z.le_gt_cases c n) as [Hcn|Hcn].
    + unfold clamp. rewrite Z.min_r, Z.max_r by lia. rewrite H1. f_equal. symmetry. apply fle_one_eq.
      by apply (ratio_at_least_one n c tm te x).
    + unfold clamp. rewrite Z.min_l, Z.max_r by lia. unfold sat, py_float. rewrite Hcap, Hx.
      by destruct x as [s|[]| |s m e].
Qed.

(** Within its bounds saturation tells all counters apart. *)
Definition all_distinct (c : Z) : bool :=
  let range := Z.of_nat <$> seq 0 (S (Z.to_nat c)) in
  forallb (λ i, forallb (λ j,
    match sat i (of_int c), sat j (of_int c) with
    | Ok a, Ok b => Bool.eqb (SFeqb a b) (i =? j)%Z
    | _, _ => false
    end) range) range.
Lemma caps_distinct : forallb all_distinct caps = true.
Proof. vm_compute. reflexivity. Qed.

Lemma sat_inj c n m f :
  c ∈ caps → sat n (of_int c) = Ok f → sat m (of_int c) = Ok f → clamp c n = clamp c m.
Proof.
  intros Hc Hn%(sat_clamp _ _ _ Hc) Hm%(sat_clamp _ _ _ Hc).
  pose proof (proj1 (forallb_forall _ _) caps_distinct c (proj1 (list_elem_of_In _ _) Hc)) as Hd.
  assert (Hin : ∀ k, In (clamp c k) (Z.of_nat <$> seq 0 (S (Z.to_nat c)))).
  { intros k. apply list_elem_of_In, list_elem_of_fmap. exists (Z.to_nat (clamp c k)).
    assert (0 < c)%Z.
    { clear -Hc. repeat (apply elem_of_cons in Hc as [->|Hc]; [done|]). by apply not_elem_of_nil in Hc. }
    unfold clamp. split; [lia|]. apply elem_of_seq. lia. }
  unfold all_distinct in Hd.
  pose proof (proj1 (forallb_forall _ _) (proj1 (forallb_forall _ _) Hd _ (Hin n)) _ (Hin m)) as Hnm.
  pose proof (proj1 (forallb_forall _ _) (proj1 (forallb_forall _ _) Hd _ (Hin n)) _ (Hin n)) as Hnn.
  cbv beta in Hnm, Hnn. rewrite Hn in Hnm, Hnn. rewrite Hm in Hnm.
  rewrite Z.eqb_refl in Hnn. apply Bool.eqb_prop in Hnn, Hnm. rewrite Hnn in Hnm.
  symmetry in Hnm. by apply Z.eqb_eq in Hnm.
Qed.

(** * The label depends on the features only *)

Lemma flt_not_fle x y : flt x y = true → fle y x = false.
Proof.
  unfold flt, fle, SFltb, SFleb. destruct x as [s|s| |s m e], y as [s'|s'| |s' m' e']; try done;
    try (by destruct s, s'); try (by destruct s); try (by destruct s').
  cbn [SFcompare]. destruct s, s'; try done; rewrite (Z.compare_antisym e' e);
    destruct (e' ?= e)%Z; try done;
    change (Pos.compare_cont Eq m m') with (m ?= m')%positive;
    change (Pos.compare_cont Eq m' m) with (m' ?= m)%positive;
    rewrite (Pos.compare_antisym m' m); by destruct (m' ?= m)%positive.
Qed.

Lemma collect_ok {A} (l : list (res A)) v : collect l = Ok v → l = Ok <$> v.
Proof.
  revert v. induction l as [|r l IH]; intros v; simpl; [by intros [= <-]|].
  destruct r as [a|x]; [|done]. simpl. destruct (collect l) as [w|x]; [|done]. intros [= <-].
  simpl. by rewrite (IH w eq_refl).
Qed.
Lemma flag_inj a b : flag a = flag b → a = b.
Proof. by destruct a, b. Qed.

Section labels.
Context `{FloatMath}.

(** What the rule needs of the logarithm of a byte count: up to a million bytes the feature
    is at most 6/7, from a million on it is more. *)
Definition log10_decides (n : Z) : Prop :=
  let q := fdiv (log10 (fadd fone (of_int n))) (of_int 7) in
  let t := fdiv (of_int 6) (of_int 7) in
  (0 < n)%Z → if bool_decide (1000000 ≤ n)%Z then flt t q = true else fle q t = true.

Definition six_sevenths : spec_float := Eval vm_compute in fdiv (of_int 6) (of_int 7).

(** The clamp is on the same side of 6/7. *)
Lemma clamp_above q : flt six_sevenths q = true → flt six_sevenths (py_max fzero (py_min q fone)) = true.
Proof.
  intros Hq. unfold py_max, py_min. destruct (flt fone q); [reflexivity|].
  destruct (flt fzero q) eqn:E0; [exact Hq|]. by destruct q as [s|[]| |[] m e].
Qed.
Lemma clamp_below q : fle q six_sevenths = true → flt six_sevenths (py_max fzero (py_min q fone)) = false.
Proof.
  intros Hq. unfold py_max, py_min. destruct (flt fone q) eqn:E1.
  - exfalso. destruct q as [s|[]| |[] m e]; try done. revert Hq E1.
    unfold fle, flt, SFleb, SFltb, SFcompare, fone, six_sevenths.
    destruct (Z.compare_spec e (-53)), (Z.compare_spec (-52) e); try done; lia.
  - destruct (flt fzero q); [|reflexivity]. destruct (flt six_sevenths q) eqn:E; [|done].
    apply flt_not_fle in E. congruence.
Qed.

Lemma log_sat_million n f :
  log10_decides n → log_sat n (of_int 7) = Ok f → flt six_sevenths f = bool_decide (1000000 ≤ n)%Z.
Proof.
  unfold log10_decides, log_sat. set (q := fdiv (log10 _) _).
  change (fdiv (of_int 6) (of_int 7)) with six_sevenths. intros Hq.
  destruct (decide (n ≤ 0)%Z) as [Hn|Hn].
  { intros Hf. injection Hf as <-. by rewrite bool_decide_false by lia. }
  destruct (py_float n) as [x|x] eqn:Hx; [|done]. simpl.
  assert (of_int n = x) as <- by (unfold py_float in Hx; by destruct (of_int n); simplify_eq).
  fold q. intros Hf. injection Hf as <-. specialize (Hq ltac:(lia)).
  case_bool_decide; [by apply clamp_above|by apply clamp_below].
Qed.

(** A threshold within a cap is seen in the feature. *)
Lemma sat_threshold c k n m :
  c ∈ caps → (0 < k ≤ c)%Z → sat n (of_int c) = sat m (of_int c) → is_ok (sat n (of_int c)) = true →
  bool_decide (k ≤ n)%Z = bool_decide (k ≤ m)%Z.
Proof.
  intros Hc Hk He Hok. destruct (sat n (of_int c)) as [f|] eqn:Hn; [|done].
  pose proof (sat_inj c n m f Hc Hn (eq_sym He)) as Hcl. unfold clamp in Hcl.
  apply bool_decide_ext. lia.
Qed.
Lemma bool_decide_singleton {A} (x s : A) `{Decision (x ∈ [s]), Decision (x = s)} :
  bool_decide (x ∈ [s]) = bool_decide (x = s).
Proof. apply bool_decide_ext, list_elem_of_singleton. Qed.
Lemma severity_bound a : severity a ≤ 4.
Proof. destruct a; vm_compute; lia. Qed.

(** The label depends on signals of the feature vector only, as the labeler claims.  Two
    inputs with the same features have the same label, whatever their counters are beyond
    the caps: the saturating division of binary64 numbers tells apart all values within its
    cap, and the logarithm decides the threshold of a million bytes. *)
Theorem label_from_features (i j : JudgeInput) (features : list spec_float)
  (Hi : extract i = Ok features) (Hj : extract j = Ok features)
  (Li : log10_decides (external_bytes i)) (Lj : log10_decides (external_bytes j)) :
  label i = label j.
Proof.
  apply collect_ok in Hi as Ei, Hj as Ej.
  assert (Hok : Forall (λ r, is_ok r = true) (Ok (E := exn) <$> features)).
  { apply Forall_fmap, Forall_forall. done. }
  rewrite <-Ei in Hok. rewrite <-Ej in Ei. clear Ej Hi Hj. unfold extract in Ei.
  injection Ei as E1 E2 E3 E4 E5 E6 E7 E8 E9 E10 E11 E12 E13 E14 E15 E16 E17 E18 E19 E20 E21 E22 E23 E24 E25.
  rewrite !Forall_cons in Hok.
  destruct Hok as (_ & _ & _ & _ & _ & _ & _ & O8 & _ & _ & O11 & _ & _ & _ & _ & O16 & O17 & O18 & _ & _ & O21 &
    O22 & O23 & _ & O25 & _).
  assert (Hin : ∀ c, bool_decide (c ∈ caps) = true → c ∈ caps) by (intros c; apply bool_decide_eq_true).
  pose proof (sat_threshold 3 1 _ _ (Hin 3%Z eq_refl) ltac:(lia) E25 O25) as T25.
  pose proof (sat_threshold 5 3 _ _ (Hin 5%Z eq_refl) ltac:(lia) E23 O23) as T23.
  pose proof (sat_threshold 5 2 _ _ (Hin 5%Z eq_refl) ltac:(lia) E22 O22) as T22.
  pose proof (sat_threshold 3 1 _ _ (Hin 3%Z eq_refl) ltac:(lia) E21 O21) as T21.
  pose proof (sat_threshold 20 5 _ _ (Hin 20%Z eq_refl) ltac:(lia) E17 O17) as T17.
  pose proof (sat_threshold 60 40 _ _ (Hin 60%Z eq_refl) ltac:(lia) E16 O16) as T16.
  pose proof (sat_threshold 4 3 _ _ (Hin 4%Z eq_refl) ltac:(lia) E8 O8) as T8.
  assert (T11 : severity (ji_containment_state i) = severity (ji_containment_state j)).
  { destruct (sat (Z.of_nat (severity (ji_containment_state i))) (of_int 4)) as [f|] eqn:Hf; [|done].
    assert (Hf' : sat (Z.of_nat (severity (ji_containment_state j))) (of_int 4) = Ok f)
      by (rewrite <-Hf; symmetry; exact E11).
    pose proof (sat_inj 4 _ _ f (Hin 4%Z eq_refl) Hf Hf') as Hcl. unfold clamp in Hcl.
    pose proof (severity_bound (ji_containment_state i)). pose proof (severity_bound (ji_containment_state j)). lia. }
  assert (T18 : bool_decide (1000000 ≤ external_bytes i)%Z = bool_decide (1000000 ≤ external_bytes j)%Z).
  { destruct (log_sat (external_bytes i) (of_int 7)) as [f|] eqn:Hf; [|done].
    assert (Hf' : log_sat (external_bytes j) (of_int 7) = Ok f) by (rewrite <-Hf; symmetry; exact E18).
    by rewrite <-(log_sat_million _ _ Li Hf), <-(log_sat_million _ _ Lj Hf'). }
  apply flag_inj in E1, E2, E3, E5, E9, E12, E13, E14.
  assert (T3 : bool_decide (action_type (ji_action i) = SECRET_ACCESS)
    = bool_decide (action_type (ji_action j) = SECRET_ACCESS)).
  { by rewrite <-!(bool_decide_singleton _ SECRET_ACCESS). }
  unfold label. unfold WRITE_ACTIONS in E1. unfold EXTERNAL_NET_ACTIONS in E2. unfold CODE_SHELL_ACTIONS in E5.
  by rewrite E1, E2, T3, E5, E9, E13, E12, E14, T25, T21, T11, T17, T18, T22, T23, T8, T16.
Qed.
End labels.

(** * The label is cautious *)

(** [j] is at least as adverse as [i]: the same kind of action with no less history, under no
    milder policy and containment, to no better destination. *)
Record more_adverse (i j : JudgeInput) : Prop := {
  adv_action : action_type (ji_action j) = action_type (ji_action i);
  adv_approval : Bool.le (require_human_approval (ji_policy i)) (require_human_approval (ji_policy j));
  adv_risk : (risk_level (ji_policy i) ≤ risk_level (ji_policy j))%Z;
  adv_containment : severity (ji_containment_state i) ≤ severity (ji_containment_state j);
  adv_external : Bool.le (destination_external i) (destination_external j);
  adv_known : Bool.le (destination_known j) (destination_known i);
  adv_delegation : Bool.le (has_delegation j) (has_delegation i);
  adv_60s : (actions_last_60s i ≤ actions_last_60s j)%Z;
  adv_reads : (sensitive_reads_last_5m i ≤ sensitive_reads_last_5m j)%Z;
  adv_bytes : (external_bytes i ≤ external_bytes j)%Z;
  adv_escalation : (privilege_escalation_attempts i ≤ privilege_escalation_attempts j)%Z;
  adv_destination : (new_external_destination i ≤ new_external_destination j)%Z;
  adv_destructive : (destructive_action_count i ≤ destructive_action_count j)%Z;
  adv_bypass : (bypass_attempts i ≤ bypass_attempts j)%Z
}.
(** [VERDICT_BY_INDEX.index(v)]: the more restrictive, the smaller. *)
Definition verdict_index (v : JudgeVerdict) : nat :=
  match v with UNSAFE => 0 | REVIEW => 1 | SAFE => 2 end.

Lemma verdict_cascade (b b' : bool) (v v' w w' : JudgeVerdict) :
  Bool.le b b' → verdict_index v' ≤ verdict_index v → (b = false → b' = false → verdict_index w' ≤ verdict_index w) →
  (b = false → b' = true → verdict_index v' ≤ verdict_index w) →
  verdict_index (if b' then v' else w') ≤ verdict_index (if b then v else w).
Proof. destruct b, b'; simpl; try done; intros; auto. Qed.
Lemma bool_decide_le (P Q : Prop) `{Decision P, Decision Q} : (P → Q) → Bool.le (bool_decide P) (bool_decide Q).
Proof. intros HPQ. repeat case_bool_decide; simpl; naive_solver. Qed.
Lemma andb_le a a' b b' : Bool.le a a' → Bool.le b b' → Bool.le (a && b) (a' && b').
Proof. by destruct a, a', b, b'. Qed.
Lemma orb_le a a' b b' : Bool.le a a' → Bool.le b b' → Bool.le (a || b) (a' || b').
Proof. by destruct a, a', b, b'. Qed.
Lemma negb_le a a' : Bool.le a a' → Bool.le (negb a') (negb a).
Proof. by destruct a, a'. Qed.
Lemma bool_le_refl a : Bool.le a a.
Proof. by destruct a. Qed.

Lemma verdict_if (b : bool) (v w : JudgeVerdict) n :
  n ≤ verdict_index v → n ≤ verdict_index w → n ≤ verdict_index (if b then v else w).
Proof. by destruct b. Qed.

(** The label is fail-closed.  An input that is at least as adverse as another, for the
    same kind of action, never gets a less restrictive label. *)
Theorem label_cautious (i j : JudgeInput) (Hij : more_adverse i j) :
  verdict_index (label j) ≤ verdict_index (label i).
Proof.
  destruct Hij. unfold label. rewrite adv_action0.
  repeat (apply verdict_cascade;
    [ repeat first [ done | apply andb_le | apply orb_le | apply negb_le | apply bool_le_refl
                   | apply bool_decide_le; lia ]
    | done | intros _ _ | intros _ _; simpl; repeat (apply verdict_if; simpl; [lia|]); simpl; lia ]).
  done.
Qed.

(** * The data set ([_random_input], [generate_dataset]) *)

(** [random.Random]: a choice among [n] elements, [randint], [random], and seeding. *)
Class PyRandom (R : Type) := {
  rng_seed : Z → R;
  rng_index : nat → R → nat * R;
  randint_draw : Z → Z → R → Z * R;
  random_draw : R → spec_float * R
}.
(** The documented ranges. *)
Definition rng_in_range {R} `{PyRandom R} : Prop :=
  (∀ n r, 0 < n → (rng_index n r).1 < n) ∧
  (∀ lo hi r, (lo ≤ hi)%Z → (lo ≤ (randint_draw lo hi r).1 ≤ hi)%Z).

Definition ALL_ACTIONS : list ActionType :=
  [ FILE_READ; FILE_WRITE; FILE_DELETE; MEMORY_READ; MEMORY_WRITE; DB_OPERATION; NETWORK_REQUEST;
    API_REQUEST; EXTERNAL_MESSAGE; AGENT_MESSAGE; SECRET_ACCESS; USER_OUTPUT; SHELL_EXEC;
    PROCESS_EXEC; CODE_EXECUTION; CLOUD_CONTROL_ACTION; TOOL_CALL; MCP_CALL ].
Definition CLASSES : list DataClassification := [PUBLIC; INTERNAL; CONFIDENTIAL; SECRET].
Definition STATES : list ContainmentState := [NORMAL; SUSPICIOUS; RESTRICTED; QUARANTINED; TERMINATED].

Section dataset.
Context {R : Type} `{PyRandom R}.

Definition choice {A} (l : list A) (d : A) : M R A := λ r,
  let '(i, r) := rng_index (length l) r in (Ok (nth i l d), r).
Definition randint (lo hi : Z) : M R Z := λ r, let '(z, r) := randint_draw lo hi r in (Ok z, r).
(** [rng.random() < p / 100] and [rng.random() > p / 100] *)
Definition below (p : Z) : M R bool := λ r, let '(x, r) := random_draw r in (Ok (flt x (true_div p 100)), r).
Definition above (p : Z) : M R bool := λ r, let '(x, r) := random_draw r in (Ok (flt (true_div p 100) x), r).

(** [_random_input] *)
Definition random_input (adversarial : bool) : M R JudgeInput :=
  let hi := adversarial in
  let! action_type := choice ALL_ACTIONS FILE_READ in
  let! number := randint 0 999 in
  let! operation := choice [Some "read"; Some "write"; Some "POST"; Some "GET"; Some "exec"; None] None in
  let! classification := choice CLASSES INTERNAL in
  let! risk_level := if hi then randint 2 4 else randint 0 3 in
  let! approval := below (if hi then 35 else 8) in
  let! ezkl := below 30 in
  let! state := if hi then choice STATES NORMAL else cret NORMAL in
  let! external := below (if hi then 60 else 25) in
  let! known := below (if hi then 40 else 85) in
  let! delegation := above (if hi then 25 else 3) in
  let! a10 := if hi then randint 0 25 else randint 0 8 in
  let! a60 := if hi then randint 0 80 else randint 0 30 in
  let! reads := if hi then randint 0 15 else randint 0 4 in
  let! bytes := (if hi then choice [0; 1000; 50000; 2000000; 20000000] 0 else choice [0; 100; 5000] 0)%Z in
  let! secrets := if hi then randint 0 6 else randint 0 1 in
  let! denials := if hi then randint 0 12 else randint 0 2 in
  let! escalations := if hi then randint 0 2 else cret 0%Z in
  let! destinations := if hi then randint 0 5 else randint 0 1 in
  let! destructive := if hi then randint 0 5 else randint 0 1 in
  let! fanout := if hi then randint 0 15 else randint 0 3 in
  let! bypass := if hi then randint 0 2 else cret 0%Z in
  cret (mkJudgeInput
          (mkAction 1 action_type ("res_" +:+ int_repr number) operation None [] classification None)
          (mkPolicyDecision true "synthetic" risk_level false false ezkl approval)
          state external known delegation a10 a60 reads bytes secrets denials escalations
          destinations destructive fanout bypass).

(** [generate_dataset], from index [i] on *)
Fixpoint dataset_from (i n : nat) : M R (list JudgeInput * list nat) :=
  match n with
  | 0 => cret ([], [])
  | S n =>
      let! inp := random_input (Nat.even i) in
      let! rest := dataset_from (S i) n in
      cret (inp :: rest.1, verdict_index (label inp) :: rest.2)
  end.
Definition generate_dataset (n : nat) (seed : Z) : res (list JudgeInput * list nat) :=
  (dataset_from 0 n (rng_seed seed)).1.
End dataset.

(** ** Every sample has features and its own label *)

Definition float_ok (n : Z) : bool := is_ok (py_float n).
Lemma float_ok_small n : (0 ≤ n ≤ 100)%Z → float_ok n = true.
Proof.
  assert (Hall : forallb (λ k, float_ok (Z.of_nat k)) (seq 0 101) = true) by (vm_compute; reflexivity).
  intros Hn. rewrite <-(Z2Nat.id n) by lia. apply (proj1 (forallb_forall _ _) Hall).
  apply list_elem_of_In, elem_of_seq. lia.
Qed.
Lemma sat_float_ok n cap : float_ok n = true → is_ok (sat n cap) = true.
Proof. unfold float_ok, sat. destruct (fle cap fzero); [done|]. by destruct (py_float n). Qed.
Lemma log_sat_float_ok `{FloatMath} n decades : float_ok n = true → is_ok (log_sat n decades) = true.
Proof. unfold float_ok, log_sat. case_decide; [done|]. by destruct (py_float n). Qed.
Lemma collect_all_ok {A} (l : list (res A)) : Forall (λ r, is_ok r = true) l → ∃ v, collect l = Ok v.
Proof.
  induction 1 as [|r l Hr Hl [v IH]]; [by exists []|]. destruct r as [a|]; [|done].
  exists (a :: v). simpl. by rewrite IH.
Qed.

(** The integers of an input are small enough for a double. *)
Definition small_input (i : JudgeInput) : Prop :=
  Forall (λ n, float_ok n = true)
    [ risk_level (ji_policy i); actions_last_10s i; actions_last_60s i; sensitive_reads_last_5m i; external_bytes i;
      secret_access_count i; policy_denials i; privilege_escalation_attempts i; new_external_destination i;
      destructive_action_count i; agent_message_fanout i; bypass_attempts i ].
Lemma extract_small `{FloatMath} i : small_input i → ∃ v, extract i = Ok v.
Proof.
  unfold small_input. rewrite !Forall_cons. intros (H1 & H2 & H3 & H4 & H5 & H6 & H7 & H8 & H9 & H10 & H11 & H12 & _).
  apply collect_all_ok. repeat apply Forall_cons_2; try done; try (by apply sat_float_ok); try (by apply log_sat_float_ok).
  apply sat_float_ok, float_ok_small. pose proof (severity_bound (ji_containment_state i)). lia.
Qed.

(** A computation that always returns a value of [Q]. *)
Definition yields {R A} (m : M R A) (Q : A → Prop) : Prop := ∀ r, ∃ a r', m r = (Ok a, r') ∧ Q a.
Lemma yields_bind {R A B} (m : M R A) (k : A → M R B) Q Q' :
  yields m Q → (∀ a, Q a → yields (k a) Q') → yields (cbind m k) Q'.
Proof.
  intros Hm Hk r. destruct (Hm r) as (a & r1 & E & Ha). destruct (Hk a Ha r1) as (b & r2 & E' & Hb).
  exists b, r2. split; [|done]. unfold cbind. by rewrite E.
Qed.
Lemma yields_ret {R A} (a : A) (Q : A → Prop) : Q a → yields (cret a : M R A) Q.
Proof. intros Ha r. by exists a, r. Qed.

Section dataset_props.
Context {R : Type} `{PyRandom R} (Hr : rng_in_range (R := R)).

Lemma choice_yields {A} (l : list A) d : l ≠ [] → yields (choice l d) (λ a, a ∈ l).
Proof.
  intros Hl r. unfold choice. destruct (rng_index (length l) r) as [k r'] eqn:E.
  exists (nth k l d), r'. split; [done|]. apply list_elem_of_In, nth_In.
  pose proof (proj1 Hr (length l) r) as Hk. rewrite E in Hk. apply Hk. destruct l; [done|simpl; lia].
Qed.
Lemma randint_yields lo hi : (0 ≤ lo ≤ hi)%Z → (hi ≤ 100)%Z → yields (randint lo hi) (λ z, float_ok z = true).
Proof.
  intros Hlo Hhi r. unfold randint. pose proof (proj2 Hr lo hi r ltac:(lia)) as Hz.
  destruct (randint_draw lo hi r) as [z r']. exists z, r'. split; [done|]. apply float_ok_small. simpl in Hz. lia.
Qed.
Lemma any_yields {A} (m : M R A) Q : yields m Q → yields m (λ _, True).
Proof. intros Hm r. destruct (Hm r) as (a & r' & E & _). by exists a, r'. Qed.
Lemma flip_yields p : yields (below p) (λ _, True) ∧ yields (above p) (λ _, True).
Proof. split; intros r; unfold below, above; destruct (random_draw r) as [x r']; by eexists _, _. Qed.
Lemma draw_yields hi a b c d :
  (0 ≤ a ≤ b)%Z → (b ≤ 100)%Z → (0 ≤ c ≤ d)%Z → (d ≤ 100)%Z →
  yields (if hi : bool then randint a b else randint c d) (λ z, float_ok z = true).
Proof. intros. destruct hi; by apply randint_yields. Qed.

Lemma choice_float l d : l ≠ [] → forallb float_ok l = true → yields (choice l d) (λ z, float_ok z = true).
Proof.
  intros Hl Hall r. destruct (choice_yields l d Hl r) as (z & r' & E & Hz). exists z, r'. split; [exact E|].
  by apply (proj1 (forallb_forall _ _) Hall), list_elem_of_In.
Qed.

Lemma random_input_small hi : yields (random_input hi) small_input.
Proof.
  unfold random_input.
  eapply yields_bind; [by apply choice_yields|intros at_ _].
  eapply yields_bind; [|intros num _].
  { intros r. unfold randint. destruct (randint_draw 0 999 r) as [z r']. exists z, r'. by split; [|exact I]. }
  eapply yields_bind; [by apply choice_yields|intros op _].
  eapply yields_bind; [by apply choice_yields|intros cl _].
  eapply yields_bind; [apply draw_yields; lia|intros risk H1].
  do 2 (eapply yields_bind; [apply flip_yields|intros ? _]).
  eapply yields_bind; [|intros st _].
  { destruct hi; [eapply any_yields; by apply choice_yields|by apply yields_ret]. }
  do 3 (eapply yields_bind; [apply flip_yields|intros ? _]).
  do 3 (eapply yields_bind; [apply draw_yields; lia|intros ? ?]).
  eapply (yields_bind _ _ (λ z, float_ok z = true)).
  { destruct hi; apply choice_float; done. }
  intros bytes H5.
  do 2 (eapply yields_bind; [apply draw_yields; lia|intros ? ?]).
  eapply (yields_bind _ _ (λ z, float_ok z = true)); [destruct hi; [apply randint_yields; lia|by apply yields_ret]|intros ? ?].
  do 3 (eapply yields_bind; [apply draw_yields; lia|intros ? ?]).
  eapply (yields_bind _ _ (λ z, float_ok z = true)); [destruct hi; [apply randint_yields; lia|by apply yields_ret]|intros ? ?].
  apply yields_ret. unfold small_input. simpl. by repeat apply Forall_cons_2; try apply Forall_nil_2.
Qed.

(** Generation never fails: it yields as many inputs and labels as asked for, every input
    has features, and its label is the index of its verdict. *)
Lemma dataset_sound `{FloatMath} (n : nat) (seed : Z) :
  ∃ inputs labels, generate_dataset n seed = Ok (inputs, labels) ∧ length inputs = n ∧
    Forall (λ i, is_Some (VERDICT_BY_INDEX !! verdict_index (label i)) ∧ ∃ v, extract i = Ok v) inputs ∧
    labels = (λ i, verdict_index (label i)) <$> inputs.
Proof.
  assert (Hd : ∀ n i, yields (dataset_from i n) (λ d, length d.1 = n ∧ Forall small_input d.1 ∧
    d.2 = (λ i, verdict_index (label i)) <$> d.1)).
  { induction n0 as [|n0 IH]; intros i; simpl; [by apply yields_ret|].
    eapply yields_bind; [apply random_input_small|]. intros inp Hs.
    eapply yields_bind; [apply IH|]. intros [inps ls] (Hl & Hall & Hls). apply yields_ret. simpl in *.
    split; [by rewrite Hl|]. split; [by constructor|]. by rewrite Hls. }
  destruct (Hd n 0 (rng_seed seed)) as ([inputs labels] & r & E & Hl & Hall & Hls). exists inputs, labels.
  unfold generate_dataset. rewrite E. split_and!; try done.
  eapply Forall_impl; [exact Hall|]. intros i Hs. split; [by destruct (label i); eexists|by apply extract_small].
Qed.
End dataset_props.

(** * The export of the model ([export] of [judge/train.py]) *)

Definition ONNX_OPSET : Z := 17.
Definition ONNX_FILE : string := "judge_mlp.onnx".
Definition WEIGHTS_FILE : string := "judge_mlp.pt".
Definition JUDGE_MANIFEST_FILE : string := "judge_manifest.json".

(** [torch.onnx.export] and [torch.save] of a trained model: what they write. *)
Class Torch (Model : Type) := { onnx_bytes : Model → Z → string; weight_bytes : Model → string }.

Section export.
Context {Model : Type} `{Torch Model, Hashlib, Rfc8785, FloatRepr}.

(** [export]; directories are not recorded. *)
Definition export (model : Model) (artifact_dir : string) : M Files JudgeManifest :=
  let onnx_path := path_div artifact_dir ONNX_FILE in
  let! _ := cmodify <[onnx_path := onnx_bytes model ONNX_OPSET]> in
  let! _ := cmodify <[path_div artifact_dir WEIGHTS_FILE := weight_bytes model]> in
  let! f := cget in
  let! model_hash := clift (file_sha256 f onnx_path) in
  let! extractor := clift feature_extractor_hash in
  let m := mkJudgeManifest 1 1 ONNX_FILE ONNX_OPSET model_hash FEATURE_VERSION extractor
             (Z.of_nat N_FEATURES) FEATURE_NAMES (JudgeVerdict_value <$> VERDICT_BY_INDEX) (true_div 15 100) in
  let! _ := judge_manifest_write m (path_div artifact_dir JUDGE_MANIFEST_FILE) in
  cret m.

(** What was exported is what a judge loads: under its own manifest and with the bytes of the
    model, if the runtime takes them and the manifest reads back as it was written. *)
Lemma exported_judge_loads `{JudgeManifestSchema} `{FloatMath} `{OnnxRuntime} (model : Model) dir f m f' :
  export model dir f = (Ok m, f') →
  parse_judge_manifest (dumps_indent "" (judge_manifest_json m)) = Some m →
  onnx_loads (onnx_bytes model ONNX_OPSET) = true →
  new_judge f' dir JUDGE_MANIFEST_FILE = Ok (mkJudge m (onnx_bytes model ONNX_OPSET)).
Proof.
  unfold export. intros He Hparse Hload.
  apply cbind_ok in He as ([] & f1 & [= <-] & He). apply cbind_ok in He as ([] & f2 & [= <-] & He).
  apply cbind_ok in He as (g & f3 & [= <- <-] & He). apply cbind_ok in He as (h & f4 & Hh & He).
  unfold clift in Hh. injection Hh as Hh <-. apply cbind_ok in He as (x & f5 & Hx & He).
  unfold clift in Hx. injection Hx as Hx <-. apply cbind_ok in He as ([] & f6 & Hw & [= <- <-]).
  apply (f_equal snd) in Hw. cbn [snd] in Hw. unfold judge_manifest_write, cmodify in Hw. cbn [snd] in Hw. subst f6.
  set (m := mkJudgeManifest _ _ _ _ _ _ _ _ _ _ _) in *.
  pose proof (path_div_ne dir ONNX_FILE WEIGHTS_FILE eq_refl eq_refl ltac:(done)) as N1.
  pose proof (path_div_ne dir ONNX_FILE JUDGE_MANIFEST_FILE eq_refl eq_refl ltac:(done)) as N2.
  set (g := <[_ := weight_bytes model]> _) in *.
  assert (Hg : ∀ t, <[path_div dir JUDGE_MANIFEST_FILE := t]> g !! path_div dir ONNX_FILE
    = Some (onnx_bytes model ONNX_OPSET)).
  { intros t. rewrite lookup_insert_ne by done. unfold g. by rewrite lookup_insert_ne, lookup_insert_eq. }
  unfold new_judge. rewrite lookup_insert_eq. cbv beta iota. rewrite Hparse. unfold judge_verify_against_runtime.
  assert (Hhash : h = "sha256:" +:+ hex (sha256 (onnx_bytes model ONNX_OPSET))).
  { unfold file_sha256, read_bytes, g in Hh. rewrite lookup_insert_ne, lookup_insert_eq in Hh by done. naive_solver. }
  rewrite decide_False by (intros Hne; by apply Hne). rewrite decide_False by (intros Hne; by apply Hne).
  rewrite Hx. cbn [rbind]. rewrite decide_False by (intros Hne; by apply Hne).
  rewrite decide_False by (intros Hne; by apply Hne).
  change (onnx_file m) with ONNX_FILE. unfold file_sha256, read_bytes. rewrite Hg. cbn [rbind].
  rewrite decide_False by done. rewrite decide_False by (intros Hne; by apply Hne). cbn [rbind]. by rewrite Hload.
Qed.
End export.

(** * Witnesses: the same features of different histories *)

#[local] Existing Instance table_math.

Definition busy (a10 a60 : Z) : JudgeInput :=
  mkJudgeInput (ji_action ex_judge_input) (ji_policy ex_judge_input) NORMAL true true true a10 a60 2 0 0 0 0 0 2 0 0.
Definition busy_features : list spec_float := Eval vm_compute in
  match extract (busy 20 60) with Ok l => l | Err _ => [] end.

(** At counters at their caps and far beyond them. *)
Lemma label_from_features_witness : label (busy 20 60) = label (busy (2 ^ 70) (2 ^ 80)).
Proof.
  assert (Hi : extract (busy 20 60) = Ok busy_features) by (vm_compute; reflexivity).
  assert (Hj : extract (busy (2 ^ 70) (2 ^ 80)) = Ok busy_features) by (vm_compute; reflexivity).
  apply (label_from_features _ _ busy_features Hi Hj); intros Hn; vm_compute in Hn; discriminate Hn.
Defined.

(** At a busier history: SAFE turns into REVIEW. *)
Lemma label_cautious_witness :
  verdict_index (label (busy 20 60)) ≤ verdict_index (label (busy 3 5)) ∧ label (busy 20 60) ≠ label (busy 3 5).
Proof.
  split.
  - apply (label_cautious (busy 3 5) (busy 20 60)). split; try reflexivity; vm_compute; intros Hd; discriminate Hd.
  - vm_compute. discriminate.
Defined.
