(* ===== verification/ThresholdProc.v ===== *)
(** Key authorities as processes: the command line of an authority
    ([cvztte/cac/threshold/service.py]), the participant that starts it
    ([SubprocessParticipant] of [authority.py]) and the coordinator service
    ([services/decrypt-coordinator/main.py]).

    What a process prints is the JSON value itself: its reader parses what [json.dumps]
    wrote.  All processes run the one native executable of the model.  Arguments that start
    with a dash and are not options of the parsers are outside the model. *)

From S2P Require Export Threshold.
From S2P Require Import Concrete PyJson Ezkl StrictJson HttpApi EzklBuild.

#[local] Notation "'let+' p ':=' d 'in' k" := (dbind d (λ p, k))
  (at level 200, p name, d at level 200, k at level 200).

(** [AuthorityRole] *)
Inductive AuthorityRole : Set := DATA_OWNER | SECURITY_PRIVACY | CVZTTE_DECRYPTION.
Definition AuthorityRole_value (r : AuthorityRole) : string :=
  match r with
  | DATA_OWNER => "data_owner" | SECURITY_PRIVACY => "security_privacy"
  | CVZTTE_DECRYPTION => "cvztte_decryption"
  end.

(** * The command line ([build_parser]) *)

(** What [parse_args] makes of a command line: the values of the options and the rest, an
    error of usage, or a form outside the model. *)
Inductive parsed (A : Type) : Type := Parsed (a : A) | Usage | OtherForm.
Arguments Parsed {A} a.
Arguments Usage {A}.
Arguments OtherForm {A}.

Definition dashed (a : string) : bool := str_startswith a "-".

(** Options in front of the first positional argument: [opts] take a value, [flags] none. *)
Fixpoint take_options (opts flags : list string) (argv : list string) (ns : odict string string)
    : parsed (odict string string * list string) :=
  match argv with
  | [] => Parsed (ns, [])
  | a :: argv =>
      if bool_decide (a ∈ flags) then take_options opts flags argv (dset a "" ns)
      else if bool_decide (a ∈ opts) then
        match argv with
        | [] => Usage
        | v :: argv =>
            if bool_decide (v ∈ opts ++ flags) then Usage
            else if dashed v then OtherForm
            else take_options opts flags argv (dset a v ns)
        end
      else if dashed a then OtherForm
      else Parsed (ns, a :: argv)
  end.

(** The options of a subcommand, all required but [--lead]. *)
Definition subcommand_options (command : string) : option (list string * list string) :=
  if bool_decide (command = "keygen-lead") then
    Some (["--context-dir"; "--out-pub"; "--out-evalsum"], [])
  else if bool_decide (command = "keygen-join") then
    Some (["--context-dir"; "--prev-pub"; "--prev-evalsum"; "--out-pub"; "--out-evalsum"], [])
  else if bool_decide (command = "partial-decrypt") then
    Some (["--context-dir"; "--ciphertext"; "--out-partial"], ["--lead"])
  else None.

(** [build_parser(prog).parse_args(argv)]: the options of the parser, the subcommand and its
    options. *)
Definition parse_args (argv : list string) : parsed (odict string string * string * odict string string) :=
  match take_options ["--share-dir"; "--binary"] [] argv [] with
  | Parsed (ns, command :: argv) =>
      match subcommand_options command with
      | None => Usage
      | Some (opts, flags) =>
          match take_options opts flags argv [] with
          | Parsed (sub, []) =>
              if bool_decide (dget "--share-dir" ns = None) || existsb (λ o, bool_decide (dget o sub = None)) opts
              then Usage else Parsed (ns, command, sub)
          | Parsed (_, rest) => if existsb dashed rest then OtherForm else Usage
          | Usage => Usage
          | OtherForm => OtherForm
          end
      end
  | Parsed (_, []) => Usage
  | Usage => Usage
  | OtherForm => OtherForm
  end.

(** * The authority process ([run_authority_cli]) *)

(** An exit code and what was printed. *)
Notation process_end := (Z * option json)%type.

Section authority_process.
Context `{FHENative}.

(** The operation the command names. *)
Definition authority_operation (authority : Participant) (command : string) (ns : odict string string)
    : M Files json :=
  let get o := default "" (dget o ns) in
  if bool_decide (command = "keygen-lead") then
    keygen_lead authority (get "--context-dir") (get "--out-pub") (get "--out-evalsum")
  else if bool_decide (command = "keygen-join") then
    keygen_join authority (get "--context-dir") (get "--prev-pub") (get "--prev-evalsum") (get "--out-pub")
      (get "--out-evalsum")
  else partial_decrypt authority (get "--context-dir") (get "--ciphertext") (get "--out-partial")
         (bool_decide (dget "--lead" ns ≠ None)).

(** [run_authority_cli]; exit code 1 is that of an exception nobody catches *)
Definition run_authority_cli (party : string) (role : AuthorityRole) (argv : list string) (f : Files)
    : option (process_end * Files) :=
  match parse_args argv with
  | OtherForm => None
  | Usage => Some ((2%Z, None), f)
  | Parsed (ns, command, sub) =>
      let authority := KeyAuthority party (default "" (dget "--share-dir" ns)) in
      let '(r, f) := authority_operation authority command sub f in
      Some (match r with
            | Ok (JObj out) =>
                (0%Z, Some (JObj (dset "role" (JStr (AuthorityRole_value role)) (dset "party_id" (JStr party) out))))
            | Ok _ => (1%Z, None)
            | Err (Cvztte _) => (2%Z, None)
            | Err (PyExc _ _) => (1%Z, None)
            end, f)
  end.
End authority_process.

(** * The participant that starts a process ([SubprocessParticipant]) *)

(** A process that was started, did not end in time, or could not be started. *)
Inductive spawned : Type := SpawnEnded (e : process_end) | SpawnTimeout | SpawnFailed.
(** The operating system: a command line and the files. *)
Class Spawn := { spawn : list string → Files → spawned * Files }.

Section subprocess.
Context `{FHENative, Spawn}.

(** [SubprocessParticipant]: its fields, [python] resolved. *)
Record SubprocessParticipant : Set := mkSubprocess {
  sp_party_id : string; sp_entrypoint : string; sp_share_dir : string;
  sp_binary : option string; sp_python : string
}.
Implicit Types p : SubprocessParticipant.

(** The command line of [SubprocessParticipant._run] *)
Definition subprocess_argv p (subcmd : string) (args : list string) : list string :=
  [sp_python p; sp_entrypoint p; "--share-dir"; sp_share_dir p]
  ++ (match sp_binary p with Some b => if bool_decide (b = "") then [] else ["--binary"; b] | None => [] end)
  ++ subcmd :: args.

(** [SubprocessParticipant._run] *)
Definition subprocess_run p (subcmd : string) (args : list string) : M Files json := λ f,
  let '(o, f) := spawn (subprocess_argv p subcmd args) f in
  (match o with
   | SpawnFailed => Err (PyExc "FileNotFoundError" (sp_python p))
   | SpawnTimeout => err FHE_COMPUTE_TIMEOUT "key authority timed out"
   | SpawnEnded (code, out) =>
       if decide (code ≠ 0%Z) then err FHE_COMPUTE_FAILED "key authority process failed"
       else match out with
            | Some v => Ok v
            | None => err FHE_COMPUTE_FAILED "unparseable authority output"
            end
   end, f).

(** [keygen_lead], [keygen_join], [partial_decrypt] of [SubprocessParticipant] *)
Definition subprocess_participant p : Participant :=
  mkParticipant (sp_party_id p)
    (λ context_dir out_pub out_evalsum,
       subprocess_run p "keygen-lead"
         ["--context-dir"; context_dir; "--out-pub"; out_pub; "--out-evalsum"; out_evalsum])
    (λ context_dir prev_pub prev_evalsum out_pub out_evalsum,
       subprocess_run p "keygen-join"
         ["--context-dir"; context_dir; "--prev-pub"; prev_pub; "--prev-evalsum"; prev_evalsum;
          "--out-pub"; out_pub; "--out-evalsum"; out_evalsum])
    (λ context_dir ciphertext_path out_partial lead,
       subprocess_run p "partial-decrypt"
         (["--context-dir"; context_dir; "--ciphertext"; ciphertext_path; "--out-partial"; out_partial]
          ++ if lead : bool then ["--lead"] else [])).

(** * Remote and local authorities *)

(** The entrypoint of a party runs the authority's command line in a process that ends. *)
Definition serves (p : SubprocessParticipant) (role : AuthorityRole) : Prop :=
  ∀ args f e f', run_authority_cli (sp_party_id p) role args f = Some (e, f') →
    spawn (sp_python p :: sp_entrypoint p :: args) f = (SpawnEnded e, f').

(** What the process makes of the result of the operation. *)
Definition remote_result (party : string) (role : AuthorityRole) (r : res json) : res json :=
  match r with
  | Ok (JObj out) =>
      Ok (JObj (dset "role" (JStr (AuthorityRole_value role)) (dset "party_id" (JStr party) out)))
  | _ => err FHE_COMPUTE_FAILED "key authority process failed"
  end.

(** Neither an option nor the value of one. *)
Definition plain_arg (s : string) : Prop := dashed s = false.
Lemma plain_not_option s opts : plain_arg s → Forall (λ o, dashed o = true) opts → bool_decide (s ∈ opts) = false.
Proof.
  intros Hs Ho. apply bool_decide_false. intros Hin. rewrite Forall_forall in Ho. unfold plain_arg in Hs.
  rewrite (Ho _ Hin) in Hs. done.
Qed.
Lemma take_option opts flags o v argv ns :
  Forall (λ o, dashed o = true) (opts ++ flags) → o ∈ opts → o ∉ flags → plain_arg v →
  take_options opts flags (o :: v :: argv) ns = take_options opts flags argv (dset o v ns).
Proof.
  intros Hd Ho Hf Hv. cbn [take_options]. rewrite bool_decide_false, bool_decide_true by done.
  rewrite (plain_not_option v) by done. unfold plain_arg in Hv. by rewrite Hv.
Qed.
Lemma take_command opts flags c argv ns :
  Forall (λ o, dashed o = true) (opts ++ flags) → plain_arg c →
  take_options opts flags (c :: argv) ns = Parsed (ns, c :: argv).
Proof.
  intros [Ho Hf]%Forall_app Hc. cbn [take_options]. rewrite !(plain_not_option c) by done.
  unfold plain_arg in Hc. by rewrite Hc.
Qed.

(** The paths a participant passes on. *)
Definition plain_participant p : Prop :=
  plain_arg (sp_share_dir p) ∧ ∀ b, sp_binary p = Some b → plain_arg b.

(** The process of a participant is asked for the subcommand with its options. *)
Lemma subprocess_run_serves p role command args opts flags sub f :
  serves p role → plain_participant p → plain_arg command →
  subcommand_options command = Some (opts, flags) →
  take_options opts flags args [] = Parsed (sub, []) →
  existsb (λ o, bool_decide (dget o sub = None)) opts = false →
  subprocess_run p command args f =
    (let '(r, f') := authority_operation (KeyAuthority (sp_party_id p) (sp_share_dir p)) command sub f in
     (remote_result (sp_party_id p) role r, f')).
Proof.
  intros Hs [Hshare Hbin] Hc Hopts Hargs Hreq.
  assert (Hparse : ∃ ns, parse_args (tail (tail (subprocess_argv p command args))) = Parsed (ns, command, sub) ∧
    dget "--share-dir" ns = Some (sp_share_dir p)).
  { assert (Hd : Forall (λ o, dashed o = true) (["--share-dir"; "--binary"] ++ [])) by by repeat constructor.
    unfold parse_args, subprocess_argv. simpl tail.
    rewrite take_option by (done || set_solver). set (ns0 := dset _ _ _).
    assert (Hb : ∃ ns, take_options ["--share-dir"; "--binary"] []
      (match sp_binary p with Some b => if bool_decide (b = "") then [] else ["--binary"; b] | None => [] end
       ++ command :: args) ns0 = Parsed (ns, command :: args) ∧ dget "--share-dir" ns = Some (sp_share_dir p)).
    { destruct (sp_binary p) as [b|] eqn:Eb.
      - case_bool_decide; simpl app; [exists ns0; by rewrite take_command|].
        exists (dset "--binary" b ns0). rewrite take_option by (done || set_solver || by apply Hbin).
        rewrite take_command by done. by split.
      - exists ns0. simpl app. by rewrite take_command. }
    destruct Hb as (ns & E & Hns). exists ns. rewrite E, Hopts, Hargs, Hns. by rewrite Hreq. }
  destruct Hparse as (ns & Hp & Hns). unfold subprocess_run.
  destruct (authority_operation _ command sub f) as [r f'] eqn:Hop.
  pose proof (Hs (tail (tail (subprocess_argv p command args))) f) as Hrun. unfold run_authority_cli in Hrun.
  rewrite Hp, Hns in Hrun. simpl default in Hrun. rewrite Hop in Hrun. specialize (Hrun _ _ eq_refl).
  change (sp_python p :: sp_entrypoint p :: tail (tail (subprocess_argv p command args)))
    with (subprocess_argv p command args) in Hrun.
  rewrite Hrun. by destruct r as [[| | | | | |out]|[e|c a]].
Qed.
End subprocess.

(** * A remote authority is a local one *)

(** What a local computation and one over processes return: the same exception, or that
    of a failed process, and values in relation; the files are the same. *)
Definition masks {A} (R : A → A → Prop) (local remote : M Files A) : Prop :=
  ∀ f, (remote f).2 = (local f).2 ∧
    match (local f).1, (remote f).1 with
    | Ok a, Ok b => R a b
    | Err x, Err y => Err y = Err (A := A) x ∨ Err y = err (A := A) FHE_COMPUTE_FAILED "key authority process failed"
    | _, _ => False
    end.

Lemma masks_refl {A} (R : A → A → Prop) (m : M Files A) : (∀ a, R a a) → masks R m m.
Proof. intros HR f. split; [done|]. destruct (m f).1; [done|by left]. Qed.
Lemma masks_bind {A B} (R : A → A → Prop) (S : B → B → Prop) m m' (k k' : A → M Files B) :
  masks R m m' → (∀ a b, R a b → masks S (k a) (k' b)) → masks S (cbind m k) (cbind m' k').
Proof.
  intros Hm Hk f. unfold cbind. specialize (Hm f) as [Hf Hr].
  destruct (m f) as [[a|x] g], (m' f) as [[b|y] g']; simpl in *; subst; try done.
  - exact (Hk _ _ Hr g).
  - split; [done|]. destruct Hr as [[= ->]|[= ->]]; auto.
Qed.

(** The operations of the local and of the remote participant, on plain paths. *)
Record stands_for (local remote : Participant) : Prop := {
  same_party : party_id remote = party_id local;
  same_lead c p e : plain_arg c → plain_arg p → plain_arg e →
    masks (λ _ _, True) (keygen_lead local c p e) (keygen_lead remote c p e);
  same_join c p e p' e' : plain_arg c → plain_arg p → plain_arg e → plain_arg p' → plain_arg e' →
    masks (λ _ _, True) (keygen_join local c p e p' e') (keygen_join remote c p e p' e');
  same_partial c ct out lead : plain_arg c → plain_arg ct → plain_arg out →
    masks (λ _ _, True) (partial_decrypt local c ct out lead) (partial_decrypt remote c ct out lead)
}.

(** Options with plain values, read one after the other. *)
Ltac take_plain := repeat (rewrite take_option; [|by repeat constructor|set_solver|set_solver|done]).

Section remote.
Context `{FHENative, Spawn}.

(** What the native executable prints on success is an object. *)
Definition native_objects : Prop :=
  ∀ args f v f', native_run args f = (NExited 0 (Some v), f') → ∃ kvs, v = JObj kvs.

Lemma masks_remote party role (m : M Files json) (m' : M Files json) :
  (∀ f v f', m f = (Ok v, f') → ∃ kvs, v = JObj kvs) →
  (∀ f, m' f = (let '(r, f') := m f in (remote_result party role r, f'))) →
  masks (λ _ _, True) m m'.
Proof.
  intros Hobj Hm f. rewrite Hm. pose proof (Hobj f) as Hof. destruct (m f) as [[v|x] f'].
  - destruct (Hof _ _ eq_refl) as [kvs ->]. done.
  - split; [done|]. by right.
Qed.

Lemma run_broker_json_object args f v f' :
  native_objects → run_broker_json args f = (Ok v, f') → ∃ kvs, v = JObj kvs.
Proof.
  intros Hn. unfold run_broker_json. destruct (negb native_built); [done|].
  destruct (native_run args f) as [[|code [w|]] g] eqn:E; repeat case_decide; try done.
  intros [= <- <-]. assert (code = 0%Z) as -> by (destruct (decide (code = 0%Z)); done). eauto.
Qed.

(** A participant served by the entrypoint of its party stands for the authority with its
    share directory. *)
Lemma subprocess_stands_for p role :
  native_objects → serves p role → plain_participant p →
  stands_for (KeyAuthority (sp_party_id p) (sp_share_dir p)) (subprocess_participant p).
Proof.
  intros Hn Hs Hp. split; [done|intros c p1 e Hc H1 H2|intros c p1 e p' e' Hc H1 H2 H3 H4|intros c ct out [] Hc H1 H2];
    (apply (masks_remote (sp_party_id p) role); [intros f v f'; by apply run_broker_json_object|intros f]);
    (etrans; [eapply (subprocess_run_serves p role); [done|done|done|reflexivity|simpl app; take_plain|]|]);
    reflexivity.
Qed.

(** Two lists of participants, one standing for the other. *)
Lemma stand_for_parties locals remotes :
  Forall2 stands_for locals remotes → party_id <$> remotes = party_id <$> locals.
Proof. induction 1 as [|l r ls rs Hl _ IH]; [done|]. csimpl. by rewrite IH, (same_party _ _ Hl). Qed.

Lemma starts_with_cons c s : str_startswith s (String c "") = match s with
  | String d _ => bool_decide (c = d) | EmptyString => false end.
Proof.
  destruct s as [|d s]; [done|]. unfold str_startswith. cbn [String.prefix].
  destruct (Ascii.ascii_dec c d); [rewrite bool_decide_true by done; by destruct s|by rewrite bool_decide_false].
Qed.
Lemma plain_path_div a b : plain_arg a → plain_arg (path_div a b).
Proof.
  unfold plain_arg, path_div, dashed. rewrite !starts_with_cons. intros Ha.
  destruct b as [|c b]; [by destruct a|]. case_bool_decide as Hc; [by subst c|by destruct a].
Qed.
End remote.

(** ** The ceremony and the decryption over processes *)

Section protocols.
Context `{FHENative}.

Lemma masks_collect ctx ct dir run locals remotes lead :
  plain_arg ctx → plain_arg ct → plain_arg dir → Forall2 stands_for locals remotes →
  masks eq (collect_partials ctx ct dir run lead locals) (collect_partials ctx ct dir run lead remotes).
Proof.
  intros Hc Hct Hd Hl. revert lead. induction Hl as [|l r ls rs Hlr _ IH]; intros lead; [by apply masks_refl|].
  cbn [collect_partials].
  assert (Ho : partial_path dir run r = partial_path dir run l) by (unfold partial_path; by rewrite (same_party _ _ Hlr)).
  rewrite Ho. eapply masks_bind; [apply Hlr; [done|done|by apply plain_path_div]|]. intros _ _ _.
  eapply masks_bind; [apply IH|]. intros ? ? <-. by apply masks_refl.
Qed.

Lemma masks_rounds ctx dir locals remotes pub es :
  plain_arg ctx → plain_arg dir → plain_arg pub → plain_arg es → Forall2 stands_for locals remotes →
  masks eq (join_rounds ctx dir locals pub es) (join_rounds ctx dir remotes pub es).
Proof.
  intros Hc Hd Hp He Hl. revert pub es Hp He. induction Hl as [|l r ls rs Hlr _ IH]; intros pub es Hp He; [by apply masks_refl|].
  cbn [join_rounds]. rewrite (same_party _ _ Hlr).
  eapply masks_bind; [apply Hlr; auto using plain_path_div|]. intros _ _ _. apply IH; by apply plain_path_div.
Qed.

Lemma masks_provision ws locals remotes c :
  plain_arg ws → Forall2 stands_for locals remotes →
  masks eq (provision ws locals c) (provision ws remotes c).
Proof.
  intros Hw Hl. unfold provision. rewrite (Forall2_length _ _ _ Hl). case_decide; [by apply masks_refl|].
  eapply masks_bind; [by apply (masks_refl eq)|]. intros gen ? <-.
  pose proof (stand_for_parties _ _ Hl) as Hids. destruct Hl as [|l r ls rs Hlr Hl]; [by apply masks_refl|].
  rewrite (same_party _ _ Hlr).
  eapply masks_bind; [apply Hlr; auto using plain_path_div|]. intros _ _ _.
  eapply masks_bind; [apply masks_rounds; auto using plain_path_div|]. intros keys ? <-.
  eapply masks_bind; [by apply (masks_refl eq)|]. intros ? ? <-.
  eapply masks_bind; [by apply (masks_refl eq)|]. intros dim ? <-.
  assert (Hj : (λ p, JStr (party_id p)) <$> r :: rs = (λ p, JStr (party_id p)) <$> l :: ls).
  { pose proof (f_equal (fmap JStr) Hids) as Hj. rewrite <-!list_fmap_compose in Hj. exact Hj. }
  rewrite Hj. by apply masks_refl.
Qed.

Lemma masks_decrypt `{Hashlib, FloatOfStr} ws locals remotes n ctx path len rq run :
  plain_arg ws → plain_arg ctx → plain_arg path → Forall2 stands_for locals remotes →
  masks eq (coordinator_decrypt ws locals n ctx path len rq run)
           (coordinator_decrypt ws remotes n ctx path len rq run).
Proof.
  intros Hw Hc Hp Hl. unfold coordinator_decrypt. rewrite (Forall2_length _ _ _ Hl).
  case_decide; [by apply masks_refl|]. eapply masks_bind; [by apply (masks_refl eq)|]. intros _ _ _.
  eapply masks_bind; [apply masks_collect; auto using plain_path_div|]. intros paths ? <-. by apply masks_refl.
Qed.
End protocols.

(** * The coordinator service ([services/decrypt-coordinator/main.py]) *)

(** [CACPermission]: the values *)
Definition CACPermission_value (p : CACPermission) : string :=
  match p with
  | READ_PLAINTEXT => "READ_PLAINTEXT"
  | COMPUTE_ON_CIPHERTEXT => "COMPUTE_ON_CIPHERTEXT"
  | DECRYPT_RESULT => "DECRYPT_RESULT"
  end.

(** The values a [for] visits. *)
Definition py_iter (v : json) : dyn (list json) :=
  match v with
  | JArr l => dret l
  | JStr s => dret ((λ c, JStr (encode_cp c)) <$> code_points s)
  | JObj kvs => dret (JStr <$> kvs.*1)
  | _ => dthrow "TypeError" "object is not iterable"
  end.
Fixpoint dmap {A B} (g : A → dyn B) (l : list A) : dyn (list B) :=
  match l with
  | [] => dret []
  | a :: l => let+ b := g a in let+ bs := dmap g l in dret (b :: bs)
  end.
(** [job[k]] where a string is declared. *)
Definition item_str (k : string) (v : json) : dyn string := let+ x := Known (json_item k v) in as_str x.

Section coordinator_service.
Context `{FHENative, Spawn, Hashlib, FloatOfStr, FloatLiteral, HttpText}.
(** The interpreter: its limits, and [sys.executable]. *)
Variables (int_max frames : nat) (python : string).

(** The options of [main]'s parser, all required but [--binary]. *)
Definition coordinator_args (argv : list string) : parsed (string * string * option string) :=
  match take_options ["--job"; "--workspace"; "--binary"] [] argv [] with
  | Parsed (ns, []) =>
      match dget "--job" ns, dget "--workspace" ns with
      | Some job, Some ws => Parsed (job, ws, dget "--binary" ns)
      | _, _ => Usage
      end
  | Parsed (_, rest) => if existsb dashed rest then OtherForm else Usage
  | Usage => Usage
  | OtherForm => OtherForm
  end.

(** The participants of the job. *)
Definition job_participant (binary : option string) (p : json) : dyn SubprocessParticipant :=
  let+ id := item_str "party_id" p in
  let+ entrypoint := item_str "entrypoint" p in
  let+ share_dir := item_str "share_dir" p in
  dret (mkSubprocess id entrypoint share_dir binary python).
Definition job_participants (binary : option string) (job : json) : dyn (list SubprocessParticipant) :=
  let+ ps := Known (json_item "participants" job) in
  let+ ps := py_iter ps in
  dmap (job_participant binary) ps.

(** [_build_request] *)
Definition build_request (spec : json) (result_bytes expected_hash : string) : dyn DecryptReleaseRequest :=
  let+ recipient := item_str "recipient" spec in
  let+ purpose := item_str "purpose" spec in
  let+ cls := Known (json_item "classification" spec) in
  let+ cls := py_enum DataClassification_value [PUBLIC; INTERNAL; CONFIDENTIAL; SECRET] cls in
  let+ doc := as_dict spec in
  let+ granted := py_iter (get doc "granted" (JArr [])) in
  let+ granted := dmap (py_enum CACPermission_value [READ_PLAINTEXT; COMPUTE_ON_CIPHERTEXT; DECRYPT_RESULT]) granted in
  let+ state := py_enum ContainmentState_value [NORMAL; SUSPICIOUS; RESTRICTED; QUARANTINED; TERMINATED]
                  (get doc "containment_state" (JStr "NORMAL")) in
  let+ approval_id := as_opt_str (get doc "approval_id" JNull) in
  dret (mkRelease recipient purpose cls (list_to_set granted) state result_bytes expected_hash
          (py_bool (get doc "approval_granted" (JBool false))) approval_id).

(** The release request of the job. *)
Definition job_request (job : json) (f : Files) : dyn DecryptReleaseRequest :=
  let+ path := item_str "result_path" job in
  let+ bytes := Known (read_bytes f path) in
  let+ spec := Known (json_item "release" job) in
  let+ hash := item_str "expected_result_hash" job in
  build_request spec bytes hash.

(** What [main] does with the job; [run_id] is the draw of the coordinator. *)
Definition run_job (ws : string) (binary : option string) (run_id : string) (job : json) (f : Files)
    : dyn (M Files (list spec_float)) :=
  let+ ps := job_participants binary job in
  let+ rq := job_request job f in
  let+ ctx := item_str "context_dir" job in
  let+ path := item_str "result_path" job in
  let+ len := Known (json_item "length" job) in
  let+ len := py_int len in
  dret (coordinator_decrypt ws (subprocess_participant <$> ps) (Z.of_nat (length ps)) ctx path len rq run_id).

(** [main] *)
Definition coordinator_main (run_id : string) (argv : list string) (f : Files) : option (process_end * Files) :=
  match coordinator_args argv with
  | OtherForm => None
  | Usage => Some ((2%Z, None), f)
  | Parsed (job_path, ws, binary) =>
      match read_json int_max frames job_path f with
      | (Err _, f) => Some ((1%Z, None), f)
      | (Ok job, f) =>
          match run_job ws binary run_id job f with
          | Untyped => None
          | Known (Err _) => Some ((1%Z, None), f)
          | Known (Ok m) =>
              let '(r, f) := m f in
              Some (match r with
                    | Ok vals => (0%Z, Some (JObj [("values", JArr (JFloat <$> vals))]))
                    | Err (Cvztte _) => (2%Z, None)
                    | Err (PyExc _ _) => (1%Z, None)
                    end, f)
          end
      end
  end.
End coordinator_service.

(** * Theorems *)

Section theorems.
Context `{FHENative, Spawn, Hashlib, FloatOfStr, FloatLiteral, HttpText}.
Implicit Types ps : list SubprocessParticipant.

(** The authorities of the processes, in this process. *)
Definition local_authority (p : SubprocessParticipant) : Participant :=
  KeyAuthority (sp_party_id p) (sp_share_dir p).
(** Every process is the entrypoint of its party, started on plain paths. *)
Definition deployed ps : Prop := Forall (λ p, plain_participant p ∧ ∃ role, serves p role) ps.

Lemma deployed_stand_for ps :
  native_objects → deployed ps → Forall2 stands_for (local_authority <$> ps) (subprocess_participant <$> ps).
Proof.
  intros Hn Hd. rewrite Forall2_fmap. apply Forall_Forall2_diag. eapply Forall_impl; [exact Hd|].
  intros p [Hp [role Hs]]. by eapply subprocess_stands_for.
Qed.

(** C38. Isolation in processes changes no result.  When every entrypoint runs the command
    line of its authority, the key ceremony and the decryption over the processes leave
    the files that they leave over the authorities themselves, return the same value
    whenever one of them returns, and fail when one of them fails, with the same
    exception or with the report of a failed process. *)
Theorem processes_change_nothing ps ws c n ctx path len rq run :
  native_objects → deployed ps → plain_arg ws → plain_arg ctx → plain_arg path →
  masks eq (provision ws (local_authority <$> ps) c) (provision ws (subprocess_participant <$> ps) c) ∧
  masks eq (coordinator_decrypt ws (local_authority <$> ps) n ctx path len rq run)
           (coordinator_decrypt ws (subprocess_participant <$> ps) n ctx path len rq run).
Proof.
  intros Hn Hd Hw Hc Hp. pose proof (deployed_stand_for ps Hn Hd).
  split; [by apply masks_provision|by apply masks_decrypt].
Qed.

Variables (int_max frames : nat) (python : string).

Lemma read_json_files path f r f' : read_json int_max frames path f = (r, f') → f' = f.
Proof. unfold read_json, cbind, cget, clift. by intros [= _ <-]. Qed.

(** What a job that is run consists of. *)
Lemma run_job_ok ws binary run_id job f m :
  run_job python ws binary run_id job f = Known (Ok m) →
  ∃ ps rq ctx path len,
    job_participants python binary job = Known (Ok ps) ∧ job_request job f = Known (Ok rq) ∧
    item_str "result_path" job = Known (Ok path) ∧
    m = coordinator_decrypt ws (subprocess_participant <$> ps) (Z.of_nat (length ps)) ctx path len rq run_id.
Proof.
  unfold run_job. intros (ps & Hps & Hm)%dbind_ok. apply dbind_ok in Hm as (rq & Hrq & Hm).
  apply dbind_ok in Hm as (ctx & _ & Hm). apply dbind_ok in Hm as (path & Hpath & Hm).
  apply dbind_ok in Hm as (v & _ & Hm). apply dbind_ok in Hm as (len & _ & Hm).
  apply dret_ok in Hm as <-. exists ps, rq, ctx, path, len. by split_and!.
Qed.
Lemma job_request_ok job f rq :
  job_request job f = Known (Ok rq) →
  ∃ path, item_str "result_path" job = Known (Ok path) ∧ f !! path = Some (result_ciphertext_bytes rq) ∧
    item_str "expected_result_hash" job = Known (Ok (expected_result_hash rq)).
Proof.
  unfold job_request. intros (path & Hpath & Hrq)%dbind_ok. apply dbind_ok in Hrq as (bytes & Hb & Hrq).
  apply dbind_ok in Hrq as (spec & _ & Hrq). apply dbind_ok in Hrq as (hash & Hh & Hrq).
  assert (Hf : f !! path = Some bytes).
  { injection Hb as Hb. unfold read_bytes in Hb. destruct (f !! path); [by injection Hb as ->|done]. }
  exists path. revert Hrq. unfold build_request.
  do 8 (intros (? & _ & Hrq)%dbind_ok; revert Hrq).
  intros (? & _ & <-%dret_ok)%dbind_ok. done.
Qed.

(** C16. What the coordinator service prints is released and is the work of every party the
    job names: the result file holds the bytes whose hash the job states, the release of
    the job passes the gate (the right to decrypt, a normal state, approval where the
    classification needs it), and each party's process, the first as lead, has answered
    with its partial decryption of that file.  Exit code 0 goes with plaintext and only
    with it. *)
Theorem coordinator_prints_released run_id argv f code o f' :
  coordinator_main int_max frames python run_id argv f = Some ((code, o), f') →
  (code = 0%Z ↔ is_Some o) ∧
  ∀ out, o = Some out →
  ∃ job_path ws binary job ps rq path ctx vals f1,
    coordinator_args argv = Parsed (job_path, ws, binary) ∧
    read_json int_max frames job_path f = (Ok job, f) ∧
    job_participants python binary job = Known (Ok ps) ∧ job_request job f = Known (Ok rq) ∧
    f !! path = Some (result_ciphertext_bytes rq) ∧
    DECRYPT_RESULT ∈ rl_granted rq ∧ rl_containment_state rq = NORMAL ∧
    domain_hash_hex D_FHE_RESULT (result_ciphertext_bytes rq) = expected_result_hash rq ∧
    (approval_required_class (rl_classification rq) = true → rl_approval_granted rq = true) ∧
    all_answered (λ lead p, partial_decrypt p ctx path (partial_path (path_div ws "partials") run_id p) lead)
      true (subprocess_participant <$> ps) f f1 ∧
    out = JObj [("values", JArr (JFloat <$> vals))].
Proof.
  unfold coordinator_main. destruct (coordinator_args argv) as [[[job_path ws] binary]| |] eqn:Ha; [|by intros [= <- <- <-]; split; [by split; [|intros []]|]|done].
  destruct (read_json int_max frames job_path f) as [[job|x] g] eqn:Hj; pose proof (read_json_files _ _ _ _ Hj) as ->.
  2: { intros [= <- <- <-]. split; [by split; [|intros []]|done]. }
  destruct (run_job python ws binary run_id job f) as [[m|x]|] eqn:Hm; [|by intros [= <- <- <-]; split; [by split; [|intros []]|]|done].
  destruct (m f) as [r g] eqn:Hr. destruct r as [vals|[c|cl a]]; intros [= <- <- <-];
    [|by split; [by split; [|intros []]|]..].
  split; [by split|]. intros out [= <-].
  apply run_job_ok in Hm as (ps & rq & ctx & path & len & Hps & Hrq & Hpath & ->).
  apply coordinator_decrypt_ok in Hr as (_ & (? & ? & ? & ?)%release_authorize_ok & f1 & _ & _ & Hall & _).
  pose proof (job_request_ok _ _ _ Hrq) as (path' & Hpath' & Hf & _). rewrite Hpath in Hpath'. injection Hpath' as <-.
  by exists job_path, ws, binary, job, ps, rq, path, ctx, vals, f1.
Qed.
End theorems.

(** * Witnesses: three entrypoints, and a job over them *)

Import ShortInstances.
#[local] Existing Instances mp_native toy_float toy_repr.
#[local] Existing Instances ascii_text no_literals.

Definition entrypoint_of (script : string) : string * AuthorityRole :=
  if bool_decide (script = "a.py") then ("A", DATA_OWNER)
  else if bool_decide (script = "b.py") then ("B", SECURITY_PRIVACY) else ("C", CVZTTE_DECRYPTION).
Definition toy_spawn : Spawn := {|
  spawn argv f :=
    match argv with
    | _ :: script :: args =>
        match run_authority_cli (entrypoint_of script).1 (entrypoint_of script).2 args f with
        | Some (e, f) => (SpawnEnded e, f)
        | None => (SpawnTimeout, f)
        end
    | _ => (SpawnFailed, f)
    end |}.
#[local] Existing Instances toy_spawn.

Definition ex_processes : list SubprocessParticipant :=
  [mkSubprocess "A" "a.py" "/shares/a" None "python"; mkSubprocess "B" "b.py" "/shares/b" None "python";
   mkSubprocess "C" "c.py" "/shares/c" (Some "/bin/fhe_broker") "python"].
Definition ex_fused_remotely :=
  coordinator_decrypt "/ws" (subprocess_participant <$> ex_processes) 3 "/ctx" "/ct" 1 ex_release_rq "run" ∅.
Example ex_fused_remotely_values : ex_fused_remotely.1 = Ok [of_int 3].
Proof. vm_compute. reflexivity. Qed.

Lemma mp_native_objects : native_objects.
Proof.
  intros args f v f' E. unfold native_run, mp_native in E.
  repeat (case_match; simplify_eq; eauto).
Qed.

(** C38 over three processes. *)
Lemma processes_change_nothing_witness :
  (coordinator_decrypt "/ws" (local_authority <$> ex_processes) 3 "/ctx" "/ct" 1 ex_release_rq "run" ∅).1
  = Ok [of_int 3].
Proof.
  assert (Hp : plain_arg "/ws" ∧ plain_arg "/ctx" ∧ plain_arg "/ct") by (vm_compute; done).
  assert (Hd : deployed ex_processes).
  { repeat constructor; try done.
    all: try (eexists; intros args f e f' Hrun; unfold spawn, toy_spawn; cbn [sp_entrypoint sp_python sp_party_id] in *;
              unfold entrypoint_of; simpl bool_decide; cbn [fst snd]; rewrite Hrun; reflexivity).
    intros b [= <-]. done. }
  destruct Hp as (Hw & Hc & Hct).
  pose proof (processes_change_nothing ex_processes "/ws" ex_ctx 3 "/ctx" "/ct" 1 ex_release_rq "run"
                mp_native_objects Hd Hw Hc Hct) as [_ Hm].
  destruct (Hm ∅) as [_ Hr]. pose proof ex_fused_remotely_values as E. unfold ex_fused_remotely in E.
  rewrite E in Hr. destruct (coordinator_decrypt "/ws" (local_authority <$> ex_processes) _ _ _ _ _ _ _).1 as [v|x]; [|done].
  by rewrite Hr.
Defined.

(** A job file that names only one of the authorities that share the key. *)
Definition ex_job_party (id script share : string) : json :=
  JObj [("party_id", JStr id); ("entrypoint", JStr script); ("share_dir", JStr share)].
Definition ex_job (parties : list json) : json :=
  JObj [("context_dir", JStr "/ctx"); ("result_path", JStr "/ct"); ("length", JInt 1);
        ("expected_result_hash", JStr (domain_hash_hex D_FHE_RESULT ex_release_bytes));
        ("participants", JArr parties);
        ("release", JObj [("recipient", JStr "bob"); ("purpose", JStr "audit"); ("classification", JStr "SECRET");
                          ("granted", JArr [JStr "DECRYPT_RESULT"]); ("approval_granted", JBool true)])].
Definition ex_job_files (parties : list json) : Files :=
  <["/job" := json_dumps (ex_job parties)]> {["/ct" := ex_release_bytes]}.
Definition ex_service (parties : list json) :=
  coordinator_main 4300 100 "python" "run" ["--job"; "/job"; "--workspace"; "/ws"] (ex_job_files parties).

Definition ex_all_parties : list json :=
  [ex_job_party "A" "a.py" "/shares/a"; ex_job_party "B" "b.py" "/shares/b"; ex_job_party "C" "c.py" "/shares/c"].
Example ex_service_all : fst <$> ex_service ex_all_parties = Some (0%Z, Some (JObj [("values", JArr [JFloat (of_int 3)])])).
Proof. vm_compute. reflexivity. Qed.

(** The count of the parties is compared with itself: the service asks one party, or one
    party twice, and fuses what it has. *)
Example count_check_vacuous :
  fst <$> ex_service [ex_job_party "B" "b.py" "/shares/b"] = Some (0%Z, Some (JObj [("values", JArr [JFloat (of_int 1)])])) ∧
  fst <$> ex_service [ex_job_party "B" "b.py" "/shares/b"; ex_job_party "B" "b.py" "/shares/b"]
    = Some (0%Z, Some (JObj [("values", JArr [JFloat (of_int 2)])])).
Proof. vm_compute. split; reflexivity. Qed.

(** C16 on the job with the three parties. *)
Lemma coordinator_prints_released_witness :
  ∃ job ps rq, job_participants "python" None job = Known (Ok ps) ∧ length ps = 3 ∧
    job_request job (ex_job_files ex_all_parties) = Known (Ok rq) ∧ DECRYPT_RESULT ∈ rl_granted rq.
Proof.
  pose proof ex_service_all as Hv. destruct (ex_service ex_all_parties) as [[[code o] f']|] eqn:E; [|discriminate].
  cbn [fmap option_fmap option_map fst] in Hv. injection Hv as Hc Ho.
  destruct (coordinator_prints_released 4300 100 "python" "run" ["--job"; "/job"; "--workspace"; "/ws"]
              (ex_job_files ex_all_parties) code o f' E) as [_ Hout].
  destruct (Hout _ Ho) as (jp & ws & bin & job & ps & rq & path & ctx & vals & f1 & Ha & Hj & Hps & Hrq & _ & Hg & _).
  vm_compute in Ha. injection Ha as <- <- <-.
  assert (Hlen : match (read_json 4300 100 "/job" (ex_job_files ex_all_parties)).1 with
                 | Ok job => match job_participants "python" None job with Known (Ok ps) => length ps = 3 | _ => False end
                 | Err _ => False end) by (vm_compute; reflexivity).
  rewrite Hj in Hlen. cbn [fst] in Hlen. rewrite Hps in Hlen.
  exists job, ps, rq. by split_and!.
Defined.
