(* ===== verification/Gateway.v ===== *)
(** The gateway process ([apps/gateway/server.py]): its settings, the wiring of
    [build_api], and what the server does over HTTP after it has started.

    The signer and the OPA client are what their constructors return
    ([Signer.new_signer], [Policy.new_opa_client]); a gateway has no broker, so the
    enforcement side of the plane is the presented-token store alone. *)

From S2P Require Export HttpApi.
From S2P Require Import PyIso Concrete PlaneProps CACBroker.

#[local] Notation "'let?' ' p ':=' m 'in' k" := (rbind m (λ p, k))
  (at level 200, p strict pattern, m at level 200, k at level 200).

(** [DEFAULT_TTL_SECONDS] of [decision/authority.py] *)
Definition AUTHORITY_TTL_SECONDS : Z := 30.

(** [_token_key], of the variable and of what [secrets.token_bytes] draws *)
Definition token_key (env : option string) (drawn : string) : res string :=
  match env with
  | Some k => if decide (k = "") then Ok drawn
              else if decide (String.length k ≠ 32) then
                Err (PyExc "SystemExit" "CVZTTE_TOKEN_KEY must be exactly 32 bytes")
              else Ok k
  | None => Ok drawn
  end.

(** [{a for a in v.split(",") if a}] *)
Definition comma : Ascii.ascii := Ascii.ascii_of_nat 44.
Definition admins_of (v : string) : AdminAuthorizer :=
  list_to_set (filter (λ a, a ≠ "") (py_split comma v)).

Section gateway.
Context `{Hashlib, Rfc8785, Pydantic, SignatureProvider, IsoParser, OPA, PolicySchema}.
Context {G E K W : Type} `{ReplayGuardProtocol G E} `{ReceiptSink K}.
Context `{HttpText, EnvelopeSchema, FloatLiteral}.
Abbreviation facade := (Facade (G := G) (K := K) (W := W)).
(** The sink and the world of the brokers that a gateway does not have. *)
Variables (no_sink : K) (no_world : W).

(** [build_api], of what the constructors of the signer and of the OPA client return *)
Definition build_api (signer : res unit) (opa_client : res string) (key : string)
    : res (PlaneConfig * facade) :=
  let? _ := signer in
  let? auth := new_authority key AUTHORITY_TTL_SECONDS in
  let? _ := opa_client in
  Ok (mkConfig auth "" L4,
      mkFacade (mkPlane new_key_registry ∅ (new_approval_store DEFAULT_APPROVAL_TTL_SECONDS) None
                  (new_engine None (Some default_epochs) (seconds 300))
                  (mkES (mkValidator key default_epochs ∅ ∅) no_sink no_world) ∅) None).

(** [main] up to the server: the address, the administrators and the planes *)
Definition gateway_main (environ : gmap string string) (root drawn : string)
    (signer : string → res unit) (opa_client : string → res string)
    : res (string * Z * AdminAuthorizer * PlaneConfig * facade) :=
  let getenv k d := default d (environ !! k) in
  let host := getenv "CVZTTE_HOST" "127.0.0.1" in
  let? port := match int_of_str (getenv "CVZTTE_PORT" "8080") with
               | Some z => Ok z | None => Err (PyExc "ValueError" "invalid literal for int()") end in
  let keystore := getenv "CVZTTE_KEYSTORE" (path_div root ".gateway-keystore") in
  let bundle := getenv "CVZTTE_POLICY_BUNDLE" (path_div (path_div root "policy") "rego") in
  let admins := admins_of (getenv "CVZTTE_ADMINS" "admin_root") in
  let? key := token_key (environ !! "CVZTTE_TOKEN_KEY") drawn in
  let? '(cfg, api) := build_api (signer keystore) (opa_client bundle) key in
  Ok (host, port, admins, cfg, api).

(** * Nothing is registered *)

(** A plane without agents, keys, sessions, decisions and tokens. *)
Record idle (s : facade) : Prop := {
  idle_agents : agents (key_registry (fa_plane s)) = ∅;
  idle_keys : keys (key_registry (fa_plane s)) = [];
  idle_sessions : session_store (fa_plane s) = ∅;
  idle_decisions : decisions (fa_plane s) = ∅;
  idle_tokens : v_store (validator (enforcement (fa_plane s))) = ∅
}.

Lemma admins_named v : "" ∉ admins_of v.
Proof. unfold admins_of. rewrite elem_of_list_to_set, list_elem_of_filter. by intros [? _]. Qed.

Lemma gateway_main_ok environ root drawn signer opa_client host port admins cfg s :
  gateway_main environ root drawn signer opa_client = Ok (host, port, admins, cfg, s) →
  32 ≤ String.length (dta_key (authority cfg)) ∧ plane_policy_hash cfg = "" ∧
  "" ∉ admins ∧ replay_guard (fa_plane s) = None ∧ idle s.
Proof.
  unfold gateway_main, build_api. intros (port' & _ & Hm)%rbind_ok. apply rbind_ok in Hm as (key & Hk & Hm).
  apply rbind_ok in Hm as ([c a] & Hb & Hm). injection Hm as <- <- <- <- <-.
  apply rbind_ok in Hb as (_ & _ & Hb). apply rbind_ok in Hb as (auth & Ha & Hb).
  apply rbind_ok in Hb as (_ & _ & [= <- <-]). unfold new_authority in Ha. case_decide; [done|].
  injection Ha as <-. simpl. split_and!; [lia|done|apply admins_named|done|by split].
Qed.

(** What a request may do to an idle plane: nothing but containment and approvals. *)
Lemma idle_verify (s : facade) envelope now clock pin :
  idle s → is_ok (verify_request (key_registry (fa_plane s)) envelope now clock pin) = false.
Proof.
  intros Hi. destruct (verify_request _ _ _ _ _) as [r|] eqn:Hv; [|done].
  unfold verify_request in Hv. case_decide; [done|]. apply rbind_ok in Hv as (h & _ & Hv).
  case_decide; [done|]. destruct (match pin with Some _ => _ | None => _ end); [done|].
  destruct (b64decode_strict _); [|done]. apply rbind_ok in Hv as (k & Hk & _).
  unfold require_key in Hk. by rewrite (idle_keys _ Hi) in Hk.
Qed.

Lemma idle_session agent runtime ttl now clock uuid s :
  idle s → agent_create_session agent runtime ttl now clock uuid s = (err AGENT_UNKNOWN "agent not registered", s).
Proof.
  intros Hi. unfold agent_create_session, on_plane, czoom, create_session, cbind, cget, clift, require_agent.
  rewrite (idle_agents _ Hi), lookup_empty. by destruct s.
Qed.

Variables (cfg : PlaneConfig) (admins : AdminAuthorizer).

Lemma idle_evaluate envelope grant aud dest rows bytes now clock env dr s :
  idle s → ∃ x, agent_evaluate cfg envelope grant aud dest rows bytes now clock env dr s = (Err x, s).
Proof.
  intros Hi. unfold agent_evaluate, on_plane, czoom, plane_evaluate, cbind, cget, clift.
  pose proof (idle_verify s envelope (Some (or_now now clock)) clock (policy_pin cfg) Hi) as Hv.
  destruct (verify_request _ _ _ _ _) as [r|x]; [done|]. exists x. by destruct s.
Qed.

Lemma idle_approve who did now clock dr s :
  idle s → ∃ x, admin_approve cfg admins who did now clock dr s = (Err x, s).
Proof.
  intros Hi. destruct (decide (who ∈ admins)) as [Hin|Hout].
  - unfold admin_approve. rewrite as_admin_in by done. unfold on_plane, czoom, plane_approve, cbind, cget.
    rewrite (idle_decisions _ Hi), lookup_empty. eexists. unfold raise, cthrow. by destruct s.
  - unfold admin_approve. rewrite as_admin_out by done. by eexists.
Qed.

(** The routes that would need an agent, a decision or an approval. *)
Definition consequential (rt : route) : bool :=
  match rt with RSessions | REvaluate | REvaluateExecute | RDecision _ | RApproval _ => true | _ => false end.

(** Containment calls leave the rest of the plane alone. *)
Lemma idle_containment (s : facade) x :
  idle s → idle (mkFacade (set_containment x (fa_plane s)) (fa_contexts s)).
Proof. intros [? ? ? ? ?]. by split. Qed.
Lemma idle_on_containment {A} who (m : M ContainmentEngine A) (k : A → json) s :
  idle s →
  idle (as_admin admins who (on_plane (cbind (on_containment m) (λ a, cret (k a)))) s).2.
Proof.
  intros Hi. destruct (decide (who ∈ admins)) as [Hin|Hout]; [|by rewrite as_admin_out].
  rewrite as_admin_in by done. unfold on_plane, on_containment, czoom, cbind, cret.
  destruct (m (containment (fa_plane s))) as [[a|x] e]; by apply idle_containment.
Qed.

(** A request to an idle gateway leaves it idle, and is refused on a consequential route. *)
Lemma dispatch_idle method path b headers d call s :
  idle s → dispatch cfg admins method path b headers d = Known (Ok call) →
  idle (call s).2 ∧
  (consequential (route_of method (unquote (before_query path))) = true → ∃ e, (call s).1 = Err e).
Proof.
  intros Hi Hd. unfold dispatch in Hd.
  destruct (route_of _ _) as [| | | | |id|sb|id|sb|sb|] eqn:Hrt; cbn beta iota in Hd; cbn [consequential];
    repeat match goal with
    | Hd : dbind _ _ = Known (Ok _) |- _ => apply dbind_ok in Hd as (? & ? & Hd)
    | Hd : dret _ = Known (Ok _) |- _ => apply dret_ok in Hd as <-
    end; try done.
  - unfold cbind. rewrite idle_session by done. split; [done|by eexists].
  - unfold cbind. edestruct idle_evaluate as [e E1]; [done|rewrite E1]. split; [done|by eexists].
  - unfold cbind, cget, clift, agent_get_decision, get_decision. rewrite (idle_decisions _ Hi), lookup_empty.
    split; [done|by eexists].
  - unfold cbind. edestruct idle_approve as [e E1]; [done|rewrite E1]. split; [done|by eexists].
  - split; [|done]. rewrite reply_of. by apply idle_on_containment.
  - split; [|done]. rewrite reply_of. by apply idle_on_containment.
Qed.

Lemma handle_idle int_max frames rq d s r s' :
  idle s → handle cfg admins int_max frames rq d s = Some (r, s') →
  idle s' ∧ (consequential (request_route rq) = true → (400 ≤ r.1)%Z).
Proof.
  intros Hi. unfold handle. set (bd := if bool_decide _ then _ else _). destruct bd as [b|x].
  2: { intros [= <- <-]. split; [done|]. intros. apply error_reply_status. }
  destruct (dispatch _ _ _ _ _ _ _) as [[call|x]|] eqn:Hd; [| |done].
  2: { intros [= <- <-]. split; [done|]. intros. apply error_reply_status. }
  destruct (dispatch_idle _ _ _ _ _ _ _ Hi Hd) as [Hs He].
  intros Hc. destruct (call s) as [[r0|x] s1]; injection Hc as <- <-; (split; [exact Hs|]).
  - intros Hq. by destruct (He Hq).
  - intros. apply error_reply_status.
Qed.

(** C22. A gateway fails closed from its start.  It starts only with a MAC key of at least
    32 bytes, and with no administrator of the empty name.  Whatever requests it then
    serves, no agent, key, session, decision or token ever comes to be, and every request
    for a session, an evaluation, an execution, a decision or an approval is answered by
    an error; containment moves only if some request bears an administrator's name. *)
Theorem gateway_fails_closed environ root drawn signer opa_client host port s rqs rs s' int_max frames :
  gateway_main environ root drawn signer opa_client = Ok (host, port, admins, cfg, s) →
  serve cfg admins int_max frames rqs s = Some (rs, s') →
  32 ≤ String.length (dta_key (authority cfg)) ∧ "" ∉ admins ∧ idle s' ∧
  Forall2 (λ (rqd : http_request * http_draws E) (r : reply),
    consequential (request_route rqd.1) = true → (400 ≤ r.1)%Z) rqs rs ∧
  ((∀ rqd, rqd ∈ rqs → request_principal rqd.1 ∉ admins) →
     containment (fa_plane s') = containment (fa_plane s)).
Proof.
  intros (Hk & _ & Hn & _ & Hi)%gateway_main_ok Hs. split; [done|]. split; [done|]. clear Hk Hn.
  revert s rs Hi Hs. induction rqs as [|[rq d] rqs IH]; intros s rs Hi; cbn [serve].
  { intros [= <- <-]. by split_and!. }
  destruct (handle cfg admins int_max frames rq d s) as [[r s1]|] eqn:Hh; [|done]. simpl.
  destruct (serve cfg admins int_max frames rqs s1) as [[rs1 s2]|] eqn:Hs; [|done]. intros [= <- <-].
  destruct (handle_idle _ _ _ _ _ _ _ Hi Hh) as [Hi1 Hr]. destruct (IH _ _ Hi1 Hs) as (Hi2 & Hf & Hc).
  split; [done|]. split; [by constructor|]. intros Hw.
  rewrite Hc by (intros; apply Hw; by right). apply handle_amounts_to in Hh as (ops & -> & Ho & _).
  apply unprivileged_run. destruct Ho as [->|(o & -> & Hro)]; [constructor|]. constructor; [|constructor].
  eapply routed_unprivileged; [exact Hro|]. apply (Hw (rq, d)). by left.
Qed.
End gateway.

(** * A gateway that has just started *)

Import Instances.
#[local] Existing Instances toy_provider iso_instance authz_engine strict_schema.
#[local] Existing Instances ascii_text one_envelope no_literals no_floats.

Example ex_admin_names :
  admins_of "root,,carol" = {["root"; "carol"]} ∧ admins_of "" = ∅ ∧ admins_of "root" = {["root"]}.
Proof. split_and!; vm_compute; reflexivity. Qed.

Definition ex_token_key : string := "0123456789abcdef0123456789abcdef".
Definition ex_environ : gmap string string :=
  {["CVZTTE_ADMINS" := "root,,carol"; "CVZTTE_TOKEN_KEY" := ex_token_key]}.
Definition ex_gateway (environ : gmap string string) :=
  gateway_main (G := InMemoryReplayGuard) (K := list ExecutionReceipt) (W := list string) [] [] environ "/repo"
    ex_token_key (λ _, Ok tt) (λ _, Ok "/usr/bin/opa").
(** A key of another length ends the process. *)
Example ex_short_key :
  match ex_gateway (<["CVZTTE_TOKEN_KEY" := "short"]> ex_environ) with
  | Err (PyExc cls _) => cls = "SystemExit" | _ => False end.
Proof. vm_compute. reflexivity. Qed.

Definition ex_started := Eval vm_compute in
  match ex_gateway ex_environ with
  | Ok (host, port, admins, cfg, s) => Some (host, port, admins, cfg, s)
  | Err _ => None
  end.
Definition ex_start_requests : list (http_request * http_draws unit) :=
  [(ex_session_rq, at_time 10 ex_draws);
   (ex_evaluate_rq ex_own_grant, at_time 20 ex_draws);
   (post "/v3/approvals/dec_d1" "carol" (JObj []), at_time 30 (mkDraws "t1" "q1" "n1"));
   (post "/v3/agents/s|1/quarantine" "" (JObj [("agent_id", JStr "agt_1")]), at_time 40 ex_draws);
   (post "/v3/agents/s|1/quarantine" "carol" (JObj [("agent_id", JStr "agt_1")]), at_time 50 ex_draws);
   (mkHttpRequest "GET" "/health/live" [] "", at_time 60 ex_draws)].
Definition ex_start_serve :=
  match ex_started with
  | Some (_, _, admins, cfg, s) => serve cfg admins 4300 900 ex_start_requests s
  | None => None
  end.
Lemma ex_start_replies :
  match ex_start_serve with
  | Some (rs, _) => (λ r : reply, (r.1, dget "error_code" r.2)) <$> rs
  | None => []
  end =
  [(404%Z, Some (JStr "AGENT_UNKNOWN")); (404%Z, Some (JStr "KEY_UNKNOWN"));
        (403%Z, Some (JStr "APPROVAL_REQUIRED")); (403%Z, Some (JStr "ENFORCEMENT_DENIED"));
        (200%Z, None); (200%Z, None)].
Proof. vm_compute. reflexivity. Qed.

(** C22 at the requests above: three are refused, and nothing has come to be. *)
Lemma gateway_fails_closed_witness :
  ∃ rs s', ex_start_serve = Some (rs, s') ∧ idle s' ∧ (rs.*1 = [404; 404; 403; 403; 200; 200])%Z.
Proof.
  pose proof ex_start_replies as Hx. unfold ex_start_serve in *.
  destruct ex_started as [[[[[host port] admins] cfg] s]|] eqn:Hb; [|discriminate Hx].
  destruct (serve cfg admins 4300 900 ex_start_requests s) as [[rs s']|] eqn:Hs; [|discriminate Hx].
  assert (Hstart : ex_gateway ex_environ = Ok (host, port, admins, cfg, s)).
  { unfold ex_started in Hb. injection Hb as <- <- <- <- <-. vm_compute. reflexivity. }
  unfold ex_gateway in Hstart.
  destruct (gateway_fails_closed (G := InMemoryReplayGuard) (E := unit) (K := list ExecutionReceipt) (W := list string)
              [] [] cfg admins ex_environ "/repo" ex_token_key (λ _, Ok tt) (λ _, Ok "/usr/bin/opa")
              host port s ex_start_requests rs s' 4300 900 Hstart Hs) as (_ & _ & Hi & _).
  exists rs, s'. split; [reflexivity|]. split; [exact Hi|].
  apply (f_equal (fmap fst)) in Hx. rewrite <-list_fmap_compose in Hx. exact Hx.
Defined.
