(* ===== verification/EndToEnd.v ===== *)
(** From a signed request to its effect: the SDK, the control plane, the validator and a
    broker in one run ([evaluate_execute] of [cvztte/control_plane/plane.py] over
    [enforcement/common.py]). *)

From S2P Require Export PlaneProps.
From S2P Require Import PyIso Concrete.

(** * A granted request runs to its end *)

Section mediation.
Context `{Hashlib, Rfc8785} {V K : Type} `{DecisionValidator V, ReceiptSink K}.
Context {Req W : Type} (b : EnforcementBroker Req W).
Implicit Types s : enforcement_state V K W.

(** The receipt of an effect that ran. *)
Definition executed_receipt (a : AgentAction) (h : string) (d : AuthorizedDecision) (result : ExecutionResult)
    (now : Z) : ExecutionReceipt :=
  mkReceipt 1 (Some (d_decision_id d)) h (ActionType_value (action_type a)) (target a) (operation a)
    (audience b) (source b) "EXECUTED" None (result_hash result) (iso_ms now).

Lemma mediate_executed req binding now s a h d v' result w' k' :
  observe b req binding = Ok a → action_hash a = Ok h →
  authorize a h binding (audience b) now (validator s) = (Ok d, v') →
  assert_exact_match a h d = Ok tt → effect d = ALLOW →
  execute b a d req (world s) = (Ok result, w') →
  emit (executed_receipt a h d result now) (sink s) = (Ok tt, k') →
  mediate b req binding now s = (Ok (mkOutcome a d result (executed_receipt a h d result now)), mkES v' k' w').
Proof.
  intros Ho Hh Ha Hm He Hx Hk. unfold mediate. unfold cbind at 1, clift at 1. rewrite Ho.
  unfold cbind at 1, clift at 1. rewrite Hh.
  unfold cbind at 1, ccatch at 1, zoom_validator, czoom at 1. rewrite Ha.
  unfold cbind at 1, clift at 1. rewrite Hm, He. rewrite decide_False by (by intros []).
  unfold cbind at 1, ccatch at 1, zoom_world, czoom at 1. cbn [world validator sink]. rewrite Hx.
  unfold cbind at 1, emit_receipt. unfold cbind at 1, clift at 1. rewrite Hh.
  unfold cbind at 1, zoom_sink, czoom. cbn [world validator sink fmap option_fmap option_map].
  fold (executed_receipt a h d result now). by rewrite Hk.
Qed.
End mediation.

Section honest.
Context `{Hashlib, Rfc8785, Pydantic, SignatureProvider, IsoParser, OPA, PolicySchema}.
Context {G E K W : Type} `{ReplayGuardProtocol G E} `{ReceiptSink K}.
Variable cfg : PlaneConfig.
Abbreviation plane := (ControlPlane (G := G) (K := K) (W := W)).

(** What an honest run meets: the history [ops] of the key registry, the arguments of
    the signing, of the evaluation at [now] in the plane [s], and what the freshness
    guard, the policy and the authority make of them. *)
Record honest_run ops (s s1 : plane) agent runtime session dlg policy action ttl built clock0 nonce uuid sq
    envelope sq' grant aud dest rows bytes now clock env dr dec cs signed : Prop := {
  hr_registry : key_registry s = run key_step new_key_registry ops;
  hr_built : datetime_ok built = true;
  hr_signed : build_and_sign (key_registry s) agent runtime session dlg policy action ttl (Some built) clock0
    nonce uuid sq = (Ok envelope, sq');
  hr_arrival : (built - CLOCK_SKEW ≤ now < built + seconds ttl)%Z;
  hr_key : ∀ k, lookup_key (key_registry s) (r_key_id (request envelope)) = Some k → within_window k now = true;
  hr_policy : plane_policy_hash cfg = "" ∨ plane_policy_hash cfg = policy;
  hr_fresh : commit_freshness env (request envelope) s = (Ok (), s1);
  hr_session : is_ok (session_validate (session_store s) session agent runtime (Some now) clock) = true;
  hr_containment : cs = engine_state (containment s) (containment_subject (binding_of (request envelope)));
  hr_open : blocks_new_consequential_tokens cs = false;
  hr_allowed : opa_authorize (build_authz_input action grant dest rows bytes) = Ok dec;
  hr_routine : needs_approval cfg dec = false;
  hr_minted : minted cfg ("dec_" +:+ pd_decision dr) action (binding_of (request envelope)) aud policy
    (risk_level dec) cs evaluation_checks now clock (pd_token dr) s signed;
  hr_mac_key : v_key (validator (enforcement s)) = dta_key (authority cfg);
  hr_nonce : v_uses (validator (enforcement s)) !! dr_nonce (pd_token dr) = None
}.

(** C13. An honest action is executed, once.  Suppose a request is signed by the SDK for the
    action that a broker observes, and meets every gate of an honest run; that the effect
    succeeds on the world as it is, and that the sink accepts the receipt of it.  Then
    evaluating and executing it, before the token expires, returns the ALLOW and the
    outcome of that very effect; the world and the sink are those after the effect and its
    receipt, and nothing else executed.  Handing the broker the same request again, at any
    time, fails and leaves the world as it is. *)
Theorem honest_action_executed {Req} (broker : EnforcementBroker Req W) rq ops (s s1 : plane) agent runtime session
    dlg policy action ttl built clock0 nonce uuid sq envelope sq' grant dest rows bytes now clock env dr dec cs
    signed t result w' k' :
  provider_correct → inverts_isoformat →
  honest_run ops s s1 agent runtime session dlg policy action ttl built clock0 nonce uuid sq envelope sq' grant
    (audience broker) dest rows bytes now clock env dr dec cs signed →
  (now ≤ t < now + seconds (default_ttl (authority cfg)))%Z →
  observe broker rq (binding_of (request envelope)) = Ok action →
  execute broker action (decision_of (token signed)) rq (world (enforcement s)) = (Ok result, w') →
  let rc := executed_receipt broker action (r_action_hash (request envelope)) (decision_of (token signed)) result t in
  emit rc (sink (enforcement s)) = (Ok tt, k') →
  ∃ res o s', evaluate_execute cfg envelope grant broker rq dest rows bytes (Some now) clock env dr t s =
      (Ok (mkExecuteOutcome res (Some o)), s') ∧
    status res = DS_ALLOW ∧ mo_result o = result ∧ mo_receipt o = rc ∧
    world (enforcement s') = w' ∧ sink (enforcement s') = k' ∧
    ∀ t', is_ok (mediate broker rq (binding_of (request envelope)) t' (shared_epochs s')).1 = false ∧
      world (mediate broker rq (binding_of (request envelope)) t' (shared_epochs s')).2 = w'.
Proof.
  intros Hp Hiso [] Ht Ho Hx rc Hk.
  destruct (honest_request_allowed cfg ops s s1 agent runtime session dlg policy action ttl built clock0 nonce uuid
    sq envelope sq' grant (audience broker) dest rows bytes now clock env dr dec cs signed)
    as (s2 & He & Hes & Hh & Hth & Haz); try eassumption.
  pose proof (Haz t Ht) as Hat.
  set (b := binding_of (request envelope)) in *. set (v := validator (shared_epochs s2)) in *.
  assert (Hauth : token_authorize action (r_action_hash (request envelope)) b (audience broker) t v
    = (Ok (decision_of (token signed)), use_recorded signed v)) by (apply authorize_ok; eauto).
  pose proof hr_minted0 as Hm. apply issue_ok in Hm
    as (_ & _ & _ & _ & _ & _ & _ & _ & _ & _ & _ & _ & _ & Hdec & Huses & Hnonce & _).
  assert (Hmed : mediate broker rq b t (shared_epochs s2) = (Ok (mkOutcome action (decision_of (token signed)) result rc),
    mkES (use_recorded signed v) k' w')).
  { eapply mediate_executed; try eassumption.
    - by eapply authorize_exact.
    - unfold decision_of, effect. by rewrite Hdec.
    - cbn [shared_epochs world]. by rewrite Hes.
    - cbn [shared_epochs sink]. by rewrite Hes. }
  eexists _, _, (set_enforcement (mkES (use_recorded signed v) k' w') s2). split.
  { unfold evaluate_execute, cbind at 1. rewrite He. simpl. fold b. unfold cbind, on_enforcement. by rewrite Hmed. }
  do 5 (split; [done|]). intros t'.
  set (s3 := shared_epochs _). destruct (mediate broker rq b t' s3) as [r es] eqn:Hm2. simpl.
  destruct (mediate_cases _ _ _ _ _ _ _ Hm2) as [[Hr Hw]|(a & d & v' & [Ho2 (h & Hh2 & Ha2 & _) _] & _)].
  { split; [exact Hr|exact Hw]. }
  exfalso. rewrite Ho in Ho2. injection Ho2 as <-. rewrite Hh in Hh2. injection Hh2 as <-.
  apply authorize_ok in Ha2 as (signed' & Ha2 & _).
  pose proof (az_presented _ _ _ _ _ _ _ Hat) as Hsg. pose proof (az_presented _ _ _ _ _ _ _ Ha2) as Hsg'.
  change (v_store (validator s3)) with (v_store v) in Hsg'. rewrite Hsg in Hsg'. injection Hsg' as <-.
  pose proof (az_uses _ _ _ _ _ _ _ Ha2) as Hu. cbn [s3 shared_epochs validator set_enforcement enforcement
    use_recorded set_epochs v_uses] in Hu.
  rewrite lookup_insert_eq in Hu. cbn [default] in Hu. unfold v in Hu. cbn [shared_epochs validator set_epochs v_uses] in Hu.
  rewrite Hes in Hu. simpl in Hu. rewrite Hnonce, hr_nonce0, Huses in Hu. simpl in Hu. lia.
Qed.
End honest.

(** * An agent reads a file *)

Import Instances.
#[local] Existing Instances toy_provider iso_instance authz_engine strict_schema.

Definition ex_read := execute ex_broker ex_action (decision_of (token ex_minted)) "/data/report.txt"
  (world (enforcement ex_ready)).
Lemma ex_honest_run :
  honest_run ex_cfg ex_key_ops ex_ready (commit_freshness () (request ex_request_env) ex_ready).2
    "agt_1" "rt_1" "ses_1" "dlg_1" "sha256:policy" ex_action 30 20 0 "00112233445566778899aabbccddeeff"
    "u1" ∅ ex_request_env ex_sequences ex_grant "file" None None None 25000000 0 () ex_pd
    (mkPolicyDecision true "ALLOW" 2 false true false false) NORMAL ex_minted.
Proof.
  constructor.
  - change (key_registry ex_ready) with ex_keys. symmetry. exact ex_keys_run.
  - vm_compute. reflexivity.
  - exact ex_build_ok.
  - vm_compute. split; congruence.
  - change (key_registry ex_ready) with ex_keys. intros k Hk. vm_compute in Hk. injection Hk as <-. vm_compute. reflexivity.
  - right. reflexivity.
  - vm_compute. reflexivity.
  - vm_compute. reflexivity.
  - vm_compute. reflexivity.
  - reflexivity.
  - vm_compute. reflexivity.
  - vm_compute. reflexivity.
  - vm_compute. reflexivity.
  - vm_compute. reflexivity.
  - vm_compute. reflexivity.
Qed.

(** C13 at the file read of the example. *)
Lemma honest_action_executed_witness :
  ∃ res o s', evaluate_execute ex_cfg ex_request_env ex_grant ex_broker "/data/report.txt" None None None
      (Some 25000000%Z) 0 () ex_pd 26000000 ex_ready = (Ok (mkExecuteOutcome res (Some o)), s') ∧
    world (enforcement s') = ["/data/report.txt"] ∧ length (sink (enforcement s')) = 1 ∧
    (mediate ex_broker "/data/report.txt" (binding_of (request ex_request_env)) 26000001 (shared_epochs s')).1
      ≠ Ok o.
Proof.
  assert (Hx : ∃ result, ex_read = (Ok result, ["/data/report.txt"])) by (eexists; vm_compute; reflexivity).
  destruct Hx as [result Hx].
  destruct (honest_action_executed ex_cfg ex_broker "/data/report.txt" ex_key_ops ex_ready
    (commit_freshness () (request ex_request_env) ex_ready).2
    "agt_1" "rt_1" "ses_1" "dlg_1" "sha256:policy" ex_action 30 20 0 "00112233445566778899aabbccddeeff"
    "u1" ∅ ex_request_env ex_sequences ex_grant None None None 25000000 0 () ex_pd
    (mkPolicyDecision true "ALLOW" 2 false true false false) NORMAL ex_minted 26000000 result ["/data/report.txt"]
    [executed_receipt ex_broker ex_action (r_action_hash (request ex_request_env))
       (decision_of (token ex_minted)) result 26000000]
    toy_provider_correct iso_instance_ok ex_honest_run) as (res & o & s' & He & _ & _ & _ & Hw & Hk & Hagain).
  - vm_compute. split; congruence.
  - vm_compute. reflexivity.
  - exact Hx.
  - reflexivity.
  - exists res, o, s'. split; [exact He|]. split; [exact Hw|]. split; [by rewrite Hk|].
    destruct (Hagain 26000001%Z) as [Hr _]. intros E. rewrite E in Hr. discriminate Hr.
Defined.
